(* ===== verification/_CoqProject ===== *)
-Q . S2P
Prelude.v
Regs.v
Mmio.v
PspinDev.v
PspinFile.v
PspinDma.v
PspinProbe.v
Loader.v
LoaderMem.v
LoadImage.v
MatchEngine.v
Slmp.v
Packets.v
SlmpHandlers.v
PingHandlers.v
LazyList.v
DataHandlers.v
Runtime.v
HostInit.v
MqnicRes.v
MqnicQueue.v
MqnicRx.v
MqnicTx.v
MqnicTxSys.v
MqnicSched.v
MqnicLedger.v
MqnicNetdev.v
MqnicPort.v
MqnicLife.v
MqnicEthtool.v
MqnicIf.v
MqnicModule.v
MqnicPtp.v
MqnicDevice.v
MqnicCdev.v
BitFile.v
FlashSpi.v
