(* ===== verification/Prelude.v ===== *)
(** * FPsPIN: a verification development

    FPsPIN runs packet handlers on the cores (HPUs) of a PsPIN cluster inside
    an FPGA NIC built on Corundum (mqnic). A packet that enters the NIC passes
    the matching engine; packets that match a ruleset go to the handlers of
    a context, the others to the host through the rings of the NIC driver.
    The handlers exchange data with a host process through pages of host
    memory. The programs modelled here are

    - the kernel module of the PsPIN block
      (src/fpga/app/pspin/modules/mqnic_app_pspin: main.c, regs-gen.h):
      registers in sysfs, two character devices, the host memory areas;
    - the host library (src/lib/fpspin: loader.c, runtime.c, slmp.c, fpspin.h),
      which loads handler images through that module, talks to the handlers
      and sends SLMP messages;
    - the handler side (packets.h, spin_host.h, the SLMP handlers, the ICMP
      and UDP ping handlers, the reorder buffer handlers and the handlers that
      reduce, count, aggregate and filter, of src/fpga/app/pspin/deps/pspin);
    - the NIC driver (src/modules/mqnic: mqnic_res.c, mqnic_reg_block.c,
      mqnic_eq.c, mqnic_cq.c, mqnic_rx.c, mqnic_tx.c, mqnic_scheduler.c,
      mqnic_sched_block.c, mqnic_port.c, mqnic_netdev.c, mqnic_if.c,
      mqnic_ethtool.c, mqnic_ptp.c, mqnic_main.c, mqnic_irq.c,
      mqnic_clk_info.c, mqnic_stats.c, mqnic_dev.c);
    - of the utilities (src/utils), the reader of FPGA bit files (bitfile.c) and
      the driver of the SPI configuration flash (flash_spi.c, flash.c).

    ** Files

    - [Prelude]: machine integers ([u8] .. [u64], [s32], [s64] write the
      wrap-around out), little-endian bytes, the state and error monad [M],
      shared lemmas, tactics and hint databases.
    - [Regs]: regs-gen.h. The 32 attribute groups as data, [REG_ADDR],
      [init_pspin_sysfs] with its error returns, [remove_pspin_sysfs].
    - [Mmio]: the interface to the device. [Mmio] has the two accesses
      ([ioread32], [iowrite32]); [MmioRam] is the law of a stretch that
      behaves as memory; [memory] and [logged] are instances. Every operation
      of the drivers is written against the class.
    - [PspinDev], [PspinFile], [PspinDma], [PspinProbe]: main.c of the kernel
      module. The state [mqnic_app_pspin] with the check functions and
      register access; open, read, write, llseek; ioctl, mmap and the vma
      callbacks; probe and remove.
    - [Loader], [LoaderMem], [LoadImage]: loader.c and the rules of fpspin.h.
      Register writes go through the [sysfs] tree and [pspin_reg_store], memory
      writes through [pspin_llseek] and [pspin_write] of the driver model;
      [LoadImage] has the theorem about [fpspin_load] as a whole.
    - [MatchEngine]: the decision of rtl/pspin_pkt_match.v over the registers
      the loader writes, and the abstract specification [classify].
    - [Slmp]: slmp.c. [Packets]: packets.h. [SlmpHandlers]: slmp.c of the
      handlers, and the delivery theorem from sender to host memory.
      [PingHandlers]: icmp_ping.c and udp_ping.c, with and without a host
      process. [LazyList]: lazylist.h and ooorb_handlers.c, the reorder buffer.
      [DataHandlers]: reduce_l1.c, histogram_l1.c, aggregate_global.c and
      filtering.c, as atomic additions of several HPUs in any interleaving.
    - [Runtime]: requests, responses and counters of runtime.c and the
      handlers' side in spin_host.h, as a transition system of 16 HPUs and
      the host. [HostInit]: [fpspin_init] and [fpspin_exit], composed from the
      driver, the loader and the process's system calls.
    - [MqnicRes]: queue numbers and the list of register blocks.
      [MqnicQueue]: event and completion queues. [MqnicRx]: receive rings.
      [MqnicTx], [MqnicTxSys]: transmit rings, and the transition system of
      stack, device and driver. [MqnicPtp]: the PTP clock over the register
      file of rtl/mqnic_ptp_clock.v.
    - [MqnicSched]: schedulers, scheduler blocks and ports. [MqnicNetdev]:
      the network device, with the queues that start and stop with its port.
      [MqnicLedger]: who holds which number, buffer, page and mapping, as a
      commutative algebra of ledgers. [MqnicPort]: the invariant of a port
      and that every step of starting and stopping keeps it. [MqnicLife]: a
      network device under any sequence of events. [MqnicEthtool]: ring sizes,
      channels and indirection table of mqnic_ethtool.c, and the life of a
      device that is reconfigured while it is used. [MqnicIf]: mqnic_if.c,
      creation in stages and destruction of an interface, and the life of an
      interface with its network device. [MqnicModule]: the transceiver EEPROM
      of mqnic_ethtool.c, over a module that answers with short transfers.
    - [MqnicDevice]: the device as a whole, mqnic_main.c (over PCI) with
      mqnic_irq.c, mqnic_clk_info.c and mqnic_stats.c: probe composes
      [MqnicRes], [MqnicPtp] and [MqnicIf]. [MqnicCdev]: mmap and ioctls of
      mqnic_dev.c.
    - [BitFile]: utils/bitfile.c. [FlashSpi]: utils/flash_spi.c and flash.c, down
      to the writes of the register; the class [SpiPort] is the contract of a
      chip behind it.

    A C structure is a [Record] with the fields the code uses, an operation a
    function on it named as in the source; [None] stands for behaviour C or
    the kernel does not define (an index out of an array, a page freed twice),
    so that a theorem that gives [Some] also excludes it. Return codes are the
    negative errno values of the code. Integers are [Z] with the width of
    the variable written at the operations that can wrap.

    ** What the theorems show

    - Registers and driver: the register map has no two registers at one
      address; configuration registers can be written only in configuration
      mode; reads and writes of the memory device stay inside the BAR and read
      back what was written; ioctl round trips and bounds; every host memory
      area is freed exactly once, with its last mapping, over all sequences of
      mmap, fork and unmap; a failed probe leaves nothing behind.
    - Loader and matching engine: [fpspin_load] puts the sections of the image
      into the memories byte for byte and the description of the image into
      the registers of the context, changes nothing else, and is accepted
      exactly for the host memory the driver has registered; [fpspin_prog_me] writes exactly the rules, and the hardware then
      classifies packets as the rulesets say (refinement of [classify]); what
      the SLMP and port rules mean on packet bytes.
    - Host process: [fpspin_init] succeeds when the kernel grants it everything
      and the image fits; every outcome of it and what it leaves open or mapped; [fpspin_exit] restores the process and the driver's areas.
    - Requests: in every interleaving of HPUs and host each request is popped
      once and each response is received once, in order, and a waiting HPU is
      served within three turns from any reachable state.
    - SLMP: what [slmp_sendmsg] sends, that it succeeds with a receiver that
      acknowledges, that a zero window never reports success; a message
      handled in any interleaving of its segments lies in the host buffer
      byte for byte; acknowledgement frames and IP checksums are valid.
    - Ping: the ICMP handler's checksum equals the reference checksum; both
      handlers send the packet back turned round with checksums that are
      right, or exactly what the host made of it.
    - Reorder buffer: the list of ranges is the union of what was inserted,
      whatever the order, and a stream of packets that arrive in any order
      is delivered in order and once.
    - Data handlers: the sums in the scratchpad do not depend on how the
      handlers interleave, and every run ends.
    - NIC driver: the allocator of queue numbers; the walk over register
      blocks ends on every device; events are handled once and in order; the
      receive and transmit rings keep their ownership invariants for any
      device contents and any answer of the allocators, deliver in order,
      and give back every page, mapping, packet and number when they are
      closed; a packet is mapped whole or not at all; packet timestamps, clock
      steps and clock rate.
    - The NIC driver as a whole: a network device that is opened, closed,
      resized, reconfigured and used in any order of events never follows a freed object
      and holds nothing when it is down, and starting a port is all or
      nothing; an interface is created completely or not at all, is fit
      for that life, and gives everything back when it is destroyed; the
      EEPROM of a module is read exactly, across pages; probe and remove of
      the device are balanced at every point of failure; a process maps the
      BARs and nothing else. The
      hypotheses say where the code does not: the buffers of completion queues
      and the allocators of queue numbers must be granted (theorems show
      what happens otherwise).
    - Utilities: the reader of bit files finds the fields and the data; what is
      written to the flash, over any number of pages, is read back, and nothing
      outside the erased area changes.

    ** Loops and fuel

    Structural recursion is used where the source loops over an array. Where
    it does not, the bound is part of the definition and a theorem shows that
    it is enough: the walk over register blocks takes at most one turn per
    distinct block (loops in the list are detected); the event, receive and
    transmit loops consume at most one ring of entries, and a turn more to
    see the phase bit or the empty slot; the stages of [mqnic_create_interface]
    repeat as often as the registers say; the search for a free device number
    takes at most one turn per device and one more; a search in the lazy list
    takes at most one turn per node, and its other loops end in their first
    turn when operations run one at a time; the reader of bit files advances
    with each turn; writing the flash takes at most a turn per byte, erasing one
    per subsector, and a wait one poll more than the chip needs;
    [section_loop] takes a turn per 4096
    bytes and the empty last one. Loops around system calls ([write_loop],
    the SLMP waits) recurse on the list of the kernel's answers; the theorems
    that say they return state how many answers are enough, and the lengths
    for which [fpspin_write_memory] does not end are proved to be so.

    ** Assumptions

    Operations are atomic at the granularity of a call (or of the steps of the
    transition systems): locks are not modelled, the drivers hold them. What
    the kernel decides (allocation, copies to user space, signals, interrupt
    numbers) and what the toolchain prints (objcopy, nm, readelf) are
    arguments; the theorems hold for all of them unless a hypothesis says
    otherwise. 64-bit flags are read and written as a unit. The PTP clock
    stands still during one sequence of register accesses. The operations on
    a lazy list run one at a time.

    ** Not modelled

    - mqnic_board.c and mqnic_i2c.c (tables of boards, calls into the I2C
      layer), the platform bus variant of the probe (device tree), the getters
      of mqnic_ethtool.c that copy fields: calls that register with the
      kernel's device model, and tables.
    - datatypes.c (the handlers are calls of a third-party MPI datatype
      engine), slp_l1.c and the copy handlers (one DMA command each).
    - hpu.c (assembly and control registers), hexdump and the floating-point
      average of runtime.c, the AXI stream machinery around the matching
      decision.
    - lib/mqnic, the other utilities, the dma_bench and template applications, the PULP SDK,
      the Verilator model and the transceiver tables: vendored, generated or
      independent of the PsPIN path. *)

From Stdlib Require Export ZArith Lia.
From stdpp Require Export prelude strings numbers gmap list.

(** ** Automation *)

Create HintDb words.
Create Rewrite HintDb words.
Create HintDb fpspin.

Declare Scope fpspin_scope.
Delimit Scope fpspin_scope with fp.

#[global] Open Scope Z_scope.

(** Case analysis on the first [match]/[if] scrutinee of the goal or of a
    hypothesis, keeping the equation. *)
Ltac case_match_eqn :=
  match goal with
  | H : context [ match ?x with _ => _ end ] |- _ => destruct x eqn:?
  | |- context [ match ?x with _ => _ end ] => destruct x eqn:?
  end.

(** Turn boolean comparisons on [Z] into propositions. *)
Ltac bool_to_prop :=
  repeat match goal with
  | H : _ && _ = true |- _ => apply andb_true_iff in H as [? ?]
  | H : _ || _ = false |- _ => apply orb_false_iff in H as [? ?]
  | H : negb _ = true |- _ => apply negb_true_iff in H
  | H : negb _ = false |- _ => apply negb_false_iff in H
  | H : (_ =? _) = true |- _ => apply Z.eqb_eq in H
  | H : (_ =? _) = false |- _ => apply Z.eqb_neq in H
  | H : (_ <? _) = true |- _ => apply Z.ltb_lt in H
  | H : (_ <? _) = false |- _ => apply Z.ltb_ge in H
  | H : (_ <=? _) = true |- _ => apply Z.leb_le in H
  | H : (_ <=? _) = false |- _ => apply Z.leb_gt in H
  | H : (_ >? _) = true |- _ => rewrite Z.gtb_ltb in H; apply Z.ltb_lt in H
  | H : (_ >? _) = false |- _ => rewrite Z.gtb_ltb in H; apply Z.ltb_ge in H
  | H : (_ >=? _) = true |- _ => rewrite Z.geb_leb in H; apply Z.leb_le in H
  | H : (_ >=? _) = false |- _ => rewrite Z.geb_leb in H; apply Z.leb_gt in H
  end.

(** ** Fixed-width integers

    A C integer is a [Z]; the wrap-around of its type is written out where
    the source converts or computes at that type. *)

Definition uwrap (w z : Z) : Z := z mod 2 ^ w.
Definition swrap (w z : Z) : Z := (z + 2 ^ (w - 1)) mod 2 ^ w - 2 ^ (w - 1).

Definition u8 (z : Z) : Z := z mod 2 ^ 8.
Definition u16 (z : Z) : Z := z mod 2 ^ 16.
Definition u32 (z : Z) : Z := z mod 2 ^ 32.
Definition u64 (z : Z) : Z := z mod 2 ^ 64.
Definition s32 (z : Z) : Z := swrap 32 z.
Definition s64 (z : Z) : Z := swrap 64 z.

Lemma u8_range z : 0 <= u8 z < 256.
Proof. unfold u8. apply Z.mod_pos_bound. lia. Qed.
Lemma u16_range z : 0 <= u16 z < 2 ^ 16.
Proof. unfold u16. apply Z.mod_pos_bound. lia. Qed.
Lemma u32_range z : 0 <= u32 z < 2 ^ 32.
Proof. unfold u32. apply Z.mod_pos_bound. lia. Qed.
Lemma u64_range z : 0 <= u64 z < 2 ^ 64.
Proof. unfold u64. apply Z.mod_pos_bound. lia. Qed.

Lemma u8_id z : 0 <= z < 256 -> u8 z = z.
Proof. intros. apply Z.mod_small. lia. Qed.
Lemma u16_id z : 0 <= z < 2 ^ 16 -> u16 z = z.
Proof. intros. apply Z.mod_small. lia. Qed.
Lemma u32_id z : 0 <= z < 2 ^ 32 -> u32 z = z.
Proof. intros. apply Z.mod_small. lia. Qed.
Lemma u64_id z : 0 <= z < 2 ^ 64 -> u64 z = z.
Proof. intros. apply Z.mod_small. lia. Qed.

Lemma swrap_id w z : 0 < w -> - 2 ^ (w - 1) <= z < 2 ^ (w - 1) -> swrap w z = z.
Proof.
  intros Hw Hz. unfold swrap.
  assert (2 ^ w = 2 * 2 ^ (w - 1)).
  { rewrite <- Z.pow_succ_r by lia. f_equal. lia. }
  rewrite Z.mod_small; lia.
Qed.

Lemma swrap_range w z : 0 < w -> - 2 ^ (w - 1) <= swrap w z < 2 ^ (w - 1).
Proof.
  intros Hw. unfold swrap.
  assert (2 ^ w = 2 * 2 ^ (w - 1)).
  { rewrite <- Z.pow_succ_r by lia. f_equal. lia. }
  pose proof (Z.mod_pos_bound (z + 2 ^ (w - 1)) (2 ^ w)).
  assert (0 < 2 ^ w) by (apply Z.pow_pos_nonneg; lia). lia.
Qed.

Lemma s32_id z : - 2 ^ 31 <= z < 2 ^ 31 -> s32 z = z.
Proof. intros. apply (swrap_id 32); lia. Qed.
Lemma s64_id z : - 2 ^ 63 <= z < 2 ^ 63 -> s64 z = z.
Proof. intros. apply (swrap_id 64); lia. Qed.
Lemma s32_range z : - 2 ^ 31 <= s32 z < 2 ^ 31.
Proof. apply (swrap_range 32). lia. Qed.
Lemma s64_range z : - 2 ^ 63 <= s64 z < 2 ^ 63.
Proof. apply (swrap_range 64). lia. Qed.

#[export] Hint Resolve u8_range u16_range u32_range u64_range s32_range s64_range : words.
#[export] Hint Rewrite u8_id u16_id u32_id u64_id s32_id s64_id using lia : words.

(** Evaluate the wraps whose argument is in range. *)
Ltac unwrap_words := autorewrite with words.

(** ** Little-endian byte strings

    Memory is a string of bytes ([Z] in [0, 256)); the hosts (x86-64) and the
    cluster cores (RISC-V) are little endian. *)

Definition is_byte (b : Z) : Prop := 0 <= b < 256.

Fixpoint le_split (n : nat) (z : Z) : list Z :=
  match n with
  | O => []
  | S n' => z mod 256 :: le_split n' (z / 256)
  end.

Fixpoint le_combine (l : list Z) : Z :=
  match l with
  | [] => 0
  | b :: l' => b + 256 * le_combine l'
  end.

Lemma length_le_split n z : length (le_split n z) = n.
Proof. revert z; induction n; simpl; auto. Qed.

Lemma le_split_bytes n z : Forall is_byte (le_split n z).
Proof.
  revert z; induction n; simpl; constructor; auto.
  apply Z.mod_pos_bound; lia.
Qed.

Lemma le_combine_split n z : le_combine (le_split n z) = z mod 2 ^ (8 * Z.of_nat n).
Proof.
  revert z; induction n as [|n IH]; intros z.
  - simpl. by rewrite Z.mod_1_r.
  - cbn [le_split le_combine]. rewrite IH.
    replace (8 * Z.of_nat (S n)) with (8 + 8 * Z.of_nat n) by lia.
    rewrite Z.pow_add_r by lia. change (2 ^ 8) with 256.
    rewrite Z.rem_mul_r by lia. done.
Qed.

Lemma le_combine_range l :
  Forall is_byte l -> 0 <= le_combine l < 2 ^ (8 * Z.of_nat (length l)).
Proof.
  induction 1 as [|b l Hb _ IH]; [simpl; lia|].
  cbn [le_combine length].
  replace (8 * Z.of_nat (S (length l))) with (8 + 8 * Z.of_nat (length l)) by lia.
  rewrite Z.pow_add_r by lia. unfold is_byte in Hb. nia.
Qed.

Lemma le_split_combine l : Forall is_byte l -> le_split (length l) (le_combine l) = l.
Proof.
  induction 1 as [|b l Hb Hl IH]; [done|].
  cbn [le_combine length le_split]. unfold is_byte in Hb.
  rewrite (Z.mul_comm 256), Z.mod_add, Z.div_add by lia.
  rewrite Z.mod_small, Z.div_small by lia. by rewrite Z.add_0_l, IH.
Qed.

Lemma le_combine_split_id n z :
  0 <= z < 2 ^ (8 * Z.of_nat n) -> le_combine (le_split n z) = z.
Proof. intros. rewrite le_combine_split. by apply Z.mod_small. Qed.

Lemma le_combine_byte l k b :
  Forall is_byte l -> l !! k = Some b -> (le_combine l / 256 ^ Z.of_nat k) mod 256 = b.
Proof.
  intros Hl; revert k; induction Hl as [|c l Hc _ IH]; intros k Hk; [done|].
  unfold is_byte in Hc. destruct k as [|k]; cbn [le_combine].
  - simplify_eq/=. rewrite Z.div_1_r, (Z.mul_comm 256), Z.mod_add, Z.mod_small by lia. done.
  - rewrite Nat2Z.inj_succ, Z.pow_succ_r, <- Z.div_div by lia.
    rewrite (Z.mul_comm 256), Z.div_add, (Z.div_small c 256) by lia. by apply IH.
Qed.

#[export] Hint Resolve le_split_bytes length_le_split : words.

(** Byte swaps: [htons], [htonl] and their inverses on a little-endian host. *)
Definition bswap16 (z : Z) : Z := le_combine (rev (le_split 2 z)).
Definition bswap32 (z : Z) : Z := le_combine (rev (le_split 4 z)).

Lemma le_split_bswap n z :
  le_split n (le_combine (rev (le_split n z))) = rev (le_split n z).
Proof.
  rewrite <- (length_le_split n z) at 1. rewrite <- length_rev.
  apply le_split_combine, Forall_rev, le_split_bytes.
Qed.

Lemma bswap16_involutive z : bswap16 (bswap16 z) = u16 z.
Proof. unfold bswap16. rewrite le_split_bswap, rev_involutive. apply (le_combine_split 2). Qed.
Lemma bswap32_involutive z : bswap32 (bswap32 z) = u32 z.
Proof. unfold bswap32. rewrite le_split_bswap, rev_involutive. apply (le_combine_split 4). Qed.

Lemma bswap16_range z : 0 <= bswap16 z < 2 ^ 16.
Proof. apply (le_combine_range (rev (le_split 2 z))), Forall_rev, le_split_bytes. Qed.
Lemma bswap32_range z : 0 <= bswap32 z < 2 ^ 32.
Proof. apply (le_combine_range (rev (le_split 4 z))), Forall_rev, le_split_bytes. Qed.

(** ** Lists *)

(** Remove one occurrence. *)
Fixpoint remove_one {A} `{EqDecision A} (x : A) (l : list A) : option (list A) :=
  match l with
  | [] => None
  | y :: l' => if decide (x = y) then Some l' else (y ::.) <$> remove_one x l'
  end.

Lemma remove_one_Some {A} `{EqDecision A} (x : A) l k : remove_one x l = Some k -> l ≡ₚ x :: k.
Proof.
  revert k; induction l as [|y l IH]; intros k H; simpl in H; [done|].
  case_decide; simplify_eq; [done|]. apply fmap_Some in H as (k' & Hk & ->).
  rewrite (IH k') by done. constructor.
Qed.

Lemma remove_one_elem {A} `{EqDecision A} (x : A) l : x ∈ l -> is_Some (remove_one x l).
Proof.
  induction 1; simpl; case_decide; try done; by apply fmap_is_Some || eauto.
Qed.

Lemma fmap_list_bind {A B C} (f : B -> C) (g : A -> list B) l :
  f <$> (l ≫= g) = l ≫= (fun x => f <$> g x).
Proof. induction l as [|x l IH]; [done|]. cbn [mbind list_bind]. by rewrite fmap_app, IH. Qed.

(** Induction two elements at a time. *)
Lemma list_two_ind {A} (P : list A -> Prop) :
  P [] -> (forall x, P [x]) -> (forall x y l, P l -> P (x :: y :: l)) -> forall l, P l.
Proof. intros H0 H1 H2. fix IH 1. intros [|x [|y l]]; [done | done |]. apply H2, IH. Qed.

(** A stretch of a list: [length] elements from [off]. *)
Definition sub_list {A} (off len : nat) (l : list A) : list A := take len (drop off l).

Lemma length_sub_list {A} off len (l : list A) :
  (off + len <= length l)%nat -> length (sub_list off len l) = len.
Proof. intros. unfold sub_list. rewrite length_take, length_drop. lia. Qed.

Lemma sub_list_app {A} off n m (l : list A) :
  sub_list off n l ++ sub_list (off + n) m l = sub_list off (n + m) l.
Proof.
  unfold sub_list.
  rewrite <- drop_drop, <- (take_drop n (take (n + m) (drop off l))).
  rewrite take_take, skipn_firstn_comm. do 2 f_equal; lia.
Qed.

(** Overwrite the bytes of [buf] from [off] on ([memcpy] into a buffer). *)
Definition write_bytes (off : nat) (bs buf : list Z) : list Z :=
  take off buf ++ bs ++ drop (off + length bs) buf.

Lemma length_write_bytes off bs buf :
  (off + length bs <= length buf)%nat -> length (write_bytes off bs buf) = length buf.
Proof.
  intros. unfold write_bytes. rewrite !length_app, length_take, length_drop. lia.
Qed.

Lemma sub_list_write_eq off bs buf :
  (off <= length buf)%nat -> sub_list off (length bs) (write_bytes off bs buf) = bs.
Proof.
  intros. unfold sub_list, write_bytes.
  rewrite drop_app_length' by (rewrite length_take; lia).
  by rewrite take_app_length.
Qed.

Lemma take_write_bytes off bs buf :
  (off <= length buf)%nat -> take (off + length bs) (write_bytes off bs buf) = take off buf ++ bs.
Proof.
  intros. unfold write_bytes. rewrite app_assoc.
  apply take_app_length'. rewrite length_app, length_take. lia.
Qed.

(** ** Decimal numbers

    [printf("%u")] and [printf("%d")], and [sscanf("%u")] as the kernel has
    it: skip white space, then read digits; without a digit nothing is
    assigned. *)

Definition digit_char (d : Z) : Ascii.ascii := Ascii.ascii_of_N (Z.to_N (48 + d)).

Fixpoint print_go (fuel : nat) (z : Z) (acc : string) : string :=
  match fuel with
  | O => acc
  | S fuel' =>
      let acc' := String (digit_char (z mod 10)) acc in
      if z / 10 =? 0 then acc' else print_go fuel' (z / 10) acc'
  end.

(** Twenty digits are enough for 64 bits. *)
Definition print_u (z : Z) : string := print_go 20 z EmptyString.
Definition print_d (z : Z) : string :=
  if z <? 0 then ("-" +:+ print_u (- z))%string else print_u z.

Definition digit_val (c : Ascii.ascii) : Z := Z.of_N (Ascii.N_of_ascii c) - 48.
Definition is_digit (c : Ascii.ascii) : bool := (0 <=? digit_val c) && (digit_val c <=? 9).
Definition is_space (c : Ascii.ascii) : bool :=
  let n := Z.of_N (Ascii.N_of_ascii c) in (n =? 32) || ((9 <=? n) && (n <=? 13)).

Fixpoint skip_spaces (s : string) : string :=
  match s with
  | String c s' => if is_space c then skip_spaces s' else s
  | EmptyString => s
  end.

Fixpoint scan_digits (s : string) (acc : Z) : Z :=
  match s with
  | String c s' => if is_digit c then scan_digits s' (10 * acc + digit_val c) else acc
  | EmptyString => acc
  end.

Definition scan_u32 (s : string) : option Z :=
  match skip_spaces s with
  | String c _ as s' => if is_digit c then Some (u32 (scan_digits s' 0)) else None
  | EmptyString => None
  end.

Lemma digit_val_char d : 0 <= d <= 9 -> digit_val (digit_char d) = d.
Proof.
  intros Hd. unfold digit_val, digit_char. rewrite Ascii.N_ascii_embedding by lia. lia.
Qed.

Lemma is_digit_char d : 0 <= d <= 9 -> is_digit (digit_char d) = true.
Proof. intros. unfold is_digit. rewrite digit_val_char by done. lia. Qed.

Lemma is_space_digit d : 0 <= d <= 9 -> is_space (digit_char d) = false.
Proof.
  intros Hd. unfold is_space.
  pose proof (digit_val_char d Hd) as H. unfold digit_val in H. lia.
Qed.

(** A printed number starts with a digit and scans back to its value. *)
Lemma print_go_shape fuel z acc :
  exists d s, print_go (S fuel) z acc = String (digit_char d) s /\ 0 <= d <= 9.
Proof.
  revert z acc; induction fuel as [|fuel IH]; intros z acc.
  - exists (z mod 10), acc. simpl. case_match; (split; [done|]); pose proof (Z.mod_pos_bound z 10); lia.
  - set (f := S fuel) in *. cbn [print_go]. destruct (z / 10 =? 0); [|apply IH].
    exists (z mod 10), acc. split; [done|]. pose proof (Z.mod_pos_bound z 10); lia.
Qed.

Lemma scan_print_go fuel z acc a :
  0 <= z < 10 ^ Z.of_nat fuel -> (0 < fuel)%nat ->
  exists k, scan_digits (print_go fuel z acc) a = scan_digits acc (a * 10 ^ k + z) /\ 0 < k.
Proof.
  revert z acc a; induction fuel as [|fuel IH]; intros z acc a Hz Hf; [lia|].
  cbn [print_go].
  pose proof (Z.mod_pos_bound z 10 ltac:(lia)) as Hm.
  pose proof (Z.div_mod z 10 ltac:(lia)) as Hdm.
  destruct (Z.eqb_spec (z / 10) 0) as [Hz0|Hz0].
  - exists 1. split; [|lia]. cbn [scan_digits]. rewrite is_digit_char, digit_val_char by lia.
    f_equal. lia.
  - assert (0 < z / 10) by (pose proof (Z.div_pos z 10); lia).
    replace (Z.of_nat (S fuel)) with (1 + Z.of_nat fuel) in Hz by lia.
    rewrite Z.pow_add_r in Hz by lia.
    destruct (IH (z / 10) (String (digit_char (z mod 10)) acc) a) as (k & Hk & Hk0).
    + split; [lia|]. apply Z.div_lt_upper_bound; lia.
    + destruct fuel; [simpl in Hz; lia | lia].
    + exists (k + 1). split; [|lia]. rewrite Hk. cbn [scan_digits].
      rewrite is_digit_char, digit_val_char by lia. f_equal.
      rewrite Z.pow_add_r by lia. lia.
Qed.

Lemma scan_print_u z : 0 <= z < 2 ^ 32 -> scan_u32 (print_u z) = Some z.
Proof.
  intros Hz. unfold scan_u32, print_u.
  destruct (print_go_shape 19 z EmptyString) as (d & s & Hs & Hd).
  destruct (scan_print_go 20 z EmptyString 0) as (k & Hk & _); [lia | lia |].
  rewrite Hs in *. cbn [skip_spaces]. rewrite is_space_digit, is_digit_char by done.
  rewrite Hk. cbn [scan_digits]. rewrite u32_id by lia. f_equal.
Qed.

(** ** Results and the state-error monad

    [res A] is the outcome of code that may stop: [Err] carries the C error
    value. A computation of [M S A] passes the state [S] along and keeps the
    state reached when it stops. *)

Inductive res (A : Type) : Type :=
| Ok (a : A)
| Err (e : Z).
Arguments Ok {A} a.
Arguments Err {A} e.

Definition M (S A : Type) : Type := S -> res A * S.

Definition sret {S A} (a : A) : M S A := fun s => (Ok a, s).
Definition serr {S A} (e : Z) : M S A := fun s => (Err e, s).
Definition sbind {S A B} (c : M S A) (k : A -> M S B) : M S B :=
  fun s => match c s with
           | (Ok a, s') => k a s'
           | (Err e, s') => (Err e, s')
           end.
Definition sget {S A} (f : S -> A) : M S A := fun s => (Ok (f s), s).
Definition smodify {S} (f : S -> S) : M S unit := fun s => (Ok tt, f s).

Notation "'let!' x := c 'in' k" := (sbind c (fun x => k))
  (at level 10, x pattern, c at level 100, k at level 200) : fpspin_scope.
Notation "c ;;; k" := (sbind c (fun _ => k))
  (at level 100, right associativity) : fpspin_scope.

(** Run the computations of a list in order. *)
Fixpoint sseq {S} (l : list (M S unit)) : M S unit :=
  match l with
  | [] => sret tt
  | c :: l' => sbind c (fun _ => sseq l')
  end.

Lemma sbind_ok {S A B} (c : M S A) (k : A -> M S B) s a s' :
  c s = (Ok a, s') -> sbind c k s = k a s'.
Proof. intros H. unfold sbind. by rewrite H. Qed.

Lemma sbind_err {S A B} (c : M S A) (k : A -> M S B) s e s' :
  c s = (Err e, s') -> sbind c k s = (Err e, s').
Proof. intros H. unfold sbind. by rewrite H. Qed.

Lemma sbind_assoc {S A B C} (c : M S A) (f : A -> M S B) (g : B -> M S C) s :
  sbind (sbind c f) g s = sbind c (fun a => sbind (f a) g) s.
Proof. unfold sbind. by destruct (c s) as [[]]. Qed.

(** Computations that cannot stop with an error. *)
Definition no_err {S} (c : M S unit) : Prop := forall s, exists s', c s = (Ok tt, s').

Lemma no_err_modify {S} (f : S -> S) : no_err (smodify f).
Proof. intros s. by exists (f s). Qed.

Lemma no_err_bind {S} (c : M S unit) k : no_err c -> (forall u, no_err (k u)) -> no_err (sbind c k).
Proof.
  intros Hc Hk s. destruct (Hc s) as [s1 H1]. destruct (Hk tt s1) as [s2 H2].
  exists s2. by rewrite (sbind_ok _ _ _ _ _ H1).
Qed.

(** Computations that agree on every state. *)
Definition meq {S A} : relation (M S A) := fun c1 c2 => forall s, c1 s = c2 s.
Infix "≡M" := meq (at level 70).

#[export] Instance meq_equivalence {S A} : Equivalence (@meq S A).
Proof. split; unfold meq; [done | by intros ???? | intros ??? H1 H2 s; by rewrite H1, H2]. Qed.

#[export] Instance sbind_proper {S A B} :
  Proper (meq ==> pointwise_relation A meq ==> meq) (@sbind S A B).
Proof.
  intros c1 c2 Hc k1 k2 Hk s. unfold sbind. rewrite Hc.
  destruct (c2 s) as [[a|e] s']; [apply Hk | done].
Qed.

Lemma sbind_assoc_meq {S A B C} (c : M S A) (f : A -> M S B) (g : B -> M S C) :
  sbind (sbind c f) g ≡M sbind c (fun a => sbind (f a) g).
Proof. intros s. apply sbind_assoc. Qed.

Lemma sbind_sret_r {S} (c : M S unit) : sbind c (fun _ => sret tt) ≡M c.
Proof. intros s. unfold sbind. by destruct (c s) as [[[]|]]. Qed.

Lemma sseq_app {S} (l1 l2 : list (M S unit)) s :
  sseq (l1 ++ l2) s = sbind (sseq l1) (fun _ => sseq l2) s.
Proof.
  revert s; induction l1 as [|c l1 IH]; intros s; [done|].
  simpl. rewrite sbind_assoc. unfold sbind at 1 2.
  by destruct (c s) as [[[]|]].
Qed.

Lemma sseq_app_meq {S} (l1 l2 : list (M S unit)) :
  sseq (l1 ++ l2) ≡M sbind (sseq l1) (fun _ => sseq l2).
Proof. intros s. apply sseq_app. Qed.

Lemma sseq_one {S} (c : M S unit) : c ≡M sseq [c].
Proof. symmetry. apply sbind_sret_r. Qed.

Lemma sseq_cons_intro {S} (c : M S unit) (k : unit -> M S unit) l :
  k tt ≡M sseq l -> sbind c k ≡M sseq (c :: l).
Proof. intros H s. simpl. unfold sbind. by destruct (c s) as [[[]|]]. Qed.

Lemma sseq_cat_intro {S} (c : M S unit) (k t : unit -> M S unit) l1 l2 :
  c ≡M sseq l1 -> k tt ≡M sbind (sseq l2) t -> sbind c k ≡M sbind (sseq (l1 ++ l2)) t.
Proof.
  intros Hc Hk. rewrite sseq_app_meq, sbind_assoc_meq, Hc.
  apply sbind_proper; [done|]. by intros [].
Qed.

(** A straight line of statements is the sequence of its statements. *)
Ltac as_sseq := repeat first [apply sseq_cons_intro | apply sseq_one].

(** ** Error numbers of Linux *)

Definition EPERM : Z := 1.
Definition EINTR : Z := 4.
Definition EIO : Z := 5.
Definition EAGAIN : Z := 11.
Definition ENOMEM : Z := 12.
Definition EFAULT : Z := 14.
Definition ENODEV : Z := 19.
Definition EINVAL : Z := 22.
Definition ENOTTY : Z := 25.
Definition ERESTARTSYS : Z := 512.

(** ** Reachability

    The reflexive transitive closure of a step relation, as the invariants of
    the state machines use it. *)

Inductive star {S} (step : S -> S -> Prop) : S -> S -> Prop :=
| star_refl s : star step s s
| star_step s1 s2 s3 : star step s1 s2 -> step s2 s3 -> star step s1 s3.

Lemma star_invariant {S} (step : S -> S -> Prop) (I : S -> Prop) :
  (forall s s', I s -> step s s' -> I s') ->
  forall s s', I s -> star step s s' -> I s'.
Proof. intros Hstep s s' HI. induction 1; eauto. Qed.
