(* ===== verification/Regs.v ===== *)
(** * The register map and its sysfs tree

    Model of [regs-gen.h] of the kernel module [mqnic_app_pspin]: the control
    registers of the PsPIN block, one [attribute_group] per register array,
    the construction of the sysfs tree ([init_pspin_sysfs]) with its error
    returns, and its removal ([remove_pspin_sysfs]). *)

From S2P Require Import Prelude.

Local Open Scope fpspin_scope.

(** ** Data *)

(** The check functions a register attribute can point to (declared at the
    top of [regs-gen.h], defined in [main.c]). *)
Inductive check_fn :=
| CHECK_CL_CTRL
| CHECK_ME_EN
| CHECK_HER_EN
| CHECK_ME_IN_CONF
| CHECK_HER_IN_CONF.

#[export] Instance check_fn_eq_dec : EqDecision check_fn.
Proof. solve_decision. Defined.

Definition UMATCH_ENTRIES : Z := 4.
Definition UMATCH_RULESETS : Z := 4.
Definition HER_NUM_HANDLER_CTX : Z := 4.

Definition mode_0644 : Z := 420.
Definition mode_0444 : Z := 292.

Record pspin_attribute := {
  attr_name : string;              (* attr.attr.name *)
  attr_mode : Z;                   (* attr.attr.mode *)
  attr_store : bool;               (* attr.store set to pspin_reg_store *)
  attr_idx : Z;                    (* index of register in block *)
  attr_offset : Z;                 (* offset of block *)
  attr_group_name : string;
  attr_check : option check_fn;    (* check_func, NULL is [None] *)
}.

#[export] Instance pspin_attribute_eq_dec : EqDecision pspin_attribute.
Proof. solve_decision. Defined.

(** [ag_attrs] is the NULL-terminated array of the kernel. *)
Record attribute_group := {
  ag_name : string;
  ag_attrs : list (option pspin_attribute);
}.

#[export] Instance attribute_group_eq_dec : EqDecision attribute_group.
Proof. solve_decision. Defined.

(** The body every generated block repeats: allocate [alloc] zeroed pointers,
    then fill in the first [n] attributes. *)
Definition mk_attr (name : string) (mode : Z) (store : bool) (offset : Z)
    (check : option check_fn) (i : nat) : pspin_attribute :=
  {| attr_name := print_d (Z.of_nat i); attr_mode := mode; attr_store := store;
     attr_idx := Z.of_nat i; attr_offset := offset; attr_group_name := name;
     attr_check := check |}.

Definition mk_group (name : string) (alloc n : nat) (mode : Z) (store : bool)
    (offset : Z) (check : option check_fn) : attribute_group :=
  {| ag_name := name;
     ag_attrs := foldl (fun attrs i => <[i := Some (mk_attr name mode store offset check i)]> attrs)
                       (replicate alloc None) (seq 0 n) |}.

(** ** The register blocks *)

Definition ag_cl_ctrl : attribute_group :=
  mk_group "ctrl" 3 2 mode_0644 true 0x0 (Some CHECK_CL_CTRL).

Definition ag_cl_fifo : attribute_group :=
  mk_group "fifo" 2 1 mode_0444 false 0x8 None.

Definition ag_stats_cluster : attribute_group :=
  mk_group "cluster" 3 2 mode_0444 false 0x1000 None.

Definition ag_stats_mpq : attribute_group :=
  mk_group "mpq" 2 1 mode_0444 false 0x1008 None.

Definition ag_stats_datapath : attribute_group :=
  mk_group "datapath" 3 2 mode_0444 false 0x100c None.

Definition ag_me_valid : attribute_group :=
  mk_group "valid" 2 1 mode_0644 true 0x2000 (Some CHECK_ME_EN).

Definition ag_me_mode : attribute_group :=
  mk_group "mode" 5 4 mode_0644 true 0x2004 (Some CHECK_ME_IN_CONF).

Definition ag_me_idx : attribute_group :=
  mk_group "idx" 17 16 mode_0644 true 0x2014 (Some CHECK_ME_IN_CONF).

Definition ag_me_mask : attribute_group :=
  mk_group "mask" 17 16 mode_0644 true 0x2054 (Some CHECK_ME_IN_CONF).

Definition ag_me_start : attribute_group :=
  mk_group "start" 17 16 mode_0644 true 0x2094 (Some CHECK_ME_IN_CONF).

Definition ag_me_end : attribute_group :=
  mk_group "end" 17 16 mode_0644 true 0x20d4 (Some CHECK_ME_IN_CONF).

Definition ag_her_valid : attribute_group :=
  mk_group "valid" 2 1 mode_0644 true 0x3000 (Some CHECK_HER_EN).

Definition ag_her_ctx_enabled : attribute_group :=
  mk_group "ctx_enabled" 5 4 mode_0644 true 0x3004 (Some CHECK_HER_IN_CONF).

Definition ag_her_meta_handler_mem_addr : attribute_group :=
  mk_group "handler_mem_addr" 5 4 mode_0644 true 0x4000 (Some CHECK_HER_IN_CONF).

Definition ag_her_meta_handler_mem_size : attribute_group :=
  mk_group "handler_mem_size" 5 4 mode_0644 true 0x4010 (Some CHECK_HER_IN_CONF).

Definition ag_her_meta_host_mem_addr_0 : attribute_group :=
  mk_group "host_mem_addr_0" 5 4 mode_0644 true 0x4020 (Some CHECK_HER_IN_CONF).

Definition ag_her_meta_host_mem_addr_1 : attribute_group :=
  mk_group "host_mem_addr_1" 5 4 mode_0644 true 0x4030 (Some CHECK_HER_IN_CONF).

Definition ag_her_meta_host_mem_size : attribute_group :=
  mk_group "host_mem_size" 5 4 mode_0644 true 0x4040 (Some CHECK_HER_IN_CONF).

Definition ag_her_meta_hh_addr : attribute_group :=
  mk_group "hh_addr" 5 4 mode_0644 true 0x4050 (Some CHECK_HER_IN_CONF).

Definition ag_her_meta_hh_size : attribute_group :=
  mk_group "hh_size" 5 4 mode_0644 true 0x4060 (Some CHECK_HER_IN_CONF).

Definition ag_her_meta_ph_addr : attribute_group :=
  mk_group "ph_addr" 5 4 mode_0644 true 0x4070 (Some CHECK_HER_IN_CONF).

Definition ag_her_meta_ph_size : attribute_group :=
  mk_group "ph_size" 5 4 mode_0644 true 0x4080 (Some CHECK_HER_IN_CONF).

Definition ag_her_meta_th_addr : attribute_group :=
  mk_group "th_addr" 5 4 mode_0644 true 0x4090 (Some CHECK_HER_IN_CONF).

Definition ag_her_meta_th_size : attribute_group :=
  mk_group "th_size" 5 4 mode_0644 true 0x40a0 (Some CHECK_HER_IN_CONF).

Definition ag_her_meta_scratchpad_0_addr : attribute_group :=
  mk_group "scratchpad_0_addr" 5 4 mode_0644 true 0x40b0 (Some CHECK_HER_IN_CONF).

Definition ag_her_meta_scratchpad_0_size : attribute_group :=
  mk_group "scratchpad_0_size" 5 4 mode_0644 true 0x40c0 (Some CHECK_HER_IN_CONF).

Definition ag_her_meta_scratchpad_1_addr : attribute_group :=
  mk_group "scratchpad_1_addr" 5 4 mode_0644 true 0x40d0 (Some CHECK_HER_IN_CONF).

Definition ag_her_meta_scratchpad_1_size : attribute_group :=
  mk_group "scratchpad_1_size" 5 4 mode_0644 true 0x40e0 (Some CHECK_HER_IN_CONF).

Definition ag_her_meta_scratchpad_2_addr : attribute_group :=
  mk_group "scratchpad_2_addr" 5 4 mode_0644 true 0x40f0 (Some CHECK_HER_IN_CONF).

Definition ag_her_meta_scratchpad_2_size : attribute_group :=
  mk_group "scratchpad_2_size" 5 4 mode_0644 true 0x4100 (Some CHECK_HER_IN_CONF).

Definition ag_her_meta_scratchpad_3_addr : attribute_group :=
  mk_group "scratchpad_3_addr" 5 4 mode_0644 true 0x4110 (Some CHECK_HER_IN_CONF).

Definition ag_her_meta_scratchpad_3_size : attribute_group :=
  mk_group "scratchpad_3_size" 5 4 mode_0644 true 0x4120 (Some CHECK_HER_IN_CONF).

(** ** The sysfs tree *)

(** Directories (kobjects) and the groups created in them, oldest first. *)
Record sysfs := {
  sy_dirs : list string;
  sy_groups : list (string * attribute_group);
}.

Definition sysfs_empty : sysfs := {| sy_dirs := []; sy_groups := [] |}.

Definition kobject_create_and_add (dir : string) : M sysfs unit :=
  smodify (fun s => {| sy_dirs := sy_dirs s ++ [dir]; sy_groups := sy_groups s |}).

Definition kobject_put (dir : string) : M sysfs unit :=
  smodify (fun s => {| sy_dirs := filter (fun d => d <> dir) (sy_dirs s);
                       sy_groups := sy_groups s |}).

Definition sysfs_remove_group (dir : string) (ag : attribute_group) : M sysfs unit :=
  smodify (fun s => {| sy_dirs := sy_dirs s;
                       sy_groups := filter (fun g => ~ (g.1 = dir /\ ag_name g.2 = ag_name ag))
                                           (sy_groups s) |}).

Section Init.
(** The kernel's answers: the error of [sysfs_create_group] for a group of a
    directory (0 for success) and that of [devm_add_action_or_reset]. *)
Context (create_err : string -> string -> Z) (action_err : Z).

Definition sysfs_create_group (dir : string) (ag : attribute_group) : M sysfs unit :=
  fun s =>
    let ret := create_err dir (ag_name ag) in
    if ret =? 0
    then (Ok tt, {| sy_dirs := sy_dirs s; sy_groups := sy_groups s ++ [(dir, ag)] |})
    else (Err ret, s).

Definition init_dir_cl : M sysfs unit :=
  kobject_create_and_add "cl" ;;;
  sysfs_create_group "cl" ag_cl_ctrl ;;;
  sysfs_create_group "cl" ag_cl_fifo.

Definition init_dir_stats : M sysfs unit :=
  kobject_create_and_add "stats" ;;;
  sysfs_create_group "stats" ag_stats_cluster ;;;
  sysfs_create_group "stats" ag_stats_mpq ;;;
  sysfs_create_group "stats" ag_stats_datapath.

Definition init_dir_me : M sysfs unit :=
  kobject_create_and_add "me" ;;;
  sysfs_create_group "me" ag_me_valid ;;;
  sysfs_create_group "me" ag_me_mode ;;;
  sysfs_create_group "me" ag_me_idx ;;;
  sysfs_create_group "me" ag_me_mask ;;;
  sysfs_create_group "me" ag_me_start ;;;
  sysfs_create_group "me" ag_me_end.

Definition init_dir_her : M sysfs unit :=
  kobject_create_and_add "her" ;;;
  sysfs_create_group "her" ag_her_valid ;;;
  sysfs_create_group "her" ag_her_ctx_enabled.

Definition init_dir_her_meta_mem : M sysfs unit :=
  kobject_create_and_add "her_meta" ;;;
  sysfs_create_group "her_meta" ag_her_meta_handler_mem_addr ;;;
  sysfs_create_group "her_meta" ag_her_meta_handler_mem_size ;;;
  sysfs_create_group "her_meta" ag_her_meta_host_mem_addr_0 ;;;
  sysfs_create_group "her_meta" ag_her_meta_host_mem_addr_1 ;;;
  sysfs_create_group "her_meta" ag_her_meta_host_mem_size.

Definition init_dir_her_meta_handlers : M sysfs unit :=
  sysfs_create_group "her_meta" ag_her_meta_hh_addr ;;;
  sysfs_create_group "her_meta" ag_her_meta_hh_size ;;;
  sysfs_create_group "her_meta" ag_her_meta_ph_addr ;;;
  sysfs_create_group "her_meta" ag_her_meta_ph_size ;;;
  sysfs_create_group "her_meta" ag_her_meta_th_addr ;;;
  sysfs_create_group "her_meta" ag_her_meta_th_size.

Definition init_dir_her_meta_scratchpads : M sysfs unit :=
  sysfs_create_group "her_meta" ag_her_meta_scratchpad_0_addr ;;;
  sysfs_create_group "her_meta" ag_her_meta_scratchpad_0_size ;;;
  sysfs_create_group "her_meta" ag_her_meta_scratchpad_1_addr ;;;
  sysfs_create_group "her_meta" ag_her_meta_scratchpad_1_size ;;;
  sysfs_create_group "her_meta" ag_her_meta_scratchpad_2_addr ;;;
  sysfs_create_group "her_meta" ag_her_meta_scratchpad_2_size ;;;
  sysfs_create_group "her_meta" ag_her_meta_scratchpad_3_addr ;;;
  sysfs_create_group "her_meta" ag_her_meta_scratchpad_3_size.

Definition remove_pspin_sysfs : M sysfs unit :=
  sysfs_remove_group "cl" ag_cl_ctrl ;;;
  sysfs_remove_group "cl" ag_cl_fifo ;;;
  kobject_put "cl" ;;;
  sysfs_remove_group "stats" ag_stats_cluster ;;;
  sysfs_remove_group "stats" ag_stats_mpq ;;;
  sysfs_remove_group "stats" ag_stats_datapath ;;;
  kobject_put "stats" ;;;
  sysfs_remove_group "me" ag_me_valid ;;;
  sysfs_remove_group "me" ag_me_mode ;;;
  sysfs_remove_group "me" ag_me_idx ;;;
  sysfs_remove_group "me" ag_me_mask ;;;
  sysfs_remove_group "me" ag_me_start ;;;
  sysfs_remove_group "me" ag_me_end ;;;
  kobject_put "me" ;;;
  sysfs_remove_group "her" ag_her_valid ;;;
  sysfs_remove_group "her" ag_her_ctx_enabled ;;;
  kobject_put "her" ;;;
  sysfs_remove_group "her_meta" ag_her_meta_handler_mem_addr ;;;
  sysfs_remove_group "her_meta" ag_her_meta_handler_mem_size ;;;
  sysfs_remove_group "her_meta" ag_her_meta_host_mem_addr_0 ;;;
  sysfs_remove_group "her_meta" ag_her_meta_host_mem_addr_1 ;;;
  sysfs_remove_group "her_meta" ag_her_meta_host_mem_size ;;;
  sysfs_remove_group "her_meta" ag_her_meta_hh_addr ;;;
  sysfs_remove_group "her_meta" ag_her_meta_hh_size ;;;
  sysfs_remove_group "her_meta" ag_her_meta_ph_addr ;;;
  sysfs_remove_group "her_meta" ag_her_meta_ph_size ;;;
  sysfs_remove_group "her_meta" ag_her_meta_th_addr ;;;
  sysfs_remove_group "her_meta" ag_her_meta_th_size ;;;
  sysfs_remove_group "her_meta" ag_her_meta_scratchpad_0_addr ;;;
  sysfs_remove_group "her_meta" ag_her_meta_scratchpad_0_size ;;;
  sysfs_remove_group "her_meta" ag_her_meta_scratchpad_1_addr ;;;
  sysfs_remove_group "her_meta" ag_her_meta_scratchpad_1_size ;;;
  sysfs_remove_group "her_meta" ag_her_meta_scratchpad_2_addr ;;;
  sysfs_remove_group "her_meta" ag_her_meta_scratchpad_2_size ;;;
  sysfs_remove_group "her_meta" ag_her_meta_scratchpad_3_addr ;;;
  sysfs_remove_group "her_meta" ag_her_meta_scratchpad_3_size ;;;
  kobject_put "her_meta".

Definition init_pspin_sysfs : M sysfs unit :=
  init_dir_cl ;;; init_dir_stats ;;; init_dir_me ;;; init_dir_her ;;;
  init_dir_her_meta_mem ;;; init_dir_her_meta_handlers ;;; init_dir_her_meta_scratchpads ;;;
  (* devm_add_action_or_reset(dev, remove_pspin_sysfs, app) *)
  if action_err =? 0 then sret tt
  else remove_pspin_sysfs ;;; serr action_err.
End Init.

(** The groups in creation order, with their directory. *)
Definition pspin_groups : list (string * attribute_group) :=
  [("cl", ag_cl_ctrl);
   ("cl", ag_cl_fifo);
   ("stats", ag_stats_cluster);
   ("stats", ag_stats_mpq);
   ("stats", ag_stats_datapath);
   ("me", ag_me_valid);
   ("me", ag_me_mode);
   ("me", ag_me_idx);
   ("me", ag_me_mask);
   ("me", ag_me_start);
   ("me", ag_me_end);
   ("her", ag_her_valid);
   ("her", ag_her_ctx_enabled);
   ("her_meta", ag_her_meta_handler_mem_addr);
   ("her_meta", ag_her_meta_handler_mem_size);
   ("her_meta", ag_her_meta_host_mem_addr_0);
   ("her_meta", ag_her_meta_host_mem_addr_1);
   ("her_meta", ag_her_meta_host_mem_size);
   ("her_meta", ag_her_meta_hh_addr);
   ("her_meta", ag_her_meta_hh_size);
   ("her_meta", ag_her_meta_ph_addr);
   ("her_meta", ag_her_meta_ph_size);
   ("her_meta", ag_her_meta_th_addr);
   ("her_meta", ag_her_meta_th_size);
   ("her_meta", ag_her_meta_scratchpad_0_addr);
   ("her_meta", ag_her_meta_scratchpad_0_size);
   ("her_meta", ag_her_meta_scratchpad_1_addr);
   ("her_meta", ag_her_meta_scratchpad_1_size);
   ("her_meta", ag_her_meta_scratchpad_2_addr);
   ("her_meta", ag_her_meta_scratchpad_2_size);
   ("her_meta", ag_her_meta_scratchpad_3_addr);
   ("her_meta", ag_her_meta_scratchpad_3_size)].

Definition pspin_dirs : list string := ["cl"; "stats"; "me"; "her"; "her_meta"]%string.

(** The byte offset of a register in the control block ([ATTR_REG_ADDR]). *)
Definition ATTR_REG_ADDR (a : pspin_attribute) : Z := u32 (attr_offset a + u32 (attr_idx a * 4)).

(** The attributes of a group up to the terminating NULL, as sysfs walks it. *)
Fixpoint group_walk (l : list (option pspin_attribute)) : list pspin_attribute :=
  match l with
  | Some a :: l' => a :: group_walk l'
  | _ => []
  end.

(** Every register of the map. *)
Definition pspin_registers : list pspin_attribute :=
  pspin_groups ≫= (fun g => group_walk (ag_attrs g.2)).

(** ** Construction as a list of steps

    [init_pspin_sysfs] is a straight line of directory and group creations;
    [sysfs_step] names one of them so that the error behaviour can be stated
    for all of them at once. *)

Inductive sysfs_step :=
| StepDir (dir : string)
| StepGroup (dir : string) (ag : attribute_group).

Definition step_groups (l : list sysfs_step) : list (string * attribute_group) :=
  l ≫= (fun st => match st with StepDir _ => [] | StepGroup d a => [(d, a)] end).
Definition step_dirs (l : list sysfs_step) : list string :=
  l ≫= (fun st => match st with StepDir d => [d] | StepGroup _ _ => [] end).

Definition init_steps : list sysfs_step :=
  pspin_dirs ≫= (fun d =>
    StepDir d :: ((fun g => StepGroup g.1 g.2) <$> filter (fun g => g.1 = d) pspin_groups)).

Section InitFacts.
Context (create_err : string -> string -> Z).

Definition run_step (st : sysfs_step) : M sysfs unit :=
  match st with
  | StepDir d => kobject_create_and_add d
  | StepGroup d a => sysfs_create_group create_err d a
  end.

Definition step_ok (st : sysfs_step) : Prop :=
  match st with
  | StepDir _ => True
  | StepGroup d a => create_err d (ag_name a) = 0
  end.

Lemma run_steps_ok l s :
  Forall step_ok l ->
  sseq (run_step <$> l) s
  = (Ok tt, {| sy_dirs := sy_dirs s ++ step_dirs l; sy_groups := sy_groups s ++ step_groups l |}).
Proof.
  intros Hl; revert s; induction Hl as [|st l Hst _ IH]; intros s.
  - simpl. rewrite !app_nil_r. by destruct s.
  - simpl. destruct st as [d|d a]; simpl in *.
    + unfold sbind, kobject_create_and_add, smodify. rewrite IH. simpl. by rewrite <- app_assoc.
    + unfold sbind, sysfs_create_group. rewrite Hst. simpl. rewrite IH. simpl.
      by rewrite <- app_assoc.
Qed.

Lemma run_steps_fail l1 d a l2 s :
  Forall step_ok l1 -> create_err d (ag_name a) <> 0 ->
  sseq (run_step <$> l1 ++ StepGroup d a :: l2) s
  = (Err (create_err d (ag_name a)),
     {| sy_dirs := sy_dirs s ++ step_dirs l1; sy_groups := sy_groups s ++ step_groups l1 |}).
Proof.
  intros Hl Hne. rewrite fmap_app, sseq_app.
  rewrite (sbind_ok _ _ _ _ _ (run_steps_ok l1 s Hl)).
  simpl. apply sbind_err. unfold sysfs_create_group. simpl.
  destruct (Z.eqb_spec (create_err d (ag_name a)) 0); done.
Qed.

(** [init_pspin_sysfs] runs the steps, then registers the cleanup action. *)
Lemma init_pspin_sysfs_steps action_err :
  init_pspin_sysfs create_err action_err
  ≡M sbind (sseq (run_step <$> init_steps))
      (fun _ => if action_err =? 0 then sret tt else remove_pspin_sysfs ;;; serr action_err).
Proof.
  eassert (exists l, init_pspin_sysfs create_err action_err ≡M sbind (sseq l) _ /\
                     l = run_step <$> init_steps) as (l & H & ->); [|exact H].
  eexists; split.
  - unfold init_pspin_sysfs.
    repeat (apply sseq_cat_intro; [as_sseq|]). by instantiate (1 := []).
  - reflexivity.
Qed.

Lemma run_steps_ok_inv l s s' :
  sseq (run_step <$> l) s = (Ok tt, s') ->
  s' = {| sy_dirs := sy_dirs s ++ step_dirs l; sy_groups := sy_groups s ++ step_groups l |}.
Proof.
  intros H. rewrite run_steps_ok in H; [congruence|].
  revert s H; induction l as [|[d|d a] l IH]; intros s H; [done | |]; simpl in H.
  - constructor; [done | exact (IH _ H)].
  - unfold sbind, sysfs_create_group in H.
    destruct (Z.eqb_spec (create_err d (ag_name a)) 0); [|done].
    constructor; [done | exact (IH _ H)].
Qed.

(** Only a nonzero error is reported as one. *)
Lemma run_steps_err l s e s' : sseq (run_step <$> l) s = (Err e, s') -> e <> 0.
Proof.
  revert s; induction l as [|[d|d a] l IH]; intros s H; [done | by apply IH in H |].
  simpl in H. unfold sbind, sysfs_create_group in H.
  destruct (Z.eqb_spec (create_err d (ag_name a)) 0); [by apply IH in H | by simplify_eq].
Qed.

Lemma remove_pspin_sysfs_ok : no_err remove_pspin_sysfs.
Proof. unfold remove_pspin_sysfs. repeat (apply no_err_bind; intros). all: apply no_err_modify. Qed.

Lemma init_pspin_sysfs_err action_err s e s' :
  init_pspin_sysfs create_err action_err s = (Err e, s') -> e <> 0.
Proof.
  rewrite (init_pspin_sysfs_steps action_err s). unfold sbind at 1.
  destruct (sseq (run_step <$> init_steps) s) as [[[]|e'] s1] eqn:E.
  - destruct (Z.eqb_spec action_err 0); [done|].
    destruct (remove_pspin_sysfs_ok s1) as [s2 Hr].
    rewrite (sbind_ok _ _ _ _ _ Hr). unfold serr. congruence.
  - intros H. simplify_eq. by eapply run_steps_err.
Qed.
End InitFacts.

Lemma step_groups_split L l1 d a l2 :
  step_groups L = l1 ++ (d, a) :: l2 ->
  exists L1 L2, L = L1 ++ StepGroup d a :: L2 /\ step_groups L1 = l1.
Proof.
  revert l1; induction L as [|st L IH]; intros l1 H.
  - by destruct l1.
  - destruct st as [d'|d' a'].
    + destruct (IH l1 H) as (L1 & L2 & -> & HL). by exists (StepDir d' :: L1), L2.
    + change ((d', a') :: step_groups L = l1 ++ (d, a) :: l2) in H.
      destruct l1 as [|g l1].
      * cbn [app] in H. inversion H; subst. by exists [], L.
      * injection H as Hg H. destruct (IH l1 H) as (L1 & L2 & -> & HL). exists (StepGroup d' a' :: L1), L2.
        split; [done|]. subst g. by rewrite <- HL.
Qed.

Lemma step_groups_ok create_err L :
  (forall d a, (d, a) ∈ step_groups L -> create_err d (ag_name a) = 0) ->
  Forall (step_ok create_err) L.
Proof.
  intros H. apply Forall_forall. intros [d|d a] Hin; simpl; [done|].
  apply H. unfold step_groups. apply list_elem_of_bind. eexists; split; [|exact Hin].
  simpl. set_solver.
Qed.

Lemma init_steps_groups : step_groups init_steps = pspin_groups.
Proof. reflexivity. Qed.
Lemma init_steps_dirs : step_dirs init_steps = pspin_dirs.
Proof. reflexivity. Qed.

(** The tree that a completed initialisation leaves. *)
Definition pspin_sysfs : sysfs := {| sy_dirs := pspin_dirs; sy_groups := pspin_groups |}.

Section InitTheorems.
Context (create_err : string -> string -> Z).

Lemma init_pspin_sysfs_tail action_err :
  (forall d a, (d, a) ∈ pspin_groups -> create_err d (ag_name a) = 0) ->
  init_pspin_sysfs create_err action_err sysfs_empty
  = (if action_err =? 0 then sret tt else remove_pspin_sysfs ;;; serr action_err) pspin_sysfs.
Proof.
  intros H. rewrite (init_pspin_sysfs_steps create_err action_err sysfs_empty).
  rewrite <- init_steps_groups in H. apply step_groups_ok in H.
  rewrite (sbind_ok _ _ _ _ _ (run_steps_ok create_err init_steps sysfs_empty H)).
  by rewrite init_steps_groups, init_steps_dirs.
Qed.

(** The only tree a successful initialisation of an empty sysfs leaves. *)
Lemma init_pspin_sysfs_ok action_err s' :
  init_pspin_sysfs create_err action_err sysfs_empty = (Ok tt, s') -> s' = pspin_sysfs.
Proof.
  rewrite (init_pspin_sysfs_steps create_err action_err sysfs_empty). unfold sbind at 1.
  destruct (sseq (run_step create_err <$> init_steps) sysfs_empty) as [[[]|e'] s1] eqn:E; [|done].
  destruct (Z.eqb_spec action_err 0).
  - intros H. unfold sret in H. simplify_eq. apply run_steps_ok_inv in E as ->. done.
  - destruct (remove_pspin_sysfs_ok s1) as [s2 Hr].
    rewrite (sbind_ok _ _ _ _ _ Hr). unfold serr. congruence.
Qed.
End InitTheorems.

(** The register with index [id] of a group of the tree, as the path
    [dir/group/id] names it. *)
Definition sysfs_lookup (s : sysfs) (dir group : string) (id : Z) : option pspin_attribute :=
  g ← list_find (fun g => g.1 = dir /\ ag_name g.2 = group) (sy_groups s);
  a ← list_find (fun a => attr_name a = print_d id) (group_walk (ag_attrs (g.2).2));
  Some a.2.

(** A group is laid out as the kernel expects: its attributes first, each
    with its own index, then NULL; a register is writable exactly when it
    has a store function. *)
Definition group_wf (g : attribute_group) : bool :=
  bool_decide (last (ag_attrs g) = Some None) &&
  bool_decide (length (group_walk (ag_attrs g)) = (length (ag_attrs g) - 1)%nat) &&
  bool_decide (attr_idx <$> group_walk (ag_attrs g)
               = Z.of_nat <$> seq 0 (length (ag_attrs g) - 1)) &&
  forallb (fun a => eqb (attr_store a) (attr_mode a =? mode_0644)) (group_walk (ag_attrs g)).

(** The configuration registers of the matching engine and of the HER
    generator: everything in their directories except the enable bit. *)
Definition guard_of (dir group : string) : option check_fn :=
  if bool_decide (dir = "me"%string) then
    Some (if bool_decide (group = "valid"%string) then CHECK_ME_EN else CHECK_ME_IN_CONF)
  else if bool_decide (dir = "her"%string) then
    Some (if bool_decide (group = "valid"%string) then CHECK_HER_EN else CHECK_HER_IN_CONF)
  else if bool_decide (dir = "her_meta"%string) then Some CHECK_HER_IN_CONF
  else if bool_decide (dir = "cl"%string) then
    (if bool_decide (group = "ctrl"%string) then Some CHECK_CL_CTRL else None)
  else None.

(** Every register carries the check function of its place. *)
Lemma register_guards :
  Forall (fun g => Forall (fun a => attr_check a = guard_of g.1 (ag_name g.2))
                          (group_walk (ag_attrs g.2))) pspin_groups.
Proof. apply (bool_decide_unpack _); vm_compute; exact I. Qed.

(** The register [id] of a group has the address [offset + 4 * id]. *)
Lemma sysfs_lookup_guard dir group id a :
  sysfs_lookup pspin_sysfs dir group id = Some a -> attr_check a = guard_of dir group.
Proof.
  unfold sysfs_lookup. intros H.
  apply bind_Some in H as ([i g] & Hg & H). apply bind_Some in H as ([j b] & Hb & H).
  apply list_find_Some in Hg as (Hg & [<- <-] & _). apply list_find_Some in Hb as (Hb & _ & _).
  simplify_eq/=. pose proof register_guards as HF. rewrite Forall_lookup in HF.
  specialize (HF _ _ Hg). rewrite Forall_lookup in HF. exact (HF _ _ Hb).
Qed.


(** Error behaviour of [init_pspin_sysfs]. It stops at the first group
    the kernel refuses and returns that group's error; exactly the groups
    created before it are then still in sysfs, since the cleanup action is
    only registered at the end. *)
Theorem init_pspin_sysfs_first_error create_err action_err l1 d a l2 :
  pspin_groups = l1 ++ (d, a) :: l2 ->
  (forall d' a', (d', a') ∈ l1 -> create_err d' (ag_name a') = 0) ->
  create_err d (ag_name a) <> 0 ->
  exists dirs,
    init_pspin_sysfs create_err action_err sysfs_empty
    = (Err (create_err d (ag_name a)), {| sy_dirs := dirs; sy_groups := l1 |}).
Proof.
  intros Hg Hok Hne. rewrite <- init_steps_groups in Hg.
  apply step_groups_split in Hg as (L1 & L2 & HL & <-).
  exists (step_dirs L1).
  rewrite (init_pspin_sysfs_steps create_err action_err sysfs_empty). apply sbind_err.
  rewrite HL. by rewrite (run_steps_fail create_err L1 d a L2) by eauto using step_groups_ok.
Qed.

Definition fail_me_mask (d g : string) : Z :=
  if bool_decide (d = "me"%string /\ g = "mask"%string) then - ENOMEM else 0.

Lemma init_pspin_sysfs_first_error_witness :
  exists dirs,
    init_pspin_sysfs fail_me_mask 0 sysfs_empty
    = (Err (- ENOMEM), {| sy_dirs := dirs; sy_groups := take 8 pspin_groups |}).
Proof.
  apply (init_pspin_sysfs_first_error fail_me_mask 0 (take 8 pspin_groups)
           "me" ag_me_mask (drop 9 pspin_groups)).
  - reflexivity.
  - intros d' a' Hin.
    assert (Forall (fun g => fail_me_mask g.1 (ag_name g.2) = 0) (take 8 pspin_groups)) as HF
      by (apply (bool_decide_unpack _); vm_compute; exact I).
    rewrite Forall_forall in HF. exact (HF _ Hin).
  - discriminate.
Defined.

(** When every group is created, the tree holds exactly the register map;
    if registering the cleanup action then fails, the immediate cleanup
    removes every group and directory again and the error is returned. *)
Theorem init_pspin_sysfs_complete create_err action_err :
  (forall d a, (d, a) ∈ pspin_groups -> create_err d (ag_name a) = 0) ->
  init_pspin_sysfs create_err action_err sysfs_empty
  = if action_err =? 0 then (Ok tt, pspin_sysfs) else (Err action_err, sysfs_empty).
Proof.
  intros H. rewrite init_pspin_sysfs_tail by done.
  destruct (action_err =? 0); [done|].
  by rewrite (sbind_ok _ _ _ tt sysfs_empty).
Qed.

Lemma init_pspin_sysfs_complete_witness :
  init_pspin_sysfs (fun _ _ => 0) (- ENOMEM) sysfs_empty = (Err (- ENOMEM), sysfs_empty).
Proof. exact (init_pspin_sysfs_complete (fun _ _ => 0) (- ENOMEM) (fun _ _ _ => eq_refl)). Defined.
