(* ===== verification/Mmio.v ===== *)
(** * Device memory as the drivers see it

    The PCIe BAR of the device is not C code of the repository: [Mmio] is the
    interface the driver is written against, [MmioRam] what a stretch of the
    BAR that behaves as memory promises. The byte-addressed [memory] below is
    an instance of both, so that every definition can be evaluated. *)

From S2P Require Import Prelude.

(** Addresses are byte offsets from [app_hw_addr]. *)
Class Mmio (hw : Type) := {
  ioread32 : Z -> hw -> Z * hw;
  iowrite32 : Z -> Z -> hw -> hw;      (* value, address *)
}.

(** [include/linux/io-64-nonatomic-lo-hi.h]: low word first. *)
Definition ioread64_lo_hi `{Mmio hw} (addr : Z) (h : hw) : Z * hw :=
  let '(low, h1) := ioread32 addr h in
  let '(high, h2) := ioread32 (addr + 4) h1 in
  (low + Z.shiftl high 32, h2).

Definition iowrite64_lo_hi `{Mmio hw} (val addr : Z) (h : hw) : hw :=
  iowrite32 (u32 (Z.shiftr val 32)) (addr + 4) (iowrite32 (u32 val) addr h).

(** [ram] says which bytes behave as memory: a read has no side effect and
    gives the bytes in little-endian order, a write changes its four bytes
    and no other byte of the memory. *)
Class MmioRam (hw : Type) `{!Mmio hw} (ram : Z -> Prop) := {
  byte_at : hw -> Z -> Z;
  byte_at_range h a : ram a -> is_byte (byte_at h a);
  ioread32_ram a h :
    (forall x, a <= x < a + 4 -> ram x) ->
    ioread32 a h = (le_combine (byte_at h <$> [a; a + 1; a + 2; a + 3]), h);
  iowrite32_ram v a h x :
    (forall y, a <= y < a + 4 -> ram y) -> ram x ->
    byte_at (iowrite32 v a h) x
    = if bool_decide (a <= x < a + 4) then (v / 256 ^ (x - a)) mod 256 else byte_at h x;
}.

Definition word_at `{MmioRam hw ram} (h : hw) (a : Z) : Z :=
  le_combine (byte_at h <$> [a; a + 1; a + 2; a + 3]).

(** The four bytes from [a] are memory. *)
Definition ram_word (ram : Z -> Prop) (a : Z) : Prop := forall x, a <= x < a + 4 -> ram x.

Section Ram.
Context `{MmioRam hw ram}.

Lemma word_at_range h a : ram_word ram a -> 0 <= word_at h a < 2 ^ 32.
Proof.
  intros Ha. unfold word_at.
  assert (Forall is_byte (byte_at h <$> [a; a + 1; a + 2; a + 3])) as HF.
  { repeat constructor; apply byte_at_range, Ha; lia. }
  apply le_combine_range in HF. simpl in HF. simpl. lia.
Qed.

Lemma ioread32_word a h : ram_word ram a -> ioread32 a h = (word_at h a, h).
Proof. apply ioread32_ram. Qed.

Lemma le_combine_bytes v :
  le_combine [v / 1 mod 256; v / 256 mod 256; v / 65536 mod 256; v / 16777216 mod 256] = u32 v.
Proof.
  change 16777216 with (256 * 256 * 256). change 65536 with (256 * 256).
  rewrite <- !Z.div_div, Z.div_1_r by lia. apply (le_combine_split 4).
Qed.

(** Reading back the word just written. *)
Lemma word_at_write_eq v a h : ram_word ram a -> word_at (iowrite32 v a h) a = u32 v.
Proof.
  intros Ha. rewrite <- le_combine_bytes. unfold word_at. f_equal. simpl.
  rewrite !iowrite32_ram by (try apply Ha; lia || exact Ha).
  rewrite !bool_decide_eq_true_2 by lia.
  replace (a - a) with 0 by lia. replace (a + 1 - a) with 1 by lia.
  replace (a + 2 - a) with 2 by lia. replace (a + 3 - a) with 3 by lia. done.
Qed.

Lemma byte_at_write_ne v a h x :
  ram_word ram a -> ram x -> x < a \/ a + 4 <= x -> byte_at (iowrite32 v a h) x = byte_at h x.
Proof.
  intros Ha Hx Hne. rewrite iowrite32_ram by done. rewrite bool_decide_eq_false_2; [done | lia].
Qed.

(** A write leaves every disjoint word alone. *)
Lemma word_at_write_ne v a b h :
  ram_word ram a -> ram_word ram b -> b + 4 <= a \/ a + 4 <= b ->
  word_at (iowrite32 v a h) b = word_at h b.
Proof.
  intros Ha Hb Hne. unfold word_at. f_equal. simpl.
  rewrite !byte_at_write_ne by (try apply Hb; lia || done). done.
Qed.
End Ram.

(** Reading back a 64-bit word. *)
Lemma ioread64_write64 `{MmioRam hw ram} v a (h : hw) :
  (forall x, a <= x < a + 8 -> ram x) ->
  exists h', ioread64_lo_hi a (iowrite64_lo_hi v a h) = (u64 v, h').
Proof.
  intros Ha. assert (ram_word ram a) by (intros x ?; apply Ha; lia).
  assert (ram_word ram (a + 4)) by (intros x ?; apply Ha; lia).
  unfold ioread64_lo_hi, iowrite64_lo_hi. rewrite !ioread32_word by done. eexists. f_equal.
  rewrite word_at_write_ne, !word_at_write_eq by (done || lia).
  rewrite Z.shiftl_mul_pow2, Z.shiftr_div_pow2 by lia.
  unfold u32, u64. rewrite !Z.mod_mod by lia.
  change (2 ^ 64) with (2 ^ 32 * 2 ^ 32). rewrite (Z.rem_mul_r v (2 ^ 32)) by lia. lia.
Qed.

(** ** Runs of register writes *)

(** Write (value, address) pairs in order. *)
Definition write_all `{Mmio hw} (l : list (Z * Z)) (h : hw) : hw :=
  foldl (fun h '(v, a) => iowrite32 v a h) h l.

(** The last value written to an address. *)
Fixpoint last_write (a : Z) (l : list (Z * Z)) : option Z :=
  match l with
  | [] => None
  | (v, b) :: l' =>
      match last_write a l' with
      | Some w => Some w
      | None => if a =? b then Some v else None
      end
  end.

Definition aligned (a : Z) : Prop := a mod 4 = 0.

Lemma word_at_write_all `{MmioRam hw ram} l (h : hw) a :
  aligned a -> ram_word ram a -> Forall (fun x => aligned x.2 /\ ram_word ram x.2) l ->
  word_at (write_all l h) a = match last_write a l with Some v => u32 v | None => word_at h a end.
Proof.
  intros Ha Hr Hl. revert h. induction Hl as [|[v b] l [Hb Hrb] Hl IH]; intros h; [done|].
  cbn [write_all foldl last_write]. cbn [snd] in *. unfold write_all in IH. rewrite IH.
  destruct (last_write a l); [done|]. destruct (Z.eqb_spec a b) as [->|Hne].
  - by apply word_at_write_eq.
  - apply word_at_write_ne; try done. unfold aligned in *.
    pose proof (Z.div_mod a 4). pose proof (Z.div_mod b 4). lia.
Qed.

Lemma last_write_None a l : (forall v, (v, a) ∉ l) -> last_write a l = None.
Proof.
  induction l as [|[v b] l IH]; intros Hl; [done|]. cbn [last_write].
  rewrite IH by (intros w Hw; apply (Hl w); by right).
  destruct (Z.eqb_spec a b) as [->|]; [|done]. destruct (Hl v). by left.
Qed.

Lemma last_write_app a l1 l2 :
  last_write a (l1 ++ l2)
  = match last_write a l2 with Some v => Some v | None => last_write a l1 end.
Proof.
  induction l1 as [|[v b] l1 IH]; simpl; [by destruct (last_write a l2)|].
  rewrite IH. by destruct (last_write a l2).
Qed.

Lemma last_write_NoDup a v l : NoDup (l.*2) -> (v, a) ∈ l -> last_write a l = Some v.
Proof.
  induction l as [|[w b] l IH]; intros Hnd Hin; [by apply not_elem_of_nil in Hin|].
  cbn [fmap list_fmap snd] in Hnd. inversion Hnd as [|? ? Hb Hnd']; subst. cbn [last_write].
  apply elem_of_cons in Hin as [Heq|Hin].
  - simplify_eq. rewrite last_write_None, Z.eqb_refl; [done|].
    intros x Hx. apply Hb. apply list_elem_of_fmap. by exists (x, b).
  - by rewrite IH.
Qed.

(** ** A concrete device: all of the BAR is memory *)

Definition memory : Type := gmap Z Z.

Definition mem_byte (m : memory) (a : Z) : Z :=
  default 0 ((m : gmap Z Z) !! a) mod 256.

Definition mem_write4 (v a : Z) (m : memory) : memory :=
  foldl (fun (m' : gmap Z Z) k => <[a + k := (v / 256 ^ k) mod 256]> m') m [0; 1; 2; 3].

#[export] Instance memory_mmio : Mmio memory := {
  ioread32 a m := (le_combine (mem_byte m <$> [a; a + 1; a + 2; a + 3]), m);
  iowrite32 := mem_write4;
}.

Lemma mem_write4_byte v a m x :
  mem_byte (mem_write4 v a m) x
  = if bool_decide (a <= x < a + 4) then (v / 256 ^ (x - a)) mod 256 else mem_byte m x.
Proof.
  unfold mem_byte, mem_write4. cbn [foldl].
  assert (x = a + 0 \/ x = a + 1 \/ x = a + 2 \/ x = a + 3 \/ (x < a \/ a + 4 <= x)) as Hx by lia.
  destruct Hx as [->|[->|[->|[->|Hx]]]].
  5: { rewrite !lookup_insert_ne by lia. by rewrite bool_decide_eq_false_2 by lia. }
  all: rewrite bool_decide_eq_true_2 by lia;
       rewrite ?lookup_insert_ne by lia; rewrite lookup_insert_eq;
       cbn [from_option id]; rewrite Z.mod_mod by lia;
       repeat f_equal; lia.
Qed.

#[export] Instance memory_ram : MmioRam memory (fun _ => True).
Proof.
  refine {| byte_at := mem_byte |}.
  - intros h a _. apply Z.mod_pos_bound. lia.
  - done.
  - intros. apply mem_write4_byte.
Defined.

(** ** A device that logs its accesses

    Wrapping any device, so that a theorem can speak of every access the
    driver makes. *)

Inductive access :=
| AccRead (a : Z)
| AccWrite (v a : Z).

Definition access_addr (x : access) : Z :=
  match x with AccRead a => a | AccWrite _ a => a end.

Record logged (hw : Type) := Logged {
  l_dev : hw;
  l_log : list access;
}.
Arguments Logged {hw}. Arguments l_dev {hw}. Arguments l_log {hw}.

#[export] Instance logged_mmio {hw} `{Mmio hw} : Mmio (logged hw) := {
  ioread32 a h := let '(v, h') := ioread32 a (l_dev h) in
                  (v, Logged h' (l_log h ++ [AccRead a]));
  iowrite32 v a h := Logged (iowrite32 v a (l_dev h)) (l_log h ++ [AccWrite v a]);
}.

(** Bytes of memory as a list. *)
Definition mem_bytes `{MmioRam hw ram} (h : hw) (a : Z) (n : nat) : list Z :=
  (fun k => byte_at h (a + Z.of_nat k)) <$> seq 0 n.

Section MemBytes.
Context `{MmioRam hw ram}.

Lemma length_mem_bytes (h : hw) a n : length (mem_bytes h a n) = n.
Proof. unfold mem_bytes. by rewrite length_fmap, length_seq. Qed.

Lemma mem_bytes_app (h : hw) a n m :
  mem_bytes h a (n + m) = mem_bytes h a n ++ mem_bytes h (a + Z.of_nat n) m.
Proof.
  unfold mem_bytes. rewrite seq_app, fmap_app. f_equal.
  rewrite Nat.add_0_l, <- (Nat.add_0_r n) at 1. rewrite <- fmap_add_seq, <- list_fmap_compose.
  apply list_fmap_ext. intros i x _. simpl. f_equal. lia.
Qed.

Lemma mem_bytes_word (h : hw) a : ram_word ram a -> le_split 4 (word_at h a) = mem_bytes h a 4.
Proof.
  intros Ha. unfold word_at.
  change 4%nat with (length (byte_at h <$> [a; a + 1; a + 2; a + 3])) at 1.
  rewrite le_split_combine by (repeat constructor; apply byte_at_range, Ha; lia).
  unfold mem_bytes. simpl. by rewrite Z.add_0_r.
Qed.

Lemma mem_bytes_ext (h h' : hw) a n :
  (forall x, a <= x < a + Z.of_nat n -> byte_at h x = byte_at h' x) ->
  mem_bytes h a n = mem_bytes h' a n.
Proof.
  intros Hx. unfold mem_bytes. apply list_fmap_ext. intros i x Hi.
  apply lookup_seq in Hi. apply Hx. lia.
Qed.
End MemBytes.
