(* ===== verification/PspinDev.v ===== *)
(** * The PsPIN kernel module

    Model of [mqnic_app_pspin/main.c]: the state of the driver
    ([struct mqnic_app_pspin]), the check functions and the register access of
    sysfs, the character devices (open, read, write, llseek, ioctl, mmap and
    the vma callbacks), and probe and remove. Addresses are offsets from
    [app_hw_addr]; the device is an instance of [Mmio]. What the kernel
    decides (allocation, copies from and to user space, signals) is an
    argument of the operation that asks for it. *)

From S2P Require Import Prelude Regs Mmio.

(** ** State *)

(** [struct ctx_dma_area] of [pspin_ioctl.h]. *)
Record ctx_dma_area := mk_ctx_dma_area {
  dma_handle : Z;
  dma_size : Z;
  enabled : bool;
}.

(** [struct dma_area_int] of [regs-gen.h]. *)
Record dma_area_int := mk_dma_area_int {
  cpu_addr : Z;
  phys : ctx_dma_area;
  ref_count : Z;
}.

(** The fields of [struct mqnic_app_pspin] that the driver changes after
    probe. *)
Record mqnic_app_pspin := mk_app {
  in_reset : bool;
  in_her_conf : bool;
  in_me_conf : bool;
  dma_areas : list dma_area_int;
}.

Definition area0 : dma_area_int := mk_dma_area_int 0 (mk_ctx_dma_area 0 0 false) 0.

(** What [devm_kzalloc] gives. *)
Definition app_zero : mqnic_app_pspin :=
  mk_app false false false (replicate (Z.to_nat HER_NUM_HANDLER_CTX) area0).

Definition set_in_reset (b : bool) (a : mqnic_app_pspin) : mqnic_app_pspin :=
  mk_app b (in_her_conf a) (in_me_conf a) (dma_areas a).
Definition set_in_her_conf (b : bool) (a : mqnic_app_pspin) : mqnic_app_pspin :=
  mk_app (in_reset a) b (in_me_conf a) (dma_areas a).
Definition set_in_me_conf (b : bool) (a : mqnic_app_pspin) : mqnic_app_pspin :=
  mk_app (in_reset a) (in_her_conf a) b (dma_areas a).
Definition set_dma_areas (l : list dma_area_int) (a : mqnic_app_pspin) : mqnic_app_pspin :=
  mk_app (in_reset a) (in_her_conf a) (in_me_conf a) l.

(** The driver with its device. *)
Record drv (hw : Type) := Drv {
  d_app : mqnic_app_pspin;
  d_hw : hw;
}.
Arguments Drv {hw} d_app d_hw.
Arguments d_app {hw} d.
Arguments d_hw {hw} d.

Definition set_app {hw} (f : mqnic_app_pspin -> mqnic_app_pspin) (d : drv hw) : drv hw :=
  Drv (f (d_app d)) (d_hw d).
Definition set_hw {hw} (h : hw) (d : drv hw) : drv hw := Drv (d_app d) h.

(** ** Address map *)

Definition PSPIN_NUM_CLUSTERS : Z := 2.
Definition PSPIN_PROG_BASE : Z := 0x1d000000.
Definition PSPIN_PROG_SIZE : Z := 32 * 1024.
Definition PSPIN_HND_BASE : Z := 0x1c000000.
Definition PSPIN_HND_SIZE : Z := 1 * 1024 * 1024.

Definition CHECK_RANGE (addr base size : Z) : bool := (base <=? addr) && (addr <? base + size).

(** [s64 pspin_addr_to_corundum(u64)]: -1 outside the two memories. *)
Definition pspin_addr_to_corundum (pspin_addr : Z) : Z :=
  if CHECK_RANGE pspin_addr PSPIN_PROG_BASE PSPIN_PROG_SIZE
  then s64 (u64 (pspin_addr - PSPIN_PROG_BASE + 0x400000))
  else if CHECK_RANGE pspin_addr PSPIN_HND_BASE PSPIN_HND_SIZE
  then s64 (u64 (pspin_addr - PSPIN_HND_BASE))
  else -1.

Definition REG (offset : Z) : Z := 0x800000 + offset.
Definition PSPIN_MEM (off : Z) : Z := off.

(** [REG_ADDR(app, name, _idx)]: the register behind entry [_idx] of a group. *)
Definition REG_ADDR (ag : attribute_group) (idx : Z) : Z :=
  match ag_attrs ag !! Z.to_nat idx with
  | Some (Some a) => REG (ATTR_REG_ADDR a)
  | _ => 0
  end.

(** ** Check functions *)

(** [__builtin_clz] of a nonzero 32-bit word. *)
Definition builtin_clz (x : Z) : Z := 31 - Z.log2 x.

Section Driver.
Context {hw : Type} `{!Mmio hw}.
Implicit Types d : drv hw.

Definition check_cl_ctrl (idx reg : Z) d : bool * drv hw :=
  let clusters := if reg =? 0 then 0 else 32 - builtin_clz reg in
  if negb (idx =? 0) && (reg >? 1) then (false, d)
  else if clusters >? PSPIN_NUM_CLUSTERS then (false, d)
  else
    (* FIXME of the source: ideally after setting the register *)
    (true, if negb (idx =? 0) then set_app (set_in_reset (negb (reg =? 0))) d else d).

Definition check_me_en (idx reg : Z) d : bool * drv hw :=
  (true, if reg =? 0 then set_app (set_in_me_conf true) d
         else set_app (set_in_me_conf false) d).

(** The loop of [check_her_en] over the handler contexts: read back the
    configured host memory and compare it with the registered area. *)
Fixpoint check_her_ctxs (ctxs : list (Z * dma_area_int)) (h : hw) : bool * hw :=
  match ctxs with
  | [] => (true, h)
  | (i, area) :: ctxs' =>
      let '(lo, h1) := ioread32 (REG_ADDR ag_her_meta_host_mem_addr_0 i) h in
      let '(hi, h2) := ioread32 (REG_ADDR ag_her_meta_host_mem_addr_1 i) h1 in
      let hostdma_addr := u64 (lo + u64 (Z.shiftl hi 32)) in
      let '(hostdma_size, h3) := ioread32 (REG_ADDR ag_her_meta_host_mem_size i) h2 in
      if enabled (phys area) &&
         (negb (hostdma_addr =? dma_handle (phys area)) ||
          negb (hostdma_size =? dma_size (phys area)))
      then (false, h3)
      else check_her_ctxs ctxs' h3
  end.

Definition her_ctxs (a : mqnic_app_pspin) : list (Z * dma_area_int) :=
  imap (fun i area => (Z.of_nat i, area)) (dma_areas a).

Definition check_her_en (idx reg : Z) d : bool * drv hw :=
  if reg =? 0 then (true, set_app (set_in_her_conf true) d)
  else
    let '(ok, h) := check_her_ctxs (her_ctxs (d_app d)) (d_hw d) in
    if ok then (true, set_app (set_in_her_conf false) (set_hw h d))
    else (false, set_hw h d).

Definition check_me_in_conf (idx reg : Z) d : bool * drv hw :=
  (if negb (in_me_conf (d_app d)) then false else true, d).

Definition check_her_in_conf (idx reg : Z) d : bool * drv hw :=
  (if negb (in_her_conf (d_app d)) then false else true, d).

(** The call through the function pointer [check_func]. *)
Definition run_check (c : check_fn) : Z -> Z -> drv hw -> bool * drv hw :=
  match c with
  | CHECK_CL_CTRL => check_cl_ctrl
  | CHECK_ME_EN => check_me_en
  | CHECK_HER_EN => check_her_en
  | CHECK_ME_IN_CONF => check_me_in_conf
  | CHECK_HER_IN_CONF => check_her_in_conf
  end.

(** ** Registers through sysfs *)

Definition pspin_reg_store (dev_attr : pspin_attribute) (buf : string) d : Z * drv hw :=
  let off := ATTR_REG_ADDR dev_attr in
  let reg := default 0 (scan_u32 buf) in
  let '(ok, d1) := match attr_check dev_attr with
                   | Some c => run_check c (attr_idx dev_attr) reg d
                   | None => (true, d)
                   end in
  if negb ok then (- EINVAL, d1)
  else (Z.of_nat (String.length buf), set_hw (iowrite32 reg (REG off) (d_hw d1)) d1).

Definition pspin_reg_show (dev_attr : pspin_attribute) d : string * drv hw :=
  let '(v, h) := ioread32 (REG (ATTR_REG_ADDR dev_attr)) (d_hw d) in
  ((print_u v +:+ String (Ascii.ascii_of_nat 10) EmptyString)%string, set_hw h d).

End Driver.

(** ** Facts about the checks *)

Section CheckFacts.
Context {hw : Type} `{!Mmio hw}.
Implicit Types d : drv hw.

Lemma pspin_reg_store_guarded a buf c d :
  attr_check a = Some c -> run_check c (attr_idx a) (default 0 (scan_u32 buf)) d = (false, d) ->
  pspin_reg_store a buf d = (- EINVAL, d).
Proof. intros Hc Hf. unfold pspin_reg_store. by rewrite Hc, Hf. Qed.

Lemma pspin_reg_store_ok a buf c d d' v :
  attr_check a = Some c -> scan_u32 buf = Some v -> run_check c (attr_idx a) v d = (true, d') ->
  pspin_reg_store a buf d
  = (Z.of_nat (String.length buf), set_hw (iowrite32 v (REG (ATTR_REG_ADDR a)) (d_hw d')) d').
Proof. intros Hc Hv Hf. unfold pspin_reg_store. rewrite Hc, Hv. cbn [default from_option]. unfold id. by rewrite Hf. Qed.
End CheckFacts.

(** C29: the engines are only configured while disabled. While the matching
    engine (HER generator) is enabled, storing to any of its registers other
    than the enable bit is refused with [-EINVAL] and changes neither the
    driver nor the device. *)
Theorem conf_registers_gated {hw} `{!Mmio hw} dir group id a buf (d : drv hw) :
  sysfs_lookup pspin_sysfs dir group id = Some a ->
  (dir = "me"%string /\ group <> "valid"%string /\ in_me_conf (d_app d) = false \/
   dir = "her"%string /\ group <> "valid"%string /\ in_her_conf (d_app d) = false \/
   dir = "her_meta"%string /\ in_her_conf (d_app d) = false) ->
  pspin_reg_store a buf d = (- EINVAL, d).
Proof.
  intros Hl%sysfs_lookup_guard [(-> & Hg & Hc)|[(-> & Hg & Hc)|(-> & Hc)]];
    unfold guard_of in Hl; simpl in Hl; rewrite ?(bool_decide_eq_false_2 _ Hg) in Hl;
    eapply pspin_reg_store_guarded; try exact Hl; simpl;
    unfold check_me_in_conf, check_her_in_conf; by rewrite Hc.
Qed.

Lemma conf_registers_gated_witness :
  pspin_reg_store (mk_attr "idx" mode_0644 true 0x2014 (Some CHECK_ME_IN_CONF) 3) "7"
    (Drv app_zero (∅ : memory)) = (- EINVAL, Drv app_zero ∅).
Proof.
  apply (conf_registers_gated "me" "idx" 3); [by vm_compute|]. left. by split_and!.
Defined.

(** The cluster control register. A 32-bit value is accepted for the
    fetch-enable word (index 0) exactly when it only names existing clusters,
    and for the reset word exactly when it is 0 or 1; an accepted store to the
    reset word makes [in_reset] say whether the cluster is in reset, a refused
    one changes nothing. *)
Theorem check_cl_ctrl_spec {hw} `{!Mmio hw} idx reg (d : drv hw) :
  0 <= reg < 2 ^ 32 ->
  let '(ok, d') := check_cl_ctrl idx reg d in
  (ok = true <-> (idx = 0 /\ reg < 2 ^ PSPIN_NUM_CLUSTERS \/ idx <> 0 /\ reg <= 1)) /\
  d' = (if ok && negb (idx =? 0) then set_app (set_in_reset (negb (reg =? 0))) d else d).
Proof.
  intros Hr. unfold check_cl_ctrl, builtin_clz, PSPIN_NUM_CLUSTERS.
  assert ((if reg =? 0 then 0 else 32 - (31 - Z.log2 reg)) <= 2 <-> reg < 4) as Hlog.
  { destruct (Z.eqb_spec reg 0); [lia|].
    pose proof (Z.log2_lt_pow2 reg 2 ltac:(lia)). change (2 ^ 2) with 4 in *. lia. }
  change (2 ^ 2) with 4. set (clusters := if reg =? 0 then _ else _) in *.
  destruct (Z.eqb_spec idx 0), (Z.gtb_spec reg 1), (Z.gtb_spec clusters 2);
    cbn [andb negb]; (split; [|done]); split; intros; first [done | lia | exfalso; lia].
Qed.

Lemma check_cl_ctrl_spec_witness :
  (check_cl_ctrl 0 3 (Drv app_zero (∅ : memory))).1 = true.
Proof.
  pose proof (check_cl_ctrl_spec 0 3 (Drv app_zero (∅ : memory)) ltac:(lia)) as H.
  destruct (check_cl_ctrl 0 3 (Drv app_zero (∅ : memory))) as [ok d']. destruct H as [H _].
  apply H. left. unfold PSPIN_NUM_CLUSTERS. lia.
Defined.

(** ** Enabling the HER generator *)

Section HerEn.
Context `{MmioRam hw ram}.
Implicit Types d : drv hw.

(** The host memory configured for context [i]. *)
Definition host_mem_addr (h : hw) (i : Z) : Z :=
  word_at h (REG_ADDR ag_her_meta_host_mem_addr_0 i)
  + 2 ^ 32 * word_at h (REG_ADDR ag_her_meta_host_mem_addr_1 i).
Definition host_mem_size (h : hw) (i : Z) : Z := word_at h (REG_ADDR ag_her_meta_host_mem_size i).

(** The registers of the HER generator are memory. *)
Definition ctrl_ram : Prop := forall x, 0x800000 <= x < 0x804130 -> ram x.

Lemma her_meta_addr i :
  0 <= i < 4 ->
  REG_ADDR ag_her_meta_host_mem_addr_0 i = 0x804020 + 4 * i /\
  REG_ADDR ag_her_meta_host_mem_addr_1 i = 0x804030 + 4 * i /\
  REG_ADDR ag_her_meta_host_mem_size i = 0x804040 + 4 * i.
Proof.
  intros Hi. assert (i = 0 \/ i = 1 \/ i = 2 \/ i = 3) as [->|[->|[->| ->]]] by lia; by vm_compute.
Qed.

Definition area_matches (h : hw) (i : Z) (a : dma_area_int) : Prop :=
  enabled (phys a) = true ->
  host_mem_addr h i = dma_handle (phys a) /\ host_mem_size h i = dma_size (phys a).

Lemma area_matches_dec h i a :
  enabled (phys a) && (negb (host_mem_addr h i =? dma_handle (phys a)) ||
    negb (host_mem_size h i =? dma_size (phys a))) = false <-> area_matches h i a.
Proof.
  unfold area_matches. destruct (enabled (phys a)); cbn [andb]; [|done].
  rewrite orb_false_iff, !negb_false_iff, !Z.eqb_eq. tauto.
Qed.

(** One turn of the loop reads back the configuration of its context. *)
Lemma check_her_ctxs_cons i a l h :
  ctrl_ram -> 0 <= i < 4 ->
  check_her_ctxs ((i, a) :: l) h
  = if enabled (phys a) && (negb (host_mem_addr h i =? dma_handle (phys a)) ||
       negb (host_mem_size h i =? dma_size (phys a)))
    then (false, h) else check_her_ctxs l h.
Proof.
  intros Hram Hi. destruct (her_meta_addr i Hi) as (E0 & E1 & E2).
  assert (forall k, 0x804020 <= k <= 0x80404c -> ram_word ram k) as Hw
    by (intros k Hk x Hx; apply Hram; lia).
  cbn [check_her_ctxs]. unfold host_mem_addr, host_mem_size. rewrite E0, E1, E2.
  rewrite !ioread32_word by (apply Hw; lia). rewrite Z.shiftl_mul_pow2 by lia.
  pose proof (word_at_range h (0x804020 + 4 * i) (Hw (0x804020 + 4 * i) ltac:(lia))).
  pose proof (word_at_range h (0x804030 + 4 * i) (Hw (0x804030 + 4 * i) ltac:(lia))).
  rewrite (u64_id (word_at h (0x804030 + 4 * i) * 2 ^ 32)), u64_id by lia.
  by rewrite (Z.mul_comm (word_at h (0x804030 + 4 * i))).
Qed.

Lemma check_her_ctxs_spec l h :
  ctrl_ram -> (forall i a, (i, a) ∈ l -> 0 <= i < 4) ->
  exists ok, check_her_ctxs l h = (ok, h) /\
    (ok = true <-> forall i a, (i, a) ∈ l -> area_matches h i a).
Proof.
  intros Hram. induction l as [|[i a] l IH]; intros Hl.
  - exists true. split; [done|]. split; [intros _ i a Hin; set_solver | done].
  - rewrite check_her_ctxs_cons by (done || apply (Hl i a); left).
    pose proof (area_matches_dec h i a) as Hm.
    destruct (enabled (phys a) && _).
    + exists false. split; [done|]. split; [done|]. intros Hall.
      symmetry. apply Hm. apply Hall. by left.
    + destruct IH as (ok & -> & Hok); [intros; eapply Hl; by right|].
      exists ok. split; [done|]. rewrite Hok. split.
      * intros Hall j b [Hj|Hj]%elem_of_cons; [simplify_eq; by apply Hm | by apply Hall].
      * intros Hall j b Hj. apply Hall. by right.
Qed.

Lemma elem_of_her_ctxs app i a :
  (i, a) ∈ her_ctxs app <-> 0 <= i /\ dma_areas app !! Z.to_nat i = Some a.
Proof.
  unfold her_ctxs. rewrite list_elem_of_lookup. setoid_rewrite list_lookup_imap_Some.
  split.
  - intros (j & b & Hb & Heq). simplify_eq. rewrite Nat2Z.id. split; [lia | done].
  - intros (Hi & Ha). exists (Z.to_nat i), a. split; [done|]. f_equal. lia.
Qed.

(** Enabling the HER generator. Writing 0 always opens the configuration;
    a nonzero value is accepted exactly when, for every context whose host
    buffer is mapped, the address and the size in the device's registers are
    those of the buffer the driver allocated. Acceptance closes the
    configuration and touches nothing else; refusal changes nothing. *)
Theorem check_her_en_spec idx reg (d : drv hw) :
  ctrl_ram -> length (dma_areas (d_app d)) = Z.to_nat HER_NUM_HANDLER_CTX ->
  let '(ok, d') := check_her_en idx reg d in
  (ok = true <-> reg = 0 \/
     forall i a, 0 <= i -> dma_areas (d_app d) !! Z.to_nat i = Some a ->
                 area_matches (d_hw d) i a) /\
  d' = (if ok then set_app (set_in_her_conf (reg =? 0)) d else d).
Proof.
  intros Hram Hlen. unfold check_her_en. destruct (Z.eqb_spec reg 0) as [->|Hreg].
  { split; [|done]. split; [by left | done]. }
  destruct (check_her_ctxs_spec (her_ctxs (d_app d)) (d_hw d) Hram) as (ok & -> & Hok).
  { intros i a (Hi & Ha)%elem_of_her_ctxs. apply lookup_lt_Some in Ha.
    rewrite Hlen in Ha. unfold HER_NUM_HANDLER_CTX in Ha. lia. }
  setoid_rewrite elem_of_her_ctxs in Hok.
  destruct d as [app h], ok; cbn [d_hw d_app]; (split; [|done]).
  - split; [|done]. intros _. right. intros i a Hi Ha. by apply Hok.
  - split; [done|]. intros [?|Hall]; [done|]. apply Hok. intros i a (Hi & Ha). by apply Hall.
Qed.
End HerEn.

Lemma check_her_en_spec_witness :
  (check_her_en 0 1 (Drv (set_dma_areas [mk_dma_area_int 0 (mk_ctx_dma_area 0x1000 64 true) 1;
     area0; area0; area0] app_zero) (∅ : memory))).1 = false.
Proof.
  set (d := Drv _ _).
  pose proof (check_her_en_spec (ram := fun _ => True) 0 1 d ltac:(done) ltac:(done)) as H.
  destruct (check_her_en 0 1 d) as [ok d']. destruct H as [[H _] _]. cbn [fst].
  destruct ok; [|done]. destruct (H eq_refl) as [|Hm]; [done|].
  destruct (Hm 0 (mk_dma_area_int 0 (mk_ctx_dma_area 0x1000 64 true) 1) ltac:(lia) eq_refl eq_refl)
    as [Haddr _].
  by vm_compute in Haddr.
Defined.
