(* ===== verification/PspinFile.v ===== *)
(** * The character devices of the PsPIN module: open, read, write, llseek

    [/dev/pspin0] ([TY_MEM]) gives access to the memories of the cluster,
    [/dev/pspin1] ([TY_FIFO]) to the standard output of the cores. The state
    of an open file is its position; the block buffer belongs to the device
    and is shared by all its files. *)

From S2P Require Import Prelude Regs Mmio PspinDev.

Inductive cdev_type := TY_MEM | TY_FIFO.

#[export] Instance cdev_type_eq_dec : EqDecision cdev_type.
Proof. solve_decision. Defined.

(** [struct pspin_cdev]; [block_buffer] is NULL until the first open. *)
Record pspin_cdev := mk_cdev {
  type : cdev_type;
  block_buffer : option (list Z);
  exiting : bool;
}.

Definition set_block_buffer (b : option (list Z)) (c : pspin_cdev) : pspin_cdev :=
  mk_cdev (type c) b (exiting c).

Definition pspin_ndevices : Z := 2.
Definition pspin_block_size : Z := 4096.
Definition pspin_mem_size : Z := 0x800000.

Definition is_mem (c : pspin_cdev) : bool :=
  match type c with TY_MEM => true | TY_FIFO => false end.

(** [round_down(x, 4)] of [linux/math.h]. *)
Definition round_down4 (x : Z) : Z := x - x mod 4.

(** The clamping of [count] that read and write share: not past the end of
    the memory, at most one block, whole words ([mem]: the device is
    [TY_MEM]; the sum is computed in 64 bits). *)
Definition transfer_count (mem : bool) (f_pos count : Z) : Z :=
  let count1 := if mem && (u64 (f_pos + count) >? pspin_mem_size)
                then u64 (pspin_mem_size - f_pos) else count in
  let count2 := if count1 >? pspin_block_size then pspin_block_size else count1 in
  if mem then round_down4 count2 else count2.

(** ** open

    [cdev_ok]: the inode's cdev is the one of the minor; [alloc_ok]: the
    allocation of the block buffer succeeds. The device opened is recorded in
    [filp->private_data], here the returned minor. *)
Definition pspin_open (pspin_major mj mn : Z) (cdev_ok alloc_ok : bool)
    (cdevs : list pspin_cdev) : Z * list pspin_cdev :=
  if negb (mj =? pspin_major) || (mn <? 0) || (mn >=? pspin_ndevices)
  then (- ENODEV, cdevs)
  else match cdevs !! Z.to_nat mn with
  | None => (- ENODEV, cdevs)
  | Some dev =>
      if negb cdev_ok then (- ENODEV, cdevs)
      else match block_buffer dev with
      | Some _ => (0, cdevs)
      | None =>
          if negb alloc_ok then (- ENOMEM, cdevs)
          else (0, <[Z.to_nat mn := set_block_buffer
                       (Some (replicate (Z.to_nat pspin_block_size) 0)) dev]> cdevs)
      end
  end.

(** ** read

    One round of the wait of the FIFO loop: whether the device is being
    removed, and what [wait_event_interruptible_timeout] reports. *)
Inductive wait_result :=
| WaitSignal                 (* -ERESTARTSYS *)
| WaitTimeout                (* 0 *)
| WaitData (reg : Z).        (* the FIFO register held [reg] *)

Record fifo_event := mk_fifo_event {
  ev_exiting : bool;
  ev_wait : wait_result;
}.

(** The outcomes the kernel decides for one call. *)
Record fops_env := mk_fops_env {
  lock_killed : bool;        (* mutex_lock_killable interrupted *)
  copy_fault : bool;         (* copy_to_user / copy_from_user failed *)
}.

(** The result of a read: return value, bytes given to user space, new
    position, device. *)
Record read_result (hw : Type) := mk_read_result {
  rr_ret : Z;
  rr_user : list Z;
  rr_pos : Z;
  rr_cdev : pspin_cdev;
  rr_drv : drv hw;
}.
Arguments mk_read_result {hw}.
Arguments rr_ret {hw}. Arguments rr_user {hw}. Arguments rr_pos {hw}.
Arguments rr_cdev {hw}. Arguments rr_drv {hw}.

Section File.
Context {hw : Type} `{!Mmio hw}.
Implicit Types d : drv hw.

(** [for (i = 0; i < count; i += 4) block_buffer[i..] = ioread32(f_pos + i)],
    with [n] words to go. *)
Fixpoint read_words (n : nat) (f_pos i : Z) (buf : list Z) (h : hw) : list Z * hw :=
  match n with
  | O => (buf, h)
  | S n' =>
      let '(v, h') := ioread32 (PSPIN_MEM (f_pos + i)) h in
      read_words n' f_pos (i + 4) (write_bytes (Z.to_nat i) (le_split 4 v) buf) h'
  end.

(** The FIFO loop, on the events it meets. [None]: the events ran out while
    the loop was still waiting. Otherwise the value of [retval], whether the
    loop was left through [goto out], and the buffer. *)
Fixpoint fifo_loop (events : list fifo_event) (off : Z) (buf : list Z)
    : option (Z * bool * list Z) :=
  if off <? pspin_block_size then
    match events with
    | [] => None
    | ev :: events' =>
        if ev_exiting ev then Some (- EINTR, true, buf)
        else match ev_wait ev with
        | WaitSignal => Some (- ERESTARTSYS, true, buf)
        | WaitTimeout => if off =? 0 then fifo_loop events' off buf
                         else Some (off, false, buf)
        | WaitData reg => fifo_loop events' (off + 4)
                            (write_bytes (Z.to_nat off) (le_split 4 reg) buf)
        end
    end
  else Some (off, false, buf).

Definition pspin_read (env : fops_env) (events : list fifo_event)
    (dev : pspin_cdev) (count f_pos : Z) d : option (read_result hw) :=
  let done retval user pos dev' d' := Some (mk_read_result retval user pos dev' d') in
  if is_mem dev && in_reset (d_app d) then done (- EPERM) [] f_pos dev d
  else if exiting dev then done (- ENODEV) [] f_pos dev d
  else if lock_killed env then done (- EINTR) [] f_pos dev d
  else if is_mem dev && (u64 f_pos >=? pspin_mem_size) then done 0 [] f_pos dev d
  else
    let count3 := transfer_count (is_mem dev) f_pos count in
    let buf := default [] (block_buffer dev) in
    if is_mem dev then
      let '(buf', h) := read_words (Z.to_nat (count3 / 4)) f_pos 0 buf (d_hw d) in
      let dev' := set_block_buffer (Some buf') dev in
      let d' := set_hw h d in
      if copy_fault env then done (- EFAULT) [] f_pos dev' d'
      else done count3 (take (Z.to_nat count3) buf') (f_pos + count3) dev' d'
    else
      match fifo_loop events 0 buf with
      | None => None
      | Some (retval, out, buf') =>
          let dev' := set_block_buffer (Some buf') dev in
          if out then done retval [] f_pos dev' d
          else if copy_fault env then done (- EFAULT) [] f_pos dev' d
          else done retval (take (Z.to_nat retval) buf') f_pos dev' d
      end.

(** ** write *)

(** [for (i = 0; i < count; i += 4) iowrite32(block_buffer[i..], f_pos + i)]. *)
Fixpoint write_words (n : nat) (f_pos i : Z) (buf : list Z) (h : hw) : hw :=
  match n with
  | O => h
  | S n' =>
      write_words n' f_pos (i + 4) buf
        (iowrite32 (le_combine (sub_list (Z.to_nat i) 4 buf)) (PSPIN_MEM (f_pos + i)) h)
  end.

(** The user buffer [user] holds at least [count] bytes. The result: return
    value, new position, device, driver. After a failed copy the contents of
    the block buffer are unspecified (every user overwrites them first); they
    are left as they were. *)
Definition pspin_write (env : fops_env) (dev : pspin_cdev) (user : list Z)
    (count f_pos : Z) d : Z * Z * pspin_cdev * drv hw :=
  if negb (is_mem dev) then (- EINVAL, f_pos, dev, d)
  else if in_reset (d_app d) then (- EPERM, f_pos, dev, d)
  else if lock_killed env then (- EINTR, f_pos, dev, d)
  else if u64 f_pos >=? pspin_mem_size then (- EINVAL, f_pos, dev, d)
  else
    let count3 := transfer_count true f_pos count in
    if copy_fault env then (- EFAULT, f_pos, dev, d)
    else
      let buf := write_bytes 0 (take (Z.to_nat count3) user) (default [] (block_buffer dev)) in
      let h := write_words (Z.to_nat (count3 / 4)) f_pos 0 buf (d_hw d) in
      (count3, f_pos + count3, set_block_buffer (Some buf) dev, set_hw h d).

(** ** llseek *)

Definition SEEK_SET : Z := 0.
Definition SEEK_CUR : Z := 1.
Definition SEEK_END : Z := 2.

(** Returns the return value and the position of the file. *)
Definition pspin_llseek (dev : pspin_cdev) (off whence f_pos : Z) d : Z * Z :=
  let finish newpos :=
    if (newpos <? 0) || (newpos >? pspin_mem_size) then (- EINVAL, f_pos)
    else (newpos, newpos) in
  if negb (is_mem dev) then (- EINVAL, f_pos)
  else if is_mem dev && in_reset (d_app d) then (- EPERM, f_pos)
  else if whence =? SEEK_SET then
    let newpos := pspin_addr_to_corundum (u64 off) in
    if newpos <? 0 then (- EINVAL, f_pos) else finish newpos
  else if whence =? SEEK_CUR then finish (s64 (f_pos + off))
  else if whence =? SEEK_END then finish (s64 (pspin_mem_size + off))
  else (- EINVAL, f_pos).

(** [pspin_release]: mappings outlive the file. *)
Definition pspin_release : Z := 0.

End File.

(** ** Transfer sizes *)

Lemma round_down4_spec x : 0 <= x -> 0 <= round_down4 x <= x /\ round_down4 x mod 4 = 0 /\ x < round_down4 x + 4.
Proof.
  intros. unfold round_down4. pose proof (Z.mod_pos_bound x 4).
  pose proof (Z.div_mod x 4 ltac:(lia)).
  replace (x - x mod 4) with (x / 4 * 4) by lia. rewrite Z.mod_mul by lia. lia.
Qed.

(** The VFS limits a transfer to [MAX_RW_COUNT], less than 2^31 bytes. *)
Lemma transfer_count_spec f_pos count :
  0 <= f_pos < pspin_mem_size -> 0 <= count < 2 ^ 63 ->
  transfer_count true f_pos count
  = round_down4 (Z.min (Z.min count (pspin_mem_size - f_pos)) pspin_block_size).
Proof.
  intros Hp Hc. unfold transfer_count. cbn [andb]. unfold pspin_mem_size, pspin_block_size in *.
  rewrite (u64_id (f_pos + count)), u64_id by lia.
  f_equal. destruct (Z.gtb_spec (f_pos + count) 0x800000);
    match goal with |- context [?a >? ?b] => destruct (Z.gtb_spec a b) end; lia.
Qed.

Lemma transfer_count_bounds f_pos count :
  0 <= f_pos < pspin_mem_size -> 0 <= count < 2 ^ 63 ->
  let n := transfer_count true f_pos count in
  0 <= n <= count /\ n <= pspin_block_size /\ f_pos + n <= pspin_mem_size /\ n = 4 * (n / 4).
Proof.
  intros Hp Hc n. subst n. rewrite transfer_count_spec by done.
  set (m := Z.min _ _). assert (0 <= m) by (unfold m, pspin_block_size; lia).
  pose proof (round_down4_spec m ltac:(lia)) as (Hr & Hm & _).
  pose proof (Z.div_mod (round_down4 m) 4 ltac:(lia)).
  assert (m <= count /\ m <= pspin_mem_size - f_pos /\ m <= pspin_block_size) by (unfold m; lia).
  lia.
Qed.

(** ** The copy loops on memory *)

Section FileRam.
Context `{MmioRam hw ram}.
Implicit Types h : hw.

Lemma read_words_ram n p i buf h :
  0 <= i -> (forall x, p + i <= x < p + i + 4 * Z.of_nat n -> ram x) ->
  (Z.to_nat i + 4 * n <= length buf)%nat ->
  read_words n p i buf h = (write_bytes (Z.to_nat i) (mem_bytes h (p + i) (4 * n)) buf, h).
Proof.
  revert i buf; induction n as [|n IH]; intros i buf Hi Hram Hlen.
  - simpl. unfold write_bytes. simpl. by rewrite Nat.add_0_r, take_drop.
  - cbn [read_words]. unfold PSPIN_MEM.
    assert (ram_word ram (p + i)) by (intros x ?; apply Hram; lia).
    rewrite ioread32_word, mem_bytes_word by done.
    rewrite IH; [| lia | intros; apply Hram; lia |].
    2: { rewrite length_write_bytes by (rewrite length_mem_bytes; lia). lia. }
    f_equal. replace (4 * S n)%nat with (4 + 4 * n)%nat by lia.
    rewrite mem_bytes_app. change (Z.of_nat 4) with 4. rewrite Z.add_assoc.
    replace (Z.to_nat (i + 4)) with (Z.to_nat i + length (mem_bytes h (p + i) 4))%nat
      by (rewrite length_mem_bytes; lia).
    unfold write_bytes at 1.
    rewrite take_write_bytes by lia. unfold write_bytes.
    rewrite <- !app_assoc. do 3 f_equal.
    rewrite !length_app, !length_mem_bytes, !drop_app, !drop_drop.
    rewrite !length_take, !length_mem_bytes.
    rewrite (drop_ge (take _ _)) by (rewrite length_take; lia).
    rewrite (drop_ge (mem_bytes _ _ _)) by (rewrite length_mem_bytes; lia).
    simpl. f_equal. lia.
Qed.

Lemma write_words_byte n p i buf h x b :
  0 <= i -> (forall y, p + i <= y < p + i + 4 * Z.of_nat n -> ram y) -> ram x ->
  (Z.to_nat i + 4 * n <= length buf)%nat -> Forall is_byte buf ->
  (p + i <= x < p + i + 4 * Z.of_nat n -> buf !! Z.to_nat (x - p) = Some b) ->
  (~ (p + i <= x < p + i + 4 * Z.of_nat n) -> byte_at h x = b) ->
  byte_at (write_words n p i buf h) x = b.
Proof.
  revert i h; induction n as [|n IH]; intros i h Hi Hram Hx Hlen Hbuf Hin Hout.
  - apply Hout. lia.
  - cbn [write_words]. unfold PSPIN_MEM.
    apply IH; try done; [lia | intros; apply Hram; lia | lia | intros; apply Hin; lia |].
    intros Hne. rewrite iowrite32_ram by (try done; intros; apply Hram; lia).
    case_bool_decide as Hb; [|apply Hout; lia].
    rewrite <- (Z2Nat.id (x - (p + i))) by lia. apply le_combine_byte.
    + apply Forall_take, Forall_drop, Hbuf.
    + unfold sub_list. rewrite lookup_take, lookup_drop. rewrite decide_True by lia.
      rewrite <- Hin by lia. f_equal. lia.
Qed.

Lemma write_words_bytes n p buf h :
  (forall y, p <= y < p + 4 * Z.of_nat n -> ram y) ->
  (4 * n <= length buf)%nat -> Forall is_byte buf ->
  mem_bytes (write_words n p 0 buf h) p (4 * n) = take (4 * n) buf.
Proof.
  intros Hram Hlen Hbuf. apply list_eq. intros k.
  destruct (decide (k < 4 * n)%nat) as [Hk|Hk].
  - destruct (lookup_lt_is_Some_2 buf k) as [b Hb]; [lia|].
    rewrite lookup_take, decide_True, Hb by lia.
    unfold mem_bytes. rewrite list_lookup_fmap, lookup_seq_lt by lia. simpl. f_equal.
    apply write_words_byte; try done; try lia.
    + intros; apply Hram; lia.
    + apply Hram; lia.
    + intros _. rewrite <- Hb. f_equal. lia.
  - rewrite !lookup_ge_None_2; [done | | ].
    + rewrite length_take. lia.
    + rewrite length_mem_bytes. lia.
Qed.
End FileRam.

(** ** Address translation and seeking *)

Definition in_prog (a : Z) : Prop := PSPIN_PROG_BASE <= a < PSPIN_PROG_BASE + PSPIN_PROG_SIZE.
Definition in_hnd (a : Z) : Prop := PSPIN_HND_BASE <= a < PSPIN_HND_BASE + PSPIN_HND_SIZE.

Ltac unfold_map :=
  unfold in_prog, in_hnd, CHECK_RANGE, PSPIN_PROG_BASE, PSPIN_PROG_SIZE, PSPIN_HND_BASE,
    PSPIN_HND_SIZE, pspin_mem_size in *.

Lemma pspin_addr_to_corundum_prog a :
  in_prog a -> pspin_addr_to_corundum a = a - PSPIN_PROG_BASE + 0x400000.
Proof.
  intros Ha. unfold pspin_addr_to_corundum. unfold_map.
  rewrite (proj2 (Z.leb_le _ _)), (proj2 (Z.ltb_lt _ _)) by lia. cbn [andb].
  by rewrite u64_id, s64_id by lia.
Qed.

Lemma pspin_addr_to_corundum_hnd a :
  in_hnd a -> pspin_addr_to_corundum a = a - PSPIN_HND_BASE.
Proof.
  intros Ha. unfold pspin_addr_to_corundum. unfold_map.
  rewrite (proj2 (Z.leb_gt 0x1d000000 _)) by lia. cbn [andb].
  rewrite (proj2 (Z.leb_le _ _)), (proj2 (Z.ltb_lt _ _)) by lia. cbn [andb].
  by rewrite u64_id, s64_id by lia.
Qed.

Lemma pspin_addr_to_corundum_bad a :
  ~ in_prog a -> ~ in_hnd a -> pspin_addr_to_corundum a = -1.
Proof.
  intros Hp Hh. unfold pspin_addr_to_corundum. unfold_map.
  repeat case_match; bool_to_prop; lia.
Qed.

(** [pspin_addr_to_corundum] maps the program memory and the handler
    memory of the cluster one-to-one into the memory part of the BAR, below
    the control registers, and rejects every other 64-bit address with a
    negative value. *)
Theorem pspin_addr_to_corundum_spec a b :
  (0 <= pspin_addr_to_corundum a <-> in_prog a \/ in_hnd a) /\
  pspin_addr_to_corundum a < pspin_mem_size /\
  (0 <= pspin_addr_to_corundum a ->
   pspin_addr_to_corundum a = pspin_addr_to_corundum b -> a = b).
Proof.
  assert (forall x, in_prog x \/ in_hnd x \/ ~ in_prog x /\ ~ in_hnd x) as Hdec
    by (intros x; unfold_map; lia).
  destruct (Hdec a) as [Ha|[Ha|[Ha Ha']]];
    [rewrite (pspin_addr_to_corundum_prog a) by done
    |rewrite (pspin_addr_to_corundum_hnd a) by done
    |rewrite (pspin_addr_to_corundum_bad a) by done];
    (destruct (Hdec b) as [Hb|[Hb|[Hb Hb']]];
      [rewrite (pspin_addr_to_corundum_prog b) by done
      |rewrite (pspin_addr_to_corundum_hnd b) by done
      |rewrite (pspin_addr_to_corundum_bad b) by done]);
    unfold_map; lia.
Qed.

(** Seeking. On a memory device out of reset, [SEEK_SET] takes a PsPIN
    address and moves to its place in the BAR or fails with [-EINVAL];
    whatever the arguments, a failing seek leaves the position alone and a
    successful one returns the new position, inside the memory. *)
Theorem pspin_llseek_spec {hw} dev off whence f_pos (d : drv hw) :
  let '(ret, pos) := pspin_llseek dev off whence f_pos d in
  (ret < 0 /\ pos = f_pos \/ ret = pos /\ 0 <= pos <= pspin_mem_size) /\
  (type dev = TY_MEM -> in_reset (d_app d) = false -> whence = SEEK_SET ->
   (in_prog (u64 off) -> pos = u64 off - PSPIN_PROG_BASE + 0x400000) /\
   (in_hnd (u64 off) -> pos = u64 off - PSPIN_HND_BASE) /\
   (~ in_prog (u64 off) -> ~ in_hnd (u64 off) -> ret = - EINVAL /\ pos = f_pos)).
Proof.
  destruct (pspin_llseek dev off whence f_pos d) as [ret pos] eqn:E.
  split.
  - unfold pspin_llseek, EINVAL, EPERM in E.
    repeat case_match; bool_to_prop; simplify_eq; try (left; lia); right; split; lia.
  - intros Ht Hr ->. unfold pspin_llseek, is_mem in E. rewrite Ht, Hr in E. cbn [negb andb] in E.
    change (SEEK_SET =? SEEK_SET) with true in E. cbv iota beta in E. split_and!.
    + intros Hp. rewrite pspin_addr_to_corundum_prog in E by done. unfold_map.
      repeat case_match; bool_to_prop; simplify_eq; lia.
    + intros Hp. rewrite pspin_addr_to_corundum_hnd in E by done. unfold_map.
      repeat case_match; bool_to_prop; simplify_eq; lia.
    + intros Hp Hh. rewrite pspin_addr_to_corundum_bad in E by done. simpl in E. by simplify_eq.
Qed.

(** ** Read and write *)

(** A memory device that has been opened. *)
Definition cdev_ready (dev : pspin_cdev) (buf : list Z) : Prop :=
  type dev = TY_MEM /\ exiting dev = false /\ block_buffer dev = Some buf /\
  length buf = Z.to_nat pspin_block_size /\ Forall is_byte buf.

Definition env_ok : fops_env := mk_fops_env false false.

Section Transfer.
Context `{MmioRam hw ram}.
Implicit Types d : drv hw.

Lemma pspin_write_ready dev buf user count f_pos d :
  cdev_ready dev buf -> in_reset (d_app d) = false -> 0 <= f_pos < pspin_mem_size ->
  let n := transfer_count true f_pos count in
  let buf' := write_bytes 0 (take (Z.to_nat n) user) buf in
  pspin_write env_ok dev user count f_pos d
  = (n, f_pos + n, set_block_buffer (Some buf') dev,
     set_hw (write_words (Z.to_nat (n / 4)) f_pos 0 buf' (d_hw d)) d).
Proof.
  intros (Ht & _ & Hb & _) Hr Hp. unfold pspin_write, is_mem. rewrite Ht, Hr, Hb. cbn [negb].
  unfold pspin_mem_size in *. rewrite u64_id by lia.
  rewrite Z.geb_leb, (proj2 (Z.leb_gt _ _)) by lia. done.
Qed.

Lemma pspin_read_ready dev buf count f_pos d :
  cdev_ready dev buf -> in_reset (d_app d) = false ->
  0 <= f_pos < pspin_mem_size -> 0 <= count < 2 ^ 63 ->
  (forall x, 0 <= x < pspin_mem_size -> ram x) ->
  let n := transfer_count true f_pos count in
  exists buf',
  pspin_read env_ok [] dev count f_pos d
  = Some (mk_read_result n (mem_bytes (d_hw d) f_pos (Z.to_nat n)) (f_pos + n)
            (set_block_buffer (Some buf') dev) d).
Proof.
  intros (Ht & He & Hb & Hl & _) Hr Hp Hc Hram n.
  pose proof (transfer_count_bounds f_pos count Hp Hc) as (Hn & Hnb & Hnm & Hn4).
  fold n in Hn, Hnb, Hnm, Hn4.
  unfold pspin_read, is_mem. rewrite Ht, Hr, He, Hb. cbn [andb lock_killed copy_fault env_ok].
  rewrite u64_id by (unfold pspin_mem_size in *; lia).
  rewrite Z.geb_leb, (proj2 (Z.leb_gt _ _)) by lia. fold n. cbn [default from_option].
  unfold pspin_block_size in *.
  rewrite read_words_ram; [| lia | intros; apply Hram; lia | unfold id; lia].
  rewrite Z.add_0_r. eexists. do 2 f_equal.
  - unfold id. replace (4 * Z.to_nat (n / 4))%nat with (Z.to_nat n) by lia.
    rewrite <- (length_mem_bytes (d_hw d) f_pos (Z.to_nat n)) at 1.
    apply (take_write_bytes 0). lia.
  - by destruct d.
Qed.
End Transfer.


(** An open memory device on the all-memory BAR. *)
Definition dev_mem0 : pspin_cdev :=
  mk_cdev TY_MEM (Some (replicate (Z.to_nat pspin_block_size) 0)) false.
Definition drv_mem0 : drv memory := Drv app_zero ∅.

Lemma dev_mem0_ready : cdev_ready dev_mem0 (replicate (Z.to_nat pspin_block_size) 0).
Proof.
  split_and!; try done. apply Forall_replicate. unfold is_byte. lia.
Qed.


Section InBounds.
Context {hw : Type} `{!Mmio hw}.

Definition acc_in_mem (x : access) : Prop :=
  0 <= access_addr x /\ access_addr x + 4 <= pspin_mem_size.

Lemma read_words_log n p i buf (h : logged hw) :
  0 <= p + i -> p + i + 4 * Z.of_nat n <= pspin_mem_size ->
  exists accs, l_log (read_words n p i buf h).2 = l_log h ++ accs /\ Forall acc_in_mem accs.
Proof.
  revert i buf h; induction n as [|n IH]; intros i buf h H0 H1.
  - exists []. by rewrite app_nil_r.
  - cbn [read_words]. cbn [ioread32 logged_mmio]. unfold PSPIN_MEM.
    destruct (ioread32 (p + i) (l_dev h)) as [v h'].
    edestruct (IH (i + 4)) as (accs & Hl & Hf); [lia | lia |].
    rewrite Hl. cbn [l_log]. rewrite <- app_assoc. eexists; split; [done|].
    constructor; [|done]. unfold acc_in_mem. simpl. lia.
Qed.

Lemma write_words_log n p i buf (h : logged hw) :
  0 <= p + i -> p + i + 4 * Z.of_nat n <= pspin_mem_size ->
  exists accs, l_log (write_words n p i buf h) = l_log h ++ accs /\ Forall acc_in_mem accs.
Proof.
  revert i h; induction n as [|n IH]; intros i h H0 H1.
  - exists []. by rewrite app_nil_r.
  - cbn [write_words]. edestruct (IH (i + 4)) as (accs & Hl & Hf); [lia | lia |].
    rewrite Hl. cbn [iowrite32 logged_mmio l_log]. rewrite <- app_assoc.
    eexists; split; [done|]. constructor; [|done]. unfold acc_in_mem. simpl. unfold PSPIN_MEM. lia.
Qed.
End InBounds.



(** ** The standard-output FIFO *)

(** The words the FIFO delivered during the events. *)
Definition fifo_data (events : list fifo_event) : list Z :=
  omap (fun ev => match ev_wait ev with WaitData reg => Some reg | _ => None end) events.

Lemma fifo_data_cons ev events :
  fifo_data (ev :: events)
  = match ev_wait ev with WaitData reg => reg :: fifo_data events | _ => fifo_data events end.
Proof. unfold fifo_data. simpl. by destruct (ev_wait ev). Qed.

Definition words_bytes (ws : list Z) : list Z := ws ≫= le_split 4.

Lemma length_words_bytes ws : length (words_bytes ws) = (4 * length ws)%nat.
Proof.
  induction ws as [|w ws IH]; [done|].
  change (words_bytes (w :: ws)) with (le_split 4 w ++ words_bytes ws).
  rewrite length_app, length_le_split, IH. simpl. lia.
Qed.

Lemma fifo_loop_spec events ws buf ret out buf' :
  length buf = Z.to_nat pspin_block_size ->
  (4 * length ws <= length buf)%nat ->
  take (4 * length ws) buf = words_bytes ws ->
  fifo_loop events (4 * Z.of_nat (length ws)) buf = Some (ret, out, buf') ->
  (out = true /\ ret < 0) \/
  (out = false /\ exists ws', ws' `prefix_of` fifo_data events /\
     ret = 4 * Z.of_nat (length (ws ++ ws')) /\ 0 < ret <= pspin_block_size /\
     take (Z.to_nat ret) buf' = words_bytes (ws ++ ws')).
Proof.
  revert ws buf; induction events as [|ev events IH]; intros ws buf Hl Hle Htake Hloop;
    cbn [fifo_loop] in Hloop; unfold pspin_block_size in *;
    destruct (Z.ltb_spec (4 * Z.of_nat (length ws)) 4096) as [Hlt|Hge].
  - done.
  - simplify_eq. right. split; [done|]. exists []. rewrite app_nil_r.
    split_and!; [apply prefix_nil | done | lia | lia |]. rewrite <- Htake. f_equal. lia.
  - destruct (ev_exiting ev); [simplify_eq; left; split; [done | unfold EINTR; lia]|].
    destruct (ev_wait ev) as [| |reg] eqn:Ew.
    + simplify_eq. left. split; [done | unfold ERESTARTSYS; lia].
    + destruct (Z.eqb_spec (4 * Z.of_nat (length ws)) 0) as [H0|H0].
      * destruct (IH _ _ Hl Hle Htake Hloop) as [Ho|(Ho & ws' & Hpre & Hrest)]; [by left|].
        right. split; [done|]. exists ws'. split; [|done]. by rewrite fifo_data_cons, Ew.
      * simplify_eq. right. split; [done|]. exists []. rewrite app_nil_r.
        split_and!; [apply prefix_nil | done | lia | lia |]. rewrite <- Htake. f_equal. lia.
    + replace (4 * Z.of_nat (length ws) + 4) with (4 * Z.of_nat (length (ws ++ [reg])))
        in Hloop by (rewrite length_app; simpl; lia).
      apply IH in Hloop.
      * destruct Hloop as [Ho|(Ho & ws' & Hpre & Hrest)]; [by left|].
        right. split; [done|]. exists (reg :: ws').
        rewrite <- app_assoc in Hrest. split; [|done].
        rewrite fifo_data_cons, Ew. by apply prefix_cons.
      * rewrite length_write_bytes; [done | rewrite length_le_split; lia].
      * rewrite length_write_bytes, length_app by (rewrite length_le_split; lia). simpl. lia.
      * replace (4 * length (ws ++ [reg]))%nat
          with (Z.to_nat (4 * Z.of_nat (length ws)) + length (le_split 4 reg))%nat
          by (rewrite length_app, length_le_split; simpl; lia).
        rewrite take_write_bytes by lia. unfold words_bytes in *. rewrite bind_app. f_equal.
        rewrite <- Htake. f_equal. lia.
  - simplify_eq. right. split; [done|]. exists []. rewrite app_nil_r.
    split_and!; [apply prefix_nil | done | lia | lia |]. rewrite <- Htake. f_equal. lia.
Qed.

(** The loop returns once the FIFO has delivered a full block. *)
Lemma fifo_loop_returns events off buf :
  0 <= off -> pspin_block_size - off <= 4 * Z.of_nat (length (fifo_data events)) ->
  is_Some (fifo_loop events off buf).
Proof.
  revert off buf; induction events as [|ev events IH]; intros off buf H0 Hlen;
    cbn [fifo_loop]; destruct (Z.ltb_spec off pspin_block_size); try by eauto.
  - simpl in Hlen. lia.
  - destruct (ev_exiting ev); [by eauto|]. rewrite fifo_data_cons in Hlen.
    destruct (ev_wait ev) as [| |reg]; [by eauto | |].
    + destruct (off =? 0); [by apply IH | by eauto].
    + cbn [length] in Hlen. apply IH; lia.
Qed.

(** Reading the standard output. A successful read of the FIFO device
    returns whole words in the order the FIFO delivered them, at least one
    (an empty FIFO never looks like end of file) and at most a block, and
    leaves the position alone; and the call does return as soon as a block
    has been delivered. The size of the caller's buffer plays no part: a read
    of any [count] gives the same bytes, up to a whole block. *)
Theorem pspin_read_fifo_spec {hw} `{!Mmio hw} env events dev buf count f_pos (d : drv hw) :
  type dev = TY_FIFO -> exiting dev = false -> block_buffer dev = Some buf ->
  length buf = Z.to_nat pspin_block_size -> lock_killed env = false -> copy_fault env = false ->
  (forall r, pspin_read env events dev count f_pos d = Some r -> 0 <= rr_ret r ->
     exists ws, ws `prefix_of` fifo_data events /\ rr_user r = words_bytes ws /\
       rr_ret r = 4 * Z.of_nat (length ws) /\ 0 < rr_ret r <= pspin_block_size /\
       rr_pos r = f_pos /\ rr_drv r = d) /\
  (pspin_block_size <= 4 * Z.of_nat (length (fifo_data events)) ->
   is_Some (pspin_read env events dev count f_pos d)) /\
  (forall count', pspin_read env events dev count' f_pos d = pspin_read env events dev count f_pos d).
Proof.
  intros Ht He Hb Hl Hk Hf. unfold pspin_read, is_mem. rewrite Ht, He, Hb, Hk. cbn [andb default from_option].
  unfold id. split_and!; [| |done].
  - intros r Hread Hret. destruct (fifo_loop events 0 buf) as [[[ret out] buf']|] eqn:E; [|done].
    apply (fifo_loop_spec events []) in E; [| done | simpl; lia | done].
    destruct E as [[-> Hneg]|[-> (ws & Hpre & Hn & Hpos & Htake)]].
    + simplify_eq. cbn [rr_ret] in *. lia.
    + rewrite Hf in Hread. simplify_eq. exists ws. cbn [rr_ret rr_user rr_pos rr_drv] in *.
      by rewrite Htake.
  - intros Hlen. destruct (fifo_loop_returns events 0 buf) as [[[ret out] buf'] ->];
      [lia | lia |]. destruct out; [by eauto|]. rewrite Hf. by eauto.
Qed.

Lemma pspin_read_fifo_spec_witness :
  let dev := mk_cdev TY_FIFO (Some (replicate 4096 0)) false in
  let events := [mk_fifo_event false WaitTimeout; mk_fifo_event false (WaitData 0x21);
                 mk_fifo_event false WaitTimeout] in
  exists ws, ws `prefix_of` [0x21] /\ words_bytes ws = [0x21; 0; 0; 0].
Proof.
  intros dev events.
  destruct (pspin_read_fifo_spec env_ok events dev (replicate 4096 0) 4096 0 drv_mem0) as [H _];
    try reflexivity.
  destruct (H _ eq_refl) as (ws & Hpre & Hu & _); [by vm_compute|].
  exists ws. split; [exact Hpre | rewrite <- Hu; by vm_compute].
Defined.
