(* ===== verification/PspinDma.v ===== *)
(** * Host memory of the PsPIN module: ioctl, mmap and the vma callbacks

    Each of the four handler contexts can have one host memory area, allocated
    by [mmap] on [/dev/pspin0] and freed when its last mapping goes. [ioctl]
    tells user space about an area and gives it single-word access to the
    memories of the cluster. *)

From S2P Require Import Prelude Regs Mmio PspinDev PspinFile.

Definition PAGE_SIZE : Z := 4096.

(** The array access [app->dma_areas[ctx_id]]: [None] when the index is
    outside of the array, where the C program has no defined behaviour. *)
Definition dma_area (a : mqnic_app_pspin) (ctx_id : Z) : option dma_area_int :=
  if (0 <=? ctx_id) && (ctx_id <? HER_NUM_HANDLER_CTX)
  then dma_areas a !! Z.to_nat ctx_id else None.

Definition set_dma_area (ctx_id : Z) (x : dma_area_int) (a : mqnic_app_pspin) : mqnic_app_pspin :=
  set_dma_areas (<[Z.to_nat ctx_id := x]> (dma_areas a)) a.

Lemma dma_area_Some a ctx x :
  dma_area a ctx = Some x <-> (0 <= ctx < 4) /\ dma_areas a !! Z.to_nat ctx = Some x.
Proof.
  unfold dma_area, HER_NUM_HANDLER_CTX. destruct (Z.leb_spec 0 ctx), (Z.ltb_spec ctx 4); simpl;
    (split; [intros; (split; [lia | done]) || done | intros []; done || lia]).
Qed.

Lemma dma_area_set_eq a ctx x y :
  dma_area a ctx = Some y -> dma_area (set_dma_area ctx x a) ctx = Some x.
Proof.
  rewrite !dma_area_Some. intros [Hc Hy]. split; [done|]. simpl.
  apply list_lookup_insert_eq. by eapply lookup_lt_Some.
Qed.

Lemma set_dma_area_twice ctx x y a :
  set_dma_area ctx x (set_dma_area ctx y a) = set_dma_area ctx x a.
Proof. unfold set_dma_area, set_dma_areas. simpl. by rewrite list_insert_insert_eq. Qed.

(** ** ioctl

    The message of user space is the 24 bytes of [struct pspin_ioctl_msg]:
    a union with [query.req.ctx_id], [write.addr] and [read.word] at offset 0,
    [write.data] at offset 8 and [query.resp] over all of it. *)

Inductive ioctl_cmd :=
| PSPIN_HOSTDMA_QUERY
| PSPIN_HOST_WRITE
| PSPIN_HOST_READ
| IoctlOther (cmd : Z).

Definition msg_u64 (off : nat) (msg : list Z) : Z := le_combine (sub_list off 8 msg).
Definition msg_s32 (off : nat) (msg : list Z) : Z := s32 (le_combine (sub_list off 4 msg)).

(** The bytes of a [struct ctx_dma_area], padding included (zero, from
    [devm_kzalloc]). *)
Definition ctx_dma_area_bytes (x : ctx_dma_area) : list Z :=
  le_split 8 (dma_handle x) ++ le_split 8 (dma_size x) ++
  [Z.b2z (enabled x)] ++ replicate 7 0.

(** Which of the copies from and to user space fault, in program order. *)
Record ioctl_env := mk_ioctl_env {
  fault1 : bool;
  fault2 : bool;
}.

Section Dma.
Context {hw : Type} `{!Mmio hw}.
Implicit Types d : drv hw.

(** [None]: an access out of the array bounds. Otherwise the return value,
    the message and the driver afterwards. *)
Definition pspin_ioctl (env : ioctl_env) (cdev : pspin_cdev) (cmd : ioctl_cmd)
    (msg : list Z) d : option (Z * list Z * drv hw) :=
  if negb (is_mem cdev) then Some (- ENOTTY, msg, d)
  else match cmd with
  | PSPIN_HOSTDMA_QUERY =>
      if fault1 env then Some (- EFAULT, msg, d)
      else
        let ctx_id := msg_s32 0 msg in
        if ctx_id >=? HER_NUM_HANDLER_CTX then Some (- EINVAL, msg, d)
        else match dma_area (d_app d) ctx_id with
        | None => None
        | Some area =>
            if fault2 env then Some (- EFAULT, msg, d)
            else Some (0, write_bytes 0 (ctx_dma_area_bytes (phys area)) msg, d)
        end
  | PSPIN_HOST_WRITE =>
      if fault1 env then Some (- EFAULT, msg, d)
      else
        let corundum_addr := pspin_addr_to_corundum (msg_u64 0 msg) in
        if corundum_addr <? 0 then Some (- EFAULT, msg, d)
        else if fault2 env then Some (- EFAULT, msg, d)
        else Some (0, msg, set_hw (iowrite64_lo_hi (msg_u64 8 msg) (PSPIN_MEM corundum_addr) (d_hw d)) d)
  | PSPIN_HOST_READ =>
      if fault1 env then Some (- EFAULT, msg, d)
      else
        let corundum_addr := pspin_addr_to_corundum (msg_u64 0 msg) in
        if corundum_addr <? 0 then Some (- EFAULT, msg, d)
        else
          let '(data, h) := ioread64_lo_hi (PSPIN_MEM corundum_addr) (d_hw d) in
          if fault2 env then Some (- EFAULT, msg, set_hw h d)
          else Some (0, write_bytes 0 (le_split 8 data) msg, set_hw h d)
  | IoctlOther _ => Some (- ENOTTY, msg, d)
  end.

(** ** The vma callbacks

    A vma carries the context id of its area in [vm_private_data]. *)

Definition pspin_vma_open (ctx_id : Z) d : option (drv hw) :=
  match dma_area (d_app d) ctx_id with
  | None => None
  | Some area =>
      Some (set_app (set_dma_area ctx_id
              (mk_dma_area_int (cpu_addr area) (phys area) (s32 (ref_count area + 1)))) d)
  end.

Definition pspin_vma_may_split (ctx_id addr : Z) : Z := - EINVAL.

(** Returns the allocation handed back to [dma_free_coherent], if any, as
    (size, cpu address, bus address). *)
Definition pspin_vma_close (ctx_id : Z) d : option (option (Z * Z * Z) * drv hw) :=
  match dma_area (d_app d) ctx_id with
  | None => None
  | Some area =>
      if ref_count area =? 0 then Some (None, d)
      else
        let ref' := s32 (ref_count area - 1) in
        if (ref' =? 0) && enabled (phys area) then
          let p := phys area in
          Some (Some (dma_size p, cpu_addr area, dma_handle p),
                set_app (set_dma_area ctx_id
                  (mk_dma_area_int (cpu_addr area)
                     (mk_ctx_dma_area (dma_handle p) (dma_size p) false) ref')) d)
        else
          Some (None, set_app (set_dma_area ctx_id
                        (mk_dma_area_int (cpu_addr area) (phys area) ref')) d)
  end.

(** ** mmap

    The kernel's part: the request and the results of its services.
    [dma_alloc_coherent] gives a cpu address (not 0) and a bus address. *)
Record mmap_req := mk_mmap_req {
  vm_len : Z;               (* vm_end - vm_start *)
  vm_pgoff : Z;
  vm_shared : bool;
}.

Record mmap_env := mk_mmap_env {
  kzalloc_ok : bool;
  dma_alloc : option (Z * Z);
  iomap_ok : bool;
}.

(** [None]: a division by zero or an index out of the array. Otherwise the
    return value, the context of the vma on success, and the driver. *)
Definition pspin_mmap (req : mmap_req) (env : mmap_env) d : option (Z * option Z * drv hw) :=
  let num_pages_requested := s32 (vm_len req / PAGE_SIZE) in
  if num_pages_requested =? 0 then None
  else
    let ctx_id := s32 (vm_pgoff req / u64 num_pages_requested) in
    if ctx_id >=? HER_NUM_HANDLER_CTX then Some (- EINVAL, None, d)
    else if negb (vm_shared req) then Some (- EINVAL, None, d)
    else if negb (kzalloc_ok env) then Some (- ENOMEM, None, d)
    else match dma_area (d_app d) ctx_id with
    | None => None
    | Some area =>
        if enabled (phys area) then Some (- EAGAIN, None, d)
        else
          let size := u64 (num_pages_requested * PAGE_SIZE) in
          match dma_alloc env with
          | None =>
              (* dma_size is set and cpu_addr is NULL after the failed call *)
              Some (- ENOMEM, None,
                    set_app (set_dma_area ctx_id
                      (mk_dma_area_int 0 (mk_ctx_dma_area (dma_handle (phys area)) size false)
                         (ref_count area))) d)
          | Some (cpu, handle) =>
              let d1 := set_app (set_dma_area ctx_id
                          (mk_dma_area_int cpu (mk_ctx_dma_area handle size true)
                             (ref_count area))) d in
              if negb (iomap_ok env) then Some (- EIO, None, d1)
              else match pspin_vma_open ctx_id d1 with
                   | None => None
                   | Some d2 => Some (0, Some ctx_id, d2)
                   end
          end
    end.
End Dma.

(** ** The life of the host memory areas

    The areas together with what the kernel keeps for them: the live mappings
    (each with the context of its vma), the live allocations of
    [dma_alloc_coherent], and whether something was freed that was not live. *)
Record dma_sys (hw : Type) := mk_dma_sys {
  s_drv : drv hw;
  s_vmas : list Z;
  s_allocs : list (Z * Z * Z);
  s_bad_free : bool;
}.
Arguments mk_dma_sys {hw}. Arguments s_drv {hw}. Arguments s_vmas {hw}.
Arguments s_allocs {hw}. Arguments s_bad_free {hw}.

(** What can happen to the areas: an mmap call, a mapping duplicated by the
    kernel (fork), a mapping removed, a register written through sysfs. *)
Inductive dma_event :=
| EvMmap (req : mmap_req) (env : mmap_env)
| EvDup (ctx_id : Z)
| EvClose (ctx_id : Z)
| EvStore (attr : pspin_attribute) (buf : string).

Section DmaSys.
Context {hw : Type} `{!Mmio hw}.

Definition dma_step (ev : dma_event) (s : dma_sys hw) : option (dma_sys hw) :=
  match ev with
  | EvMmap req env =>
      match pspin_mmap req env (s_drv s) with
      | None => None
      | Some (_, None, d) => Some (mk_dma_sys d (s_vmas s) (s_allocs s) (s_bad_free s))
      | Some (_, Some ctx, d) =>
          match dma_area (d_app d) ctx with
          | None => None
          | Some a => Some (mk_dma_sys d (ctx :: s_vmas s)
                        ((dma_size (phys a), cpu_addr a, dma_handle (phys a)) :: s_allocs s)
                        (s_bad_free s))
          end
      end
  | EvDup ctx =>
      match pspin_vma_open ctx (s_drv s) with
      | None => None
      | Some d => Some (mk_dma_sys d (ctx :: s_vmas s) (s_allocs s) (s_bad_free s))
      end
  | EvClose ctx =>
      match pspin_vma_close ctx (s_drv s), remove_one ctx (s_vmas s) with
      | Some (None, d), Some vmas => Some (mk_dma_sys d vmas (s_allocs s) (s_bad_free s))
      | Some (Some x, d), Some vmas =>
          match remove_one x (s_allocs s) with
          | Some allocs => Some (mk_dma_sys d vmas allocs (s_bad_free s))
          | None => Some (mk_dma_sys d vmas (s_allocs s) true)
          end
      | _, _ => None
      end
  | EvStore attr buf =>
      Some (mk_dma_sys (pspin_reg_store attr buf (s_drv s)).2 (s_vmas s) (s_allocs s) (s_bad_free s))
  end.

(** What the kernel guarantees of the events: callbacks only for live
    mappings, page-multiple lengths, fewer than 2^31 mappings
    ([vm.max_map_count]); and, of the request, that its context number fits in
    an [int] and that mapping the pages succeeds (the failure is treated
    separately below). *)
Definition ev_ok (s : dma_sys hw) (ev : dma_event) : Prop :=
  match ev with
  | EvMmap req env =>
      0 < vm_len req < 2 ^ 43 /\ vm_len req mod PAGE_SIZE = 0 /\
      0 <= vm_pgoff req /\ vm_pgoff req / (vm_len req / PAGE_SIZE) < 2 ^ 31 /\
      iomap_ok env = true /\ Z.of_nat (length (s_vmas s)) < 2 ^ 31 - 1
  | EvDup ctx => ctx ∈ s_vmas s /\ Z.of_nat (length (s_vmas s)) < 2 ^ 31 - 1
  | EvClose ctx => ctx ∈ s_vmas s
  | EvStore _ _ => True
  end.

Inductive dma_step_rel : dma_sys hw -> dma_sys hw -> Prop :=
| dma_step_ev s ev s' : ev_ok s ev -> dma_step ev s = Some s' -> dma_step_rel s s'.

(** After probe: no area, no mapping. *)
Definition dma_init (a : mqnic_app_pspin) (h : hw) : dma_sys hw :=
  mk_dma_sys (Drv (set_dma_areas (dma_areas app_zero) a) h) [] [] false.

(** *** The invariant *)

Definition maps_of (ctx : Z) (vmas : list Z) : nat := length (filter (fun c => c = ctx) vmas).

Definition area_alloc (a : dma_area_int) : option (Z * Z * Z) :=
  if enabled (phys a) then Some (dma_size (phys a), cpu_addr a, dma_handle (phys a)) else None.

Definition areas_ok (vmas : list Z) (areas : list dma_area_int) : Prop :=
  length areas = 4%nat /\
  forall i a, areas !! i = Some a ->
    ref_count a = Z.of_nat (maps_of (Z.of_nat i) vmas) /\
    enabled (phys a) = bool_decide (0 < ref_count a).

Record dma_inv (s : dma_sys hw) : Prop := {
  inv_areas : areas_ok (s_vmas s) (dma_areas (d_app (s_drv s)));
  inv_vmas : Forall (fun c => 0 <= c < 4) (s_vmas s);
  inv_allocs : s_allocs s ≡ₚ omap area_alloc (dma_areas (d_app (s_drv s)));
  inv_free : s_bad_free s = false;
  inv_len : Z.of_nat (length (s_vmas s)) < 2 ^ 31;
}.

Lemma maps_of_length ctx vmas : (maps_of ctx vmas <= length vmas)%nat.
Proof. apply length_filter. Qed.

Lemma maps_of_cons_eq ctx vmas : maps_of ctx (ctx :: vmas) = S (maps_of ctx vmas).
Proof. unfold maps_of. by rewrite filter_cons_True. Qed.

Lemma maps_of_cons_ne ctx c vmas : c <> ctx -> maps_of ctx (c :: vmas) = maps_of ctx vmas.
Proof. intros. unfold maps_of. by rewrite filter_cons_False. Qed.

Lemma maps_of_remove ctx c vmas vmas' :
  remove_one c vmas = Some vmas' -> maps_of ctx vmas = maps_of ctx (c :: vmas').
Proof.
  intros H%remove_one_Some. unfold maps_of. by rewrite H.
Qed.

Lemma maps_of_elem ctx vmas : ctx ∈ vmas -> (0 < maps_of ctx vmas)%nat.
Proof.
  intros H. unfold maps_of. destruct (filter _ vmas) as [|c l] eqn:E; [|simpl; lia].
  exfalso. assert (ctx ∈ filter (fun c => c = ctx) vmas) as Hin by (by apply list_elem_of_filter).
  rewrite E in Hin. set_solver.
Qed.

(** Replacing one area re-establishes the invariant of the areas. *)
Lemma areas_ok_insert vmas vmas' areas i a :
  areas_ok vmas areas -> (i < 4)%nat ->
  (forall j, j <> i -> maps_of (Z.of_nat j) vmas' = maps_of (Z.of_nat j) vmas) ->
  ref_count a = Z.of_nat (maps_of (Z.of_nat i) vmas') ->
  enabled (phys a) = bool_decide (0 < ref_count a) ->
  areas_ok vmas' (<[i := a]> areas).
Proof.
  intros [Hlen Hareas] Hi Hother Href Hen. split; [by rewrite length_insert|].
  intros j b Hj. destruct (decide (j = i)) as [->|Hne].
  - rewrite list_lookup_insert_eq in Hj by lia. by simplify_eq.
  - rewrite list_lookup_insert_ne in Hj by done. rewrite Hother by done. by apply Hareas.
Qed.

Lemma omap_insert_perm {A B} (f : A -> option B) (l : list A) i x y :
  l !! i = Some y ->
  option_list (f y) ++ omap f (<[i := x]> l) ≡ₚ option_list (f x) ++ omap f l.
Proof.
  intros Hi. rewrite insert_take_drop by (by eapply lookup_lt_Some).
  rewrite <- (take_drop_middle l i y Hi) at 3.
  rewrite !omap_app. cbn [omap list_omap].
  change (list_omap ?g) with (@omap _ _ _ _ g).
  destruct (f x), (f y); simpl; solve_Permutation.
Qed.

(** The two ways [pspin_mmap] changes the areas when mapping succeeds: it
    fills in a free area, or records the failed allocation. *)
Lemma pspin_mmap_inv req env (d : drv hw) ret o d' :
  pspin_mmap req env d = Some (ret, o, d') -> iomap_ok env = true ->
  (o = None /\ d' = d) \/
  (exists ctx area x, dma_area (d_app d) ctx = Some area /\ enabled (phys area) = false /\
     d' = set_app (set_dma_area ctx x) d /\ o = None /\
     ref_count x = ref_count area /\ enabled (phys x) = false) \/
  (exists ctx area x, dma_area (d_app d) ctx = Some area /\ enabled (phys area) = false /\
     d' = set_app (set_dma_area ctx x) d /\ o = Some ctx /\ ret = 0 /\
     ref_count x = s32 (ref_count area + 1) /\ enabled (phys x) = true).
Proof.
  intros H Hio. unfold pspin_mmap in H. rewrite Hio in H. cbn [negb] in H.
  repeat (case_match; simplify_eq; try by left).
  - match goal with Hopen : pspin_vma_open _ _ = Some _ |- _ =>
      unfold pspin_vma_open in Hopen; cbn [set_app d_app d_hw] in Hopen;
      erewrite dma_area_set_eq in Hopen by eassumption; simplify_eq
    end.
    right; right. do 3 eexists. split; [eassumption|]. split; [done|].
    split; [unfold set_app; cbn [d_app d_hw]; by rewrite set_dma_area_twice | done].
  - right; left. do 3 eexists. split; [eassumption|]. split; [done|]. by split; [reflexivity|].
Qed.

Lemma pspin_reg_store_areas attr buf (d : drv hw) :
  dma_areas (d_app (pspin_reg_store attr buf d).2) = dma_areas (d_app d).
Proof.
  unfold pspin_reg_store, run_check, check_cl_ctrl, check_me_en, check_her_en,
    check_me_in_conf, check_her_in_conf.
  repeat case_match; simplify_eq; done.
Qed.

Lemma omap_insert_same {A B} (f : A -> option B) (l : list A) i x y :
  l !! i = Some y -> f x = f y -> omap f (<[i := x]> l) ≡ₚ omap f l.
Proof.
  intros Hi Hxy. pose proof (omap_insert_perm f l i x y Hi) as H. rewrite Hxy in H.
  by apply Permutation_app_inv_l in H.
Qed.

(** An area of a state of the invariant, by its context. *)
Lemma inv_area s ctx area :
  dma_inv s -> dma_area (d_app (s_drv s)) ctx = Some area ->
  0 <= ctx < 4 /\ dma_areas (d_app (s_drv s)) !! Z.to_nat ctx = Some area /\
  ref_count area = Z.of_nat (maps_of ctx (s_vmas s)) /\
  enabled (phys area) = bool_decide (0 < ref_count area).
Proof.
  intros Hinv [Hc Hl]%dma_area_Some.
  destruct (inv_areas s Hinv) as [_ Hareas]. destruct (Hareas _ _ Hl) as [Href Hen].
  rewrite Z2Nat.id in Href by lia. done.
Qed.

(** One area of the state is replaced, with the mappings changing for its
    context only. *)
Lemma dma_inv_update s ctx area x vmas allocs :
  dma_inv s -> dma_area (d_app (s_drv s)) ctx = Some area ->
  (forall c, c <> ctx -> maps_of c vmas = maps_of c (s_vmas s)) ->
  Forall (fun c => 0 <= c < 4) vmas -> Z.of_nat (length vmas) < 2 ^ 31 ->
  ref_count x = Z.of_nat (maps_of ctx vmas) ->
  enabled (phys x) = bool_decide (0 < ref_count x) ->
  option_list (area_alloc area) ++ allocs ≡ₚ option_list (area_alloc x) ++ s_allocs s ->
  dma_inv (mk_dma_sys (set_app (set_dma_area ctx x) (s_drv s)) vmas allocs false).
Proof.
  intros Hinv Harea Hother Hvmas Hlen Href Hen Hperm.
  destruct (inv_area _ _ _ Hinv Harea) as (Hc & Hl & _).
  split; cbn [s_drv s_vmas s_allocs s_bad_free set_app d_app set_dma_area set_dma_areas dma_areas];
    [| done | | done | done].
  - apply (areas_ok_insert (s_vmas s)); [apply Hinv | lia | | by rewrite Z2Nat.id by lia | done].
    intros j Hj. apply Hother. lia.
  - rewrite (inv_allocs s Hinv) in Hperm.
    rewrite <- (omap_insert_perm area_alloc _ _ x area Hl) in Hperm.
    by apply Permutation_app_inv_l in Hperm.
Qed.

Lemma dma_inv_mmap s req env s' :
  dma_inv s -> ev_ok s (EvMmap req env) -> dma_step (EvMmap req env) s = Some s' -> dma_inv s'.
Proof.
  intros Hinv (_ & _ & _ & _ & Hio & Hlen) Hstep. cbn [dma_step] in Hstep.
  pose proof (inv_vmas s Hinv) as Hv. pose proof (inv_free s Hinv) as Hf.
  pose proof (inv_len s Hinv) as Hvl.
  destruct (pspin_mmap req env (s_drv s)) as [[[ret o] d]|] eqn:Em; [|done].
  apply pspin_mmap_inv in Em; [|done].
  destruct Em as [(-> & ->)|[(ctx & area & x & Ha & Hen & -> & -> & Hr & Hx)
                            |(ctx & area & x & Ha & Hen & -> & -> & -> & Hr & Hx)]].
  - simplify_eq. by destruct s, Hinv.
  - simplify_eq. rewrite Hf. destruct (inv_area _ _ _ Hinv Ha) as (? & ? & Href & Hen').
    eapply dma_inv_update; eauto; [by rewrite Hr | by rewrite Hx, Hr, <- Hen', Hen |].
    unfold area_alloc. by rewrite Hen, Hx.
  - cbn [set_app d_app] in Hstep. rewrite (dma_area_set_eq _ _ _ area Ha) in Hstep.
    simplify_eq. rewrite Hf.
    destruct (inv_area _ _ _ Hinv Ha) as (? & ? & Href & Hen').
    rewrite Hen in Hen'. symmetry in Hen'. apply bool_decide_eq_false in Hen'.
    assert (ref_count area = 0) as Hr0 by lia. rewrite Hr0 in Hr. change (s32 (0 + 1)) with 1 in Hr.
    eapply dma_inv_update; eauto.
    + intros c Hc. by apply maps_of_cons_ne.
    + cbn [length]. lia.
    + rewrite maps_of_cons_eq. lia.
    + by rewrite Hx, Hr.
    + unfold area_alloc. by rewrite Hen, Hx.
Qed.

Lemma dma_inv_dup s ctx s' :
  dma_inv s -> ev_ok s (EvDup ctx) -> dma_step (EvDup ctx) s = Some s' -> dma_inv s'.
Proof.
  intros Hinv [Hin Hlen] Hstep. cbn [dma_step] in Hstep. unfold pspin_vma_open in Hstep.
  pose proof (inv_vmas s Hinv) as Hv. pose proof (inv_free s Hinv) as Hf.
  destruct (dma_area (d_app (s_drv s)) ctx) as [area|] eqn:Ha; [|done]. simplify_eq. rewrite Hf.
  destruct (inv_area _ _ _ Hinv Ha) as (? & ? & Href & Hen).
  pose proof (maps_of_elem _ _ Hin). pose proof (maps_of_length ctx (s_vmas s)).
  assert (s32 (ref_count area + 1) = ref_count area + 1) as Hs by (apply s32_id; lia).
  eapply dma_inv_update; eauto.
  - intros c Hc. by apply maps_of_cons_ne.
  - cbn [length]. lia.
  - cbn [ref_count]. rewrite maps_of_cons_eq. lia.
  - cbn [phys ref_count]. rewrite Hen, Hs. apply bool_decide_ext. lia.
Qed.

Lemma dma_inv_close s ctx s' :
  dma_inv s -> ctx ∈ s_vmas s -> dma_step (EvClose ctx) s = Some s' -> dma_inv s'.
Proof.
  intros Hinv Hok Hstep. cbn [dma_step] in Hstep. unfold pspin_vma_close in Hstep.
  pose proof (inv_vmas s Hinv) as Hv. pose proof (inv_free s Hinv) as Hf.
  pose proof (inv_len s Hinv) as Hvl.
  destruct (dma_area (d_app (s_drv s)) ctx) as [area|] eqn:Ha; [|done].
  destruct (inv_area _ _ _ Hinv Ha) as (? & Hl & Href & Hen).
  destruct (remove_one_elem _ _ Hok) as [vmas Hrm]. rewrite Hrm in Hstep.
  pose proof (remove_one_Some _ _ _ Hrm) as Hperm.
  assert (maps_of ctx (s_vmas s) = S (maps_of ctx vmas)) as Hm
    by (by rewrite (maps_of_remove ctx ctx _ _ Hrm), maps_of_cons_eq).
  assert (forall c, c <> ctx -> maps_of c vmas = maps_of c (s_vmas s)) as Hoth
    by (intros c Hc; by rewrite (maps_of_remove c ctx _ _ Hrm), maps_of_cons_ne).
  assert (Forall (fun c => 0 <= c < 4) vmas) as Hv' by (rewrite Hperm in Hv; by inversion Hv).
  assert (enabled (phys area) = true) as Het by (rewrite Hen; apply bool_decide_eq_true; lia).
  assert (length (s_vmas s) = S (length vmas)) as Hlv by (by rewrite Hperm).
  pose proof (maps_of_length ctx (s_vmas s)).
  rewrite (proj2 (Z.eqb_neq _ _)) in Hstep by lia.
  rewrite s32_id, Het in Hstep by lia. rewrite andb_true_r in Hstep.
  destruct (Z.eqb_spec (ref_count area - 1) 0) as [Hz|Hz].
  - set (al := (_, _, _)) in Hstep.
    assert (area_alloc area = Some al) as Hal by (unfold area_alloc; by rewrite Het).
    assert (al ∈ s_allocs s) as Hin.
    { rewrite (inv_allocs s Hinv). apply list_elem_of_omap. eauto using list_elem_of_lookup_2. }
    destruct (remove_one_elem _ _ Hin) as [allocs Hrma]. rewrite Hrma in Hstep.
    simplify_eq. rewrite Hf. eapply dma_inv_update; eauto; cbn [ref_count phys enabled]; try lia.
    + by rewrite Hz.
    + rewrite Hal. simpl. symmetry. by apply remove_one_Some.
  - simplify_eq. rewrite Hf. eapply dma_inv_update; eauto; cbn [ref_count phys]; try lia.
    rewrite Het. symmetry. apply bool_decide_eq_true. lia.
Qed.

Lemma dma_inv_step s s' : dma_inv s -> dma_step_rel s s' -> dma_inv s'.
Proof.
  intros Hinv Hrel. inversion Hrel as [s0 ev s1 Hok Hstep]; subst.
  destruct ev as [req env|ctx|ctx|attr buf].
  - exact (dma_inv_mmap s req env s' Hinv Hok Hstep).
  - exact (dma_inv_dup s ctx s' Hinv Hok Hstep).
  - exact (dma_inv_close s ctx s' Hinv Hok Hstep).
  - cbn [dma_step] in Hstep. simplify_eq. destruct Hinv as [Ha1 Ha2 Ha3 Ha4 Ha5].
    split; cbn [s_drv s_vmas s_allocs s_bad_free]; by rewrite ?pspin_reg_store_areas.
Qed.

Lemma dma_inv_init a h : dma_inv (dma_init a h).
Proof.
  split; cbn [dma_init s_drv s_vmas s_allocs s_bad_free d_app set_dma_areas dma_areas]; try done.
  split; [done|]. intros i x Hi. apply lookup_replicate in Hi as [-> _]. done.
Qed.
End DmaSys.

Section DmaFacts.
Context {hw : Type} `{!Mmio hw}.

(** Allowed events never run into undefined behaviour. *)
Lemma dma_step_defined (s : dma_sys hw) ev : dma_inv s -> ev_ok s ev -> is_Some (dma_step ev s).
Proof.
  intros Hinv Hok.
  assert (forall ctx, 0 <= ctx < 4 -> is_Some (dma_area (d_app (s_drv s)) ctx)) as Harea.
  { intros ctx Hc. destruct (inv_areas s Hinv) as [Hl _].
    destruct (lookup_lt_is_Some_2 (dma_areas (d_app (s_drv s))) (Z.to_nat ctx)) as [x Hx]; [lia|].
    exists x. by apply dma_area_Some. }
  assert (forall ctx, ctx ∈ s_vmas s -> is_Some (dma_area (d_app (s_drv s)) ctx)) as Hlive.
  { intros ctx Hin. apply Harea. pose proof (inv_vmas s Hinv) as Hv.
    rewrite Forall_forall in Hv. by apply Hv. }
  destruct ev as [req env|ctx|ctx|attr buf]; cbn [ev_ok dma_step] in *; [| | |done].
  - destruct Hok as (Hl & Hm & Hp & Hq & Hio & _). unfold PAGE_SIZE in *.
    pose proof (Z.div_mod (vm_len req) 4096 ltac:(lia)).
    assert (1 <= vm_len req / 4096 < 2 ^ 31) by lia.
    assert (0 <= vm_pgoff req / (vm_len req / 4096)) by (apply Z.div_pos; lia).
    destruct (pspin_mmap req env (s_drv s)) as [[[ret [ctx|]] d]|] eqn:Em; [| done |].
    + apply pspin_mmap_inv in Em; [|done].
      destruct Em as [(? & _)|[(? & ? & ? & _ & _ & _ & ? & _)|
                               (ctx' & area & x & Ha & _ & -> & ? & _)]]; [done|done|].
      simplify_eq. cbn [set_app d_app]. by rewrite (dma_area_set_eq _ _ _ area Ha).
    + exfalso. unfold pspin_mmap in Em. rewrite Hio in Em. unfold PAGE_SIZE in Em.
      rewrite (s32_id (vm_len req / 4096)), (proj2 (Z.eqb_neq _ _)) in Em by lia.
      rewrite u64_id, s32_id in Em by lia. unfold HER_NUM_HANDLER_CTX in Em. cbn [negb] in Em.
      destruct (Z.geb_spec (vm_pgoff req / (vm_len req / 4096)) 4); [done|].
      destruct (Harea (vm_pgoff req / (vm_len req / 4096))) as [area Ha]; [lia|].
      rewrite Ha in Em. repeat case_match; simplify_eq.
      match goal with Hopen : pspin_vma_open _ _ = None |- _ =>
        unfold pspin_vma_open in Hopen; cbn [set_app d_app] in Hopen;
        by rewrite (dma_area_set_eq _ _ _ area Ha) in Hopen end.
  - destruct Hok as [Hin _]. destruct (Hlive ctx Hin) as [area Ha].
    unfold pspin_vma_open. by rewrite Ha.
  - destruct (Hlive ctx Hok) as [area Ha]. destruct (remove_one_elem _ _ Hok) as [vmas Hrm].
    unfold pspin_vma_close. rewrite Ha, Hrm. repeat case_match; simplify_eq; by eauto.
Qed.
End DmaFacts.


(** One page of host memory for context 2, mapped and unmapped again. *)
Definition req_ctx2 : mmap_req := mk_mmap_req 0x4000 8 true.
Definition env_mmap_ok : mmap_env := mk_mmap_env true (Some (0xffff0000, 0x7f000000)) true.
Definition sys_ctx2 : dma_sys memory :=
  default (dma_init app_zero ∅) (dma_step (EvMmap req_ctx2 env_mmap_ok) (dma_init app_zero ∅)).


(** ** Failure paths *)

(** When [vm_iomap_memory] fails, [pspin_mmap] returns [-EIO] with the
    buffer still allocated and the area still enabled, but without a mapping:
    no later mmap of this context succeeds (all return [-EAGAIN] or an error
    found earlier), and closing a mapping of it never frees the buffer. *)
Theorem pspin_mmap_iomap_failure_leaks {hw} `{!Mmio hw} req env (d d' : drv hw) ctx area :
  dma_area (d_app d) ctx = Some area -> ref_count area = 0 ->
  iomap_ok env = false -> pspin_mmap req env d = Some (- EIO, None, d') ->
  ctx = s32 (vm_pgoff req / u64 (s32 (vm_len req / PAGE_SIZE))) ->
  (exists area', dma_area (d_app d') ctx = Some area' /\ enabled (phys area') = true /\
                 dma_alloc env = Some (cpu_addr area', dma_handle (phys area'))) /\
  pspin_vma_close ctx d' = Some (None, d') /\
  (forall req' env', ctx = s32 (vm_pgoff req' / u64 (s32 (vm_len req' / PAGE_SIZE))) ->
     s32 (vm_len req' / PAGE_SIZE) <> 0 -> vm_shared req' = true -> kzalloc_ok env' = true ->
     pspin_mmap req' env' d' = Some (- EAGAIN, None, d')).
Proof.
  intros Ha Href Hio Hm Hctx. unfold pspin_mmap in Hm. rewrite <- Hctx, Ha, Hio in Hm. clear Hctx.
  assert (ctx < 4) as Hc4 by (apply dma_area_Some in Ha as [? _]; lia).
  repeat (case_match; simplify_eq; try discriminate).
  cbn [negb] in *. simplify_eq.
  assert (forall x, dma_area (d_app (set_app (set_dma_area ctx x) d)) ctx = Some x) as Hset
    by (intros x; cbn [set_app d_app]; by eapply dma_area_set_eq).
  split_and!.
  - eexists. split; [apply Hset|]. by split.
  - unfold pspin_vma_close. by rewrite Hset, Href.
  - intros req' env' Hctx' Hne Hsh Hkz. unfold pspin_mmap. rewrite <- Hctx'.
    rewrite (proj2 (Z.eqb_neq _ _)) by done. unfold HER_NUM_HANDLER_CTX.
    rewrite Z.geb_leb, (proj2 (Z.leb_gt _ _)) by lia. rewrite Hsh, Hkz. cbn [negb].
    by rewrite Hset.
Qed.

Definition env_iomap_fail : mmap_env := mk_mmap_env true (Some (0xffff0000, 0x7f000000)) false.

Lemma pspin_mmap_iomap_failure_leaks_witness :
  exists d' : drv memory,
    pspin_mmap req_ctx2 env_iomap_fail drv_mem0 = Some (- EIO, None, d') /\
    pspin_mmap req_ctx2 env_mmap_ok d' = Some (- EAGAIN, None, d').
Proof.
  eexists. split; [reflexivity|].
  apply (pspin_mmap_iomap_failure_leaks req_ctx2 env_iomap_fail drv_mem0 _ 2 area0);
    try reflexivity. done.
Defined.

(** The ioctl query. For a context number in the array the answer carries
    the area's bus address, size and state; a number too large is refused with
    [-EINVAL]; a negative number passes the check and the copy reads outside
    of the array. *)
Theorem pspin_ioctl_query_spec {hw} `{!Mmio hw} cdev msg (d : drv hw) :
  let ctx := msg_s32 0 msg in
  let result := pspin_ioctl (mk_ioctl_env false false) cdev PSPIN_HOSTDMA_QUERY msg d in
  type cdev = TY_MEM -> length msg = 24%nat -> length (dma_areas (d_app d)) = 4%nat ->
  (0 <= ctx < 4 -> exists area msg',
     dma_area (d_app d) ctx = Some area /\ result = Some (0, msg', d) /\ length msg' = 24%nat /\
     msg_u64 0 msg' = u64 (dma_handle (phys area)) /\
     msg_u64 8 msg' = u64 (dma_size (phys area)) /\
     msg' !! 16%nat = Some (Z.b2z (enabled (phys area)))) /\
  (4 <= ctx -> result = Some (- EINVAL, msg, d)) /\
  (ctx < 0 -> result = None).
Proof.
  intros ctx result Ht Hmsg Hl. unfold result, pspin_ioctl, is_mem. rewrite Ht.
  cbn [negb fault1 fault2]. fold ctx. unfold HER_NUM_HANDLER_CTX. split_and!.
  - intros Hc. destruct (lookup_lt_is_Some_2 (dma_areas (d_app d)) (Z.to_nat ctx)) as [area Hx]; [lia|].
    assert (dma_area (d_app d) ctx = Some area) as Ha by (by apply dma_area_Some).
    rewrite Z.geb_leb, (proj2 (Z.leb_gt _ _)), Ha by lia. exists area. eexists.
    split; [done|]. split; [reflexivity|].
    assert (length (ctx_dma_area_bytes (phys area)) = 24%nat) as Hb
      by (unfold ctx_dma_area_bytes; by rewrite !length_app, !length_le_split).
    unfold write_bytes. rewrite take_0, app_nil_l, drop_ge, app_nil_r by lia.
    unfold msg_u64, sub_list, ctx_dma_area_bytes in *. split_and!.
    + done.
    + rewrite drop_0, take_app_length' by (by rewrite length_le_split). apply le_combine_split.
    + rewrite drop_app_length' by (by rewrite length_le_split).
      rewrite take_app_length' by (by rewrite length_le_split). apply le_combine_split.
    + by rewrite !lookup_app_r by (rewrite ?length_le_split; lia).
  - intros Hc. by rewrite Z.geb_leb, (proj2 (Z.leb_le _ _)) by lia.
  - intros Hc. rewrite Z.geb_leb, (proj2 (Z.leb_gt _ _)) by lia.
    unfold dma_area. by rewrite (proj2 (Z.leb_gt _ _)) by lia.
Qed.

Lemma pspin_ioctl_query_spec_witness :
  pspin_ioctl (mk_ioctl_env false false) dev_mem0 PSPIN_HOSTDMA_QUERY
    (le_split 4 (-1) ++ replicate 20 0) drv_mem0 = None.
Proof.
  apply (pspin_ioctl_query_spec dev_mem0 (le_split 4 (-1) ++ replicate 20 0) drv_mem0);
    by vm_compute.
Defined.

(** Words written to the cluster through ioctl read back. A 64-bit word
    written at a PsPIN address whose eight bytes are memory is what a read of
    that address returns; an address outside of the two memories is refused
    with [-EFAULT] by both, and the device is not accessed. *)
Theorem pspin_ioctl_write_read `{MmioRam hw ram} cdev wmsg rmsg (d : drv hw) :
  let a := msg_u64 0 wmsg in
  type cdev = TY_MEM -> length wmsg = 24%nat -> length rmsg = 24%nat -> msg_u64 0 rmsg = a ->
  (forall x, pspin_addr_to_corundum a <= x < pspin_addr_to_corundum a + 8 -> 0 <= x -> ram x) ->
  (in_prog a \/ in_hnd a ->
   exists d' msg' d'',
     pspin_ioctl (mk_ioctl_env false false) cdev PSPIN_HOST_WRITE wmsg d = Some (0, wmsg, d') /\
     pspin_ioctl (mk_ioctl_env false false) cdev PSPIN_HOST_READ rmsg d' = Some (0, msg', d'') /\
     msg_u64 0 msg' = u64 (msg_u64 8 wmsg) /\ d_app d'' = d_app d) /\
  (~ in_prog a -> ~ in_hnd a ->
   pspin_ioctl (mk_ioctl_env false false) cdev PSPIN_HOST_WRITE wmsg d = Some (- EFAULT, wmsg, d) /\
   pspin_ioctl (mk_ioctl_env false false) cdev PSPIN_HOST_READ rmsg d = Some (- EFAULT, rmsg, d)).
Proof.
  intros a Ht Hw Hr Ha Hram. unfold pspin_ioctl, is_mem. rewrite Ht, Ha.
  cbn [negb fault1 fault2]. fold a. split.
  - intros Hin. assert (0 <= pspin_addr_to_corundum a) as Hc.
    { destruct Hin as [Hin|Hin];
        [rewrite pspin_addr_to_corundum_prog by done | rewrite pspin_addr_to_corundum_hnd by done];
        unfold_map; lia. }
    rewrite (proj2 (Z.ltb_ge _ _)) by done. unfold PSPIN_MEM.
    destruct (ioread64_write64 (msg_u64 8 wmsg) (pspin_addr_to_corundum a) (d_hw d)) as [h' Hrd].
    { intros x Hx. apply Hram; lia. }
    do 3 eexists. split; [reflexivity|]. cbn [d_hw set_hw]. rewrite Hrd. split; [reflexivity|].
    split; [|done]. unfold msg_u64 at 1. pose proof (length_le_split 8 (u64 (msg_u64 8 wmsg))) as Hl.
    rewrite <- Hl at 1. rewrite sub_list_write_eq by lia.
    rewrite le_combine_split. apply u64_id, u64_range.
  - intros Hp Hh. by rewrite pspin_addr_to_corundum_bad by done.
Qed.

Definition msg_write (a v : Z) : list Z := le_split 8 a ++ le_split 8 v ++ replicate 8 0.

Lemma pspin_ioctl_write_read_witness :
  exists d' msg' d'',
    pspin_ioctl (mk_ioctl_env false false) dev_mem0 PSPIN_HOST_WRITE
      (msg_write 0x1c000010 0x123456789a) drv_mem0 = Some (0, msg_write 0x1c000010 0x123456789a, d') /\
    pspin_ioctl (mk_ioctl_env false false) dev_mem0 PSPIN_HOST_READ
      (msg_write 0x1c000010 0) d' = Some (0, msg', d'') /\
    msg_u64 0 msg' = 0x123456789a.
Proof.
  destruct (pspin_ioctl_write_read (ram := fun _ => True) dev_mem0 (msg_write 0x1c000010 0x123456789a)
              (msg_write 0x1c000010 0) drv_mem0) as [H _]; try reflexivity; try done.
  destruct H as (d' & msg' & d'' & Hw & Hr & Hd & _); [right; by vm_compute|].
  exists d', msg', d''. split; [exact Hw|]. split; [exact Hr|]. rewrite Hd. by vm_compute.
Defined.

(** The context number of an mmap request is computed in [int]. A
    page-aligned request whose offset, in units of its own length, is in
    [2^31, 2^32) makes it negative: it passes the range check and the area
    is looked up before the start of the array. *)
Theorem pspin_mmap_negative_ctx {hw} `{!Mmio hw} req env (d : drv hw) :
  let pages := vm_len req / PAGE_SIZE in
  0 < pages < 2 ^ 31 -> 2 ^ 31 <= vm_pgoff req / pages < 2 ^ 32 ->
  vm_shared req = true -> kzalloc_ok env = true ->
  pspin_mmap req env d = None.
Proof.
  intros pages Hp Ho Hs Hk. unfold pspin_mmap. fold pages. rewrite (s32_id pages) by lia.
  rewrite (proj2 (Z.eqb_neq _ _)), u64_id by lia.
  assert (s32 (vm_pgoff req / pages) = vm_pgoff req / pages - 2 ^ 32) as ->.
  { unfold s32, swrap. change (2 ^ (32 - 1)) with (2 ^ 31).
    rewrite <- (Z.mod_add _ (-1)) by lia. rewrite Z.mod_small; lia. }
  unfold HER_NUM_HANDLER_CTX. rewrite Z.geb_leb, (proj2 (Z.leb_gt _ _)) by lia.
  rewrite Hs, Hk. cbn [negb]. unfold dma_area. by rewrite (proj2 (Z.leb_gt 0 _)) by lia.
Qed.

Lemma pspin_mmap_negative_ctx_witness :
  pspin_mmap (mk_mmap_req PAGE_SIZE (2 ^ 31) true) env_mmap_ok drv_mem0 = None.
Proof. apply pspin_mmap_negative_ctx; try done; vm_compute; done. Defined.
