(* ===== verification/PspinProbe.v ===== *)
(** * Probe and remove of the PsPIN module

    The last part of [main.c]: the two character devices
    ([pspin_construct_device], [pspin_destroy_device], [pspin_cleanup_chrdev])
    and [mqnic_app_pspin_probe]/[remove], with what the kernel has registered
    for them and the module's globals. The outcome of every kernel service is
    a field of [probe_env]. *)

From S2P Require Import Prelude Regs Mmio PspinDev PspinFile.

(** The global [pspin_class]: NULL, an error pointer or a class. *)
Inductive class_ptr := ClsNull | ClsErr (e : Z) | ClsOk.

Definition class_valid (c : class_ptr) : bool :=
  match c with ClsOk => true | _ => false end.

(** What the kernel has registered for the module (minors of the added cdevs
    and of the created devices), the globals, and whether something was
    unregistered that was not registered. *)
Record chrdevs := mk_chrdevs {
  k_regions : nat;
  k_classes : nat;
  k_cdevs : list Z;
  k_devs : list Z;
  k_bad : bool;
  pspin_major : Z;
  pspin_class : class_ptr;
  pspin_cdevs : option (list pspin_cdev);
}.

Record probe_env := mk_probe_env {
  regions_mapped : bool;          (* mdev->hw_addr && mdev->app_hw_addr *)
  kzalloc_app : bool;
  alloc_chrdev_region : res Z;    (* the major number *)
  class_create : Z;               (* 0, or the error *)
  kzalloc_cdevs : bool;
  cdev_add : Z -> Z;              (* per minor: 0, or the error *)
  device_create : Z -> Z;
  group_err : string -> string -> Z;
  action_err : Z;
}.

(** ** Registration with the kernel *)

Definition reg_region (mj : Z) (k : chrdevs) : chrdevs :=
  mk_chrdevs (S (k_regions k)) (k_classes k) (k_cdevs k) (k_devs k) (k_bad k)
    mj (pspin_class k) (pspin_cdevs k).

Definition unregister_chrdev_region (k : chrdevs) : chrdevs :=
  mk_chrdevs (pred (k_regions k)) (k_classes k) (k_cdevs k) (k_devs k)
    (k_bad k || (k_regions k =? 0)%nat) (pspin_major k) (pspin_class k) (pspin_cdevs k).

Definition set_class (c : class_ptr) (k : chrdevs) : chrdevs :=
  mk_chrdevs (k_regions k) (k_classes k + if class_valid c then 1 else 0) (k_cdevs k) (k_devs k)
    (k_bad k) (pspin_major k) c (pspin_cdevs k).

(** [class_destroy] ignores NULL and error pointers; the global keeps its
    value. *)
Definition class_destroy (k : chrdevs) : chrdevs :=
  if class_valid (pspin_class k)
  then mk_chrdevs (k_regions k) (pred (k_classes k)) (k_cdevs k) (k_devs k)
         (k_bad k || (k_classes k =? 0)%nat) (pspin_major k) (pspin_class k) (pspin_cdevs k)
  else k.

Definition set_cdevs (cs : option (list pspin_cdev)) (k : chrdevs) : chrdevs :=
  mk_chrdevs (k_regions k) (k_classes k) (k_cdevs k) (k_devs k)
    (k_bad k) (pspin_major k) (pspin_class k) cs.

Definition reg_cdev (minor : Z) (k : chrdevs) : chrdevs :=
  mk_chrdevs (k_regions k) (k_classes k) (k_cdevs k ++ [minor]) (k_devs k)
    (k_bad k) (pspin_major k) (pspin_class k) (pspin_cdevs k).

Definition reg_dev (minor : Z) (k : chrdevs) : chrdevs :=
  mk_chrdevs (k_regions k) (k_classes k) (k_cdevs k) (k_devs k ++ [minor])
    (k_bad k) (pspin_major k) (pspin_class k) (pspin_cdevs k).

Definition drop_minor (minor : Z) (l : list Z) : list Z := filter (fun m => m <> minor) l.

Definition cdev_del (minor : Z) (k : chrdevs) : chrdevs :=
  mk_chrdevs (k_regions k) (k_classes k) (drop_minor minor (k_cdevs k)) (k_devs k)
    (k_bad k || bool_decide (minor ∉ k_cdevs k)) (pspin_major k) (pspin_class k) (pspin_cdevs k).

Definition device_destroy (minor : Z) (k : chrdevs) : chrdevs :=
  mk_chrdevs (k_regions k) (k_classes k) (k_cdevs k) (drop_minor minor (k_devs k))
    (k_bad k || bool_decide (minor ∉ k_devs k)) (pspin_major k) (pspin_class k) (pspin_cdevs k).

(** Assign to [pspin_cdevs[minor]]. *)
Definition set_cdev (minor : Z) (f : pspin_cdev -> pspin_cdev) (k : chrdevs) : chrdevs :=
  set_cdevs (alter f (Z.to_nat minor) <$> pspin_cdevs k) k.

(** ** The functions of the driver *)

Definition pspin_construct_device (env : probe_env) (minor : Z) (k : chrdevs) : Z * chrdevs :=
  let k1 := set_cdev minor
              (fun _ => mk_cdev (if minor =? 0 then TY_MEM else TY_FIFO) None false) k in
  let err := cdev_add env minor in
  if negb (err =? 0) then (err, k1)
  else
    let k2 := reg_cdev minor k1 in
    let err := device_create env minor in
    if negb (err =? 0) then (err, cdev_del minor k2)
    else (0, reg_dev minor k2).

Definition pspin_destroy_device (minor : Z) (k : chrdevs) : chrdevs :=
  let k1 := set_cdev minor (fun c => mk_cdev (type c) (block_buffer c) true) k in
  cdev_del minor (device_destroy minor k1).

Definition minors (n : Z) : list Z := Z.of_nat <$> seq 0 (Z.to_nat n).

Definition pspin_cleanup_chrdev (devices_to_destroy : Z) (k : chrdevs) : chrdevs :=
  let k1 := match pspin_cdevs k with
            | Some _ => foldl (fun k i => pspin_destroy_device i k) k (minors devices_to_destroy)
            | None => k
            end in
  let k2 := match pspin_class k1 with ClsNull => k1 | _ => class_destroy k1 end in
  unregister_chrdev_region k2.

(** The loop that constructs the devices: the error (0: none) and
    [devices_to_destroy]. *)
Fixpoint construct_devices (env : probe_env) (l : list Z) (k : chrdevs) : Z * Z * chrdevs :=
  match l with
  | [] => (0, pspin_ndevices, k)
  | i :: l' =>
      let '(err, k1) := pspin_construct_device env i k in
      if negb (err =? 0) then (err, i, k1) else construct_devices env l' k1
  end.

Section Probe.
Context {hw : Type} `{!Mmio hw}.

Record probe_st := mk_probe_st {
  p_chr : chrdevs;
  p_sysfs : sysfs;
  p_drv : drv hw;
}.

(** The app structure after its fields are filled in. *)
Definition app_probe : mqnic_app_pspin :=
  set_in_me_conf true (set_in_her_conf true (set_in_reset true app_zero)).

(** The registers probe writes: datapath out of reset, and the [start] of
    every rule of the matching engine, before the engine is enabled. *)
Definition probe_writes : list (Z * Z) :=
  [(0, REG_ADDR ag_cl_ctrl 1)]
  ++ ((fun i => (bswap32 1, REG_ADDR ag_me_start i)) <$> minors (UMATCH_RULESETS * UMATCH_ENTRIES))
  ++ [(1, REG_ADDR ag_me_valid 0)].

Definition mqnic_app_pspin_probe (env : probe_env) (s : probe_st) : Z * probe_st :=
  if negb (regions_mapped env) then (- EIO, s)
  else if negb (kzalloc_app env) then (- ENOMEM, s)
  else
    let d0 := Drv app_probe (d_hw (p_drv s)) in
    if pspin_ndevices <=? 0 then (- EINVAL, mk_probe_st (p_chr s) (p_sysfs s) d0)
    else match alloc_chrdev_region env with
    | Err e => (e, mk_probe_st (p_chr s) (p_sysfs s) d0)
    | Ok mj =>
        let k1 := reg_region mj (p_chr s) in
        let fail err n k sy := (err, mk_probe_st (pspin_cleanup_chrdev n k) sy d0) in
        if negb (class_create env =? 0)
        then fail (class_create env) 0 (set_class (ClsErr (class_create env)) k1) (p_sysfs s)
        else
          let k2 := set_class ClsOk k1 in
          if negb (kzalloc_cdevs env) then fail (- ENOMEM) 0 (set_cdevs None k2) (p_sysfs s)
          else
            let k3 := set_cdevs (Some (replicate (Z.to_nat pspin_ndevices)
                                         (mk_cdev TY_MEM None false))) k2 in
            match construct_devices env (minors pspin_ndevices) k3 with
            | (err, n, k4) =>
                if negb (err =? 0) then fail err n k4 (p_sysfs s)
                else match init_pspin_sysfs (group_err env) (action_err env) (p_sysfs s) with
                | (Err e, sy) => fail e pspin_ndevices k4 sy
                | (Ok _, sy) =>
                    (0, mk_probe_st k4 sy
                          (Drv (set_in_me_conf false (set_in_reset false app_probe))
                             (write_all probe_writes (d_hw (p_drv s)))))
                end
            end
    end.

Definition mqnic_app_pspin_remove (s : probe_st) : probe_st :=
  mk_probe_st (pspin_cleanup_chrdev pspin_ndevices (p_chr s)) (p_sysfs s) (p_drv s).
End Probe.
Arguments mk_probe_st {hw}. Arguments probe_st : clear implicits.
Arguments p_chr {hw}. Arguments p_sysfs {hw}. Arguments p_drv {hw}.

(** ** Registration is undone on every path *)

(** Nothing registered, nothing unregistered twice. *)
Definition chr_clean (k : chrdevs) : Prop :=
  k_regions k = 0%nat /\ k_classes k = 0%nat /\ k_cdevs k = [] /\ k_devs k = [] /\ k_bad k = false.

(** One region, one class and the given minors, in a state the cleanup can
    undo. *)
Record chr_live (ms : list Z) (k : chrdevs) : Prop := {
  live_regions : k_regions k = 1%nat;
  live_classes : k_classes k = 1%nat;
  live_cdevs : k_cdevs k = ms;
  live_devs : k_devs k = ms;
  live_bad : k_bad k = false;
  live_class : pspin_class k = ClsOk;
  live_table : is_Some (pspin_cdevs k);
}.

Lemma drop_minor_notin m ms : m ∉ ms -> drop_minor m ms = ms.
Proof.
  unfold drop_minor. induction ms as [|x ms IH]; intros Hm; [done|].
  rewrite filter_cons_True, IH; [done | set_solver | set_solver].
Qed.

Lemma destroy_live m ms k :
  chr_live (m :: ms) k -> m ∉ ms -> chr_live ms (pspin_destroy_device m k).
Proof.
  intros [] Hm. unfold pspin_destroy_device, cdev_del, device_destroy, set_cdev, set_cdevs.
  assert (drop_minor m (m :: ms) = ms) as Hf.
  { unfold drop_minor. rewrite filter_cons_False by tauto. by apply drop_minor_notin. }
  assert (m ∈ m :: ms) by set_solver.
  split; simpl; try congruence.
  - rewrite live_bad0, live_cdevs0, live_devs0, !bool_decide_eq_false_2 by tauto. done.
  - by apply fmap_is_Some.
Qed.

Lemma destroy_all_live ms ms' k :
  chr_live (ms ++ ms') k -> NoDup (ms ++ ms') ->
  chr_live ms' (foldl (fun k i => pspin_destroy_device i k) k ms).
Proof.
  revert k; induction ms as [|m ms IH]; intros k Hk Hnd; [done|]. simpl.
  inversion Hnd; subst. apply IH; [|done]. by apply destroy_live.
Qed.

Lemma cleanup_live n k : chr_live (minors n) k -> chr_clean (pspin_cleanup_chrdev n k).
Proof.
  intros Hk. unfold pspin_cleanup_chrdev. destruct (live_table _ _ Hk) as [t ->].
  assert (chr_live [] (foldl (fun k i => pspin_destroy_device i k) k (minors n))) as [].
  { apply destroy_all_live; rewrite app_nil_r; [done|].
    unfold minors. apply NoDup_fmap; [apply _ | apply NoDup_seq]. }
  rewrite live_class0. unfold class_destroy. rewrite live_class0. cbn [class_valid].
  unfold chr_clean, unregister_chrdev_region. simpl.
  rewrite live_regions0, live_classes0, live_cdevs0, live_devs0, live_bad0. done.
Qed.

Lemma construct_live env m ms k :
  chr_live ms k -> m ∉ ms ->
  let '(err, k') := pspin_construct_device env m k in
  chr_live (if err =? 0 then ms ++ [m] else ms) k'.
Proof.
  intros [] Hm. unfold pspin_construct_device.
  destruct (Z.eqb_spec (cdev_add env m) 0) as [_|Ha]; cbn [negb].
  1: destruct (Z.eqb_spec (device_create env m) 0) as [_|Hd]; cbn [negb].
  - split; simpl; rewrite ?live_cdevs0, ?live_devs0; try done. by apply fmap_is_Some.
  - rewrite (proj2 (Z.eqb_neq _ 0) Hd).
    split; simpl; try done; [| |by apply fmap_is_Some].
    + unfold drop_minor. rewrite live_cdevs0, filter_app, filter_cons_False by tauto.
      rewrite filter_nil, app_nil_r. by apply drop_minor_notin.
    + rewrite live_bad0, bool_decide_eq_false_2; [done|]. intros Hn. apply Hn. set_solver.
  - rewrite (proj2 (Z.eqb_neq _ 0) Ha). split; simpl; try done. by apply fmap_is_Some.
Qed.

Lemma minors_2 : minors pspin_ndevices = [0; 1].
Proof. reflexivity. Qed.

Lemma construct_devices_live env k :
  chr_live [] k ->
  let '(err, n, k') := construct_devices env (minors pspin_ndevices) k in
  chr_live (minors n) k' /\ (err = 0 -> n = pspin_ndevices).
Proof.
  intros Hk. rewrite minors_2. cbn [construct_devices].
  pose proof (construct_live env 0 [] k Hk ltac:(set_solver)) as H0.
  destruct (pspin_construct_device env 0 k) as [e0 k0].
  destruct (Z.eqb_spec e0 0); cbn [negb]; [|split; [exact H0 | done]].
  pose proof (construct_live env 1 [0] k0 H0 ltac:(set_solver)) as H1.
  destruct (pspin_construct_device env 1 k0) as [e1 k1].
  by destruct (Z.eqb_spec e1 0); cbn [negb].
Qed.


(** A kernel that grants everything, and one that cannot create device 1. *)
Definition env_probe_ok : probe_env :=
  mk_probe_env true true (Ok 240) 0 true (fun _ => 0) (fun _ => 0) (fun _ _ => 0) 0.
Definition env_probe_dev1 : probe_env :=
  mk_probe_env true true (Ok 240) 0 true (fun _ => 0) (fun m => if m =? 1 then - ENOMEM else 0)
    (fun _ _ => 0) 0.
Definition probe_st0 : probe_st memory :=
  mk_probe_st (mk_chrdevs 0 0 [] [] false 0 ClsNull None) sysfs_empty (Drv app_zero ∅).


(** ** The state a successful probe leaves *)

Lemma probe_writes_ok :
  Forall (fun x => aligned x.2 /\ 0x800000 <= x.2 <= 0x804000) probe_writes.
Proof. unfold aligned. apply (bool_decide_unpack _). vm_compute. exact I. Qed.

(** A successful probe leaves the device running and open for
    configuration: the cluster is out of reset in the device and in
    [in_reset], the matching engine is enabled with the [start] of each of its
    16 rules at [htonl(1)] and [in_me_conf] cleared, the HER generator is in
    configuration, no host memory is registered, and sysfs holds the complete
    register map. *)
Theorem probe_success_state `{MmioRam hw ram} env (s : probe_st hw) s' :
  ctrl_ram (ram := ram) -> p_sysfs s = sysfs_empty ->
  (forall e, alloc_chrdev_region env = Err e -> e < 0) ->
  mqnic_app_pspin_probe env s = (0, s') ->
  d_app (p_drv s') = mk_app false true false (dma_areas app_zero) /\
  p_sysfs s' = pspin_sysfs /\
  (forall i, 0 <= i < 16 -> word_at (d_hw (p_drv s')) (REG_ADDR ag_me_start i) = 0x01000000) /\
  word_at (d_hw (p_drv s')) (REG_ADDR ag_me_valid 0) = 1 /\
  word_at (d_hw (p_drv s')) (REG_ADDR ag_cl_ctrl 1) = 0.
Proof.
  intros Hram Hsy Halloc Hp. unfold mqnic_app_pspin_probe in Hp.
  destruct (regions_mapped env), (kzalloc_app env); cbn [negb] in Hp; try discriminate.
  change (pspin_ndevices <=? 0) with false in Hp. cbn iota in Hp.
  destruct (alloc_chrdev_region env) as [mj|e]; [|specialize (Halloc e eq_refl); simplify_eq; lia].
  destruct (Z.eqb_spec (class_create env) 0); cbn [negb] in Hp; [|simplify_eq].
  destruct (kzalloc_cdevs env); cbn [negb] in Hp; [|simplify_eq].
  destruct (construct_devices _ _ _) as [[err n] k4].
  destruct (Z.eqb_spec err 0); cbn [negb] in Hp; [|simplify_eq].
  destruct (init_pspin_sysfs _ _ _) as [[[]|e'] sy] eqn:Hi.
  2: { apply init_pspin_sysfs_err in Hi. simplify_eq. }
  rewrite Hsy in Hi. apply init_pspin_sysfs_ok in Hi as ->. apply (f_equal snd) in Hp. cbn [snd] in Hp. subst s'.
  split; [done|]. split; [done|]. cbn [p_drv d_hw].
  assert (forall a, 0x800000 <= a <= 0x804000 -> ram_word ram a) as Hw
    by (intros a Ha x Hx; apply Hram; lia).
  assert (Forall (fun x => aligned x.2 /\ ram_word ram x.2) probe_writes) as HF.
  { eapply Forall_impl; [apply probe_writes_ok|]. intros x [? ?]. auto. }
  assert (forall a v, aligned a -> 0x800000 <= a <= 0x804000 -> last_write a probe_writes = Some v ->
            word_at (write_all probe_writes (d_hw (p_drv s))) a = u32 v) as Hread.
  { intros a v Ha Hr Hv. by rewrite word_at_write_all, Hv by auto. }
  split; [|split; [apply (Hread _ 1) | apply (Hread _ 0)]; by vm_compute].
  intros i Hi.
  assert (aligned (REG_ADDR ag_me_start i) /\ 0x800000 <= REG_ADDR ag_me_start i <= 0x804000 /\
          last_write (REG_ADDR ag_me_start i) probe_writes = Some 0x01000000) as (Ha & Hr & Hl).
  { assert (Forall (fun i => aligned (REG_ADDR ag_me_start i) /\
      0x800000 <= REG_ADDR ag_me_start i <= 0x804000 /\
      last_write (REG_ADDR ag_me_start i) probe_writes = Some 0x01000000) (minors 16)) as HF16
      by (unfold aligned; apply (bool_decide_unpack _); vm_compute; exact I).
    rewrite Forall_forall in HF16. apply HF16. unfold minors.
    apply list_elem_of_fmap. exists (Z.to_nat i). split; [lia|]. apply elem_of_seq. lia. }
  by rewrite (Hread _ _ Ha Hr Hl).
Qed.

Lemma probe_success_state_witness :
  in_her_conf (d_app (p_drv (mqnic_app_pspin_probe env_probe_ok probe_st0).2)) = true.
Proof.
  assert ((mqnic_app_pspin_probe env_probe_ok probe_st0).1 = 0) as E by (by vm_compute).
  pose proof (surjective_pairing (mqnic_app_pspin_probe env_probe_ok probe_st0)) as Hp.
  rewrite E in Hp.
  pose proof (probe_success_state (ram := fun _ => True) env_probe_ok probe_st0 _
                (fun _ _ => I) eq_refl ltac:(intros e [=]) Hp) as [Happ _].
  by rewrite Happ.
Defined.
