(* ===== verification/Loader.v ===== *)
(** * The host loader library

    Model of [lib/fpspin/loader.c] and of the rules of [fpspin.h]: programming
    the matching engine and loading a handler image, written against the
    driver: registers through sysfs ([pspin_reg_store]), memories through
    [/dev/pspin0] ([pspin_llseek], [pspin_write]). The toolchain programs the
    loader runs (objcopy, nm, readelf) are arguments. *)

From S2P Require Import Prelude Regs Mmio PspinDev PspinFile.

(** ** State *)

(** [struct mem_area] and the part of [fpspin_ctx_t] the loader uses. *)
Record mem_area := mk_mem_area { area_addr : Z; area_size : Z }.

Record ctx_image := mk_ctx_image {
  img_hh : mem_area;
  img_ph : mem_area;
  img_th : mem_area;
  img_handler_mem : mem_area;
}.

(** The machine the loader runs on: whether [regs_base] is set, the sysfs
    tree, the driver, the memory device opened as [ctx->fd] and its file
    position, and the image areas of the context. *)
Record lsys (hw : Type) := mk_lsys {
  l_base : bool;
  l_sysfs : sysfs;
  l_drv : drv hw;
  l_cdev : pspin_cdev;
  l_pos : Z;
  l_img : ctx_image;
}.
Arguments mk_lsys {hw}. Arguments l_base {hw}. Arguments l_sysfs {hw}. Arguments l_drv {hw}.
Arguments l_cdev {hw}. Arguments l_pos {hw}. Arguments l_img {hw}.

Definition set_l_drv {hw} (d : drv hw) (s : lsys hw) : lsys hw :=
  mk_lsys (l_base s) (l_sysfs s) d (l_cdev s) (l_pos s) (l_img s).
Definition set_l_file {hw} (d : drv hw) (c : pspin_cdev) (p : Z) (s : lsys hw) : lsys hw :=
  mk_lsys (l_base s) (l_sysfs s) d c p (l_img s).
Definition set_l_img {hw} (f : ctx_image -> ctx_image) (s : lsys hw) : lsys hw :=
  mk_lsys (l_base s) (l_sysfs s) (l_drv s) (l_cdev s) (l_pos s) (f (l_img s)).

(** How a run can stop: [exit(EXIT_FAILURE)], a failed [assert], or the
    bound on the number of system calls of a loop. *)
Definition EXIT_FAILURE : Z := 1.
Definition SIGABRT : Z := 6.
Definition OUT_OF_FUEL : Z := -1.

(** The file a sysfs path [name/id] names. *)
Definition sysfs_open (s : sysfs) (name : string) (id : Z) : option pspin_attribute :=
  g ← list_find (fun g => (g.1 +:+ "/" +:+ ag_name g.2)%string = name) (sy_groups s);
  a ← list_find (fun a => attr_name a = print_d id) (group_walk (ag_attrs (g.2).2));
  Some a.2.

(** ** Rules of the matching engine *)

Record fpspin_rule := mk_rule {
  idx : Z;
  mask : Z;
  start : Z;
  end_ : Z;
}.

Inductive ruleset_mode := FPSPIN_MODE_AND | FPSPIN_MODE_OR.

Record fpspin_ruleset_t := mk_ruleset {
  rs_r : list fpspin_rule;
  rs_mode : ruleset_mode;
}.

Definition NUM_RULES_PER_RULESET : Z := 4.
Definition NUM_RULESETS : Z := 4.
Definition NUM_CLUSTERS : Z := 2.
Definition L2_END : Z := 0x1c100000.

Definition FPSPIN_RULE_FALSE : fpspin_rule := mk_rule 0 0 1 0.
Definition FPSPIN_RULE_EMPTY : fpspin_rule := mk_rule 0 0 0 0.
Definition FPSPIN_RULE_IP : fpspin_rule := mk_rule 3 0xffff0000 0x08000000 0x08000000.
Definition FPSPIN_RULE_IP_PROTO (num : Z) : fpspin_rule := mk_rule 5 0xff (u32 num) (u32 num).
Definition FPSPIN_RULE_UDP_SPORT (num : Z) : fpspin_rule :=
  mk_rule 8 0xffff (bswap16 num) (bswap16 num).
Definition FPSPIN_RULE_UDP_DPORT (num : Z) : fpspin_rule :=
  mk_rule 9 0xffff0000 (u32 (Z.shiftl num 16)) (u32 (Z.shiftl num 16)).

Definition fpspin_ruleset_bypass : fpspin_ruleset_t :=
  mk_ruleset (replicate (Z.to_nat NUM_RULES_PER_RULESET) FPSPIN_RULE_FALSE) FPSPIN_MODE_AND.
Definition fpspin_ruleset_match : fpspin_ruleset_t :=
  mk_ruleset (replicate (Z.to_nat NUM_RULES_PER_RULESET) FPSPIN_RULE_EMPTY) FPSPIN_MODE_AND.
Definition fpspin_ruleset_udp : fpspin_ruleset_t :=
  mk_ruleset [FPSPIN_RULE_IP; FPSPIN_RULE_IP_PROTO 17; FPSPIN_RULE_EMPTY; FPSPIN_RULE_FALSE]
    FPSPIN_MODE_AND.
Definition fpspin_ruleset_slmp : fpspin_ruleset_t :=
  mk_ruleset [FPSPIN_RULE_IP; FPSPIN_RULE_IP_PROTO 17; FPSPIN_RULE_UDP_DPORT 9330;
              mk_rule 10 0x8000 0x8000 0x8000] FPSPIN_MODE_AND.

Local Open Scope fpspin_scope.

Section Loader.
Context {hw : Type} `{!Mmio hw}.

(** ** Registers *)

Definition write_reg (name : string) (id val : Z) : M (lsys hw) unit := fun s =>
  if negb (l_base s) then (Err EXIT_FAILURE, s)
  else match sysfs_open (l_sysfs s) name id with
  | None => (Err EXIT_FAILURE, s)
  | Some a =>
      if negb (attr_store a) then (Err EXIT_FAILURE, s)
      else
        let '(ret, d) := pspin_reg_store a (print_u (u32 val)) (l_drv s) in
        let s' := set_l_drv d s in
        if ret <? 0 then (Err EXIT_FAILURE, s') else (Ok tt, s')
  end.

Definition cycle_reset : M (lsys hw) unit :=
  write_reg "cl/ctrl" 1 1 ;;; write_reg "cl/ctrl" 1 0.

Definition fetch_on : M (lsys hw) unit := write_reg "cl/ctrl" 0 (Z.shiftl 1 NUM_CLUSTERS - 1).
Definition fetch_off : M (lsys hw) unit := write_reg "cl/ctrl" 0 0.
Definition me_on : M (lsys hw) unit := write_reg "me/valid" 0 1.
Definition me_off : M (lsys hw) unit := write_reg "me/valid" 0 0.
Definition her_on : M (lsys hw) unit := write_reg "her/valid" 0 1.
Definition her_off : M (lsys hw) unit := write_reg "her/valid" 0 0.

Definition set_me_rule (ctx_id rid : Z) (ru : fpspin_rule) : M (lsys hw) unit :=
  let reg_id := ctx_id * NUM_RULES_PER_RULESET + rid in
  write_reg "me/idx" reg_id (idx ru) ;;;
  write_reg "me/mask" reg_id (bswap32 (mask ru)) ;;;
  write_reg "me/start" reg_id (bswap32 (start ru)) ;;;
  write_reg "me/end" reg_id (bswap32 (end_ ru)).

(** The array of rules has [NUM_RULES_PER_RULESET] entries. *)
Definition fpspin_set_me_ruleset (ctx_id : Z) (rs : fpspin_ruleset_t) : M (lsys hw) unit :=
  sseq (imap (fun i ru => set_me_rule ctx_id (Z.of_nat i) ru) (rs_r rs)).

(** [rs] points to at least [num_rs] rulesets. *)
Definition fpspin_prog_me (rs : list fpspin_ruleset_t) (num_rs : Z) : M (lsys hw) unit :=
  if num_rs >? NUM_RULESETS then serr EXIT_FAILURE
  else
    me_off ;;;
    sseq ((fun i => if Z.of_nat i >=? num_rs then fpspin_set_me_ruleset (Z.of_nat i) fpspin_ruleset_bypass
                    else fpspin_set_me_ruleset (Z.of_nat i) (nth i rs fpspin_ruleset_bypass))
            <$> seq 0 (Z.to_nat NUM_RULESETS)) ;;;
    me_on.

(** ** Memory *)

(** The [write] system call on the device: the kernel limits the count to
    [MAX_RW_COUNT] and the driver copies at most one block. [hmem] is the
    memory of the process. *)
Definition MAX_RW_COUNT : Z := 0x7ffff000.
Definition host_bytes (hmem : Z -> Z) (host_addr : Z) (n : nat) : list Z :=
  (fun k => hmem (host_addr + Z.of_nat k)) <$> seq 0 n.

Definition sys_write (env : fops_env) (hmem : Z -> Z) (host_addr len : Z) : M (lsys hw) Z := fun s =>
  if len >=? 2 ^ 63 then (Ok (- EINVAL), s)
  else
    let count := Z.min len MAX_RW_COUNT in
    let user := host_bytes hmem host_addr (Z.to_nat (Z.min count pspin_block_size)) in
    let '(ret, pos, c, d) := pspin_write env (l_cdev s) user count (l_pos s) (l_drv s) in
    (Ok ret, set_l_file d c pos s).

Definition sys_lseek_set (off : Z) : M (lsys hw) Z := fun s =>
  let '(ret, pos) := pspin_llseek (l_cdev s) off SEEK_SET (l_pos s) (l_drv s) in
  (Ok ret, set_l_file (l_drv s) (l_cdev s) pos s).

(** The loop of [fpspin_write_memory]; [envs] are the kernel's decisions for
    its successive writes. [bytes_written] is a [size_t], so the test for a
    negative result never succeeds. *)
Fixpoint write_loop (envs : list fops_env) (hmem : Z -> Z) (host_addr len : Z)
    : M (lsys hw) unit :=
  match envs with
  | [] => serr OUT_OF_FUEL
  | env :: envs' =>
      let! ret := sys_write env hmem host_addr len in
      let bytes_written := u64 ret in
      if bytes_written <? 0 then serr EXIT_FAILURE
      else
        let len' := u64 (len - bytes_written) in
        let host_addr' := u64 (host_addr + bytes_written) in
        if len' =? 0 then sret tt else write_loop envs' hmem host_addr' len'
  end.

Definition fpspin_write_memory (envs : list fops_env) (pspin_addr : Z)
    (hmem : Z -> Z) (host_addr len : Z) : M (lsys hw) unit :=
  let! ret := sys_lseek_set pspin_addr in
  if ret <? 0 then serr EXIT_FAILURE else write_loop envs hmem host_addr len.

(** [write_section] copies the file objcopy made ([None]: it could not be
    opened) in chunks of the 4096-byte [bin_buf] (at address [BIN_BUF]); the
    last round copies an empty chunk. [chunks] bounds the rounds. *)
Definition BIN_BUF : Z := 0x7ffe0000.
Definition bin_buf_mem (chunk : list Z) : Z -> Z := fun x => nth (Z.to_nat (x - BIN_BUF)) chunk 0.

Fixpoint section_loop (chunks : nat) (envs : list fops_env) (rest : list Z) (addr : Z)
    : M (lsys hw) unit :=
  match chunks with
  | O => serr OUT_OF_FUEL
  | S chunks' =>
      let bin_buf := take (Z.to_nat 4096) rest in
      let bytes_read := Z.of_nat (length bin_buf) in
      fpspin_write_memory envs (u32 addr) (bin_buf_mem bin_buf) BIN_BUF bytes_read ;;;
      if bytes_read >? 0
      then section_loop chunks' envs (drop (Z.to_nat 4096) rest) (u64 (addr + bytes_read))
      else sret tt
  end.

Definition write_section (envs : list fops_env) (contents : option (list Z)) (addr : Z)
    : M (lsys hw) unit :=
  match contents with
  | None => serr EXIT_FAILURE
  | Some bytes => section_loop (length bytes / Z.to_nat 4096 + 2) envs bytes addr
  end.

(** ** Handlers *)

(** What scanning the output of nm gives: an address, the end of the output,
    or no conversion ([haddr] keeps its uninitialised value). *)
Inductive scan_result :=
| ScanAddr (a : Z)
| ScanEof
| ScanNone.

(** [errno_] is the value of [errno] when [fscanf] returns, [junk] the
    uninitialised [haddr]. *)
Definition set_handler (nm : scan_result) (errno_ junk : Z) (handler : string) (ctx_id : Z)
    (out_area : mem_area -> ctx_image -> ctx_image) : M (lsys hw) unit :=
  let '(haddr, hsize) :=
    match nm with
    | ScanEof => if errno_ =? 0 then (0, 0) else (junk, 4096)
    | ScanAddr a => (u32 a, 4096)
    | ScanNone => (junk, 4096)
    end in
  smodify (set_l_img (out_area (mk_mem_area haddr hsize))) ;;;
  write_reg ("her_meta/" +:+ handler +:+ "_addr")%string ctx_id haddr ;;;
  write_reg ("her_meta/" +:+ handler +:+ "_size")%string ctx_id hsize.

Definition set_handler_mem (readelf : option (Z * Z)) (ctx_id : Z) : M (lsys hw) unit :=
  match readelf with
  | None => serr SIGABRT
  | Some (l2_daddr, l2_dsize) =>
      let mem_addr := u32 (l2_daddr + l2_dsize) in
      let mem_size := u32 (L2_END - l2_daddr) in
      smodify (set_l_img (fun im => mk_ctx_image (img_hh im) (img_ph im) (img_th im)
                                      (mk_mem_area mem_addr mem_size))) ;;;
      write_reg "her_meta/handler_mem_addr" ctx_id mem_addr ;;;
      write_reg "her_meta/handler_mem_size" ctx_id mem_size
  end.

(** What the toolchain says about the image: the four sections, the three
    handlers (with [errno] and the uninitialised variable of each call) and
    the section of the handler data. *)
Record elf_image := mk_elf_image {
  elf_section : string -> option (list Z);
  elf_handler : string -> scan_result * Z * Z;
  elf_l2_data : option (Z * Z);
}.

Definition load_handler (elf : elf_image) (handler : string) (ctx_id : Z)
    (out_area : mem_area -> ctx_image -> ctx_image) : M (lsys hw) unit :=
  let '(nm, errno_, junk) := elf_handler elf handler in
  set_handler nm errno_ junk handler ctx_id out_area.

Definition fpspin_load (envs : list fops_env) (elf : elf_image) (ctx_id hostmem_ptr hostmem_size : Z)
    : M (lsys hw) unit :=
  fetch_off ;;;
  cycle_reset ;;;
  write_section envs (elf_section elf ".rodata"%string) 0x1c000000 ;;;
  write_section envs (elf_section elf ".l2_handler_data"%string) 0x1c0c0000 ;;;
  write_section envs (elf_section elf ".vectors"%string) 0x1d000000 ;;;
  write_section envs (elf_section elf ".text"%string) 0x1d000100 ;;;
  fetch_on ;;;
  her_off ;;;
  load_handler elf "hh" ctx_id
    (fun a im => mk_ctx_image a (img_ph im) (img_th im) (img_handler_mem im)) ;;;
  load_handler elf "ph" ctx_id
    (fun a im => mk_ctx_image (img_hh im) a (img_th im) (img_handler_mem im)) ;;;
  load_handler elf "th" ctx_id
    (fun a im => mk_ctx_image (img_hh im) (img_ph im) a (img_handler_mem im)) ;;;
  set_handler_mem (elf_l2_data elf) ctx_id ;;;
  write_reg "her_meta/host_mem_addr_1" ctx_id (Z.shiftr hostmem_ptr 32) ;;;
  write_reg "her_meta/host_mem_addr_0" ctx_id hostmem_ptr ;;;
  write_reg "her_meta/host_mem_size" ctx_id hostmem_size ;;;
  write_reg "her_meta/scratchpad_0_size" ctx_id 4096 ;;;
  write_reg "her_meta/scratchpad_1_size" ctx_id 4096 ;;;
  write_reg "her/ctx_enabled" ctx_id 1 ;;;
  her_on.

Definition fpspin_unload (ctx_id : Z) : M (lsys hw) unit :=
  fetch_off ;;;
  cycle_reset ;;;
  me_off ;;;
  fpspin_set_me_ruleset ctx_id fpspin_ruleset_bypass ;;;
  me_on.
End Loader.

(** ** Runs of register writes through sysfs *)

(** The address of the register a path names. *)
Definition reg_addr (name : string) (id : Z) : Z :=
  match sysfs_open pspin_sysfs name id with
  | Some a => REG (ATTR_REG_ADDR a)
  | None => 0
  end.

Definition item : Type := string * Z * Z.
Definition item_key (x : item) : string * Z := x.1.
Definition item_write (x : item) : Z * Z := (u32 x.2, reg_addr x.1.1 x.1.2).

(** The register behind a path and its check function. *)
Definition path_check (name : string) (id : Z) (c : check_fn) : Prop :=
  exists a, sysfs_open pspin_sysfs name id = Some a /\ attr_store a = true /\ attr_check a = Some c.

#[export] Instance path_check_dec name id c : Decision (path_check name id c).
Proof.
  unfold path_check. destruct (sysfs_open pspin_sysfs name id) as [a|].
  - destruct (decide (attr_store a = true /\ attr_check a = Some c)) as [[H1 H2]|H].
    + left. by exists a.
    + right. intros (a' & ? & ?). by simplify_eq.
  - right. by intros (a & ? & _).
Defined.

Section Runs.
Context {hw : Type} `{!Mmio hw}.
Implicit Types s : lsys hw.

Definition do_item (x : item) : M (lsys hw) unit := write_reg x.1.1 x.1.2 x.2.

(** The loader can reach the driver's registers. *)
Definition regs_ready s : Prop := l_base s = true /\ l_sysfs s = pspin_sysfs.

Lemma write_reg_ok name id val a c d' s :
  regs_ready s -> sysfs_open pspin_sysfs name id = Some a -> attr_store a = true ->
  attr_check a = Some c -> run_check c (attr_idx a) (u32 val) (l_drv s) = (true, d') ->
  write_reg name id val s
  = (Ok tt, set_l_drv (set_hw (iowrite32 (u32 val) (reg_addr name id) (d_hw d')) d') s).
Proof.
  intros [Hb Hsy] Ha Hst Hc Hrun. unfold write_reg. rewrite Hb, Hsy, Ha, Hst. cbn [negb].
  erewrite pspin_reg_store_ok; [| exact Hc | apply scan_print_u, u32_range | exact Hrun].
  rewrite (proj2 (Z.ltb_ge _ _)) by lia. unfold reg_addr. by rewrite Ha.
Qed.

(** A write the driver refuses ends the program, with nothing changed. *)
Lemma write_reg_refused name id val a c s :
  regs_ready s -> sysfs_open pspin_sysfs name id = Some a -> attr_store a = true ->
  attr_check a = Some c -> run_check c (attr_idx a) (u32 val) (l_drv s) = (false, l_drv s) ->
  write_reg name id val s = (Err EXIT_FAILURE, s).
Proof.
  intros [Hb Hsy] Ha Hst Hc Hrun. unfold write_reg. rewrite Hb, Hsy, Ha, Hst. cbn [negb].
  erewrite pspin_reg_store_guarded; [| exact Hc |].
  - cbn iota. change (- EINVAL <? 0) with true. by destruct s.
  - by rewrite scan_print_u by apply u32_range.
Qed.

(** A check function that lets every value through and changes nothing. *)
Definition check_open (c : check_fn) (d : drv hw) : Prop :=
  c = CHECK_ME_IN_CONF /\ in_me_conf (d_app d) = true \/
  c = CHECK_HER_IN_CONF /\ in_her_conf (d_app d) = true.

Lemma check_open_run c d i v : check_open c d -> run_check c i v d = (true, d).
Proof.
  intros [[-> H]|[-> H]]; simpl; unfold check_me_in_conf, check_her_in_conf; by rewrite H.
Qed.

(** While an engine is in configuration, its registers are plain memory. *)
Lemma do_items_conf c l s :
  regs_ready s -> check_open c (l_drv s) ->
  Forall (fun k => path_check k.1 k.2 c) (item_key <$> l) ->
  sseq (do_item <$> l) s
  = (Ok tt, set_l_drv (set_hw (write_all (item_write <$> l) (d_hw (l_drv s))) (l_drv s)) s).
Proof.
  intros Hr Hc Hl. revert s Hr Hc. induction l as [|[[name id] v] l IH]; intros s Hr Hc.
  - by destruct s as [? ? [] ? ? ?].
  - inversion Hl as [|? ? (a & Ha & Hst & Hch) Hl']; subst. cbn in Ha.
    cbn [fmap list_fmap sseq]. unfold do_item at 1. cbn [fst snd].
    erewrite sbind_ok; [| eapply write_reg_ok; eauto using check_open_run].
    rewrite IH; [|done|done|done]. by destruct s.
Qed.

(** Loops of statements are lists of statements. *)
Lemma sseq_bind_meq {A S} (f : A -> M S unit) (g : A -> list (M S unit)) l :
  (forall x, f x ≡M sseq (g x)) -> sseq (f <$> l) ≡M sseq (l ≫= g).
Proof.
  intros H. induction l as [|x l IH]; [done|]. cbn [fmap list_fmap sseq mbind list_bind].
  rewrite sseq_app_meq. apply sbind_proper; [apply H | by intros []].
Qed.
End Runs.

(** ** Programming the matching engine *)

Definition rule_items (reg_id : Z) (ru : fpspin_rule) : list item :=
  [("me/idx"%string, reg_id, idx ru); ("me/mask"%string, reg_id, bswap32 (mask ru));
   ("me/start"%string, reg_id, bswap32 (start ru)); ("me/end"%string, reg_id, bswap32 (end_ ru))].

Definition ruleset_items (ctx : Z) (rs : fpspin_ruleset_t) : list item :=
  imap (fun j ru => (j, ru)) (rs_r rs) ≫= (fun x => rule_items (ctx * 4 + Z.of_nat x.1) x.2).

Definition me_items (rss : list (Z * fpspin_ruleset_t)) : list item :=
  rss ≫= (fun x => ruleset_items x.1 x.2).

(** The rulesets [fpspin_prog_me] writes, with their place. *)
Definition me_program (rs : list fpspin_ruleset_t) (num_rs : Z) : list (Z * fpspin_ruleset_t) :=
  (fun i => (Z.of_nat i, if Z.of_nat i >=? num_rs then fpspin_ruleset_bypass
                         else nth i rs fpspin_ruleset_bypass)) <$> seq 0 4.

Definition ruleset_wf (rs : fpspin_ruleset_t) : Prop := length (rs_r rs) = 4%nat.

(** The place of a rule and its registers. *)
Definition rule_keys (reg_id : Z) : list (string * Z) :=
  [("me/idx"%string, reg_id); ("me/mask"%string, reg_id); ("me/start"%string, reg_id);
   ("me/end"%string, reg_id)].
Definition ruleset_keys (ctx : Z) : list (string * Z) :=
  seq 0 4 ≫= (fun j => rule_keys (ctx * 4 + Z.of_nat j)).

Lemma ruleset_items_keys ctx rs : ruleset_wf rs -> item_key <$> ruleset_items ctx rs = ruleset_keys ctx.
Proof.
  unfold ruleset_wf. destruct rs as [r m]. cbn [rs_r].
  destruct r as [|a [|b [|c [|d [|? ?]]]]]; intros H; try discriminate. reflexivity.
Qed.

Lemma me_items_keys rss :
  Forall (fun x => ruleset_wf x.2) rss -> item_key <$> me_items rss = (rss.*1) ≫= ruleset_keys.
Proof.
  induction 1 as [|[i rs] rss Hrs _ IH]; [done|]. unfold me_items in *.
  cbn [mbind list_bind fmap list_fmap]. by rewrite fmap_app, ruleset_items_keys, IH by done.
Qed.

(** Every register of the rules exists, is guarded by the configuration mode
    and has its own place. *)
Definition all_keys : list (string * Z) := [0; 1; 2; 3] ≫= ruleset_keys.

Lemma all_keys_check : Forall (fun k => path_check k.1 k.2 CHECK_ME_IN_CONF) all_keys.
Proof. apply (bool_decide_unpack _). vm_compute. exact I. Qed.

Lemma all_keys_NoDup : NoDup ((fun k => reg_addr k.1 k.2) <$> all_keys).
Proof. apply (bool_decide_unpack _). vm_compute. exact I. Qed.

Lemma all_keys_place :
  Forall (fun k => aligned (reg_addr k.1 k.2) /\ 0x802000 <= reg_addr k.1 k.2 < 0x803000) all_keys.
Proof. unfold aligned. apply (bool_decide_unpack _). vm_compute. exact I. Qed.

Section ProgMe.
Context {hw : Type} `{!Mmio hw}.
Implicit Types s : lsys hw.

Lemma set_me_ruleset_items ctx rs :
  fpspin_set_me_ruleset ctx rs ≡M sseq (do_item (hw := hw) <$> ruleset_items ctx rs).
Proof.
  unfold fpspin_set_me_ruleset, ruleset_items.
  assert (imap (fun i ru => set_me_rule (hw := hw) ctx (Z.of_nat i) ru) (rs_r rs)
          = (fun x => set_me_rule ctx (Z.of_nat x.1) x.2) <$> imap (fun j ru => (j, ru)) (rs_r rs)) as ->
    by (by rewrite fmap_imap).
  rewrite fmap_list_bind. apply (sseq_bind_meq _ (fun x => do_item <$> rule_items _ x.2)).
  intros [j ru]. unfold set_me_rule. cbn [fst snd fmap list_fmap rule_items].
  as_sseq.
Qed.

Lemma me_loop_items rss :
  sseq ((fun x => fpspin_set_me_ruleset (hw := hw) x.1 x.2) <$> rss) ≡M sseq (do_item <$> me_items rss).
Proof.
  unfold me_items. rewrite fmap_list_bind.
  apply (sseq_bind_meq _ (fun x => do_item <$> ruleset_items x.1 x.2)).
  intros [i rs]. apply set_me_ruleset_items.
Qed.

Lemma valid_reg : path_check "me/valid" 0 CHECK_ME_EN.
Proof. apply (bool_decide_unpack _). vm_compute. exact I. Qed.

(** Switching the engine off and on. *)
Lemma write_me_valid v s :
  regs_ready s -> (v = 0 \/ v = 1) ->
  write_reg "me/valid" 0 v s
  = (Ok tt, set_l_drv (Drv (set_in_me_conf (v =? 0) (d_app (l_drv s)))
                          (iowrite32 v (reg_addr "me/valid" 0) (d_hw (l_drv s)))) s).
Proof.
  intros Hr Hv. destruct valid_reg as (a & Ha & Hst & Hc).
  erewrite write_reg_ok; [| done | exact Ha | done | exact Hc | simpl; reflexivity].
  destruct Hv as [->| ->]; done.
Qed.

(** The writes of one reprogramming of the engine, in order. *)
Definition me_writes (rss : list (Z * fpspin_ruleset_t)) : list (Z * Z) :=
  (0, reg_addr "me/valid" 0) :: (item_write <$> me_items rss) ++ [(1, reg_addr "me/valid" 0)].

Definition prog_rulesets (rss : list (Z * fpspin_ruleset_t)) : M (lsys hw) unit :=
  (me_off ;;; sseq (do_item <$> me_items rss) ;;; me_on)%fp.

Lemma prog_rulesets_run rss s :
  regs_ready s -> Forall (fun x => ruleset_wf x.2) rss -> Forall (fun x => x.1 ∈ [0; 1; 2; 3]) rss ->
  prog_rulesets rss s
  = (Ok tt, set_l_drv (Drv (set_in_me_conf false (d_app (l_drv s)))
                          (write_all (me_writes rss) (d_hw (l_drv s)))) s).
Proof.
  intros Hr Hwf Hin. unfold prog_rulesets, me_off, me_on.
  erewrite sbind_ok by (apply write_me_valid; [done | by left]).
  erewrite sbind_ok; [| apply (do_items_conf CHECK_ME_IN_CONF); [done | by left |]].
  - rewrite write_me_valid by (done || by right). f_equal.
    unfold set_l_drv, me_writes, write_all. simpl. by rewrite foldl_app.
  - rewrite me_items_keys by done. pose proof all_keys_check as Hall.
    rewrite Forall_forall in Hall |- *. intros k Hk. apply Hall.
    apply list_elem_of_bind in Hk as (i & Hk & Hi). apply list_elem_of_bind. exists i.
    split; [done|]. apply list_elem_of_fmap in Hi as (x & -> & Hx).
    rewrite Forall_forall in Hin. by apply Hin.
Qed.

Lemma prog_me_rulesets rs num :
  num <= 4 -> fpspin_prog_me rs num ≡M prog_rulesets (me_program rs num).
Proof.
  intros Hn. unfold fpspin_prog_me, NUM_RULESETS. rewrite Z.gtb_ltb, (proj2 (Z.ltb_ge _ _)) by done.
  unfold prog_rulesets. apply sbind_proper; [done|]. intros _. apply sbind_proper; [|done].
  rewrite <- me_loop_items. unfold me_program. rewrite <- list_fmap_compose.
  intros s. f_equal. apply list_fmap_ext. intros k i _. simpl. by case_match.
Qed.

Lemma unload_rulesets ctx s :
  fpspin_unload ctx s
  = sbind fetch_off (fun _ => sbind cycle_reset (fun _ =>
      prog_rulesets [(ctx, fpspin_ruleset_bypass)])) s.
Proof.
  unfold fpspin_unload. apply sbind_proper; [done|]. intros _. apply sbind_proper; [done|]. intros _.
  unfold prog_rulesets. apply sbind_proper; [done|]. intros _. apply sbind_proper; [|done].
  rewrite set_me_ruleset_items. unfold me_items. cbn [mbind list_bind fst snd].
  by rewrite app_nil_r.
Qed.
End ProgMe.

(** ** What the engine holds afterwards *)

(** A rule as the device stores it, and rule [k] of the device. *)
Definition dev_rule (ru : fpspin_rule) : fpspin_rule :=
  mk_rule (u32 (idx ru)) (bswap32 (mask ru)) (bswap32 (start ru)) (bswap32 (end_ ru)).

Section ReadBack.
Context `{MmioRam hw ram}.
Implicit Types h : hw.

Definition me_rule h (k : Z) : fpspin_rule :=
  mk_rule (word_at h (reg_addr "me/idx" k)) (word_at h (reg_addr "me/mask" k))
          (word_at h (reg_addr "me/start" k)) (word_at h (reg_addr "me/end" k)).

Definition rss_ok (rss : list (Z * fpspin_ruleset_t)) : Prop :=
  Forall (fun x => ruleset_wf x.2) rss /\ Forall (fun x => x.1 ∈ [0; 1; 2; 3]) rss /\
  NoDup ((fun k => reg_addr k.1 k.2) <$> (rss.*1 ≫= ruleset_keys)).

Lemma rss_keys_all rss k : rss_ok rss -> k ∈ item_key <$> me_items rss -> k ∈ all_keys.
Proof.
  intros (Hwf & Hin & _) Hk. rewrite me_items_keys in Hk by done.
  apply list_elem_of_bind in Hk as (i & Hk & Hi). apply list_elem_of_bind. exists i.
  split; [done|]. apply list_elem_of_fmap in Hi as (x & -> & Hx).
  rewrite Forall_forall in Hin. by apply Hin.
Qed.

Lemma item_place rss x :
  rss_ok rss -> x ∈ me_items rss ->
  aligned (item_write x).2 /\ 0x802000 <= (item_write x).2 < 0x803000 /\
  (item_write x).2 <> reg_addr "me/valid" 0.
Proof.
  intros Hok Hx. assert (item_key x ∈ all_keys) as Hk.
  { apply (rss_keys_all rss); [done|]. by apply list_elem_of_fmap_2. }
  assert (Forall (fun k => aligned (reg_addr k.1 k.2) /\ (0x802000 <= reg_addr k.1 k.2 < 0x803000) /\
    reg_addr k.1 k.2 <> reg_addr "me/valid" 0) all_keys) as Hall.
  { unfold aligned. apply (bool_decide_unpack _). vm_compute. exact I. }
  rewrite Forall_forall in Hall. apply Hall in Hk. by destruct x as [[name id] v].
Qed.

Lemma me_writes_place rss :
  rss_ok rss -> Forall (fun x => aligned x.2 /\ 0x802000 <= x.2 < 0x803000) (me_writes rss).
Proof.
  intros Hok. unfold me_writes. constructor; [by vm_compute|]. apply Forall_app. split.
  - apply Forall_forall. intros x (y & -> & Hy)%list_elem_of_fmap.
    by destruct (item_place rss y Hok Hy) as (? & ? & _).
  - constructor; [by vm_compute | done].
Qed.

Lemma me_writes_last rss x :
  rss_ok rss -> x ∈ me_items rss ->
  last_write (reg_addr x.1.1 x.1.2) (me_writes rss) = Some (u32 x.2).
Proof.
  intros Hok Hx. destruct (item_place rss x Hok Hx) as (_ & _ & Hne). cbn [item_write snd] in Hne.
  unfold me_writes. rewrite app_comm_cons, last_write_app. cbn [last_write].
  rewrite (proj2 (Z.eqb_neq _ _) Hne).
  rewrite (last_write_NoDup _ (u32 x.2)); [done | |].
  - destruct Hok as (Hwf & _ & Hnd). rewrite <- me_items_keys in Hnd by done.
    unfold item_key, item_write in *. rewrite <- !list_fmap_compose in Hnd. rewrite <- list_fmap_compose. exact Hnd.
  - apply list_elem_of_fmap. by exists x.
Qed.

Lemma me_items_elem rss i rs (j : nat) ru x :
  (i, rs) ∈ rss -> rs_r rs !! j = Some ru -> x ∈ rule_items (i * 4 + Z.of_nat j) ru ->
  x ∈ me_items rss.
Proof.
  intros Hi Hj Hx. unfold me_items. apply list_elem_of_bind. exists (i, rs). split; [|done].
  unfold ruleset_items. apply list_elem_of_bind. exists (j, ru). split; [done|].
  apply list_elem_of_lookup. exists j. cbn [snd]. by rewrite list_lookup_imap, Hj.
Qed.

Lemma bswap32_u32 x : u32 (bswap32 x) = bswap32 x.
Proof. apply u32_id, bswap32_range. Qed.

(** Each rule written is in its registers. *)
Lemma me_writes_rule rss i rs (j : nat) ru h :
  ctrl_ram (ram := ram) -> rss_ok rss -> (i, rs) ∈ rss -> rs_r rs !! j = Some ru ->
  me_rule (write_all (me_writes rss) h) (i * 4 + Z.of_nat j) = dev_rule ru.
Proof.
  intros Hram Hok Hi Hj. unfold me_rule, dev_rule.
  assert (forall x, x ∈ rule_items (i * 4 + Z.of_nat j) ru ->
    word_at (write_all (me_writes rss) h) (reg_addr x.1.1 x.1.2) = u32 x.2) as Hw.
  { intros x Hx. assert (x ∈ me_items rss) as Hx' by eauto using me_items_elem.
    destruct (item_place rss x Hok Hx') as (Ha & Hp & _). cbn [item_write snd] in *.
    assert (forall a, 0x802000 <= a < 0x803000 -> ram_word ram a) as Hrw
      by (intros a Hpa y Hy; apply Hram; lia).
    rewrite word_at_write_all; [| done | by apply Hrw |].
    - rewrite me_writes_last by done. apply u32_id, u32_range.
    - eapply Forall_impl; [by apply me_writes_place|]. intros y [? ?]. auto. }
  unfold rule_items in Hw. set (k := i * 4 + Z.of_nat j) in *.
  pose proof (Hw ("me/idx"%string, k, idx ru) ltac:(set_solver)) as H1.
  pose proof (Hw ("me/mask"%string, k, bswap32 (mask ru)) ltac:(set_solver)) as H2.
  pose proof (Hw ("me/start"%string, k, bswap32 (start ru)) ltac:(set_solver)) as H3.
  pose proof (Hw ("me/end"%string, k, bswap32 (end_ ru)) ltac:(set_solver)) as H4.
  cbn [fst snd] in *. rewrite bswap32_u32 in H2, H3, H4. by rewrite H1, H2, H3, H4.
Qed.

(** Other registers keep their contents. *)
Lemma me_writes_other rss h a :
  ctrl_ram (ram := ram) -> rss_ok rss -> aligned a -> ram_word ram a ->
  a ∉ (fun k => reg_addr k.1 k.2) <$> (rss.*1 ≫= ruleset_keys) -> a <> reg_addr "me/valid" 0 ->
  word_at (write_all (me_writes rss) h) a = word_at h a.
Proof.
  intros Hram Hok Ha Hr Hk Hv. rewrite word_at_write_all; [| done | done |].
  2: { eapply Forall_impl; [by apply me_writes_place|]. intros y [? ?]. split; [done|].
       intros z Hz. apply Hram. lia. }
  rewrite last_write_None; [done|]. intros v Hin. unfold me_writes in Hin.
  rewrite elem_of_cons, elem_of_app, list_elem_of_singleton in Hin.
  destruct Hin as [|[Hin|]]; [by simplify_eq | | by simplify_eq].
  apply list_elem_of_fmap in Hin as (x & Hx & Hin). unfold item_write in Hx. simplify_eq.
  apply Hk. apply list_elem_of_fmap. exists (item_key x). split; [done|].
  rewrite <- me_items_keys by apply Hok. by apply list_elem_of_fmap_2.
Qed.

Lemma me_writes_valid rss h :
  ctrl_ram (ram := ram) -> rss_ok rss ->
  word_at (write_all (me_writes rss) h) (reg_addr "me/valid" 0) = 1.
Proof.
  intros Hram Hok. rewrite word_at_write_all.
  - unfold me_writes. rewrite app_comm_cons, last_write_app. cbn [last_write].
    by rewrite Z.eqb_refl.
  - by vm_compute.
  - intros x Hx. apply Hram. vm_compute reg_addr in Hx. lia.
  - eapply Forall_impl; [by apply me_writes_place|]. intros y [? ?]. split; [done|].
    intros z Hz. apply Hram. lia.
Qed.
End ReadBack.

(** The cluster control registers. *)
Lemma cl_ctrl_regs :
  path_check "cl/ctrl" 0 CHECK_CL_CTRL /\ path_check "cl/ctrl" 1 CHECK_CL_CTRL.
Proof. split; apply (bool_decide_unpack _); vm_compute; exact I. Qed.

Lemma reg_addr_cl : reg_addr "cl/ctrl" 0 = 0x800000 /\ reg_addr "cl/ctrl" 1 = 0x800004.
Proof. by vm_compute. Qed.

Lemma ctx_elem (ctx : Z) : 0 <= ctx < 4 -> ctx ∈ [0; 1; 2; 3].
Proof.
  intros Hc. rewrite !elem_of_cons.
  assert (ctx = 0 \/ ctx = 1 \/ ctx = 2 \/ ctx = 3) as [->|[->|[->| ->]]] by lia; auto.
Qed.

Lemma me_program_ok rs num : Forall ruleset_wf rs -> rss_ok (me_program rs num).
Proof.
  intros Hwf. split; [|split].
  - apply Forall_forall. intros x (i & -> & _)%list_elem_of_fmap. cbn [snd].
    case_match; [done|]. destruct (nth_in_or_default i rs fpspin_ruleset_bypass) as [Hin|Hd].
    + rewrite Forall_forall in Hwf. apply Hwf. by apply list_elem_of_In.
    + by rewrite Hd.
  - apply Forall_forall. intros x (i & -> & Hi)%list_elem_of_fmap. apply elem_of_seq in Hi. cbn [fst].
    apply ctx_elem. lia.
  - apply all_keys_NoDup.
Qed.

Lemma bypass_ok ctx : 0 <= ctx < 4 -> rss_ok [(ctx, fpspin_ruleset_bypass)].
Proof.
  intros Hc. split; [|split].
  - by constructor.
  - constructor; [by apply ctx_elem | done].
  - assert (ctx = 0 \/ ctx = 1 \/ ctx = 2 \/ ctx = 3) as [->|[->|[->| ->]]] by lia;
      apply (bool_decide_unpack _); vm_compute; exact I.
Qed.

(** Everything of the loader's machine but the driver is as before. *)
Definition same_machine {hw} (s s' : lsys hw) : Prop := s' = set_l_drv (l_drv s') s.

(** The state [fpspin_prog_me] reaches. *)
Record me_programmed `{MmioRam hw ram} (rs : list fpspin_ruleset_t) (num : Z) (s s' : lsys hw) : Prop := {
  mp_machine : same_machine s s';
  mp_app : d_app (l_drv s') = set_in_me_conf false (d_app (l_drv s));
  mp_valid : word_at (d_hw (l_drv s')) (REG_ADDR ag_me_valid 0) = 1;
  mp_rules (i j : nat) ru : (i < 4)%nat ->
    rs_r (if Z.of_nat i <? num then nth i rs fpspin_ruleset_bypass
          else fpspin_ruleset_bypass) !! j = Some ru ->
    me_rule (d_hw (l_drv s')) (Z.of_nat i * 4 + Z.of_nat j) = dev_rule ru;
  mp_other a : aligned a -> ram_word ram a -> a <> REG_ADDR ag_me_valid 0 ->
    a ∉ (fun k => reg_addr k.1 k.2) <$> all_keys ->
    word_at (d_hw (l_drv s')) a = word_at (d_hw (l_drv s)) a;
}.

Lemma prog_me_result `{MmioRam hw ram} rs num (s : lsys hw) :
  ctrl_ram (ram := ram) -> regs_ready s -> Forall ruleset_wf rs -> num <= 4 ->
  exists s', fpspin_prog_me rs num s = (Ok tt, s') /\ me_programmed rs num s s'.
Proof.
  intros Hram Hr Hwf Hn. pose proof (me_program_ok rs num Hwf) as Hok.
  rewrite (prog_me_rulesets rs num Hn s).
  rewrite prog_rulesets_run by (done || apply Hok).
  eexists. split; [reflexivity|]. split; cbn [set_l_drv l_drv d_hw d_app]; try done.
  - by apply me_writes_valid.
  - intros i j ru Hi Hj. eapply (me_writes_rule _ _ _ j); [done | done | | exact Hj].
    unfold me_program. apply list_elem_of_fmap. exists i. split; [|apply elem_of_seq; lia].
    f_equal. by destruct (Z.ltb_spec (Z.of_nat i) num), (Z.geb_spec (Z.of_nat i) num); try lia.
  - intros a Ha Hra Hv Hk. by apply me_writes_other.
Qed.

(** Programming the matching engine. With more rulesets than the device
    has, [fpspin_prog_me] exits without touching it. Otherwise it succeeds
    whatever the engine did before, and leaves it enabled with the given
    rulesets in the first places, bypass rulesets in the others, every rule
    byte-swapped into its registers; no other register of the device changes,
    the mode registers included, so the [mode] of a ruleset has no effect. *)
Theorem prog_me_spec `{MmioRam hw ram} rs num (s : lsys hw) :
  ctrl_ram (ram := ram) -> regs_ready s -> Forall ruleset_wf rs -> num <= Z.of_nat (length rs) ->
  (4 < num -> fpspin_prog_me rs num s = (Err EXIT_FAILURE, s)) /\
  (num <= 4 -> exists s', fpspin_prog_me rs num s = (Ok tt, s') /\ me_programmed rs num s s').
Proof.
  intros Hram Hr Hwf Hlen. split; intros Hn; [|by apply prog_me_result].
  unfold fpspin_prog_me, NUM_RULESETS. by rewrite Z.gtb_ltb, (proj2 (Z.ltb_lt _ _)).
Qed.

(** A machine with the driver bound, the cluster out of reset. *)
Definition lsys0 : lsys memory :=
  mk_lsys true pspin_sysfs drv_mem0 dev_mem0 0
    (mk_ctx_image (mk_mem_area 0 0) (mk_mem_area 0 0) (mk_mem_area 0 0) (mk_mem_area 0 0)).

Lemma prog_me_spec_witness :
  exists s', fpspin_prog_me [fpspin_ruleset_slmp] 1 lsys0 = (Ok tt, s') /\
    me_rule (d_hw (l_drv s')) 2 = dev_rule (FPSPIN_RULE_UDP_DPORT 9330) /\
    me_rule (d_hw (l_drv s')) 4 = dev_rule FPSPIN_RULE_FALSE.
Proof.
  destruct (prog_me_spec (ram := fun _ => True) [fpspin_ruleset_slmp] 1 lsys0) as [_ H];
    [done | done | by constructor | done |].
  destruct (H ltac:(lia)) as (s' & Hs & [_ _ _ Hru _]). exists s'. split_and!; [done | |].
  - by apply (Hru 0%nat 2%nat); [lia|].
  - by apply (Hru 1%nat 0%nat); [lia|].
Defined.

(** ** Unloading *)

Lemma ruleset_keys_me ctx a :
  0 <= ctx < 4 -> a < 0x802000 ->
  a ∉ (fun k => reg_addr k.1 k.2) <$> ([ctx] ≫= ruleset_keys).
Proof.
  intros Hc Ha Hin. apply list_elem_of_fmap in Hin as (k & -> & Hk).
  pose proof all_keys_place as Hall. rewrite Forall_forall in Hall.
  assert (k ∈ all_keys) as Hk'.
  { unfold all_keys. apply list_elem_of_bind in Hk as (i & Hk & Hi). apply list_elem_of_bind.
    exists i. split; [done|]. apply list_elem_of_singleton in Hi as ->.
    by apply ctx_elem. }
  apply Hall in Hk'. lia.
Qed.

Section Unload.
Context {hw : Type} `{!Mmio hw}.

Lemma write_cl_fetch v (s : lsys hw) :
  regs_ready s -> (v = 0 \/ v = 3) ->
  write_reg "cl/ctrl" 0 v s
  = (Ok tt, set_l_drv (set_hw (iowrite32 v 0x800000 (d_hw (l_drv s))) (l_drv s)) s).
Proof.
  intros Hr Hv. destruct cl_ctrl_regs as [(a & Ha & Hst & Hc) _].
  assert (attr_idx a = 0) as Hi by (vm_compute in Ha; by simplify_eq).
  destruct Hv as [->| ->];
    (erewrite write_reg_ok; [| done | exact Ha | done | exact Hc | rewrite Hi; reflexivity]);
    by rewrite (proj1 reg_addr_cl).
Qed.

Lemma write_cl_reset v (s : lsys hw) :
  regs_ready s -> (v = 0 \/ v = 1) ->
  write_reg "cl/ctrl" 1 v s
  = (Ok tt, set_l_drv (Drv (set_in_reset (negb (v =? 0)) (d_app (l_drv s)))
                          (iowrite32 v 0x800004 (d_hw (l_drv s)))) s).
Proof.
  intros Hr Hv. destruct cl_ctrl_regs as [_ (a & Ha & Hst & Hc)].
  assert (attr_idx a = 1) as Hi by (vm_compute in Ha; by simplify_eq).
  destruct Hv as [->| ->];
    (erewrite write_reg_ok; [| done | exact Ha | done | exact Hc | rewrite Hi; reflexivity]);
    by rewrite (proj2 reg_addr_cl).
Qed.

(** Stopping the cores and cycling the reset. *)
Definition stop_writes : list (Z * Z) := [(0, 0x800000); (1, 0x800004); (0, 0x800004)].

Lemma stop_run {A} (k : M (lsys hw) A) (s : lsys hw) :
  regs_ready s ->
  sbind fetch_off (fun _ => sbind cycle_reset (fun _ => k)) s
  = k (set_l_drv (Drv (set_in_reset false (d_app (l_drv s)))
                   (write_all stop_writes (d_hw (l_drv s)))) s).
Proof.
  intros Hr. unfold fetch_off. erewrite sbind_ok; [|apply write_cl_fetch; [done | by left]].
  erewrite sbind_ok; [reflexivity|]. unfold cycle_reset.
  erewrite sbind_ok; [|apply write_cl_reset; [done | by right]].
  rewrite write_cl_reset by (done || by left). done.
Qed.
End Unload.

(** Unloading always succeeds while the driver is bound: afterwards the
    cores do not fetch, the cluster is out of reset, the four rules of the
    context are bypass rules and the engine is enabled; the rules of the other
    contexts stay as they were. *)
Theorem unload_spec `{MmioRam hw ram} ctx (s : lsys hw) :
  ctrl_ram (ram := ram) -> regs_ready s -> 0 <= ctx < 4 ->
  exists s',
    fpspin_unload ctx s = (Ok tt, s') /\ same_machine s s' /\
    d_app (l_drv s') = set_in_me_conf false (set_in_reset false (d_app (l_drv s))) /\
    word_at (d_hw (l_drv s')) (REG_ADDR ag_cl_ctrl 0) = 0 /\
    word_at (d_hw (l_drv s')) (REG_ADDR ag_me_valid 0) = 1 /\
    (forall j, 0 <= j < 4 -> me_rule (d_hw (l_drv s')) (ctx * 4 + j) = dev_rule FPSPIN_RULE_FALSE) /\
    (forall a, aligned a -> ram_word ram a ->
       a ∉ [REG_ADDR ag_cl_ctrl 0; REG_ADDR ag_cl_ctrl 1; REG_ADDR ag_me_valid 0] ->
       a ∉ (fun k => reg_addr k.1 k.2) <$> ruleset_keys ctx ->
       word_at (d_hw (l_drv s')) a = word_at (d_hw (l_drv s)) a).
Proof.
  intros Hram Hr Hc. rewrite unload_rulesets, stop_run by done.
  pose proof (bypass_ok ctx Hc) as Hok. pose proof Hok as (H1 & H2 & _).
  rewrite prog_rulesets_run by done. eexists. split; [reflexivity|]. split; [done|].
  cbn [set_l_drv l_drv d_hw d_app].
  change (REG_ADDR ag_cl_ctrl 0) with 0x800000. change (REG_ADDR ag_cl_ctrl 1) with 0x800004.
  change (REG_ADDR ag_me_valid 0) with (reg_addr "me/valid" 0).
  assert (Forall (fun x => aligned x.2 /\ ram_word ram x.2) stop_writes) as Hstop.
  { repeat constructor; intros x Hx; apply Hram; cbn in Hx; lia. }
  split; [done|]. split; [|split; [by apply me_writes_valid | split]].
  - rewrite me_writes_other; [| done | done | by vm_compute | | | by vm_compute].
    + rewrite word_at_write_all; [by vm_compute | by vm_compute | | done].
      intros x Hx. apply Hram. lia.
    + intros x Hx. apply Hram. lia.
    + by apply ruleset_keys_me.
  - intros j Hj. rewrite <- (Z2Nat.id j) by lia.
    eapply (me_writes_rule _ ctx fpspin_ruleset_bypass (Z.to_nat j)); [done | done | by left |].
    unfold fpspin_ruleset_bypass. cbn [rs_r]. apply lookup_replicate. split; [done|].
    unfold NUM_RULES_PER_RULESET. lia.
  - intros a Ha Hra Hne Hk.
    rewrite me_writes_other; [| done | done | done | done | cbn [fmap list_fmap mbind list_bind fst]; by rewrite app_nil_r | set_solver].
    rewrite word_at_write_all by done. rewrite last_write_None; [done|].
    intros v Hv. unfold stop_writes in Hv. set_solver.
Qed.

Lemma unload_spec_witness :
  exists s', fpspin_unload 2 lsys0 = (Ok tt, s') /\
             me_rule (d_hw (l_drv s')) 9 = dev_rule FPSPIN_RULE_FALSE.
Proof.
  destruct (unload_spec (ram := fun _ => True) 2 lsys0) as (s' & Hs & _ & _ & _ & _ & Hr & _);
    [done | done | lia |].
  exists s'. split; [exact Hs|]. specialize (Hr 1 ltac:(lia)). exact Hr.
Defined.
