(* ===== verification/LoaderMem.v ===== *)
(** * Writing the memories of the cluster from the host

    [fpspin_write_memory] and [write_section] of [loader.c], through the
    character device of the driver: the image arrives in the cluster's memory
    byte for byte, and what happens for lengths the driver cannot take. *)

From S2P Require Import Prelude Regs Mmio PspinDev PspinFile Loader.

Section WriteMemory.
Context `{MmioRam hw ram}.
Implicit Types s : lsys hw.

Definition bar_ram : Prop := forall x, 0 <= x < pspin_mem_size -> ram x.

(** The device file is usable: open, out of reset. *)
Definition file_ready s : Prop :=
  (exists buf, cdev_ready (l_cdev s) buf) /\ in_reset (d_app (l_drv s)) = false.

(** [s'] is [s] with [len] bytes of the process memory from [host_addr] on
    written at the place [pos] of the BAR. *)
Record copied (hmem : Z -> Z) (host_addr pos len : Z) s s' : Prop := {
  copied_bytes x : ram x ->
    byte_at (d_hw (l_drv s')) x
    = if bool_decide (pos <= x < pos + len) then hmem (host_addr + (x - pos))
      else byte_at (d_hw (l_drv s)) x;
  copied_pos : l_pos s' = pos + len;
  copied_app : d_app (l_drv s') = d_app (l_drv s);
  copied_ready : file_ready s';
  copied_rest : l_base s' = l_base s /\ l_sysfs s' = l_sysfs s /\ l_img s' = l_img s;
}.

Lemma lookup_host_bytes hmem a n k :
  (k < n)%nat -> host_bytes hmem a n !! k = Some (hmem (a + Z.of_nat k)).
Proof. intros Hk. unfold host_bytes. by rewrite list_lookup_fmap, lookup_seq_lt by done. Qed.

Lemma host_bytes_bytes hmem a n : (forall x, is_byte (hmem x)) -> Forall is_byte (host_bytes hmem a n).
Proof. intros Hm. apply Forall_forall. intros b (k & -> & _)%list_elem_of_fmap. apply Hm. Qed.

Lemma take_host_bytes hmem a n m : (m <= n)%nat -> take m (host_bytes hmem a n) = host_bytes hmem a m.
Proof.
  intros Hm. unfold host_bytes. rewrite <- fmap_take. f_equal.
  replace n with (m + (n - m))%nat by lia. rewrite seq_app. apply take_app_length'.
  by rewrite length_seq.
Qed.

Lemma length_host_bytes hmem a n : length (host_bytes hmem a n) = n.
Proof. unfold host_bytes. by rewrite length_fmap, length_seq. Qed.

(** The block buffer of an open device stays a block of bytes. *)
Lemma write_buf_ready dev buf bs :
  cdev_ready dev buf -> Forall is_byte bs -> Z.of_nat (length bs) <= pspin_block_size ->
  cdev_ready (set_block_buffer (Some (write_bytes 0 bs buf)) dev) (write_bytes 0 bs buf).
Proof.
  intros (Ht & He & Hb & Hl & HB) Hbs Hlen. unfold pspin_block_size in *. split_and!; try done.
  - rewrite length_write_bytes; [done | lia].
  - unfold write_bytes. repeat apply Forall_app_2; [constructor | done |]. by apply Forall_drop.
Qed.

(** One write system call moves as many whole words as fit a block. *)
Lemma sys_write_step hmem host_addr len s :
  bar_ram -> (forall x, is_byte (hmem x)) -> file_ready s ->
  0 <= l_pos s < pspin_mem_size -> 0 <= len -> l_pos s + len <= pspin_mem_size ->
  let n := round_down4 (Z.min len pspin_block_size) in
  exists s', sys_write env_ok hmem host_addr len s = (Ok n, s') /\
             copied hmem host_addr (l_pos s) n s s'.
Proof.
  intros Hram Hm [[buf Hbuf] Hrst] Hp Hlen Hend n.
  set (p := l_pos s) in *.
  assert (0 <= n <= Z.min len pspin_block_size) as Hn
    by (apply round_down4_spec; unfold pspin_block_size; lia).
  assert (n = 4 * (n / 4)) as Hn4.
  { destruct (round_down4_spec (Z.min len pspin_block_size)) as (_ & Hm4 & _).
    { unfold pspin_block_size; lia. }
    fold n in Hm4. pose proof (Z.div_mod n 4). lia. }
  unfold pspin_mem_size in Hp, Hend.
  assert (transfer_count true p (Z.min len MAX_RW_COUNT) = n) as Htc.
  { unfold MAX_RW_COUNT. rewrite transfer_count_spec by (unfold pspin_mem_size; lia).
    unfold n. f_equal. unfold pspin_mem_size, pspin_block_size. lia. }
  unfold sys_write. fold p. rewrite Z.geb_leb, (proj2 (Z.leb_gt _ _)) by lia.
  rewrite (pspin_write_ready (l_cdev s) buf) by (done || unfold pspin_mem_size; lia).
  rewrite Htc. unfold MAX_RW_COUNT, pspin_block_size in *.
  rewrite take_host_bytes by lia.
  pose proof (write_buf_ready (l_cdev s) buf (host_bytes hmem host_addr (Z.to_nat n)) Hbuf
                (host_bytes_bytes _ _ _ Hm)) as Hready.
  rewrite length_host_bytes in Hready. specialize (Hready ltac:(unfold pspin_block_size; lia)).
  eexists. split; [reflexivity|]. split; try done.
  - intros x Hx. cbn [set_l_file l_drv set_hw d_hw].
    destruct Hready as (_ & _ & _ & Hl & HB). unfold pspin_block_size in Hl.
    apply write_words_byte; try done; try lia.
    + intros y Hy. apply Hram. unfold pspin_mem_size. lia.
    + intros Hin. rewrite bool_decide_eq_true_2 by lia.
      unfold write_bytes. rewrite take_0, app_nil_l.
      rewrite lookup_app_l by (rewrite length_host_bytes; lia).
      rewrite lookup_host_bytes by lia. do 2 f_equal. lia.
    + intros Hout. rewrite bool_decide_eq_false_2; [done | lia].
  - split; [|done]. by eexists.
Qed.

(** Copies compose. *)
Lemma copied_trans hmem a p n1 n2 s s1 s2 :
  0 <= n1 -> 0 <= n2 -> copied hmem a p n1 s s1 -> copied hmem (a + n1) (p + n1) n2 s1 s2 ->
  copied hmem a p (n1 + n2) s s2.
Proof.
  intros H1 H2 [Hb1 Hp1 Ha1 Hr1 (E1 & E2 & E3)] [Hb2 Hp2 Ha2 Hr2 (F1 & F2 & F3)].
  split; [| lia | congruence | done | split_and!; congruence].
  intros x Hx. rewrite Hb2, Hb1 by done. repeat case_bool_decide; first [done | exfalso; lia | f_equal; lia].
Qed.

(** The loop copies everything when the length is a multiple of 4. *)
Lemma write_loop_copies n hmem host_addr len s :
  bar_ram -> (forall x, is_byte (hmem x)) -> file_ready s ->
  0 <= l_pos s < pspin_mem_size -> 0 <= len -> l_pos s + len <= pspin_mem_size ->
  len mod 4 = 0 -> 0 <= host_addr -> host_addr + len < 2 ^ 64 -> len <= 4096 * Z.of_nat n ->
  exists s', write_loop (replicate (S n) env_ok) hmem host_addr len s = (Ok tt, s') /\
             copied hmem host_addr (l_pos s) len s s'.
Proof.
  intros Hram Hm. revert host_addr len s. induction n as [|n IH];
    intros host_addr len s Hf Hp Hl Hend H4 Hh Hh' Hfuel.
  all: destruct (sys_write_step hmem host_addr len s) as (s1 & Hw & Hc); try done.
  all: pose proof (round_down4_spec (Z.min len pspin_block_size)
                     ltac:(unfold pspin_block_size; lia)) as (Hr & Hr4 & _).
  all: unfold pspin_mem_size in Hp, Hend.
  all: change (replicate (S ?k) env_ok) with (env_ok :: replicate k env_ok); cbn [write_loop];
    rewrite (sbind_ok _ _ _ _ _ Hw).
  - assert (len = 0) as -> by lia. cbn. eexists. split; [reflexivity|]. exact Hc.
  - set (m := round_down4 (Z.min len pspin_block_size)) in *.
    rewrite u64_id by lia. rewrite (proj2 (Z.ltb_ge m 0)) by lia.
    rewrite !u64_id by lia. destruct (Z.eqb_spec (len - m) 0) as [Hz|Hz].
    + exists s1. split; [done|]. by replace len with m by lia.
    + assert (m = 4096) as Hm4.
      { unfold m, round_down4, pspin_block_size in *.
        destruct (Z.min_spec len 4096) as [[? E]|[? E]]; rewrite E in *; [lia | done]. }
      destruct (IH (host_addr + m) (len - m) s1) as (s2 & Hs2 & Hc2); try lia.
      * apply Hc.
      * rewrite (copied_pos _ _ _ _ _ _ Hc). unfold pspin_mem_size. lia.
      * rewrite (copied_pos _ _ _ _ _ _ Hc). unfold pspin_mem_size. lia.
      * rewrite Hm4. rewrite <- (Z.mod_add (len - 4096) 1024) by lia.
        replace (len - 4096 + 1024 * 4) with len by lia. done.
      * exists s2. split; [exact Hs2|]. rewrite (copied_pos _ _ _ _ _ _ Hc) in Hc2.
        replace len with (m + (len - m)) by lia. eapply copied_trans; eauto; lia.
Qed.

(** Seeking to an address of the cluster's memories. *)
Definition seekable (a c : Z) : Prop :=
  (in_prog a \/ in_hnd a) /\ pspin_addr_to_corundum a = c.

Lemma seekable_range a c : seekable a c -> 0 <= a < 2 ^ 32 /\ 0 <= c < pspin_mem_size.
Proof.
  intros [Ha <-]. destruct Ha as [Ha|Ha];
    [rewrite pspin_addr_to_corundum_prog by done | rewrite pspin_addr_to_corundum_hnd by done];
    unfold_map; lia.
Qed.

Definition at_pos (c : Z) s : lsys hw := set_l_file (l_drv s) (l_cdev s) c s.

Lemma sys_lseek_ok a c s :
  file_ready s -> seekable a c -> sys_lseek_set a s = (Ok c, at_pos c s).
Proof.
  intros [[buf (Ht & _)] Hr] Hs. pose proof (seekable_range a c Hs) as [Ha Hc].
  destruct Hs as [_ Hs]. unfold sys_lseek_set, pspin_llseek, is_mem. rewrite Ht, Hr.
  cbn [negb andb]. change (SEEK_SET =? SEEK_SET) with true. cbv iota.
  rewrite u64_id, Hs by lia. rewrite !(proj2 (Z.ltb_ge c 0)) by lia.
  rewrite Z.gtb_ltb, (proj2 (Z.ltb_ge _ _)) by lia. done.
Qed.

Lemma sys_lseek_bad a s :
  file_ready s -> 0 <= a < 2 ^ 64 -> ~ in_prog a -> ~ in_hnd a ->
  exists e, e < 0 /\ sys_lseek_set a s = (Ok e, at_pos (l_pos s) s).
Proof.
  intros [[buf (Ht & _)] Hr] Ha Hp Hh. exists (- EINVAL). split; [done|].
  unfold sys_lseek_set, pspin_llseek, is_mem. rewrite Ht, Hr. cbn [negb andb].
  change (SEEK_SET =? SEEK_SET) with true. cbv iota.
  by rewrite u64_id, pspin_addr_to_corundum_bad by done.
Qed.

Lemma write_memory_copies n hmem host_addr len a c s :
  bar_ram -> (forall x, is_byte (hmem x)) -> file_ready s -> seekable a c ->
  0 <= len -> c + len <= pspin_mem_size -> len mod 4 = 0 -> 0 <= host_addr ->
  host_addr + len < 2 ^ 64 -> len <= 4096 * Z.of_nat n ->
  exists s', fpspin_write_memory (replicate (S n) env_ok) a hmem host_addr len s = (Ok tt, s') /\
             copied hmem host_addr c len s s'.
Proof.
  intros Hram Hm Hf Hs Hl Hend H4 Hh Hh' Hn. pose proof (seekable_range a c Hs) as [_ Hc].
  unfold fpspin_write_memory. erewrite sbind_ok by (by apply sys_lseek_ok).
  rewrite (proj2 (Z.ltb_ge _ _)) by lia.
  destruct (write_loop_copies n hmem host_addr len (at_pos c s)) as (s' & Hw & [? ? ? ? ?]); try done.
  exists s'. split; [done|]. by split.
Qed.

Lemma round_down4_rest x y :
  0 <= y <= x -> x mod 4 <> 0 -> 0 < x - round_down4 y /\ (x - round_down4 y) mod 4 <> 0.
Proof.
  intros Hy Hx. destruct (round_down4_spec y ltac:(lia)) as (Hr & Hr4 & _).
  pose proof (Z.div_mod (round_down4 y) 4 ltac:(lia)).
  assert ((x - round_down4 y) mod 4 = x mod 4) as E.
  { rewrite <- (Z.mod_add (x - round_down4 y) (round_down4 y / 4)) by lia. f_equal. lia. }
  rewrite E. split; [|done]. destruct (Z.eq_dec (x - round_down4 y) 0) as [E0|]; [|lia].
  by rewrite E0 in E.
Qed.

(** A length that is not a multiple of 4 is never used up. *)
Lemma write_loop_stuck n hmem host_addr len s :
  bar_ram -> (forall x, is_byte (hmem x)) -> file_ready s ->
  0 <= l_pos s < pspin_mem_size -> 0 <= len -> l_pos s + len <= pspin_mem_size ->
  len mod 4 <> 0 ->
  exists s', write_loop (replicate n env_ok) hmem host_addr len s = (Err OUT_OF_FUEL, s').
Proof.
  intros Hram Hm. revert host_addr len s. induction n as [|n IH];
    intros host_addr len s Hf Hp Hl Hend H4; [by eexists|].
  destruct (sys_write_step hmem host_addr len s) as (s1 & Hw & Hc); try done.
  destruct (round_down4_rest len (Z.min len pspin_block_size)) as [Hm0 Hm4]; try done.
  { unfold pspin_block_size. lia. }
  destruct (round_down4_spec (Z.min len pspin_block_size)) as (Hr & _ & _).
  { unfold pspin_block_size. lia. }
  unfold pspin_mem_size in Hp, Hend.
  change (replicate (S n) env_ok) with (env_ok :: replicate n env_ok). cbn [write_loop].
  rewrite (sbind_ok _ _ _ _ _ Hw). set (m := round_down4 _) in *.
  rewrite u64_id by lia. rewrite (proj2 (Z.ltb_ge m 0)) by lia.
  rewrite (u64_id (len - m)) by lia. rewrite (proj2 (Z.eqb_neq _ _)) by lia.
  pose proof (copied_pos _ _ _ _ _ _ Hc) as Hpos.
  apply IH; [apply Hc | rewrite Hpos; unfold pspin_mem_size; lia | lia
            | rewrite Hpos; unfold pspin_mem_size; lia | done].
Qed.
End WriteMemory.

(** [fpspin_write_memory] stores the host buffer in the cluster's memory
    byte for byte when the length is a multiple of 4 and fits below the end of
    the BAR's memory: it returns after at most one more write than there are
    blocks, no other byte of the memory changes, and the driver's state stays
    the same. For any other length that fits it never returns: the driver
    only takes whole words, and the loop waits for the last bytes forever. *)
Theorem write_memory_spec `{MmioRam hw ram} hmem host_addr len a c (s : lsys hw) :
  bar_ram (ram := ram) -> (forall x, is_byte (hmem x)) -> file_ready s -> seekable a c ->
  0 <= len -> c + len <= pspin_mem_size -> 0 <= host_addr -> host_addr + len < 2 ^ 64 ->
  (len mod 4 = 0 -> forall n, len <= 4096 * Z.of_nat n -> exists s',
     fpspin_write_memory (replicate (S n) env_ok) a hmem host_addr len s = (Ok tt, s') /\
     copied hmem host_addr c len s s') /\
  (len mod 4 <> 0 -> forall n, exists s',
     fpspin_write_memory (replicate n env_ok) a hmem host_addr len s = (Err OUT_OF_FUEL, s')).
Proof.
  intros Hram Hm Hf Hs Hl Hend Hh Hh'. split.
  - intros H4 n Hn. by apply write_memory_copies.
  - intros H4 n. pose proof (seekable_range a c Hs) as [_ Hc]. unfold fpspin_write_memory.
    erewrite sbind_ok by (by apply sys_lseek_ok). rewrite (proj2 (Z.ltb_ge _ _)) by lia.
    by apply write_loop_stuck.
Qed.

Lemma write_memory_spec_witness :
  exists s', fpspin_write_memory (replicate 2 env_ok) 0x1c000040 (fun x => x mod 256) 0x1000 8 lsys0
             = (Ok tt, s') /\ byte_at (d_hw (l_drv s')) 0x42 = 2.
Proof.
  destruct (write_memory_spec (ram := fun _ => True) (fun x => x mod 256) 0x1000 8 0x1c000040 0x40
              lsys0) as [H _].
  - done.
  - intros x. apply Z.mod_pos_bound. lia.
  - split; [|done]. eexists. exact dev_mem0_ready.
  - split; [right; by vm_compute | by vm_compute].
  - lia.
  - by vm_compute.
  - lia.
  - lia.
  - destruct (H eq_refl 1%nat ltac:(lia)) as (s' & Hs & Hc). exists s'. split; [exact Hs|].
    etrans; [exact (copied_bytes _ _ _ _ _ _ Hc 0x42 I)|]. vm_compute. reflexivity.
Defined.

(** An interrupted write corrupts the image. [bytes_written] is unsigned,
    so the error check never fires: after a write that fails with [-EINTR] the
    loop goes back four bytes in the host buffer without moving in the device,
    and returns with the buffer stored four bytes too far into the device,
    behind the four bytes in front of it. *)
Theorem write_memory_interrupted `{MmioRam hw ram} hmem host_addr len a c (s : lsys hw) n :
  bar_ram (ram := ram) -> (forall x, is_byte (hmem x)) -> file_ready s -> seekable a c ->
  0 <= len -> c + len + 4 <= pspin_mem_size -> 4 <= host_addr -> host_addr + len < 2 ^ 64 ->
  len mod 4 = 0 -> len + 4 <= 4096 * Z.of_nat n ->
  exists s',
    fpspin_write_memory (mk_fops_env true false :: replicate (S n) env_ok) a hmem host_addr len s
    = (Ok tt, s') /\
    copied hmem (host_addr - 4) c (len + 4) s s'.
Proof.
  intros Hram Hm Hf Hs Hl Hend Hh Hh' H4 Hn. pose proof (seekable_range a c Hs) as [_ Hc].
  unfold pspin_mem_size in Hend, Hc.
  unfold fpspin_write_memory. erewrite sbind_ok by (by apply sys_lseek_ok).
  rewrite (proj2 (Z.ltb_ge _ _)) by lia. cbn [write_loop].
  assert (sys_write (mk_fops_env true false) hmem host_addr len (at_pos c s)
          = (Ok (- EINTR), at_pos c s)) as Hw.
  { unfold sys_write. rewrite Z.geb_leb, (proj2 (Z.leb_gt _ _)) by lia.
    destruct Hf as [[buf (Ht & _)] Hr]. unfold pspin_write, is_mem. cbn [at_pos set_l_file l_cdev l_drv].
    rewrite Ht, Hr. done. }
  rewrite (sbind_ok _ _ _ _ _ Hw). change (u64 (- EINTR)) with (2 ^ 64 - 4).
  change (2 ^ 64 - 4 <? 0) with false. cbv iota.
  assert (u64 (len - (2 ^ 64 - 4)) = len + 4) as ->.
  { unfold u64. rewrite <- (Z.mod_add _ 1) by lia. rewrite Z.mod_small; lia. }
  assert (u64 (host_addr + (2 ^ 64 - 4)) = host_addr - 4) as ->.
  { unfold u64. rewrite <- (Z.mod_add _ (-1)) by lia. rewrite Z.mod_small; lia. }
  rewrite (proj2 (Z.eqb_neq _ _)) by lia.
  destruct (write_loop_copies n hmem (host_addr - 4) (len + 4) (at_pos c s)) as (s' & Hl' & [? ? ? ? ?]);
    try done; try (cbn; unfold pspin_mem_size; lia).
  { rewrite <- (Z.mod_add _ (-1)) by lia. by replace (len + 4 + -1 * 4) with len by lia. }
  exists s'. split; [done|]. by split.
Qed.

Lemma write_memory_interrupted_witness :
  exists s', fpspin_write_memory (mk_fops_env true false :: replicate 2 env_ok) 0x1c000040
               (fun x => x mod 256) 0x1000 8 lsys0 = (Ok tt, s') /\
             byte_at (d_hw (l_drv s')) 0x42 = 254.
Proof.
  destruct (write_memory_interrupted (ram := fun _ => True) (fun x => x mod 256) 0x1000 8 0x1c000040 0x40
              lsys0 1) as (s' & Hs & Hc).
  - done.
  - intros x. apply Z.mod_pos_bound. lia.
  - split; [|done]. eexists. exact dev_mem0_ready.
  - split; [right; by vm_compute | by vm_compute].
  - lia.
  - by vm_compute.
  - lia.
  - lia.
  - done.
  - lia.
  - exists s'. split; [exact Hs|].
    etrans; [exact (copied_bytes _ _ _ _ _ _ Hc 0x42 I)|]. vm_compute. reflexivity.
Defined.

(** ** Sections of the image *)

Section WriteSection.
Context `{MmioRam hw ram}.
Implicit Types s : lsys hw.

(** The bytes of a section as memory starting at address 0. *)
Definition bytes_mem (bytes : list Z) : Z -> Z := fun x => nth (Z.to_nat x) bytes 0.

Lemma copied_ext hmem hmem' a a' p n s s' :
  (forall k, 0 <= k < n -> hmem (a + k) = hmem' (a' + k)) ->
  copied hmem a p n s s' -> copied hmem' a' p n s s'.
Proof.
  intros Hk [Hb ? ? ? ?]. split; try done. intros x Hx. rewrite Hb by done.
  case_bool_decide; [|done]. apply Hk. lia.
Qed.

Lemma nth_byte (l : list Z) k : Forall is_byte l -> is_byte (nth k l 0).
Proof.
  intros Hl. destruct (nth_in_or_default k l 0) as [Hin| ->]; [|unfold is_byte; lia].
  rewrite Forall_forall in Hl. by apply Hl, list_elem_of_In.
Qed.

(** The chunk [bytes[4096 * k ..]] in [bin_buf]. *)
Lemma bin_buf_chunk bytes off k :
  (Z.of_nat off + k < Z.of_nat (length bytes)) -> 0 <= k < 4096 ->
  bin_buf_mem (take (Z.to_nat 4096) (drop off bytes)) (BIN_BUF + k)
  = bytes_mem bytes (Z.of_nat off + k).
Proof.
  intros Hl Hk. unfold bin_buf_mem, bytes_mem.
  replace (Z.to_nat (BIN_BUF + k - BIN_BUF)) with (Z.to_nat k) by lia.
  rewrite !nth_lookup, lookup_take, decide_True, lookup_drop by lia.
  do 2 f_equal. lia.
Qed.

(** One chunk. *)
Lemma write_chunk n bytes off a c s :
  bar_ram (ram := ram) -> Forall is_byte bytes -> file_ready s -> seekable a c ->
  let chunk := take (Z.to_nat 4096) (drop off bytes) in
  let m := Z.of_nat (length chunk) in
  c + m <= pspin_mem_size -> m mod 4 = 0 ->
  exists s', fpspin_write_memory (replicate (S (S n)) env_ok) a (bin_buf_mem chunk) BIN_BUF m s
             = (Ok tt, s') /\ copied (bytes_mem bytes) (Z.of_nat off) c m s s'.
Proof.
  intros Hram HB Hf Hs chunk m Hend H4.
  assert (m = Z.min 4096 (Z.of_nat (length bytes - off))) as Hm.
  { unfold m, chunk. rewrite length_take, length_drop. lia. }
  destruct (write_memory_copies (S n) (bin_buf_mem chunk) BIN_BUF m a c s) as (s' & Hw & Hc);
    try done; try (unfold BIN_BUF; lia).
  { intros x. apply nth_byte. unfold chunk. by apply Forall_take, Forall_drop. }
  exists s'. split; [exact Hw|]. eapply copied_ext; [|exact Hc].
  intros k Hk. apply bin_buf_chunk; lia.
Qed.

(** The rounds of the loop from offset [off] of the section; [sys_lseek_set]
    of the final, empty round decides the outcome. *)
Lemma section_loop_copies chunks n bytes off base c s :
  bar_ram (ram := ram) -> Forall is_byte bytes -> file_ready s ->
  Z.of_nat (length bytes) mod 4 = 0 -> c + Z.of_nat (length bytes) <= pspin_mem_size ->
  (off <= length bytes)%nat -> Z.of_nat off mod 4096 = 0 \/ off = length bytes ->
  0 <= base -> base + Z.of_nat (length bytes) < 2 ^ 32 ->
  (forall k, 0 <= k < Z.of_nat (length bytes) -> seekable (base + k) (c + k)) ->
  (length bytes <= off + 4096 * chunks)%nat ->
  exists s', copied (bytes_mem bytes) (Z.of_nat off) (c + Z.of_nat off)
               (Z.of_nat (length bytes - off)) (at_pos (c + Z.of_nat off) s) s' /\
    section_loop (S chunks) (replicate (S (S n)) env_ok) (drop off bytes) (base + Z.of_nat off) s
    = section_loop 1 (replicate (S (S n)) env_ok) [] (base + Z.of_nat (length bytes))
        (if bool_decide (off = length bytes) then s else s').
Proof.
  intros Hram HB. revert off s. induction chunks as [|chunks IH];
    intros off s Hf H4 Hend Hoff Hal Hb Hb32 Hsk Hfuel; case_bool_decide as Hlast; try lia.
  1,2: exists (at_pos (c + Z.of_nat off) s);
    (split; [split; try done; [|cbn; lia]; intros x Hx; rewrite bool_decide_eq_false_2; [done | lia]
            | by rewrite Hlast, drop_all]).
  - set (chunk := take (Z.to_nat 4096) (drop off bytes)).
    assert (length chunk = Nat.min 4096 (length bytes - off)) as Hlc
      by (unfold chunk; rewrite length_take, length_drop; lia).
    destruct Hal as [Hal|Hal]; [|done].
    pose proof (Z.div_mod (Z.of_nat off) 4096 ltac:(lia)).
    pose proof (Z.div_mod (Z.of_nat (length bytes)) 4 ltac:(lia)).
    destruct (write_chunk n bytes off (base + Z.of_nat off) (c + Z.of_nat off) s)
      as (s1 & Hw & Hc1); try done; [apply Hsk; lia | fold chunk; unfold pspin_mem_size in *; lia | |].
    { fold chunk. rewrite Hlc. destruct (Nat.min_spec 4096 (length bytes - off)) as [[? ->]|[? ->]].
      - done.
      - rewrite Nat2Z.inj_sub by lia.
        rewrite <- (Z.mod_add _ (1024 * (Z.of_nat off / 4096))) by lia.
        rewrite <- H4. f_equal. lia. }
    fold chunk in Hw, Hc1.
    destruct (IH (off + length chunk)%nat s1) as (s2 & Hc2 & Hloop); try done; try lia.
    + apply Hc1.
    + rewrite Hlc. destruct (Nat.min_spec 4096 (length bytes - off)) as [[? ->]|[? ->]]; [left | right; lia].
      rewrite Nat2Z.inj_add. rewrite Z.add_mod, Hal by lia. done.
    + assert (copied (bytes_mem bytes) (Z.of_nat off) (c + Z.of_nat off)
                (Z.of_nat (length bytes - off)) (at_pos (c + Z.of_nat off) s)
                (if bool_decide (off + length chunk = length bytes)%nat then s1 else s2)) as Hcc.
      { case_bool_decide as Hend2.
        - replace (length bytes - off)%nat with (length chunk) by lia. by destruct Hc1; split.
        - replace (Z.of_nat (length bytes - off)) with
            (Z.of_nat (length chunk) + Z.of_nat (length bytes - (off + length chunk))) by lia.
          eapply copied_trans; [lia | lia | destruct Hc1; by split |].
          rewrite <- Nat2Z.inj_add.
          replace (c + Z.of_nat off + Z.of_nat (length chunk))
            with (c + Z.of_nat (off + length chunk)) by lia.
          destruct Hc2; by split. }
      eexists. split; [exact Hcc|].
      rewrite <- Hloop. set (f := S chunks). cbn [section_loop]. fold chunk.
      rewrite u32_id by lia. rewrite (sbind_ok _ _ _ _ _ Hw).
      assert ((Z.of_nat (length chunk) >? 0) = true) as -> by lia. unfold f.
      rewrite u64_id by lia.
      assert (drop (Z.to_nat 4096) (drop off bytes) = drop (off + length chunk) bytes) as ->.
      { rewrite drop_drop, Hlc. destruct (Nat.min_spec 4096 (length bytes - off)) as [[? ->]|[? ->]];
          [f_equal; lia | by rewrite !drop_ge by lia]. }
      f_equal. lia.
Qed.

(** The position before the copy does not matter. *)
Lemma copied_at_pos hmem a p q n s s' : copied hmem a p n (at_pos q s) s' <-> copied hmem a p n s s'.
Proof. split; intros []; by split. Qed.

Lemma section_last n addr c s :
  bar_ram (ram := ram) -> file_ready s -> seekable addr c -> c <= pspin_mem_size ->
  exists s', section_loop 1 (replicate (S (S n)) env_ok) [] addr s = (Ok tt, s') /\
             copied (bytes_mem []) 0 c 0 s s'.
Proof.
  intros Hram Hf Hs Hc. pose proof (seekable_range addr c Hs) as [Ha _].
  destruct (write_chunk n [] 0 addr c s) as (s' & Hw & Hcp); try done;
    [rewrite drop_0, take_nil; cbn [length]; lia|].
  rewrite drop_0, take_nil in Hw, Hcp. cbn [section_loop]. rewrite take_nil. rewrite u32_id by lia.
  exists s'. split; [|done]. by rewrite (sbind_ok _ _ _ _ _ Hw).
Qed.
Lemma write_section_run n bytes base c s :
  let len := Z.of_nat (length bytes) in
  bar_ram (ram := ram) -> Forall is_byte bytes -> file_ready s -> len mod 4 = 0 ->
  0 <= c -> c + len <= pspin_mem_size -> 0 <= base -> base + len < 2 ^ 32 ->
  (forall k, 0 <= k < len -> seekable (base + k) (c + k)) ->
  exists r s',
    write_section (replicate (S (S n)) env_ok) (Some bytes) base s = (r, s') /\
    (forall x, ram x ->
       byte_at (d_hw (l_drv s')) x
       = if bool_decide (c <= x < c + len) then bytes_mem bytes (x - c)
         else byte_at (d_hw (l_drv s)) x) /\
    d_app (l_drv s') = d_app (l_drv s) /\ file_ready s' /\
    (l_base s' = l_base s /\ l_sysfs s' = l_sysfs s /\ l_img s' = l_img s) /\
    (seekable (base + len) (c + len) -> r = Ok tt) /\
    (~ in_prog (base + len) -> ~ in_hnd (base + len) -> r = Err EXIT_FAILURE).
Proof.
  intros len Hram HB Hf H4 Hc Hend Hb Hb32 Hsk. unfold write_section.
  replace (length bytes / Z.to_nat 4096 + 2)%nat with (S (S (length bytes / Z.to_nat 4096))) by lia.
  destruct (section_loop_copies (S (length bytes / Z.to_nat 4096)) n bytes 0 base c s)
    as (s1 & Hcp & Hloop); try done; [lia | by left | |].
  { pose proof (Nat.div_mod (length bytes) (Z.to_nat 4096) ltac:(lia)) as Hd.
    pose proof (Nat.mod_upper_bound (length bytes) (Z.to_nat 4096) ltac:(lia)). lia. }
  rewrite drop_0, Z.add_0_r in Hloop. rewrite Hloop. clear Hloop.
  set (s2 := if bool_decide (0%nat = length bytes) then s else s1).
  rewrite copied_at_pos, Nat.sub_0_r, Z.add_0_r in Hcp. fold len in Hcp |- *.
  assert (file_ready s2 /\ d_app (l_drv s2) = d_app (l_drv s) /\
    (forall x, ram x -> byte_at (d_hw (l_drv s2)) x
      = if bool_decide (c <= x < c + len) then bytes_mem bytes (x - c)
        else byte_at (d_hw (l_drv s)) x) /\
    (l_base s2 = l_base s /\ l_sysfs s2 = l_sysfs s /\ l_img s2 = l_img s)) as (Hf2 & Ha2 & Hb2 & Hr2).
  { unfold s2. destruct Hcp as [Hbx _ Hax Hfx Hrx]. case_bool_decide as E.
    - split; [done|]. split; [done|]. split; [|done]. intros x Hx. rewrite bool_decide_eq_false_2; [done | lia].
    - split; [done|]. by split. }
  destruct (decide (in_prog (base + len) \/ in_hnd (base + len))) as [Hin|Hout].
  - assert (exists c', seekable (base + len) c') as [c' Hs'] by (eexists; by split).
    pose proof (seekable_range _ _ Hs') as [_ Hc'].
    destruct (section_last n (base + len) c' s2) as (s3 & Hl & [Hb3 _ Ha3 Hf3 (R1 & R2 & R3)]); try done; [lia|].
    exists (Ok tt), s3. split; [exact Hl|]. split.
    + intros x Hx. rewrite Hb3, bool_decide_eq_false_2, Hb2 by (done || lia). done.
    + destruct Hr2 as (R4 & R5 & R6). split; [congruence|]. split; [done|]. split; [split_and!; congruence|]. split; [done|]. tauto.
  - destruct (sys_lseek_bad (base + len) s2) as (e & He & Hsk2); try done; [lia | tauto | tauto |].
    exists (Err EXIT_FAILURE), (at_pos (l_pos s2) s2). split.
    + cbn [section_loop]. rewrite u32_id by lia. apply sbind_err. unfold fpspin_write_memory.
      rewrite (sbind_ok _ _ _ _ _ Hsk2). by rewrite (proj2 (Z.ltb_lt _ _)).
    + split; [done|]. split; [done|]. split; [by destruct Hf2|]. split; [done|]. split; [|done].
      intros [Hin _]. tauto.
Qed.
End WriteSection.

(** [write_section] puts a section of the image into the cluster's
    memory. For a section of whole words that lies in the BAR's memory and
    whose end is again an address of the same memory, it succeeds and the
    section's bytes, and nothing else, are written. A section that ends
    exactly where its memory ends is written too, but the loader then exits
    with an error: its last, empty round seeks past the memory. *)
Theorem write_section_spec `{MmioRam hw ram} n bytes base c (s : lsys hw) :
  let len := Z.of_nat (length bytes) in
  bar_ram (ram := ram) -> Forall is_byte bytes -> file_ready s -> len mod 4 = 0 ->
  0 <= c -> c + len <= pspin_mem_size -> 0 <= base -> base + len < 2 ^ 32 ->
  (forall k, 0 <= k < len -> seekable (base + k) (c + k)) ->
  exists r s',
    write_section (replicate (S (S n)) env_ok) (Some bytes) base s = (r, s') /\
    (forall x, ram x ->
       byte_at (d_hw (l_drv s')) x
       = if bool_decide (c <= x < c + len) then bytes_mem bytes (x - c)
         else byte_at (d_hw (l_drv s)) x) /\
    d_app (l_drv s') = d_app (l_drv s) /\ file_ready s' /\
    (seekable (base + len) (c + len) -> r = Ok tt) /\
    (~ in_prog (base + len) -> ~ in_hnd (base + len) -> r = Err EXIT_FAILURE).
Proof.
  intros len Hram HB Hf H4 Hc Hend Hb Hb32 Hsk.
  destruct (write_section_run n bytes base c s Hram HB Hf H4 Hc Hend Hb Hb32 Hsk) as (r & s' & Hw & Hbytes & Ha & Hf' & _ & Hr).
  by exists r, s'.
Qed.

(** A section of 8 bytes at the end of the program memory. *)
Lemma write_section_spec_witness :
  exists s', write_section (replicate 2 env_ok) (Some [1; 2; 3; 4; 5; 6; 7; 8]) 0x1d007ff8 lsys0
             = (Err EXIT_FAILURE, s').
Proof.
  destruct (write_section_spec (ram := fun _ => True) 0 [1; 2; 3; 4; 5; 6; 7; 8] 0x1d007ff8 0x407ff8 lsys0)
    as (r & s' & Hw & _ & _ & _ & _ & Herr).
  - done.
  - repeat constructor; done.
  - split; [|done]. eexists. exact dev_mem0_ready.
  - done.
  - lia.
  - by vm_compute.
  - lia.
  - simpl. lia.
  - intros k Hk. cbn in Hk. split; [left; unfold_map; lia|].
    rewrite pspin_addr_to_corundum_prog by (unfold_map; lia). unfold_map. lia.
  - exists s'. rewrite Hw. f_equal. apply Herr; unfold_map; simpl; lia.
Defined.
