(* ===== verification/LoadImage.v ===== *)
(** * Loading a handler image

    What [fpspin_load] of [loader.c] does as a whole: the sections of the image
    are in the memories of the cluster, the HER registers of the context
    describe its handlers and its host memory, the cores run; and the image is
    accepted exactly when the host memory it is given is the area the driver
    has registered. *)

From S2P Require Import Prelude Regs Mmio PspinDev PspinFile Loader LoaderMem.

(** ** What an image asks for *)

Definition handler_area (r : scan_result * Z * Z) : mem_area :=
  match r with
  | (ScanEof, errno_, junk) => if errno_ =? 0 then mk_mem_area 0 0 else mk_mem_area junk 4096
  | (ScanAddr a, _, _) => mk_mem_area (u32 a) 4096
  | (ScanNone, _, junk) => mk_mem_area junk 4096
  end.

Definition image_areas (elf : elf_image) (l2_daddr l2_dsize : Z) : ctx_image :=
  mk_ctx_image (handler_area (elf_handler elf "hh")) (handler_area (elf_handler elf "ph"))
    (handler_area (elf_handler elf "th")) (mk_mem_area (u32 (l2_daddr + l2_dsize)) (u32 (L2_END - l2_daddr))).

(** The registers of context [c], in the order in which they are written. *)
Definition her_items (im : ctx_image) (c ptr size : Z) : list item :=
  [("her_meta/hh_addr"%string, c, area_addr (img_hh im)); ("her_meta/hh_size"%string, c, area_size (img_hh im));
   ("her_meta/ph_addr"%string, c, area_addr (img_ph im)); ("her_meta/ph_size"%string, c, area_size (img_ph im));
   ("her_meta/th_addr"%string, c, area_addr (img_th im)); ("her_meta/th_size"%string, c, area_size (img_th im));
   ("her_meta/handler_mem_addr"%string, c, area_addr (img_handler_mem im));
   ("her_meta/handler_mem_size"%string, c, area_size (img_handler_mem im));
   ("her_meta/host_mem_addr_1"%string, c, Z.shiftr ptr 32); ("her_meta/host_mem_addr_0"%string, c, ptr);
   ("her_meta/host_mem_size"%string, c, size); ("her_meta/scratchpad_0_size"%string, c, 4096);
   ("her_meta/scratchpad_1_size"%string, c, 4096); ("her/ctx_enabled"%string, c, 1)].

Definition her_keys (c : Z) : list (string * Z) := item_key <$> her_items (image_areas (mk_elf_image (fun _ => None) (fun _ => (ScanNone, 0, 0)) None) 0 0) c 0 0.

Lemma her_items_keys im c ptr size : item_key <$> her_items im c ptr size = her_keys c.
Proof. done. Qed.

(** Each of these registers exists, is written in configuration mode only and
    has a place of its own. *)
Lemma her_keys_facts c : 0 <= c < 4 ->
  Forall (fun k => path_check k.1 k.2 CHECK_HER_IN_CONF) (her_keys c) /\
  NoDup ((fun k => reg_addr k.1 k.2) <$> her_keys c) /\
  Forall (fun k => aligned (reg_addr k.1 k.2) /\ 0x803004 <= reg_addr k.1 k.2 < 0x804120) (her_keys c).
Proof.
  intros Hc. unfold aligned. assert (c = 0 \/ c = 1 \/ c = 2 \/ c = 3) as [->|[->|[->| ->]]] by lia;
    split_and!; apply (bool_decide_unpack _); vm_compute; exact I.
Qed.

Lemma her_valid_reg : path_check "her/valid" 0 CHECK_HER_EN /\ reg_addr "her/valid" 0 = 0x803000.
Proof. split; [apply (bool_decide_unpack _); vm_compute; exact I|by vm_compute]. Qed.

Ltac in_keys := apply list_elem_of_In; cbn; auto 20.

(** ** The register writes *)

Section HerRun.
Context {hw : Type} `{!Mmio hw}.

(** A machine with the parts the loader changes spelt out. *)
Definition machine (app : mqnic_app_pspin) (h : hw) (cdev : pspin_cdev) (pos : Z) (im : ctx_image) : lsys hw :=
  mk_lsys true pspin_sysfs (Drv app h) cdev pos im.

Lemma machine_eta (s : lsys hw) : regs_ready s -> s = machine (d_app (l_drv s)) (d_hw (l_drv s)) (l_cdev s) (l_pos s) (l_img s).
Proof. destruct s as [b sy [a h] cd po im]. by intros [[= ->] [= ->]]. Qed.

Lemma conf_write name c v app h cdev pos im :
  in_her_conf app = true -> path_check name c CHECK_HER_IN_CONF ->
  write_reg name c v (machine app h cdev pos im) = (Ok tt, machine app (iowrite32 (u32 v) (reg_addr name c) h) cdev pos im).
Proof.
  intros Hc (a & Ha & Hst & Hch). rewrite (write_reg_ok name c v a CHECK_HER_IN_CONF (Drv app h)); try done.
  cbn. unfold check_her_in_conf. cbn. by rewrite Hc.
Qed.

Lemma remember_run {A} f (k : unit -> M (lsys hw) A) app h cdev pos im :
  sbind (smodify (set_l_img f)) k (machine app h cdev pos im) = k tt (machine app h cdev pos (f im)).
Proof. done. Qed.

(** One handler: its area is remembered and written to two registers. *)
Lemma load_handler_run elf name c out app h cdev pos im :
  in_her_conf app = true ->
  path_check ("her_meta/" +:+ name +:+ "_addr") c CHECK_HER_IN_CONF -> path_check ("her_meta/" +:+ name +:+ "_size") c CHECK_HER_IN_CONF ->
  let a := handler_area (elf_handler elf name) in
  load_handler elf name c out (machine app h cdev pos im)
  = (Ok tt, machine app (iowrite32 (u32 (area_size a)) (reg_addr ("her_meta/" +:+ name +:+ "_size") c)
                          (iowrite32 (u32 (area_addr a)) (reg_addr ("her_meta/" +:+ name +:+ "_addr") c) h)) cdev pos (out a im)).
Proof.
  intros Hc H1 H2 a.
  assert (load_handler elf name c out (machine app h cdev pos im)
          = sbind (write_reg ("her_meta/" +:+ name +:+ "_addr") c (area_addr a))
              (fun _ => write_reg ("her_meta/" +:+ name +:+ "_size") c (area_size a)) (machine app h cdev pos (out a im))) as ->.
  { unfold load_handler, a, handler_area. destruct (elf_handler elf name) as [[[x| |] e] j]; cbn [set_handler]; [done| |done].
    unfold set_handler. by destruct (e =? 0). }
  erewrite sbind_ok by (by apply conf_write). by rewrite conf_write.
Qed.

(** The part of [fpspin_load] between [her_off] and [her_on]. *)
Definition load_regs (elf : elf_image) (ctx_id ptr size : Z) {A} (k : M (lsys hw) A) : M (lsys hw) A :=
  (load_handler elf "hh" ctx_id (fun a im => mk_ctx_image a (img_ph im) (img_th im) (img_handler_mem im)) ;;;
   load_handler elf "ph" ctx_id (fun a im => mk_ctx_image (img_hh im) a (img_th im) (img_handler_mem im)) ;;;
   load_handler elf "th" ctx_id (fun a im => mk_ctx_image (img_hh im) (img_ph im) a (img_handler_mem im)) ;;;
   set_handler_mem (elf_l2_data elf) ctx_id ;;;
   write_reg "her_meta/host_mem_addr_1" ctx_id (Z.shiftr ptr 32) ;;;
   write_reg "her_meta/host_mem_addr_0" ctx_id ptr ;;;
   write_reg "her_meta/host_mem_size" ctx_id size ;;;
   write_reg "her_meta/scratchpad_0_size" ctx_id 4096 ;;;
   write_reg "her_meta/scratchpad_1_size" ctx_id 4096 ;;;
   write_reg "her/ctx_enabled" ctx_id 1 ;;; k)%fp.

Lemma load_regs_run {A} elf c ptr size daddr dsize (k : M (lsys hw) A) app h cdev pos im :
  in_her_conf app = true -> 0 <= c < 4 -> elf_l2_data elf = Some (daddr, dsize) ->
  load_regs elf c ptr size k (machine app h cdev pos im)
  = k (machine app (write_all (item_write <$> her_items (image_areas elf daddr dsize) c ptr size) h) cdev pos (image_areas elf daddr dsize)).
Proof.
  intros Hc Hr Hd. destruct (her_keys_facts c Hr) as (Hk & _ & _). rewrite Forall_forall in Hk.
  assert (forall name, (name, c) ∈ her_keys c -> path_check name c CHECK_HER_IN_CONF) as Hp by (intros name H; exact (Hk (name, c) H)).
  unfold load_regs. do 3 (erewrite sbind_ok by (apply load_handler_run; [done|apply Hp; in_keys|apply Hp; in_keys])).
  rewrite Hd. cbn [set_handler_mem].
  erewrite sbind_ok; [|rewrite remember_run; erewrite sbind_ok by (apply conf_write; [done|apply Hp; in_keys]);
    apply conf_write; [done|apply Hp; in_keys]].
  do 6 (erewrite sbind_ok by (apply conf_write; [done|apply Hp; in_keys])).
  reflexivity.
Qed.
End HerRun.

(** ** The sections *)

(** The four sections fit their places, with room behind the last of each
    memory, and are made of words. *)
Record image_fits (elf : elf_image) (rodata l2_data vectors text : list Z) : Prop := {
  if_rodata : elf_section elf ".rodata" = Some rodata;
  if_l2_data : elf_section elf ".l2_handler_data" = Some l2_data;
  if_vectors : elf_section elf ".vectors" = Some vectors;
  if_text : elf_section elf ".text" = Some text;
  if_bytes : Forall (fun l => Forall is_byte l /\ Z.of_nat (length l) mod 4 = 0) [rodata; l2_data; vectors; text];
  if_lengths : Z.of_nat (length rodata) <= 0xc0000 /\ Z.of_nat (length l2_data) < 0x40000 /\
               Z.of_nat (length vectors) <= 0x100 /\ Z.of_nat (length text) < 0x7f00;
}.

(** The byte of the BAR's memory at [x] that the image determines. *)
Definition section_byte (bytes : list Z) (c x : Z) : option Z :=
  if bool_decide (c <= x < c + Z.of_nat (length bytes)) then Some (bytes_mem bytes (x - c)) else None.

Definition image_byte (rodata l2_data vectors text : list Z) (x : Z) : option Z :=
  section_byte rodata 0 x ∪ section_byte l2_data 0xc0000 x ∪ section_byte vectors 0x400000 x ∪ section_byte text 0x400100 x.

Section Sections.
Context `{MmioRam hw ram}.
Implicit Types s : lsys hw.

Record section_written (bytes : list Z) (c : Z) s s' : Prop := {
  sw_bytes x : ram x -> byte_at (d_hw (l_drv s')) x = default (byte_at (d_hw (l_drv s)) x) (section_byte bytes c x);
  sw_app : d_app (l_drv s') = d_app (l_drv s);
  sw_ready : file_ready s';
  sw_rest : l_base s' = l_base s /\ l_sysfs s' = l_sysfs s;
}.

Lemma write_section_at n bytes base c s :
  bar_ram (ram := ram) -> Forall is_byte bytes -> file_ready s -> Z.of_nat (length bytes) mod 4 = 0 ->
  (forall k, 0 <= k <= Z.of_nat (length bytes) -> seekable (base + k) (c + k)) ->
  exists s', write_section (replicate (S (S n)) env_ok) (Some bytes) base s = (Ok tt, s') /\ section_written bytes c s s'.
Proof.
  intros Hram HB Hf H4 Hsk. pose proof (seekable_range _ _ (Hsk 0 ltac:(lia))) as [H1 H2].
  pose proof (seekable_range _ _ (Hsk (Z.of_nat (length bytes)) ltac:(lia))) as [H3 H5].
  destruct (write_section_run n bytes base c s) as (r & s' & Hw & Hb & Ha & Hf' & (R1 & R2 & _) & Hok & _); try done; try lia.
  { intros k Hk. apply Hsk. lia. }
  exists s'. split; [rewrite Hw; f_equal; apply Hok, Hsk; lia|]. split; try done.
  intros x Hx. rewrite Hb by done. unfold section_byte. by case_bool_decide.
Qed.

Lemma seekable_hnd off c : 0 <= off < 0x100000 -> c = off -> seekable (0x1c000000 + off) c.
Proof. intros Ho ->. split; [right; unfold_map; lia|]. rewrite pspin_addr_to_corundum_hnd by (unfold_map; lia). unfold_map. lia. Qed.
Lemma seekable_prog off c : 0 <= off < 0x8000 -> c = 0x400000 + off -> seekable (0x1d000000 + off) c.
Proof. intros Ho ->. split; [left; unfold_map; lia|]. rewrite pspin_addr_to_corundum_prog by (unfold_map; lia). unfold_map. lia. Qed.

(** The four calls of [write_section], in order. *)
Lemma write_sections n elf rodata l2_data vectors text s :
  bar_ram (ram := ram) -> image_fits elf rodata l2_data vectors text -> file_ready s ->
  let envs := replicate (S (S n)) env_ok in
  exists s', (forall A (k : M (lsys hw) A), (write_section envs (elf_section elf ".rodata") 0x1c000000 ;;;
              write_section envs (elf_section elf ".l2_handler_data") 0x1c0c0000 ;;;
              write_section envs (elf_section elf ".vectors") 0x1d000000 ;;;
              write_section envs (elf_section elf ".text") 0x1d000100 ;;; k)%fp s = k s') /\
    (forall x, ram x -> byte_at (d_hw (l_drv s')) x = default (byte_at (d_hw (l_drv s)) x) (image_byte rodata l2_data vectors text x)) /\
    d_app (l_drv s') = d_app (l_drv s) /\ file_ready s' /\ l_base s' = l_base s /\ l_sysfs s' = l_sysfs s.
Proof.
  intros Hram [-> -> -> -> HB (L1 & L2 & L3 & L4)] Hf envs.
  apply Forall_cons in HB as ([B1 M1] & HB). apply Forall_cons in HB as ([B2 M2] & HB). apply Forall_cons in HB as ([B3 M3] & HB).
  apply Forall_cons in HB as ([B4 M4] & _).
  destruct (write_section_at n rodata 0x1c000000 0 s) as (s1 & E1 & [W1 A1 F1 (R1 & R1')]); try done.
  { intros j Hj. apply seekable_hnd; lia. }
  destruct (write_section_at n l2_data 0x1c0c0000 0xc0000 s1) as (s2 & E2 & [W2 A2 F2 (R2 & R2')]); try done.
  { intros j Hj. replace (0x1c0c0000 + j) with (0x1c000000 + (0xc0000 + j)) by lia. apply seekable_hnd; lia. }
  destruct (write_section_at n vectors 0x1d000000 0x400000 s2) as (s3 & E3 & [W3 A3 F3 (R3 & R3')]); try done.
  { intros j Hj. apply seekable_prog; lia. }
  destruct (write_section_at n text 0x1d000100 0x400100 s3) as (s4 & E4 & [W4 A4 F4 (R4 & R4')]); try done.
  { intros j Hj. replace (0x1d000100 + j) with (0x1d000000 + (0x100 + j)) by lia. apply seekable_prog; lia. }
  exists s4. split; [intros A k; by rewrite (sbind_ok _ _ _ _ _ E1), (sbind_ok _ _ _ _ _ E2), (sbind_ok _ _ _ _ _ E3), (sbind_ok _ _ _ _ _ E4)|].
  split; [|split_and!; try congruence; apply F4].
  intros x Hx. rewrite W4, W3, W2, W1 by done. unfold image_byte, section_byte.
  repeat case_bool_decide; first [done | exfalso; lia].
Qed.
End Sections.

(** ** What the registers hold *)

Definition load_writes (im : ctx_image) (c ptr size : Z) (ok : bool) : list (Z * Z) :=
  [(3, 0x800000); (0, 0x803000)] ++ (item_write <$> her_items im c ptr size) ++ (if ok then [(1, 0x803000)] else []).

Lemma load_writes_place im c ptr size ok :
  0 <= c < 4 -> Forall (fun x => aligned x.2 /\ 0x800000 <= x.2 < 0x804120) (load_writes im c ptr size ok).
Proof.
  intros Hc. destruct (her_keys_facts c Hc) as (_ & _ & Hp). rewrite <- (her_items_keys im c ptr size) in Hp.
  unfold load_writes. apply Forall_app. split; [repeat constructor; by vm_compute|]. apply Forall_app. split.
  - apply Forall_fmap. apply Forall_fmap in Hp. eapply Forall_impl; [exact Hp|]. intros x. unfold compose, item_key, item_write. cbn [fst snd]. intros [H1 H2]. split; [exact H1|]. lia.
  - destruct ok; repeat constructor; by vm_compute.
Qed.

Lemma load_writes_item im c ptr size ok x :
  0 <= c < 4 -> x ∈ her_items im c ptr size -> last_write (reg_addr x.1.1 x.1.2) (load_writes im c ptr size ok) = Some (u32 x.2).
Proof.
  intros Hc Hx. destruct (her_keys_facts c Hc) as (_ & Hnd & Hp). rewrite <- (her_items_keys im c ptr size) in Hnd, Hp.
  unfold load_writes. rewrite !last_write_app. apply Forall_fmap in Hp. rewrite Forall_forall in Hp. pose proof (Hp x Hx) as [_ Hxp]. unfold item_key in Hxp.
  assert (last_write (reg_addr x.1.1 x.1.2) (if ok then [(1, 0x803000)] else []) = None) as ->.
  { apply last_write_None. intros v. destruct ok; [|set_solver]. intros [= -> Hv]%list_elem_of_singleton. lia. }
  rewrite (last_write_NoDup _ (u32 x.2)); [done| |].
  - rewrite <- list_fmap_compose in Hnd. rewrite <- list_fmap_compose. exact Hnd.
  - apply list_elem_of_fmap. by exists x.
Qed.

Lemma load_writes_other im c ptr size ok a :
  a ∉ [0x800000; 0x803000] -> a ∉ (fun k => reg_addr k.1 k.2) <$> her_keys c -> last_write a (load_writes im c ptr size ok) = None.
Proof.
  intros Ha Hk. apply last_write_None. intros v Hin. unfold load_writes in Hin. rewrite !elem_of_app in Hin.
  destruct Hin as [Hin|[Hin|Hin]]; [set_solver| |destruct ok; set_solver].
  apply Hk. rewrite <- (her_items_keys im c ptr size), <- list_fmap_compose.
  apply list_elem_of_fmap in Hin as (x & [= -> ->] & Hx). apply list_elem_of_fmap. by exists x.
Qed.

Lemma her_items_low im c ptr size a : 0 <= c < 4 -> a < 0x803004 -> last_write a (item_write <$> her_items im c ptr size) = None.
Proof.
  intros Hc Ha. apply last_write_None. intros v Hin. destruct (her_keys_facts c Hc) as (_ & _ & Hp).
  rewrite <- (her_items_keys im c ptr size) in Hp. apply Forall_fmap in Hp. rewrite Forall_forall in Hp.
  apply list_elem_of_fmap in Hin as (x & [= _ Hx] & Hin). apply Hp in Hin as [_ Hin]. unfold item_key in Hin. lia.
Qed.

Lemma load_writes_modes im c ptr size ok : 0 <= c < 4 ->
  last_write 0x803000 (load_writes im c ptr size ok) = Some (if ok then 1 else 0) /\
  last_write 0x800000 (load_writes im c ptr size ok) = Some 3.
Proof.
  intros Hc. unfold load_writes. rewrite !last_write_app, !her_items_low by lia. by destruct ok.
Qed.

(** The registers of the host memory of context [i] are those of the loader. *)
Lemma host_mem_regs i : 0 <= i < 4 ->
  REG_ADDR ag_her_meta_host_mem_addr_0 i = reg_addr "her_meta/host_mem_addr_0" i /\
  REG_ADDR ag_her_meta_host_mem_addr_1 i = reg_addr "her_meta/host_mem_addr_1" i /\
  REG_ADDR ag_her_meta_host_mem_size i = reg_addr "her_meta/host_mem_size" i.
Proof. intros Hi. assert (i = 0 \/ i = 1 \/ i = 2 \/ i = 3) as [->|[->|[->| ->]]] by lia; by vm_compute. Qed.

Lemma host_mem_regs_other i c : 0 <= i < 4 -> 0 <= c < 4 -> i <> c ->
  Forall (fun a => a ∉ (fun k => reg_addr k.1 k.2) <$> her_keys c)
    [REG_ADDR ag_her_meta_host_mem_addr_0 i; REG_ADDR ag_her_meta_host_mem_addr_1 i; REG_ADDR ag_her_meta_host_mem_size i].
Proof.
  intros Hi Hc Hne. assert (i = 0 \/ i = 1 \/ i = 2 \/ i = 3) as [->|[->|[->| ->]]] by lia;
    assert (c = 0 \/ c = 1 \/ c = 2 \/ c = 3) as [->|[->|[->| ->]]] by lia; try done;
    apply (bool_decide_unpack _); vm_compute; exact I.
Qed.

(** ** [fpspin_load] *)

Section Load.
Context `{MmioRam hw ram}.
Implicit Types s : lsys hw.

(** The driver accepts the host memory [ptr], [size] for context [c]: it is the
    area it has given out for [c], if there is one, and the registers of every
    other context already hold that context's area. *)
Definition her_accepts (app : mqnic_app_pspin) (h : hw) (c ptr size : Z) : Prop :=
  forall i a, 0 <= i -> dma_areas app !! Z.to_nat i = Some a -> enabled (phys a) = true ->
    if decide (i = c) then dma_handle (phys a) = ptr /\ dma_size (phys a) = u32 size
    else host_mem_addr h i = dma_handle (phys a) /\ host_mem_size h i = dma_size (phys a).

(** The machine after [fpspin_load]; [ok] says whether it was accepted. *)
Record image_loaded (elf : elf_image) (rodata l2_data vectors text : list Z) (im : ctx_image) (c ptr size : Z) (ok : bool) s s' : Prop := {
  il_mem x : 0 <= x < pspin_mem_size ->
    byte_at (d_hw (l_drv s')) x = default (byte_at (d_hw (l_drv s)) x) (image_byte rodata l2_data vectors text x);
  il_regs name v : (name, c, v) ∈ her_items im c ptr size -> word_at (d_hw (l_drv s')) (reg_addr name c) = u32 v;
  il_cores : word_at (d_hw (l_drv s')) (REG_ADDR ag_cl_ctrl 0) = 3 /\ word_at (d_hw (l_drv s')) (REG_ADDR ag_cl_ctrl 1) = 0;
  il_valid : word_at (d_hw (l_drv s')) (REG_ADDR ag_her_valid 0) = if ok then 1 else 0;
  il_other a : aligned a -> 0x800000 <= a -> ram_word ram a ->
    a ∉ [REG_ADDR ag_cl_ctrl 0; REG_ADDR ag_cl_ctrl 1; REG_ADDR ag_her_valid 0] ->
    a ∉ (fun k => reg_addr k.1 k.2) <$> her_keys c -> word_at (d_hw (l_drv s')) a = word_at (d_hw (l_drv s)) a;
  il_app : d_app (l_drv s') = set_in_her_conf (negb ok) (set_in_reset false (d_app (l_drv s)));
  il_img : l_img s' = im;
  il_ready : regs_ready s' /\ file_ready s';
}.

Lemma byte_at_write_all_low l (h : hw) x :
  Forall (fun w => 0x800000 <= w.2 /\ ram_word ram w.2) l -> ram x -> x < 0x800000 -> byte_at (write_all l h) x = byte_at h x.
Proof.
  intros Hl Hx Hlow. revert h. induction Hl as [|[v a] l [Ha Hr] _ IH]; intros h; [done|].
  cbn [write_all foldl]. cbn [snd] in *. unfold write_all in IH. rewrite IH. apply byte_at_write_ne; try done. lia.
Qed.

Lemma write_her_off (app : mqnic_app_pspin) (h : hw) cdev pos im :
  write_reg "her/valid" 0 0 (machine app h cdev pos im)
  = (Ok tt, machine (set_in_her_conf true app) (iowrite32 0 0x803000 h) cdev pos im).
Proof.
  destruct her_valid_reg as [(a & Ha & Hst & Hc) Hreg].
  rewrite (write_reg_ok "her/valid" 0 0 a CHECK_HER_EN (Drv (set_in_her_conf true app) h)) by done. by rewrite Hreg.
Qed.

(** Enabling the generator: accepted exactly when all areas match. *)
Lemma write_her_on (app : mqnic_app_pspin) (h : hw) cdev pos im :
  ctrl_ram (ram := ram) -> length (dma_areas app) = 4%nat ->
  exists ok : bool, (ok = true <-> forall i a, 0 <= i -> dma_areas app !! Z.to_nat i = Some a -> area_matches h i a) /\
    write_reg "her/valid" 0 1 (machine app h cdev pos im)
    = if ok then (Ok tt, machine (set_in_her_conf false app) (iowrite32 1 0x803000 h) cdev pos im)
      else (Err EXIT_FAILURE, machine app h cdev pos im).
Proof.
  intros Hram Hlen. destruct her_valid_reg as [(a & Ha & Hst & Hc) Hreg].
  destruct (check_her_ctxs_spec (her_ctxs app) h Hram) as (ok & E & Hok).
  { intros i b (Hi & Hb)%elem_of_her_ctxs. apply lookup_lt_Some in Hb. lia. }
  exists ok. setoid_rewrite elem_of_her_ctxs in Hok. split; [rewrite Hok; naive_solver|].
  assert (run_check CHECK_HER_EN (attr_idx a) (u32 1) (Drv app h)
          = (ok, if ok then Drv (set_in_her_conf false app) h else Drv app h)) as Er.
  { cbn. unfold check_her_en. change (u32 1 =? 0) with false. cbv iota. cbn [d_app d_hw]. rewrite E. by destruct ok. }
  destruct ok.
  - rewrite (write_reg_ok "her/valid" 0 1 a CHECK_HER_EN (Drv (set_in_her_conf false app) h)) by done. by rewrite Hreg.
  - by rewrite (write_reg_refused "her/valid" 0 1 a CHECK_HER_EN).
Qed.

(** The writes of [fpspin_load] to the control registers, around the
    sections: [h2] is the device after these. *)
Lemma load_words rodata l2_data vectors text im c ptr size ok (h h2 : hw) a :
  ctrl_ram (ram := ram) -> 0 <= c < 4 ->
  (forall x, ram x -> byte_at h2 x = default (byte_at (write_all stop_writes h) x) (image_byte rodata l2_data vectors text x)) ->
  (forall x, 0x800000 <= x -> image_byte rodata l2_data vectors text x = None) ->
  aligned a -> 0x800000 <= a -> ram_word ram a ->
  word_at (write_all (load_writes im c ptr size ok) h2) a
  = match last_write a (load_writes im c ptr size ok) with
    | Some v => u32 v
    | None => match last_write a stop_writes with Some v => u32 v | None => word_at h a end
    end.
Proof.
  intros Hram Hc Hb Hn Ha Hlow Hr.
  assert (forall l : list (Z * Z), Forall (fun x => aligned x.2 /\ 0x800000 <= x.2 < 0x804120) l -> Forall (fun x => aligned x.2 /\ ram_word ram x.2) l) as Hf.
  { intros l Hl. eapply Forall_impl; [exact Hl|]. intros x [H1 H2]. split; [done|]. intros y Hy. apply Hram. lia. }
  rewrite word_at_write_all by (done || apply Hf; by apply load_writes_place). destruct (last_write a (load_writes _ _ _ _ _)); [done|].
  assert (word_at h2 a = word_at (write_all stop_writes h) a) as ->.
  { unfold word_at. f_equal. apply list_fmap_ext. intros j x Hx. assert (a <= x < a + 4) as Hx'.
    { do 4 (destruct j as [|j]; [cbn in Hx; injection Hx as <-; lia|]). done. }
    rewrite Hb by (by apply Hr). by rewrite Hn by lia. }
  rewrite word_at_write_all; [done|done|done|]. apply Hf. repeat constructor; by vm_compute.
Qed.

(** Whether the registers match the areas when the generator is enabled. *)
Lemma accepts_iff rodata l2_data vectors text im c ptr size (app : mqnic_app_pspin) (h h2 : hw) :
  ctrl_ram (ram := ram) -> 0 <= c < 4 -> 0 <= ptr < 2 ^ 64 -> length (dma_areas app) = 4%nat ->
  (forall x, ram x -> byte_at h2 x = default (byte_at (write_all stop_writes h) x) (image_byte rodata l2_data vectors text x)) ->
  (forall x, 0x800000 <= x -> image_byte rodata l2_data vectors text x = None) ->
  (forall i a, 0 <= i -> dma_areas app !! Z.to_nat i = Some a -> area_matches (write_all (load_writes im c ptr size false) h2) i a)
  <-> her_accepts app h c ptr size.
Proof.
  intros Hram Hc Hp Hlen Hb Hn.
  assert (forall i, 0 <= i < 4 -> host_mem_addr (write_all (load_writes im c ptr size false) h2) i
            = (if decide (i = c) then ptr else host_mem_addr h i) /\
          host_mem_size (write_all (load_writes im c ptr size false) h2) i = (if decide (i = c) then u32 size else host_mem_size h i)) as Hw.
  { intros i Hi. destruct (her_meta_addr i Hi) as (E0 & E1 & E2). unfold host_mem_addr, host_mem_size.
    assert (forall k, 0x804020 <= k <= 0x80404c -> ram_word ram k) as Hrw by (intros k Hk x Hx; apply Hram; lia).
    assert (forall b, (b = 0x804020 \/ b = 0x804030 \/ b = 0x804040) -> aligned (b + 4 * i)) as Hal.
    { intros b [->|[->| ->]]; unfold aligned; rewrite (Z.mul_comm 4), Z.mod_add by lia; done. }
    rewrite !(load_words rodata l2_data vectors text im c ptr size false h h2) by
      (done || rewrite ?E0, ?E1, ?E2; first [lia | apply Hrw; lia | apply Hal; auto]).
    case_decide as Hd.
    - subst i. destruct (host_mem_regs c Hc) as (-> & -> & ->).
      rewrite (load_writes_item _ c ptr size false ("her_meta/host_mem_addr_0"%string, c, ptr)) by (done || in_keys).
      rewrite (load_writes_item _ c ptr size false ("her_meta/host_mem_addr_1"%string, c, Z.shiftr ptr 32)) by (done || in_keys).
      rewrite (load_writes_item _ c ptr size false ("her_meta/host_mem_size"%string, c, size)) by (done || in_keys).
      cbn [snd]. split; [|by rewrite (u32_id (u32 size)) by apply u32_range].
      rewrite !(u32_id (u32 _)) by apply u32_range. rewrite Z.shiftr_div_pow2 by lia.
      rewrite (u32_id (ptr / 2 ^ 32)) by (split; [apply Z.div_pos; lia|apply Z.div_lt_upper_bound; lia]).
      unfold u32. pose proof (Z.div_mod ptr (2 ^ 32) ltac:(lia)). lia.
    - pose proof (host_mem_regs_other i c Hi Hc Hd) as Ho. apply Forall_cons in Ho as [O1 Ho]. apply Forall_cons in Ho as [O2 Ho].
      apply Forall_cons in Ho as [O3 _]. rewrite !load_writes_other by (done || rewrite ?E0, ?E1, ?E2, !elem_of_cons; intros [|[|[]%elem_of_nil]]; lia).
      rewrite E0, E1, E2. rewrite !last_write_None; [done|..]; intros v Hv; unfold stop_writes in Hv;
        rewrite !elem_of_cons in Hv; destruct Hv as [Hv|[Hv|[Hv|[]%elem_of_nil]]]; injection Hv as _ Hv; lia. }
  unfold her_accepts, area_matches. split; intros Hall i a Hi Ha Hen; assert (0 <= i < 4) as Hi4 by (apply lookup_lt_Some in Ha; lia);
    destruct (Hw i Hi4) as [Hw1 Hw2]; specialize (Hall i a Hi Ha Hen); rewrite Hw1, Hw2 in *; case_decide; destruct Hall; by split.
Qed.

Lemma image_byte_low elf rodata l2_data vectors text x :
  image_fits elf rodata l2_data vectors text -> 0x800000 <= x -> image_byte rodata l2_data vectors text x = None.
Proof.
  intros [_ _ _ _ _ (L1 & L2 & L3 & L4)] Hx. unfold image_byte, section_byte. repeat case_bool_decide; first [done | exfalso; lia].
Qed.

Lemma load_parts envs elf c ptr size :
  fpspin_load (hw := hw) envs elf c ptr size
  = (fetch_off ;;; cycle_reset ;;;
     write_section envs (elf_section elf ".rodata") 0x1c000000 ;;;
     write_section envs (elf_section elf ".l2_handler_data") 0x1c0c0000 ;;;
     write_section envs (elf_section elf ".vectors") 0x1d000000 ;;;
     write_section envs (elf_section elf ".text") 0x1d000100 ;;;
     fetch_on ;;; her_off ;;; load_regs elf c ptr size her_on)%fp.
Proof. reflexivity. Qed.

(** The control flow of [fpspin_load]. *)
Lemma load_steps n elf rodata l2_data vectors text daddr dsize c ptr size s :
  bar_ram (ram := ram) -> ctrl_ram (ram := ram) -> regs_ready s -> (exists buf, cdev_ready (l_cdev s) buf) ->
  length (dma_areas (d_app (l_drv s))) = 4%nat -> 0 <= c < 4 ->
  image_fits elf rodata l2_data vectors text -> elf_l2_data elf = Some (daddr, dsize) ->
  let im := image_areas elf daddr dsize in
  let app := set_in_reset false (d_app (l_drv s)) in
  exists (ok : bool) h2 cdev pos,
    (forall x, ram x -> byte_at h2 x = default (byte_at (write_all stop_writes (d_hw (l_drv s))) x) (image_byte rodata l2_data vectors text x)) /\
    (ok = true <-> forall i a, 0 <= i -> dma_areas app !! Z.to_nat i = Some a ->
                     area_matches (write_all (load_writes im c ptr size false) h2) i a) /\
    (exists buf, cdev_ready cdev buf) /\
    fpspin_load (replicate (S (S n)) env_ok) elf c ptr size s
    = (if ok then Ok tt else Err EXIT_FAILURE,
       machine (set_in_her_conf (negb ok) app) (write_all (load_writes im c ptr size ok) h2) cdev pos im).
Proof.
  intros Hbar Hctrl Hr Hcd Hlen Hc Hfit Hd im app. rewrite load_parts, stop_run by done. set (s1 := set_l_drv _ s).
  destruct (write_sections n elf rodata l2_data vectors text s1 Hbar Hfit) as (s2 & E & Hb & Ha & [Hcd2 _] & Hb1 & Hs1).
  { split; [exact Hcd|done]. }
  rewrite E. clear E. rewrite (machine_eta s2) by (split; [rewrite Hb1|rewrite Hs1]; apply Hr). rewrite Ha. cbn [s1 set_l_drv l_drv d_app].
  fold app. cbn [s1 set_l_drv l_drv d_hw] in Hb. set (h2 := d_hw (l_drv s2)) in *. unfold fetch_on. change (Z.shiftl 1 NUM_CLUSTERS - 1) with 3.
  erewrite sbind_ok by (apply write_cl_fetch; [done|by right]).
  unfold her_off. change (set_l_drv _ _) with (machine app (iowrite32 3 0x800000 h2) (l_cdev s2) (l_pos s2) (l_img s2)).
  erewrite sbind_ok by apply write_her_off. rewrite (load_regs_run _ _ _ _ daddr dsize) by done.
  destruct (write_her_on (set_in_her_conf true app) (write_all (load_writes im c ptr size false) h2) (l_cdev s2) (l_pos s2) im Hctrl Hlen)
    as (ok & Hok & Eon).
  exists ok, h2, (l_cdev s2), (l_pos s2). split; [exact Hb|]. split; [exact Hok|]. split; [exact Hcd2|].
  etransitivity; [exact Eon|]. by destruct ok.
Qed.

Lemma load_run n elf rodata l2_data vectors text daddr dsize c ptr size s :
  bar_ram (ram := ram) -> ctrl_ram (ram := ram) -> regs_ready s -> (exists buf, cdev_ready (l_cdev s) buf) ->
  length (dma_areas (d_app (l_drv s))) = 4%nat -> 0 <= c < 4 -> 0 <= ptr < 2 ^ 64 ->
  image_fits elf rodata l2_data vectors text -> elf_l2_data elf = Some (daddr, dsize) ->
  exists (ok : bool) s',
    fpspin_load (replicate (S (S n)) env_ok) elf c ptr size s = (if ok then Ok tt else Err EXIT_FAILURE, s') /\
    (ok = true <-> her_accepts (d_app (l_drv s)) (d_hw (l_drv s)) c ptr size) /\
    image_loaded elf rodata l2_data vectors text (image_areas elf daddr dsize) c ptr size ok s s'.
Proof.
  intros Hbar Hctrl Hr Hcd Hlen Hc Hp Hfit Hd. pose proof (fun x => image_byte_low elf rodata l2_data vectors text x Hfit) as Hn.
  destruct (load_steps n elf rodata l2_data vectors text daddr dsize c ptr size s) as (ok & h2 & cdev & pos & Hb & Hok & Hcd2 & E); try done.
  set (im := image_areas elf daddr dsize) in *. rewrite (accepts_iff rodata l2_data vectors text im c ptr size _ (d_hw (l_drv s))) in Hok by done.
  eexists ok, _. split; [exact E|]. split; [exact Hok|].
  pose proof (fun a => load_words rodata l2_data vectors text im c ptr size ok _ h2 a Hctrl Hc Hb Hn) as Hw. destruct (load_writes_modes im c ptr size ok Hc) as [Hvalid Hcl].
  destruct (her_keys_facts c Hc) as (_ & _ & Hpl). rewrite Forall_forall in Hpl.
  assert (forall a, 0x800000 <= a < 0x804120 -> ram_word ram a) as Hrw by (intros a Ha x Hx; apply Hctrl; lia).
  split; cbn [machine l_drv d_hw d_app l_img]; try done.
  - intros x Hx. unfold pspin_mem_size in Hx. assert (ram x) as Hrx by (apply Hbar; unfold pspin_mem_size; lia).
    rewrite byte_at_write_all_low; [|..|done|lia].
    + rewrite Hb by done. rewrite byte_at_write_all_low; [done|..|done|lia]. repeat constructor; cbn; try lia; apply Hrw; lia.
    + eapply Forall_impl; [by apply load_writes_place|]. intros y [_ Hy]. split; [lia|]. apply Hrw. lia.
  - intros name v Hin. assert ((name, c) ∈ her_keys c) as Hk.
    { rewrite <- (her_items_keys im c ptr size). apply list_elem_of_fmap. by exists (name, c, v). }
    destruct (Hpl _ Hk) as [Hal Hpa]. cbn [fst snd] in *. rewrite Hw by (done || lia || apply Hrw; lia).
    pose proof (load_writes_item im c ptr size ok _ Hc Hin) as Hl. cbn [fst snd] in Hl. rewrite Hl. apply u32_id, u32_range.
  - change (REG_ADDR ag_cl_ctrl 0) with 0x800000. change (REG_ADDR ag_cl_ctrl 1) with 0x800004. split.
    + rewrite Hw by (done || apply Hrw; lia). by rewrite Hcl.
    + rewrite Hw by (done || apply Hrw; lia). rewrite load_writes_other; [done|by apply (bool_decide_unpack _)|].
      intros (k & Hk & Hin)%list_elem_of_fmap. apply Hpl in Hin. lia.
  - change (REG_ADDR ag_her_valid 0) with 0x803000. rewrite Hw by (done || apply Hrw; lia). rewrite Hvalid. by destruct ok.
  - intros a Ha Hlow Hra Hne Hk. rewrite !not_elem_of_cons in Hne. destruct Hne as (N1 & N2 & N3 & _).
    change (REG_ADDR ag_cl_ctrl 0) with 0x800000 in N1. change (REG_ADDR ag_cl_ctrl 1) with 0x800004 in N2.
    change (REG_ADDR ag_her_valid 0) with 0x803000 in N3. rewrite Hw by done.
    rewrite load_writes_other; [|rewrite !not_elem_of_cons; split_and!; [done|done|apply not_elem_of_nil]|done].
    rewrite last_write_None; [done|]. unfold stop_writes. intros v. rewrite !not_elem_of_cons. split_and!; [congruence..|apply not_elem_of_nil].
Qed.
End Load.


(** An image with a word in every section. *)
Definition elf0 : elf_image :=
  mk_elf_image (fun _ => Some [1; 2; 3; 4]) (fun _ => (ScanAddr 0x1d000200, 0, 0)) (Some (0x1c0c0000, 4)).

Lemma elf0_fits : image_fits elf0 [1; 2; 3; 4] [1; 2; 3; 4] [1; 2; 3; 4] [1; 2; 3; 4].
Proof. split; try done; repeat constructor; done. Qed.

