(* ===== verification/MatchEngine.v ===== *)
(** * The packet matching engine

    The decision logic of [rtl/pspin_pkt_match.v] (the hardware that the
    registers of the [me] directory configure), and what the rulesets of the
    loader mean for the bytes of a packet once [fpspin_prog_me] has written
    them. *)

From S2P Require Import Prelude Regs Mmio PspinDev PspinFile Loader.

(** ** The hardware *)

(** The packet as the matcher sees it: two 512-bit beats, zero padded; words
    of 32 bits, the first byte in the low bits. *)
Definition MATCHER_BYTES : nat := 128.
Definition matcher (pkt : list Z) : list Z := take MATCHER_BYTES pkt ++ replicate (MATCHER_BYTES - length pkt) 0.
Definition matcher_word (pkt : list Z) (i : Z) : Z := le_combine (sub_list (Z.to_nat (4 * i)) 4 (matcher pkt)).

(** One matching unit; the index has 5 bits. *)
Definition mu_matched (ru : fpspin_rule) (pkt : list Z) : bool :=
  let mu_data := Z.land (matcher_word pkt (idx ru mod 32)) (mask ru) in
  (start ru <=? mu_data) && (mu_data <=? end_ ru).

(** A ruleset: its four device rules and its mode bit. The last rule only
    gives the end-of-message bit. *)
Definition ruleset_matched (rules : list fpspin_rule) (mode_or : bool) (pkt : list Z) : bool :=
  let mu := (fun ru => mu_matched ru pkt) <$> take 3 rules in
  if mode_or then existsb id mu else forallb id mu.

Definition ruleset_eom (rules : list fpspin_rule) (pkt : list Z) : bool :=
  match rules !! 3%nat with Some ru => mu_matched ru pkt | None => false end.

(** The priority encoder: the lowest matching ruleset and its
    end-of-message bit; [None]: the packet goes to the host unmatched. *)
Definition me_decide (rulesets : list (list fpspin_rule * bool)) (pkt : list Z) : option (nat * bool) :=
  '(i, rs) ← list_find (fun rs => ruleset_matched rs.1 rs.2 pkt = true) rulesets;
  Some (i, ruleset_eom rs.1 pkt).

(** While [match_valid] is low every rule is [start = 1, end = 0]. *)
Definition me_rules `{MmioRam hw ram} (h : hw) : list (list fpspin_rule * bool) :=
  if word_at h (REG_ADDR ag_me_valid 0) mod 2 =? 0
  then replicate 4 (replicate 4 (mk_rule 0 0 1 0), false)
  else (fun i => ((fun j => me_rule h (i * 4 + j)) <$> [0; 1; 2; 3],
                  negb (word_at h (REG_ADDR ag_me_mode i) mod 2 =? 0))) <$> [0; 1; 2; 3].

(** ** Byte-swapped rules

    A rule is written for the big-endian words of the packet; the device
    compares little-endian words. The two agree for rules that ask for one
    value. *)

Definition packet_word (pkt : list Z) (i : Z) : Z := bswap32 (matcher_word pkt i).

(** Bytewise operations commute with splitting. *)
Lemma le_split_land n x y :
  le_split n (Z.land x y) = zip_with Z.land (le_split n x) (le_split n y).
Proof.
  revert x y; induction n as [|n IH]; intros x y; [done|]. cbn [le_split zip_with]. f_equal.
  - change 256 with (2 ^ 8). rewrite <- !Z.land_ones by lia.
    apply Z.bits_inj'. intros k Hk. rewrite !Z.land_spec. by destruct (Z.testbit (Z.ones 8) k), (Z.testbit x k), (Z.testbit y k).
  - rewrite <- IH. f_equal. change 256 with (2 ^ 8). rewrite <- !Z.shiftr_div_pow2 by lia.
    apply Z.shiftr_land.
Qed.

Lemma rev_zip_with {A B C} (f : A -> B -> C) l k :
  length l = length k -> rev (zip_with f l k) = zip_with f (rev l) (rev k).
Proof.
  revert k; induction l as [|x l IH]; intros [|y k] H; try discriminate; [done|].
  cbn [zip_with rev]. rewrite IH by (by injection H). rewrite zip_with_app; [done|].
  injection H as H. by rewrite !length_rev.
Qed.

Lemma land_range n x y : 0 <= x < 2 ^ n -> 0 <= y < 2 ^ n -> 0 <= Z.land x y < 2 ^ n.
Proof.
  intros Hx Hy. assert (0 <= n) by (destruct (Z.neg_nonneg_cases n); [|done]; rewrite Z.pow_neg_r in Hx; lia).
  replace (Z.land x y) with (Z.land x y mod 2 ^ n); [apply Z.mod_pos_bound; lia|].
  rewrite <- Z.land_ones, <- Z.land_assoc, Z.land_ones by done. by rewrite (Z.mod_small y).
Qed.

Lemma bswap32_land x y : bswap32 (Z.land x y) = Z.land (bswap32 x) (bswap32 y).
Proof.
  unfold bswap32. rewrite le_split_land, rev_zip_with by (by rewrite !length_le_split).
  rewrite <- (le_split_bswap 4 x), <- (le_split_bswap 4 y), <- le_split_land.
  rewrite le_combine_split_id; [by rewrite !le_split_bswap|].
  apply land_range; apply bswap32_range.
Qed.

Lemma bswap32_inj x y :
  0 <= x < 2 ^ 32 -> 0 <= y < 2 ^ 32 -> bswap32 x = bswap32 y -> x = y.
Proof.
  intros Hx Hy E. rewrite <- (u32_id x), <- (u32_id y) by done.
  by rewrite <- !bswap32_involutive, E.
Qed.

(** ** What the rules mean *)

(** The documented meaning of a rule, on the packet's big-endian words. *)
Definition rule_holds (ru : fpspin_rule) (pkt : list Z) : bool :=
  let v := Z.land (packet_word pkt (idx ru)) (mask ru) in
  (start ru <=? v) && (v <=? end_ ru).

(** Rules that ask for one value, or that never hold. *)
Definition rule_exact (ru : fpspin_rule) : Prop :=
  0 <= idx ru < 32 /\ 0 <= mask ru < 2 ^ 32 /\
  (start ru = end_ ru /\ 0 <= start ru < 2 ^ 32 \/
   mask ru = 0 /\ start ru = 1 /\ end_ ru = 0).

Lemma matcher_bytes pkt : Forall is_byte pkt -> Forall is_byte (matcher pkt).
Proof.
  intros HB. unfold matcher. apply Forall_app. split; [by apply Forall_take|].
  apply Forall_replicate. unfold is_byte. lia.
Qed.

Lemma matcher_word_range pkt i : Forall is_byte pkt -> 0 <= matcher_word pkt i < 2 ^ 32.
Proof.
  intros HB%matcher_bytes. unfold matcher_word.
  assert (Forall is_byte (sub_list (Z.to_nat (4 * i)) 4 (matcher pkt))) as HF
    by (unfold sub_list; by apply Forall_take, Forall_drop).
  apply le_combine_range in HF.
  assert (length (sub_list (Z.to_nat (4 * i)) 4 (matcher pkt)) <= 4)%nat
    by (unfold sub_list; rewrite length_take; lia).
  split; [lia|]. eapply Z.lt_le_trans; [apply HF|]. apply Z.pow_le_mono_r; lia.
Qed.

(** On such rules the hardware computes the documented meaning. *)
Lemma mu_matched_dev ru pkt :
  rule_exact ru -> Forall is_byte pkt -> mu_matched (dev_rule ru) pkt = rule_holds ru pkt.
Proof.
  intros (Hi & Hm & Hse) HB. unfold mu_matched, rule_holds, dev_rule. cbn [idx mask start end_].
  rewrite u32_id, Z.mod_small by lia.
  set (w := matcher_word pkt (idx ru)).
  assert (0 <= w < 2 ^ 32) as Hw by (by apply matcher_word_range).
  assert (Z.land w (bswap32 (mask ru)) = bswap32 (Z.land (packet_word pkt (idx ru)) (mask ru))) as ->.
  { unfold packet_word. fold w. rewrite bswap32_land, bswap32_involutive. by rewrite u32_id. }
  set (v := Z.land (packet_word pkt (idx ru)) (mask ru)).
  assert (0 <= v < 2 ^ 32) as Hv by (apply land_range; [apply bswap32_range | done]).
  destruct Hse as [[<- Hs]|(Hm0 & -> & ->)].
  - apply eq_true_iff_eq. rewrite !andb_true_iff, !Z.leb_le. split; intros Hb.
    + assert (start ru = v) as -> by (apply bswap32_inj; [done | done | lia]). lia.
    + assert (start ru = v) as -> by lia. lia.
  - assert (v = 0) as -> by (unfold v; by rewrite Hm0, Z.land_0_r). done.
Qed.

(** The packet's context and end-of-message bit, from the rulesets given to
    the loader. *)
Definition ruleset_holds (rs : fpspin_ruleset_t) (pkt : list Z) : bool :=
  forallb (fun ru => rule_holds ru pkt) (take 3 (rs_r rs)).

Definition classify (rss : list fpspin_ruleset_t) (pkt : list Z) : option (nat * bool) :=
  '(i, rs) ← list_find (fun rs => ruleset_holds rs pkt = true) rss;
  Some (i, match rs_r rs !! 3%nat with Some ru => rule_holds ru pkt | None => false end).

Definition ruleset_exact (rs : fpspin_ruleset_t) : Prop :=
  ruleset_wf rs /\ Forall rule_exact (rs_r rs).

(** ** The engine after programming *)

Section Programmed.
Context `{MmioRam hw ram}.

Lemma mode_reg_free i :
  0 <= i < 4 ->
  aligned (REG_ADDR ag_me_mode i) /\ 0x802000 <= REG_ADDR ag_me_mode i < 0x803000 /\
  REG_ADDR ag_me_mode i <> REG_ADDR ag_me_valid 0 /\
  REG_ADDR ag_me_mode i ∉ (fun k => reg_addr k.1 k.2) <$> all_keys.
Proof.
  intros Hi%ctx_elem.
  assert (Forall (fun i => aligned (REG_ADDR ag_me_mode i) /\
    (0x802000 <= REG_ADDR ag_me_mode i < 0x803000) /\ REG_ADDR ag_me_mode i <> REG_ADDR ag_me_valid 0 /\
    REG_ADDR ag_me_mode i ∉ (fun k => reg_addr k.1 k.2) <$> all_keys) [0; 1; 2; 3]) as HF
    by (unfold aligned; apply (bool_decide_unpack _); vm_compute; exact I).
  rewrite Forall_forall in HF. by apply HF.
Qed.

Lemma ruleset_rules rs : ruleset_wf rs -> exists a b c d, rs_r rs = [a; b; c; d].
Proof.
  unfold ruleset_wf. destruct (rs_r rs) as [|a [|b [|c [|d [|? ?]]]]]; intros Hl; try discriminate.
  by exists a, b, c, d.
Qed.

(** The rulesets the hardware works with. *)
Definition eff_ruleset (rs : list fpspin_ruleset_t) (num : Z) (i : nat) : fpspin_ruleset_t :=
  if Z.of_nat i <? num then nth i rs fpspin_ruleset_bypass else fpspin_ruleset_bypass.

Lemma me_rules_programmed rs num (s s' : lsys hw) :
  ctrl_ram (ram := ram) -> Forall ruleset_wf rs -> me_programmed rs num s s' ->
  (forall i, 0 <= i < 4 -> word_at (d_hw (l_drv s)) (REG_ADDR ag_me_mode i) = 0) ->
  me_rules (d_hw (l_drv s')) = (fun i => (dev_rule <$> rs_r (eff_ruleset rs num i), false)) <$> seq 0 4.
Proof.
  intros Hram Hwf [_ _ Hv Hru Hoth] Hmode. unfold me_rules. rewrite Hv.
  change (1 mod 2 =? 0) with false. cbv iota.
  assert (forall i, 0 <= i < 4 -> word_at (d_hw (l_drv s')) (REG_ADDR ag_me_mode i) = 0) as Hmode'.
  { intros i Hi. destruct (mode_reg_free i Hi) as (Ha & Hp & Hne & Hk).
    rewrite Hoth; [by apply Hmode | done | | done | done]. intros x Hx. apply Hram. lia. }
  assert (forall i, ruleset_wf (eff_ruleset rs num i)) as Heff.
  { intros i. unfold eff_ruleset. case_match; [|done].
    destruct (nth_in_or_default i rs fpspin_ruleset_bypass) as [Hin|Hd]; [|by rewrite Hd].
    rewrite Forall_forall in Hwf. by apply Hwf, list_elem_of_In. }
  assert (forall i : nat, (i < 4)%nat -> (fun j => me_rule (d_hw (l_drv s')) (Z.of_nat i * 4 + j)) <$> [0; 1; 2; 3]
            = dev_rule <$> rs_r (eff_ruleset rs num i)) as Hrow.
  { intros i Hi. destruct (ruleset_rules _ (Heff i)) as (a & b & c & d & E). rewrite E.
    assert (forall j ru, [a; b; c; d] !! j = Some ru ->
      me_rule (d_hw (l_drv s')) (Z.of_nat i * 4 + Z.of_nat j) = dev_rule ru) as Hj.
    { intros j ru Hj. apply Hru; [done|]. unfold eff_ruleset in E. by rewrite E. }
    cbn [fmap list_fmap].
    rewrite <- (Hj 0%nat a eq_refl), <- (Hj 1%nat b eq_refl), <- (Hj 2%nat c eq_refl),
      <- (Hj 3%nat d eq_refl). done. }
  cbn [fmap list_fmap seq]. rewrite !Hmode' by lia. cbn [Z.modulo].
  repeat f_equal; first [exact (Hrow 0%nat ltac:(lia)) | exact (Hrow 1%nat ltac:(lia))
                        | exact (Hrow 2%nat ltac:(lia)) | exact (Hrow 3%nat ltac:(lia))].
Qed.
End Programmed.

Lemma ruleset_matched_dev rs pkt :
  ruleset_exact rs -> Forall is_byte pkt ->
  ruleset_matched (dev_rule <$> rs_r rs) false pkt = ruleset_holds rs pkt /\
  ruleset_eom (dev_rule <$> rs_r rs) pkt
  = match rs_r rs !! 3%nat with Some ru => rule_holds ru pkt | None => false end.
Proof.
  intros [Hwf Hex] HB. destruct (ruleset_rules rs Hwf) as (a & b & c & d & E).
  unfold ruleset_matched, ruleset_holds, ruleset_eom. rewrite E in *.
  inversion_clear Hex as [|? ? Ha Hex1]. inversion_clear Hex1 as [|? ? Hb Hex2].
  inversion_clear Hex2 as [|? ? Hc Hex3]. inversion_clear Hex3 as [|? ? Hd _].
  cbn. by rewrite !mu_matched_dev by done.
Qed.

Lemma bypass_exact : ruleset_exact fpspin_ruleset_bypass.
Proof.
  split; [done|]. cbn. repeat constructor; cbn; try lia; right; done.
Qed.

Lemma rule_false_never pkt : rule_holds FPSPIN_RULE_FALSE pkt = false.
Proof. unfold rule_holds. change (mask FPSPIN_RULE_FALSE) with 0. by rewrite Z.land_0_r. Qed.

Lemma rule_empty_always pkt : rule_holds FPSPIN_RULE_EMPTY pkt = true.
Proof. unfold rule_holds. change (mask FPSPIN_RULE_EMPTY) with 0. by rewrite Z.land_0_r. Qed.

Lemma bypass_never pkt : ruleset_holds fpspin_ruleset_bypass pkt = false.
Proof.
  unfold ruleset_holds.
  change (take 3 (rs_r fpspin_ruleset_bypass)) with (replicate 3 FPSPIN_RULE_FALSE).
  cbn [replicate forallb]. by rewrite rule_false_never.
Qed.

Lemma find_bypass k pkt :
  list_find (fun rs => ruleset_holds rs pkt = true) (replicate k fpspin_ruleset_bypass) = None.
Proof.
  apply list_find_None, Forall_replicate. by rewrite bypass_never.
Qed.

Lemma classify_bypass l k pkt :
  classify (l ++ replicate k fpspin_ruleset_bypass) pkt = classify l pkt.
Proof.
  unfold classify.
  enough (list_find (fun rs => ruleset_holds rs pkt = true) (l ++ replicate k fpspin_ruleset_bypass)
          = list_find (fun rs => ruleset_holds rs pkt = true) l) as -> by done.
  induction l as [|x l IH]; cbn [app list_find]; [apply find_bypass|].
  case_decide; [done|]. by rewrite IH.
Qed.

Lemma eff_rulesets rs num :
  0 <= num <= 4 -> num <= Z.of_nat (length rs) ->
  eff_ruleset rs num <$> seq 0 4
  = take (Z.to_nat num) rs ++ replicate (4 - Z.to_nat num) fpspin_ruleset_bypass.
Proof.
  intros Hn Hl. apply list_eq. intros k. rewrite list_lookup_fmap.
  destruct (decide (k < 4)%nat) as [Hk|Hk].
  - rewrite lookup_seq_lt by done. cbn [fmap option_fmap option_map]. unfold eff_ruleset.
    destruct (Z.ltb_spec (Z.of_nat (0 + k)) num).
    + rewrite lookup_app_l by (rewrite length_take; lia). rewrite lookup_take, decide_True by lia.
      destruct (lookup_lt_is_Some_2 rs k) as [x Hx]; [lia|]. rewrite Hx. f_equal.
      change (0 + k)%nat with k. by apply nth_lookup_Some.
    + rewrite lookup_app_r by (rewrite length_take; lia). rewrite lookup_replicate_2; [done|].
      rewrite length_take. lia.
  - rewrite lookup_seq_ge by lia. symmetry. apply lookup_ge_None_2.
    rewrite length_app, length_take, length_replicate. lia.
Qed.

Lemma me_decide_dev rss pkt :
  Forall ruleset_exact rss -> Forall is_byte pkt ->
  me_decide ((fun rs => (dev_rule <$> rs_r rs, false)) <$> rss) pkt = classify rss pkt.
Proof.
  intros Hex HB. unfold me_decide, classify.
  enough (list_find (fun rs => ruleset_matched rs.1 rs.2 pkt = true)
            ((fun rs => (dev_rule <$> rs_r rs, false)) <$> rss)
          = prod_map id (fun rs => (dev_rule <$> rs_r rs, false))
              <$> list_find (fun rs => ruleset_holds rs pkt = true) rss) as ->.
  { destruct (list_find _ rss) as [[i rs]|] eqn:E; [|done]. cbn.
    apply list_find_Some in E as (Hi & _ & _).
    rewrite Forall_lookup in Hex. by rewrite (proj2 (ruleset_matched_dev rs pkt (Hex _ _ Hi) HB)). }
  induction Hex as [|rs rss Hrs _ IH]; [done|]. cbn [fmap list_fmap list_find].
  pose proof (proj1 (ruleset_matched_dev rs pkt Hrs HB)) as Hm. cbn [fst snd].
  rewrite IH. do 2 case_decide; try congruence; [done|].
  by destruct (list_find _ rss) as [[i x]|].
Qed.


(** ** The predefined rulesets *)

(** The byte [k] of a packet. *)
Definition pkt_byte (pkt : list Z) (k : nat) : Z := nth k pkt 0.
Definition pkt_be16 (pkt : list Z) (k : nat) : Z := 256 * pkt_byte pkt k + pkt_byte pkt (S k).

Lemma packet_word_bytes pkt (i : nat) :
  Forall is_byte pkt -> (4 * i + 4 <= length pkt)%nat -> (4 * i + 4 <= 128)%nat ->
  packet_word pkt (Z.of_nat i)
  = 2 ^ 16 * pkt_be16 pkt (4 * i) + pkt_be16 pkt (4 * i + 2).
Proof.
  intros HB Hl H128. unfold packet_word, bswap32, matcher_word.
  set (l := sub_list _ 4 (matcher pkt)).
  assert (l = (fun k => pkt_byte pkt (4 * i + k)%nat) <$> [0; 1; 2; 3]%nat) as E.
  { unfold l, sub_list, matcher. apply list_eq. intros k. rewrite list_lookup_fmap, lookup_take, lookup_drop.
    replace (Z.to_nat (4 * Z.of_nat i)) with (4 * i)%nat by lia.
    destruct (decide (k < 4)%nat) as [Hk|Hk].
    - rewrite lookup_app_l by (rewrite length_take; unfold MATCHER_BYTES; lia).
      rewrite lookup_take, decide_True by (unfold MATCHER_BYTES; lia).
      destruct (lookup_lt_is_Some_2 pkt (4 * i + k)) as [b Hb]; [lia|]. rewrite Hb.
      assert (pkt_byte pkt (4 * i + k) = b) as <- by (unfold pkt_byte; by apply nth_lookup_Some).
      do 4 (destruct k as [|k]; [done|]). lia.
    - do 4 (destruct k as [|k]; [lia|]). done. }
  assert (Forall is_byte l) as Hlb.
  { rewrite E. apply Forall_fmap, Forall_true. intros k. unfold compose, pkt_byte.
    destruct (nth_in_or_default (4 * i + k) pkt 0) as [Hin|E0]; [|rewrite E0; unfold is_byte; lia].
    rewrite Forall_forall in HB. by apply HB, list_elem_of_In. }
  assert (length l = 4%nat) as Hl4 by (by rewrite E).
  assert (le_split 4 (le_combine l) = l) as -> by (rewrite <- Hl4 at 1; by apply le_split_combine).
  rewrite E. cbn [fmap list_fmap rev app le_combine].
  unfold pkt_be16. replace (S (4 * i)) with (4 * i + 1)%nat by lia.
  replace (S (4 * i + 2)) with (4 * i + 3)%nat by lia.
  rewrite Nat.add_0_r. lia.
Qed.

Lemma pkt_be16_range pkt k : Forall is_byte pkt -> 0 <= pkt_be16 pkt k < 2 ^ 16.
Proof.
  intros HB. unfold pkt_be16, pkt_byte.
  assert (forall n, is_byte (nth n pkt 0)) as Hn.
  { intros n. destruct (nth_in_or_default n pkt 0) as [Hin|E0]; [|rewrite E0; unfold is_byte; lia].
    rewrite Forall_forall in HB. by apply HB, list_elem_of_In. }
  pose proof (Hn k). pose proof (Hn (S k)). unfold is_byte in *. lia.
Qed.

(** Masks on the halves of a word. *)
Lemma land_shiftl x y n : 0 <= n -> Z.land x (Z.shiftl y n) = Z.shiftl (Z.land (Z.shiftr x n) y) n.
Proof.
  intros Hn. apply Z.bits_inj'. intros k Hk. rewrite Z.land_spec, !Z.shiftl_spec by done.
  destruct (Z.le_gt_cases n k).
  - rewrite Z.land_spec, Z.shiftr_spec by lia. by replace (k - n + n) with k by lia.
  - rewrite !(Z.testbit_neg_r _ (k - n)) by lia. apply andb_false_r.
Qed.

Lemma land_high16 hi lo :
  0 <= lo < 2 ^ 16 -> 0 <= hi < 2 ^ 16 -> Z.land (2 ^ 16 * hi + lo) 0xffff0000 = 2 ^ 16 * hi.
Proof.
  intros Hlo Hhi. change 0xffff0000 with (Z.shiftl (Z.ones 16) 16).
  rewrite land_shiftl, Z.shiftr_div_pow2, Z.land_ones, Z.shiftl_mul_pow2 by lia.
  rewrite (Z.mul_comm (2 ^ 16)), Z.div_add_l, (Z.div_small lo), Z.add_0_r by lia.
  rewrite Z.mod_small; lia.
Qed.

Lemma land_low n hi lo : 0 <= n <= 16 -> Z.land (2 ^ 16 * hi + lo) (Z.ones n) = lo mod 2 ^ n.
Proof.
  intros Hn. rewrite Z.land_ones by lia.
  replace (2 ^ 16 * hi + lo) with (lo + (2 ^ (16 - n) * hi) * 2 ^ n); [apply Z.mod_add; lia|].
  replace (2 ^ 16) with (2 ^ (16 - n) * 2 ^ n); [lia|]. rewrite <- Z.pow_add_r by lia. f_equal. lia.
Qed.

Lemma leb_both a b : (a <=? b) && (b <=? a) = (b =? a).
Proof. lia. Qed.

Section Rules.
Context (pkt : list Z).
Hypothesis pkt_bytes : Forall is_byte pkt.
Hypothesis pkt_len : (44 <= length pkt)%nat.

Ltac word_of i :=
  rewrite (packet_word_bytes pkt i) by (done || lia); cbn [Nat.mul Nat.add].

Lemma rule_ip : rule_holds FPSPIN_RULE_IP pkt = (pkt_be16 pkt 12 =? 0x0800).
Proof.
  unfold rule_holds, FPSPIN_RULE_IP. cbn [idx mask start end_]. change 3 with (Z.of_nat 3).
  word_of 3%nat. rewrite land_high16 by (by apply pkt_be16_range).
  rewrite leb_both. lia.
Qed.

Lemma rule_proto n : 0 <= n < 256 -> rule_holds (FPSPIN_RULE_IP_PROTO n) pkt = (pkt_byte pkt 23 =? n).
Proof.
  intros Hn. unfold rule_holds, FPSPIN_RULE_IP_PROTO. cbn [idx mask start end_].
  rewrite u32_id by lia. change 5 with (Z.of_nat 5). word_of 5%nat.
  change 0xff with (Z.ones 8). rewrite land_low by lia.
  replace (pkt_be16 pkt 22 mod 2 ^ 8) with (pkt_byte pkt 23); [apply leb_both|].
  pose proof (pkt_be16_range pkt 22 pkt_bytes). unfold pkt_be16.
  change (2 ^ 8) with 256. rewrite Z.add_comm, (Z.mul_comm 256), Z.mod_add by lia.
  symmetry. apply Z.mod_small. unfold pkt_byte.
  destruct (nth_in_or_default 23 pkt 0) as [Hin|E0]; [|rewrite E0; lia].
  rewrite Forall_forall in pkt_bytes. by apply pkt_bytes, list_elem_of_In.
Qed.

Lemma rule_dport n :
  0 <= n < 2 ^ 16 -> rule_holds (FPSPIN_RULE_UDP_DPORT n) pkt = (pkt_be16 pkt 36 =? n).
Proof.
  intros Hn. unfold rule_holds, FPSPIN_RULE_UDP_DPORT. cbn [idx mask start end_].
  rewrite Z.shiftl_mul_pow2, u32_id by lia. change 9 with (Z.of_nat 9). word_of 9%nat.
  rewrite land_high16 by (by apply pkt_be16_range). rewrite leb_both. lia.
Qed.

Lemma rule_sport n :
  0 <= n < 2 ^ 16 -> rule_holds (FPSPIN_RULE_UDP_SPORT n) pkt = (pkt_be16 pkt 34 =? bswap16 n).
Proof.
  intros Hn. unfold rule_holds, FPSPIN_RULE_UDP_SPORT. cbn [idx mask start end_].
  change 8 with (Z.of_nat 8). word_of 8%nat. change 0xffff with (Z.ones 16).
  rewrite land_low, Z.mod_small by (lia || by apply pkt_be16_range). apply leb_both.
Qed.

Lemma rule_eom : rule_holds (mk_rule 10 0x8000 0x8000 0x8000) pkt = Z.testbit (pkt_be16 pkt 42) 15.
Proof.
  unfold rule_holds. cbn [idx mask start end_]. change 10 with (Z.of_nat 10). word_of 10%nat.
  rewrite leb_both. change 0x8000 with (Z.shiftl 1 15).
  rewrite land_shiftl by lia. change 1 with (Z.ones 1) at 1. rewrite Z.land_ones by lia.
  rewrite Z.shiftr_div_pow2 by lia.
  replace (2 ^ 16 * pkt_be16 pkt 40 + pkt_be16 pkt 42)
    with (pkt_be16 pkt 42 + 2 * pkt_be16 pkt 40 * 2 ^ 15) by lia.
  rewrite Z.div_add by lia. change (2 ^ 1) with 2.
  rewrite (Z.mul_comm 2), Z.mod_add, Z.testbit_eqb by lia.
  rewrite !Z.shiftl_mul_pow2 by lia. lia.
Qed.
End Rules.

Ltac exact_rules := unfold rule_exact; apply (bool_decide_unpack _); vm_compute; exact I.

Lemma slmp_exact : ruleset_exact fpspin_ruleset_slmp.
Proof. split; [done | exact_rules]. Qed.

(** C40: the SLMP ruleset. The hardware sends to its context exactly the
    packets with the EtherType of IPv4, protocol UDP and destination port
    9330, and raises end-of-message exactly when the top bit of the SLMP flags
    is set. *)
Theorem slmp_ruleset_meaning pkt :
  Forall is_byte pkt -> (44 <= length pkt)%nat ->
  me_decide [(dev_rule <$> rs_r fpspin_ruleset_slmp, false)] pkt
  = if (pkt_be16 pkt 12 =? 0x0800) && (pkt_byte pkt 23 =? 17) && (pkt_be16 pkt 36 =? 9330)
    then Some (0%nat, Z.testbit (pkt_be16 pkt 42) 15) else None.
Proof.
  intros HB Hl.
  assert (Forall ruleset_exact [fpspin_ruleset_slmp]) as Hex by (constructor; [apply slmp_exact | done]).
  etrans; [exact (me_decide_dev [fpspin_ruleset_slmp] pkt Hex HB)|].
  unfold classify. cbn [list_find].
  assert (ruleset_holds fpspin_ruleset_slmp pkt
          = (pkt_be16 pkt 12 =? 0x0800) && (pkt_byte pkt 23 =? 17) && (pkt_be16 pkt 36 =? 9330)) as ->.
  { unfold ruleset_holds. cbn [fpspin_ruleset_slmp rs_r take forallb].
    by rewrite rule_ip, rule_proto, rule_dport, andb_true_r, andb_assoc by (done || lia). }
  rewrite <- (rule_eom pkt HB Hl). by destruct ((pkt_be16 pkt 12 =? 0x0800) && _ && _).
Qed.

(** An SLMP packet: EtherType, protocol, ports and flags in place. *)
Definition slmp_pkt (flags : Z) : list Z :=
  replicate 12 0 ++ [8; 0] ++ replicate 9 0 ++ [17] ++ replicate 12 0 ++ [0x24; 0x72]
  ++ replicate 4 0 ++ [flags / 256; flags mod 256] ++ replicate 20 0.

Lemma slmp_ruleset_meaning_witness :
  me_decide [(dev_rule <$> rs_r fpspin_ruleset_slmp, false)] (slmp_pkt 0x8000) = Some (0%nat, true).
Proof.
  rewrite (slmp_ruleset_meaning (slmp_pkt 0x8000)).
  - reflexivity.
  - unfold is_byte. apply (bool_decide_unpack _). vm_compute. exact I.
  - cbn. lia.
Defined.

(** The port rules of [fpspin.h]. A [FPSPIN_RULE_UDP_DPORT(p)] rule in the
    device accepts exactly the packets with destination port [p]; a
    [FPSPIN_RULE_UDP_SPORT(p)] rule accepts those whose source port is [p] with
    its bytes swapped, since the loader swaps the rule once more. *)
Theorem port_rules_meaning p pkt :
  0 <= p < 2 ^ 16 -> Forall is_byte pkt -> (44 <= length pkt)%nat ->
  mu_matched (dev_rule (FPSPIN_RULE_UDP_DPORT p)) pkt = (pkt_be16 pkt 36 =? p) /\
  mu_matched (dev_rule (FPSPIN_RULE_UDP_SPORT p)) pkt = (pkt_be16 pkt 34 =? bswap16 p).
Proof.
  intros Hp HB Hl. split.
  - rewrite mu_matched_dev; [by apply rule_dport | | done].
    split; [cbn; lia|]. split; [cbn; lia|]. left. split; [done | apply u32_range].
  - rewrite mu_matched_dev; [by apply rule_sport | | done].
    split; [cbn; lia|]. split; [cbn; lia|]. left. split; [done|].
    cbn [start FPSPIN_RULE_UDP_SPORT]. pose proof (bswap16_range p). lia.
Qed.

Lemma port_rules_meaning_witness :
  mu_matched (dev_rule (FPSPIN_RULE_UDP_SPORT 53)) (replicate 34 0 ++ [0; 53] ++ replicate 20 0) = false.
Proof.
  rewrite (proj2 (port_rules_meaning 53 (replicate 34 0 ++ [0; 53] ++ replicate 20 0) ltac:(lia)
             ltac:(unfold is_byte; apply (bool_decide_unpack _); vm_compute; exact I)
             ltac:(cbn; lia))).
  reflexivity.
Defined.


(** Range rules are compared in the wrong byte order. There is a rule for
    a range of destination ports and a packet with a port in the range that
    the documented meaning accepts and the device rejects. *)
Theorem range_rule_diverges :
  exists ru pkt, Forall is_byte pkt /\ length pkt = 64%nat /\
    start ru = 2 ^ 16 * 1000 /\ end_ ru = 2 ^ 16 * 2000 /\
    rule_holds ru pkt = true /\ mu_matched (dev_rule ru) pkt = false.
Proof.
  exists (mk_rule 9 0xffff0000 (2 ^ 16 * 1000) (2 ^ 16 * 2000)).
  exists (replicate 36 0 ++ [4; 0] ++ replicate 26 0).
  split; [unfold is_byte; apply (bool_decide_unpack _); vm_compute; exact I|]. by vm_compute.
Qed.
