(* ===== verification/Slmp.v ===== *)
(** * The SLMP sender

    Model of [lib/fpspin/slmp.c]: sending a message as a train of UDP
    datagrams with a window of acknowledged packets. The sockets and the clock
    are scripts of the results of the successive system calls; the datagrams
    handed to [sendto] are recorded. *)

From S2P Require Import Prelude.

Local Open Scope fpspin_scope.

(** ** Constants and headers ([fpspin.h]) *)

Definition MKEOM : Z := 0x8000.
Definition MKSYN : Z := 0x4000.
Definition MKACK : Z := 0x2000.
Definition EOM (flags : Z) : bool := negb (Z.land flags MKEOM =? 0).
Definition SYN (flags : Z) : bool := negb (Z.land flags MKSYN =? 0).
Definition ACK (flags : Z) : bool := negb (Z.land flags MKACK =? 0).

Definition SLMP_PAYLOAD_SIZE : Z := 1462.

(** [slmp_hdr_t]: packed, all fields in network order. *)
Definition SLMP_HDR_LEN : nat := 10.
Definition slmp_hdr (flags msg_id pkt_off : Z) : list Z :=
  le_split 2 (bswap16 flags) ++ le_split 4 (bswap32 msg_id) ++ le_split 4 (bswap32 pkt_off).

Record slmp_sock_t := mk_slmp_sock {
  wnd_sz : Z;
  align : Z;
  fc_us : Z;
  num_threads : Z;
}.

(** ** The system *)

Inductive recv_result :=
| RcvAgain                  (* EAGAIN / EWOULDBLOCK *)
| RcvErr
| RcvData (bytes : list Z).

Inductive send_result := SndOk | SndAgain | SndErr.

(** Scripts of the results of [recvfrom] (nothing arrives after its end), of
    [sendto] (succeeds after its end), of the clock in microseconds, and the
    datagrams sent so far. *)
Record world := mk_world {
  w_recv : list recv_result;
  w_send : list send_result;
  w_clock : list Z;
  w_sent : list (list Z);
}.

(** The clock script ran out: no statement about the rest of the run. *)
Definition CLOCK_END : Z := -1000.

Definition recvfrom : M world recv_result := fun w =>
  match w_recv w with
  | [] => (Ok RcvAgain, w)
  | r :: rs => (Ok r, mk_world rs (w_send w) (w_clock w) (w_sent w))
  end.

Definition sendto (pkt : list Z) : M world send_result := fun w =>
  match w_send w with
  | [] => (Ok SndOk, mk_world (w_recv w) [] (w_clock w) (w_sent w ++ [pkt]))
  | r :: rs =>
      (Ok r, mk_world (w_recv w) rs (w_clock w)
               (match r with SndOk => w_sent w ++ [pkt] | _ => w_sent w end))
  end.

Definition gettimeofday : M world Z := fun w =>
  match w_clock w with
  | [] => (Err CLOCK_END, w)
  | t :: ts => (Ok t, mk_world (w_recv w) (w_send w) ts (w_sent w))
  end.

(** ** The sender *)

Definition slmp_socket (sock : slmp_sock_t) (wnd_sz_ align_ fc_us_ num_threads_ : Z)
    : Z * slmp_sock_t :=
  if num_threads_ <=? 0 then (-1, sock)
  else if wnd_sz_ <? 0 then (-1, sock)
  else (0, mk_slmp_sock wnd_sz_ align_ fc_us_ num_threads_).

(** [recvfrom] into a [slmp_hdr_t] truncates longer datagrams. *)
Fixpoint drain_ack (to_expect : nat) (acked : Z) : M world Z :=
  match to_expect with
  | O => sret acked
  | S to_expect' =>
      let! r := recvfrom in
      match r with
      | RcvAgain => sret acked
      | RcvErr => sret (-1)
      | RcvData bytes =>
          if negb (Nat.min (length bytes) SLMP_HDR_LEN =? SLMP_HDR_LEN)%nat then sret (-1)
          else
            let flags := bswap16 (le_combine (take 2 bytes)) in
            if negb (ACK flags) then sret (-1) else drain_ack to_expect' (acked + 1)
      end
  end.

(** The loop of [drain_ack_timeout]: every round reads the clock, so the
    rounds are bounded by the clock script. *)
Fixpoint drain_rounds (fuel : nat) (to_expect acked deadline : Z) (need_all : bool) : M world Z :=
  match fuel with
  | O => serr CLOCK_END
  | S fuel' =>
      if acked <? to_expect then
        let! v := drain_ack 1 0 in
        if v <? 0 then sret v
        else if (v =? 0) && negb (acked =? 0) && negb need_all then sret acked
        else
          let! now := gettimeofday in
          if now >? deadline then sret (acked + v)
          else drain_rounds fuel' to_expect (acked + v) deadline need_all
      else sret acked
  end.

Definition drain_ack_timeout (to_expect : Z) (need_all : bool) (timeout : Z) : M world Z :=
  if to_expect =? 0 then sret 0
  else
    let! start := gettimeofday in
    let! fuel := sget (fun w => S (length (w_clock w))) in
    drain_rounds fuel to_expect 0 (start + timeout) need_all.

(** The [sendto] loop: retry while the socket is busy, until the deadline. *)
Fixpoint send_rounds (fuel : nat) (packet : list Z) (deadline : Z) : M world Z :=
  match fuel with
  | O => serr CLOCK_END
  | S fuel' =>
      let! r := sendto packet in
      match r with
      | SndOk => sret 0
      | SndErr => sret (-1)
      | SndAgain =>
          let! now := gettimeofday in
          if now >? deadline then sret (-1) else send_rounds fuel' packet deadline
      end
  end.

(** [send_single]: the result and the window. [off] is [cur - char_buf]. The
    reclaim loop ends after one round, since the window is then not 0. *)
Definition send_single (buf : list Z) (off payload_size hflags msgid : Z)
    (expect_ack : bool) (window_left total_window timeout : Z) : M world (Z * Z) :=
  let send window :=
    let left := Z.of_nat (length buf) - off in
    let to_copy := if left >? payload_size then payload_size else left in
    let packet := slmp_hdr hflags (u32 msgid) (u32 off)
                  ++ sub_list (Z.to_nat off) (Z.to_nat to_copy) buf in
    let! start := gettimeofday in
    let! fuel := sget (fun w => S (length (w_clock w))) in
    let! r := send_rounds fuel packet (start + timeout) in
    if r <? 0 then sret (-1, window) else sret (0, window - 1) in
  if expect_ack && (window_left =? 0) then
    let! v := drain_ack_timeout total_window false timeout in
    if v =? 0 then sret (-1, window_left) else send (window_left + v)
  else send window_left.

(** The offsets of the parallel loop and the value of [cur] after it; [None]:
    [fuel] rounds were not enough (a payload size of 0 never gets there). *)
Fixpoint mid_offsets (fuel : nat) (cur limit payload_size : Z) : option (list Z * Z) :=
  match fuel with
  | O => None
  | S fuel' =>
      if cur <? limit then
        '(offs, fin) ← mid_offsets fuel' (cur + payload_size) limit payload_size;
        Some (cur :: offs, fin)
      else Some ([], cur)
  end.

(** The parallel loop. The iterations run in the order of [sched], each by
    the thread named there; every thread has its window and its value of
    [ret], and [exit_flag] is shared. *)
Record loop_st := mk_loop_st {
  windows : list Z;
  rets : list Z;
  exit_flag : bool;
}.

Fixpoint run_iters (buf : list Z) (payload_size msgid limit timeout : Z) (ack_for_all : bool)
    (sched : list (Z * nat)) (st : loop_st) : M world loop_st :=
  match sched with
  | [] => sret st
  | (off, tid) :: sched' =>
      if exit_flag st then run_iters buf payload_size msgid limit timeout ack_for_all sched' st
      else
        (* off <> 0: the first packet was sent before the loop *)
        let hflags := if off =? 0 then MKSYN else 0 in
        let expect_ack := off =? 0 in
        let hflags := if ack_for_all then Z.lor hflags MKSYN else hflags in
        let expect_ack := if ack_for_all then true else expect_ack in
        let! rw := send_single buf off payload_size hflags msgid expect_ack
                     (nth tid (windows st) 0) limit timeout in
        run_iters buf payload_size msgid limit timeout ack_for_all sched'
          (mk_loop_st (<[tid := rw.2]> (windows st)) (<[tid := rw.1]> (rets st))
             (negb (rw.1 =? 0)))
  end.

Definition TIMEOUT : Z := 1000000.
Definition FINAL_TIMEOUT : Z := 2000000.

(** Results of the two [setsockopt] calls, and the schedule of the loop. *)
Record send_env := mk_send_env {
  sndbuf_ret : Z;
  rcvbuf_ret : Z;
  schedule : list Z -> list (Z * nat);
}.

(** [Err CLOCK_END]: the clock script is too short; [Err LOOPS]: the loop over
    the packets does not end; [Err SIGFPE]: division by zero. *)
Definition LOOPS : Z := -1001.
Definition SIGFPE : Z := -8.

Definition packet_size (sock : slmp_sock_t) : Z := SLMP_PAYLOAD_SIZE ÷ align sock * align sock.
Definition window_limit (sock : slmp_sock_t) : Z :=
  (wnd_sz sock + num_threads sock - 1) ÷ num_threads sock.

(** The last packet and the wait for the outstanding acknowledgements. *)
Definition send_last (buf : list Z) (payload_size msgid fin window_left window_total : Z)
    : M world Z :=
  let! rw := (if fin <? Z.of_nat (length buf)
              then send_single buf fin payload_size (Z.lor MKEOM MKSYN) msgid true
                     window_left window_total TIMEOUT
              else sret (0, window_left)) in
  let to_drain := window_total - rw.2 in
  let! drained := drain_ack_timeout to_drain true FINAL_TIMEOUT in
  sret (if drained <? to_drain then -1 else rw.1).

Definition slmp_sendmsg (env : send_env) (sock : slmp_sock_t) (msgid : Z) (buf : list Z)
    : M world Z :=
  let sz := Z.of_nat (length buf) in
  if sndbuf_ret env <? 0 then sret (-1)
  else if rcvbuf_ret env <? 0 then sret (rcvbuf_ret env)
  else if align sock =? 0 then serr SIGFPE
  else
    let payload_size := packet_size sock in
    let ack_for_all := wnd_sz sock >? 0 in
    let hflags := if payload_size >=? sz then Z.lor MKSYN MKEOM else MKSYN in
    let! rw := send_single buf 0 payload_size hflags msgid true 1 1 TIMEOUT in
    if rw.1 <? 0 then sret (-3)
    else
      let! acked := drain_ack_timeout 1 true TIMEOUT in
      if acked =? 0 then sret (-2)
      else
        let limit := window_limit sock in
        let n := Z.to_nat (num_threads sock) in
        match mid_offsets (S (length buf)) payload_size (sz - payload_size) payload_size with
        | None => serr LOOPS
        | Some (offs, fin) =>
            let! st := run_iters buf payload_size msgid limit TIMEOUT ack_for_all (schedule env offs)
                         (mk_loop_st (replicate n limit) (replicate n 0) false) in
            (* the reduction: the value before the loop, 0, and every thread's *)
            if negb (foldr Z.add 0 (rets st) =? 0) then sret (-1)
            else send_last buf payload_size msgid fin (foldr Z.add 0 (windows st))
                   (limit * num_threads sock)
        end.

(** ** What a computation sends

    [sends c Q]: whenever [c] returns [a], it has sent some datagrams [l] with
    [Q a l], and kept those sent before. *)

Definition sends {A} (c : M world A) (Q : A -> list (list Z) -> Prop) : Prop :=
  forall w a w', c w = (Ok a, w') -> exists l, w_sent w' = w_sent w ++ l /\ Q a l.

(** Sends nothing, whatever it returns. *)
Definition quiet {A} (c : M world A) : Prop := sends c (fun _ l => l = []).

Section Sends.
Context {A B : Type}.

Lemma sends_ret (a : A) (Q : A -> list (list Z) -> Prop) : Q a [] -> sends (sret a) Q.
Proof. intros HQ w b w' [= <- <-]. exists []. by rewrite app_nil_r. Qed.

Lemma sends_err (e : Z) (Q : A -> list (list Z) -> Prop) : sends (serr e) Q.
Proof. intros w b w' Hc. unfold serr in Hc. discriminate. Qed.

Lemma sends_mono (c : M world A) (Q1 Q2 : A -> list (list Z) -> Prop) :
  sends c Q1 -> (forall a l, Q1 a l -> Q2 a l) -> sends c Q2.
Proof. intros Hc HQ w a w' E. destruct (Hc w a w' E) as (l & Hl & H1). eauto. Qed.

Lemma sends_bind (c : M world A) (k : A -> M world B) Q1 Q2 :
  sends c Q1 -> (forall a l1, Q1 a l1 -> sends (k a) (fun b l2 => Q2 b (l1 ++ l2))) ->
  sends (sbind c k) Q2.
Proof.
  intros Hc Hk w b w' E. unfold sbind in E. destruct (c w) as [[a|e] w1] eqn:Ec; [|discriminate].
  destruct (Hc w a w1 Ec) as (l1 & Hl1 & H1). destruct (Hk a l1 H1 w1 b w' E) as (l2 & Hl2 & H2).
  exists (l1 ++ l2). by rewrite Hl2, Hl1, app_assoc.
Qed.

(** After a quiet computation. *)
Lemma sends_bind_quiet (c : M world A) (k : A -> M world B) Q :
  quiet c -> (forall a, sends (k a) Q) -> sends (sbind c k) Q.
Proof. intros Hc Hk. eapply sends_bind; [exact Hc|]. intros a l ->. apply Hk. Qed.
End Sends.

Lemma quiet_recvfrom : quiet recvfrom.
Proof.
  intros w a w' E. unfold recvfrom in E. exists []. rewrite app_nil_r.
  by destruct (w_recv w); simplify_eq.
Qed.

Lemma quiet_gettimeofday : quiet gettimeofday.
Proof.
  intros w a w' E. unfold gettimeofday in E. exists []. rewrite app_nil_r.
  by destruct (w_clock w); simplify_eq.
Qed.

Lemma quiet_sget {A} (f : world -> A) : quiet (sget f).
Proof. intros w a w' E. unfold sget in E. exists []. rewrite app_nil_r. by simplify_eq. Qed.

Create HintDb sends.
#[local] Hint Resolve quiet_recvfrom quiet_gettimeofday quiet_sget : sends.

(** Walk through a computation up to what it sends. *)
Ltac quiet_steps :=
  repeat first
    [ apply sends_ret; try done
    | apply sends_err
    | apply sends_bind_quiet; [solve [eauto with sends]|]; intros ?
    | case_match ].

Lemma quiet_drain_ack n acked : quiet (drain_ack n acked).
Proof.
  revert acked; induction n as [|n IH]; intros acked; cbn [drain_ack]; unfold quiet in *; quiet_steps.
  apply IH.
Qed.
#[local] Hint Resolve quiet_drain_ack : sends.

Lemma quiet_drain_rounds fuel n acked deadline b : quiet (drain_rounds fuel n acked deadline b).
Proof.
  revert acked; induction fuel as [|fuel IH]; intros acked; cbn [drain_rounds]; unfold quiet in *;
    quiet_steps.
  apply IH.
Qed.
#[local] Hint Resolve quiet_drain_rounds : sends.

Lemma quiet_drain_ack_timeout n b t : quiet (drain_ack_timeout n b t).
Proof. unfold drain_ack_timeout, quiet. quiet_steps. apply quiet_drain_rounds. Qed.
#[local] Hint Resolve quiet_drain_ack_timeout : sends.

(** ** Segments *)

(** The datagram for the bytes of [buf] from [off] on. *)
Definition segment (buf : list Z) (payload_size msgid hflags off : Z) : list Z :=
  slmp_hdr hflags (u32 msgid) (u32 off)
  ++ sub_list (Z.to_nat off) (Z.to_nat (Z.min payload_size (Z.of_nat (length buf) - off))) buf.

(** One datagram on success, none on failure. *)
Definition one_or_fail (pkt : list Z) (r : Z) (l : list (list Z)) : Prop :=
  r = 0 /\ l = [pkt] \/ r = -1 /\ l = [].

Lemma sends_sendto pkt : sends (sendto pkt) (fun r l => l = match r with SndOk => [pkt] | _ => [] end).
Proof.
  intros w a w' E. unfold sendto in E. destruct (w_send w) as [|r rs]; simplify_eq.
  - by eexists.
  - destruct a; eexists; (split; [|reflexivity]); cbn; by rewrite ?app_nil_r.
Qed.

Lemma sends_send_rounds fuel pkt deadline : sends (send_rounds fuel pkt deadline) (one_or_fail pkt).
Proof.
  induction fuel as [|fuel IH]; cbn [send_rounds]; [apply sends_err|].
  eapply sends_bind; [apply sends_sendto|]. intros r l ->. destruct r; quiet_steps.
  - by left.
  - by right.
  - exact IH.
  - by right.
Qed.

Lemma sends_send_single buf off p hflags msgid ea wl tw t :
  sends (send_single buf off p hflags msgid ea wl tw t)
    (fun rw l => one_or_fail (segment buf p msgid hflags off) rw.1 l).
Proof.
  unfold send_single.
  assert (forall window, sends
    (let! start := gettimeofday in
     let! fuel := sget (fun w => S (length (w_clock w))) in
     let! r := send_rounds fuel
       (slmp_hdr hflags (u32 msgid) (u32 off) ++ sub_list (Z.to_nat off)
          (Z.to_nat (if Z.of_nat (length buf) - off >? p then p else Z.of_nat (length buf) - off)) buf)
       (start + t) in
     if r <? 0 then sret (-1, window) else sret (0, window - 1))
    (fun rw l => one_or_fail (segment buf p msgid hflags off) rw.1 l)) as Hsend.
  { intros window. do 2 (apply sends_bind_quiet; [eauto with sends | intros ?]).
    eapply sends_bind; [apply sends_send_rounds|].
    assert ((if Z.of_nat (length buf) - off >? p then p else Z.of_nat (length buf) - off)
            = Z.min p (Z.of_nat (length buf) - off)) as E
      by (destruct (Z.gtb_spec (Z.of_nat (length buf) - off) p); lia).
    unfold segment. rewrite E.
    intros r l [[-> ->]|[-> ->]]; cbn; apply sends_ret; [by left | by right]. }
  cbv zeta. destruct (ea && (wl =? 0)); [|apply Hsend].
  apply sends_bind_quiet; [eauto with sends|]. intros v.
  destruct (v =? 0); [apply sends_ret; by right | apply Hsend].
Qed.

(** ** The loop over the packets *)

Definition mid_flags (ack_for_all : bool) : Z := if ack_for_all then MKSYN else 0.
Definition ret_ok (r : Z) : Prop := r = 0 \/ r = -1.

Section Iters.
Context (buf : list Z) (p msgid limit t : Z) (ack_for_all : bool).

Lemma run_iters_exit sched st :
  exit_flag st = true ->
  sends (run_iters buf p msgid limit t ack_for_all sched st) (fun st' l => st' = st /\ l = []).
Proof.
  intros He. induction sched as [|[off tid] sched IH]; cbn [run_iters]; [by apply sends_ret|].
  by rewrite He.
Qed.

(** Either every iteration sent its segment, or some thread's result says
    that one failed. *)
Lemma sends_run_iters sched st :
  exit_flag st = false -> Forall ret_ok (rets st) ->
  Forall (fun x => x.1 <> 0 /\ (x.2 < length (rets st))%nat) sched ->
  sends (run_iters buf p msgid limit t ack_for_all sched st)
    (fun st' l => Forall ret_ok (rets st') /\
       (l = (fun x => segment buf p msgid (mid_flags ack_for_all) x.1) <$> sched \/ -1 ∈ rets st')).
Proof.
  revert st; induction sched as [|[off tid] sched IH]; intros st He Hr Hs; cbn [run_iters].
  { apply sends_ret. split; [done | by left]. }
  inversion_clear Hs as [|? ? [Hoff Htid] Hs']. cbn [fst snd] in Hoff, Htid.
  rewrite He, (proj2 (Z.eqb_neq off 0)) by done.
  eapply sends_bind; [apply sends_send_single|].
  intros [r wl] l Hl. unfold one_or_fail in Hl. cbn [fst snd] in Hl |- *.
  assert (Forall ret_ok (<[tid := r]> (rets st))) as Hr'.
  { apply Forall_insert; [done|]. destruct Hl as [[-> _]|[-> _]]; [by left | by right]. }
  destruct Hl as [[-> ->]|[-> ->]].
  - eapply sends_mono; [apply IH; [done | done |]|].
    + cbn [rets]. by rewrite length_insert.
    + cbn beta. intros st' l' (Hr2 & [->|Hin]); (split; [done|]); [left | by right].
      cbn [fmap list_fmap fst app]. by destruct ack_for_all.
  - eapply sends_mono; [by apply run_iters_exit|]. intros st' l' (-> & ->). cbn [rets].
    split; [done|]. right. apply list_elem_of_lookup. exists tid.
    by apply list_lookup_insert_eq.
Qed.
End Iters.

Lemma sum_rets_0 l : Forall ret_ok l -> foldr Z.add 0 l = 0 -> -1 ∉ l.
Proof.
  intros Hl. assert (foldr Z.add 0 l <= 0 /\ (-1 ∈ l -> foldr Z.add 0 l < 0)) as [H1 H2].
  { induction Hl as [|r l Hr _ [IH1 IH2]]; cbn [foldr]; [split; [lia | set_solver]|].
    destruct Hr as [->| ->]; (split; [lia|]); rewrite elem_of_cons.
    - intros [|Hin]; [lia|]. specialize (IH2 Hin). lia.
    - lia. }
  intros H0 Hin. specialize (H2 Hin). lia.
Qed.

(** The offsets of the loop: from [cur] in steps of the packet size, up to
    the first one at or above the limit. *)
Fixpoint offsets (n : nat) (cur p : Z) : list Z :=
  match n with O => [] | S n' => cur :: offsets n' (cur + p) p end.

Lemma mid_offsets_spec fuel cur limit p offs fin :
  0 < p -> mid_offsets fuel cur limit p = Some (offs, fin) ->
  exists n, offs = offsets n cur p /\ fin = cur + Z.of_nat n * p /\ limit <= fin /\
            (n <> 0%nat -> fin < limit + p).
Proof.
  intros Hp. revert cur offs fin; induction fuel as [|fuel IH]; intros cur offs fin E; [done|].
  cbn [mid_offsets] in E. destruct (Z.ltb_spec cur limit).
  - apply bind_Some in E as ([offs' fin'] & E & Hs). simplify_eq.
    apply IH in E as (n & -> & -> & Hl & Hn). exists (S n). cbn [offsets].
    split; [done|]. split; [lia|]. split; [done|]. intros _. destruct n; [|lia].
    rewrite Z.mul_0_l, Z.add_0_r in *. lia.
  - simplify_eq. exists 0%nat. split; [done|]. split; [lia|]. split; [lia|]. done.
Qed.

Lemma mid_offsets_ends fuel cur limit p :
  0 < p -> Z.max 0 (limit - cur) < Z.of_nat fuel -> is_Some (mid_offsets fuel cur limit p).
Proof.
  intros Hp. revert cur; induction fuel as [|fuel IH]; intros cur Hf; cbn [mid_offsets].
  - lia.
  - destruct (Z.ltb_spec cur limit); [|by eexists].
    destruct (IH (cur + p)) as [[offs fin] ->]; [lia|]. by eexists.
Qed.

Lemma elem_of_offsets n cur p x :
  x ∈ offsets n cur p <-> exists k, (k < n)%nat /\ x = cur + Z.of_nat k * p.
Proof.
  revert cur; induction n as [|n IH]; intros cur; cbn [offsets].
  - split; [intros ?%not_elem_of_nil; done | intros (k & ? & _); lia].
  - rewrite elem_of_cons, IH. split.
    + intros [->|(k & Hk & ->)]; [exists 0%nat; lia | exists (S k); lia].
    + intros ([|k] & Hk & ->); [left; lia | right; exists k; lia].
Qed.

(** ** The packets of a message *)

Definition sock_ok (sock : slmp_sock_t) : Prop :=
  0 < align sock <= SLMP_PAYLOAD_SIZE /\ 0 < num_threads sock /\ 0 <= wnd_sz sock.

Lemma packet_size_range sock : sock_ok sock -> 0 < packet_size sock <= SLMP_PAYLOAD_SIZE.
Proof.
  intros (Ha & _ & _). unfold packet_size. rewrite Z.quot_div_nonneg by lia.
  pose proof (Z.mul_div_le SLMP_PAYLOAD_SIZE (align sock) ltac:(lia)).
  assert (1 <= SLMP_PAYLOAD_SIZE / align sock) by (apply Z.div_le_lower_bound; lia). nia.
Qed.

(** A schedule runs every iteration once, on an existing thread. *)
Definition sched_ok (env : send_env) (n : Z) : Prop :=
  forall offs, (schedule env offs).*1 ≡ₚ offs /\
    Forall (fun x => (x.2 < Z.to_nat n)%nat) (schedule env offs).

(** The number of packets of a message longer than one packet. *)
Definition num_packets (sz p : Z) : Z := (sz + p - 1) / p.

(** What is to be sent, with the middle packets in the given order: one
    packet with both flags, or SYN, the middle packets, EOM. *)
Definition message_packets (buf : list Z) (p msgid : Z) (ack_for_all : bool) (order : list Z)
    : list (list Z) :=
  let sz := Z.of_nat (length buf) in
  if sz <=? p then [segment buf p msgid (Z.lor MKSYN MKEOM) 0]
  else [segment buf p msgid MKSYN 0]
       ++ (segment buf p msgid (mid_flags ack_for_all) <$> order)
       ++ [segment buf p msgid (Z.lor MKEOM MKSYN) ((num_packets sz p - 1) * p)].

(** The middle offsets. *)
Definition mid_of (sz p : Z) : list Z := offsets (Z.to_nat (num_packets sz p - 2)) p p.

Lemma sends_send_last buf p msgid fin wl wt :
  sends (send_last buf p msgid fin wl wt)
    (fun r l => r = 0 -> l = if fin <? Z.of_nat (length buf)
                             then [segment buf p msgid (Z.lor MKEOM MKSYN) fin] else []).
Proof.
  unfold send_last. destruct (fin <? Z.of_nat (length buf)).
  - eapply sends_bind; [apply sends_send_single|]. intros rw l Hl.
    apply sends_bind_quiet; [eauto with sends|]. intros v. apply sends_ret.
    rewrite app_nil_r. destruct Hl as [[Hr ->]|[Hr ->]]; rewrite Hr; [done|].
    intros E. by case_match.
  - eapply sends_bind; [by apply (sends_ret _ (fun _ l => l = []))|]. intros rw l ->.
    apply sends_bind_quiet; [eauto with sends|]. intros v. by apply sends_ret.
Qed.

(** What the loop over the packets and the last packet cover. *)
Lemma mid_offsets_count fuel sz p offs fin :
  0 < p -> mid_offsets fuel p (sz - p) p = Some (offs, fin) ->
  (sz <= p -> offs = [] /\ fin = p) /\
  (p < sz -> offs = mid_of sz p /\ fin = (num_packets sz p - 1) * p /\ fin < sz).
Proof.
  intros Hp E. apply mid_offsets_spec in E as (n & -> & -> & Hl & Hn); [|done]. split.
  - intros Hsz. destruct n as [|n]; [split; [done | lia]|]. specialize (Hn ltac:(done)). nia.
  - intros Hsz. assert (p + Z.of_nat n * p < sz) as Hlt.
    { destruct n; [lia|]. specialize (Hn ltac:(done)). lia. }
    assert (num_packets sz p = Z.of_nat n + 2) as Hnum.
    { unfold num_packets. symmetry. apply (Z.div_unique _ _ _ (sz - p - Z.of_nat n * p - 1)); lia. }
    unfold mid_of. rewrite Hnum. split; [f_equal; lia|]. split; lia.
Qed.

Lemma sends_sendmsg env sock msgid buf :
  sock_ok sock -> sched_ok env (num_threads sock) ->
  sends (slmp_sendmsg env sock msgid buf) (fun r l => r = 0 ->
    exists order, order ≡ₚ (if Z.of_nat (length buf) <=? packet_size sock then []
                            else mid_of (Z.of_nat (length buf)) (packet_size sock)) /\
      l = message_packets buf (packet_size sock) msgid (wnd_sz sock >? 0) order).
Proof.
  intros Hs Hsch. pose proof (packet_size_range sock Hs) as Hp. unfold slmp_sendmsg.
  destruct Hs as (Ha & Hn & Hw). set (p := packet_size sock) in *.
  set (sz := Z.of_nat (length buf)).
  destruct (sndbuf_ret env <? 0); [by apply sends_ret|].
  destruct (Z.ltb_spec (rcvbuf_ret env) 0); [apply sends_ret; lia|].
  rewrite (proj2 (Z.eqb_neq _ _)) by lia.
  eapply sends_bind; [apply sends_send_single|]. intros rw l1 Hl1.
  destruct (Z.ltb_spec rw.1 0); [by apply sends_ret|].
  destruct Hl1 as [[Hrw ->]|[Hrw _]]; [|lia].
  apply sends_bind_quiet; [eauto with sends|]. intros acked.
  destruct (acked =? 0); [by apply sends_ret|].
  destruct (mid_offsets _ _ _ _) as [[offs fin]|] eqn:Hmid; [|apply sends_err].
  apply mid_offsets_count in Hmid as [Hone Hmany]; [|lia].
  destruct (Hsch offs) as [Hperm Htid].
  eapply sends_bind.
  { apply sends_run_iters; [done | by apply Forall_replicate; left |].
    cbn [rets]. rewrite length_replicate.
    apply Forall_forall. intros x Hx. rewrite Forall_forall in Htid. split; [|by apply Htid].
    assert (x.1 ∈ offs) as Hin by (rewrite <- Hperm; by apply list_elem_of_fmap_2).
    destruct (Z.le_gt_cases sz p) as [Hle|Hgt].
    - destruct (Hone Hle) as [-> _]. set_solver.
    - destruct (Hmany Hgt) as [-> _]. apply elem_of_offsets in Hin as (k & _ & ->). nia. }
  intros st l2 (Hok & Hl2).
  destruct (Z.eqb_spec (foldr Z.add 0 (rets st)) 0) as [Hz|Hz]; [|by apply sends_ret].
  cbn [negb]. destruct Hl2 as [->|Hbad]; [|by apply sum_rets_0 in Hz].
  eapply sends_mono; [apply sends_send_last|]. intros r l3 Hl3 Hr. specialize (Hl3 Hr) as ->.
  exists (schedule env offs).*1. unfold message_packets. fold sz.
  rewrite <- list_fmap_compose.
  destruct (Z.leb_spec sz p) as [Hle|Hgt].
  - destruct (Hone Hle) as [-> ->]. split; [done|].
    rewrite Z.geb_leb, (proj2 (Z.leb_le _ _)) by lia. rewrite (proj2 (Z.ltb_ge _ _)) by (fold sz; lia).
    apply Permutation_nil_r in Hperm. apply fmap_nil_inv in Hperm. by rewrite Hperm.
  - destruct (Hmany Hgt) as (-> & Hfin & Hlt). split; [done|].
    rewrite Z.geb_leb, (proj2 (Z.leb_gt _ _)) by lia. rewrite (proj2 (Z.ltb_lt _ _)) by (fold sz; lia).
    by rewrite Hfin.
Qed.

(** Segmentation. When [slmp_sendmsg] reports success, exactly the packets
    of the message were sent, each once: the first with SYN at offset 0, the
    middle ones in the order in which the threads ran, the last with EOM and
    SYN (a message of one packet carries both), each with the bytes of the
    message from its offset on. *)
Theorem slmp_sendmsg_segments env sock msgid buf w w' :
  let sz := Z.of_nat (length buf) in
  let p := packet_size sock in
  sock_ok sock -> sched_ok env (num_threads sock) ->
  slmp_sendmsg env sock msgid buf w = (Ok 0, w') ->
  exists order, order ≡ₚ (if sz <=? p then [] else mid_of sz p) /\
    w_sent w' = w_sent w ++ message_packets buf p msgid (wnd_sz sock >? 0) order.
Proof.
  intros sz p Hs Hsch E.
  destruct (sends_sendmsg env sock msgid buf Hs Hsch w 0 w' E) as (l & Hl & HQ).
  destruct (HQ eq_refl) as (order & Ho & ->). by exists order.
Qed.

(** ** Success *)

(** A datagram that [drain_ack] counts. *)
Definition is_ack (r : recv_result) : Prop :=
  match r with
  | RcvData bytes => (SLMP_HDR_LEN <= length bytes)%nat /\
                     ACK (bswap16 (le_combine (take 2 bytes))) = true
  | _ => False
  end.

(** A system in which [sendto] succeeds, at least [a] acknowledgements are
    waiting, and the clock, read at least [c] times, stands still. *)
Record good (a c : nat) (w : world) : Prop := {
  good_send : w_send w = [];
  good_acks : Forall is_ack (w_recv w);
  good_recv : (a <= length (w_recv w))%nat;
  good_zero : Forall (fun t => t = 0) (w_clock w);
  good_clock : (c <= length (w_clock w))%nat;
}.

(** [c] returns [r] and leaves a good system. *)
Definition returns {A} (c : M world A) (w : world) (a n : nat) (Q : A -> Prop) : Prop :=
  exists r w', c w = (Ok r, w') /\ good a n w' /\ Q r.

Lemma good_mono a c a' c' w : good a c w -> (a' <= a)%nat -> (c' <= c)%nat -> good a' c' w.
Proof. intros [] ? ?. split; try done; lia. Qed.

Lemma returns_ret {A} (x : A) w a n (Q : A -> Prop) : good a n w -> Q x -> returns (sret x) w a n Q.
Proof. intros Hg HQ. by exists x, w. Qed.

Lemma returns_bind {A B} (c : M world A) (k : A -> M world B) w a1 n1 a2 n2 Q1 Q2 :
  returns c w a1 n1 Q1 ->
  (forall x w1, good a1 n1 w1 -> Q1 x -> returns (k x) w1 a2 n2 Q2) ->
  returns (sbind c k) w a2 n2 Q2.
Proof.
  intros (x & w1 & E & Hg & HQ) Hk. destruct (Hk x w1 Hg HQ) as (y & w2 & E2 & Hg2 & HQ2).
  exists y, w2. by rewrite (sbind_ok _ _ _ _ _ E).
Qed.

Lemma returns_clock w a n : good a (S n) w -> returns gettimeofday w a n (fun t => t = 0).
Proof.
  intros [Hs Ha Hr Hz Hc]. unfold gettimeofday, returns. destruct (w_clock w) as [|t ts] eqn:E.
  - simpl in Hc. lia.
  - inversion_clear Hz. do 2 eexists. split; [reflexivity|]. split; [|done].
    split; cbn; try done. simpl in Hc. lia.
Qed.

Lemma returns_fuel w a n :
  good a n w -> returns (sget (fun w => S (length (w_clock w)))) w a n (fun f => (n < f)%nat).
Proof. intros Hg. do 2 eexists. split; [reflexivity|]. split; [done|]. destruct Hg. lia. Qed.

Lemma returns_drain_ack w a n : good (S a) n w -> returns (drain_ack 1 0) w a n (fun v => v = 1).
Proof.
  intros [Hs Ha Hr Hz Hc]. unfold returns. cbn [drain_ack]. unfold recvfrom, sbind.
  destruct (w_recv w) as [|r rs] eqn:E; [simpl in Hr; lia|].
  inversion_clear Ha as [|? ? Hack Ha']. destruct r as [| |bytes]; try done.
  destruct Hack as [Hlen Hack]. rewrite Nat.min_r by done. rewrite Nat.eqb_refl, Hack. cbn [negb].
  do 2 eexists. split; [reflexivity|]. split; [|done]. split; cbn; try done. simpl in Hr. lia.
Qed.

Lemma returns_drain_rounds fuel k to_expect acked deadline b w a n :
  to_expect = acked + Z.of_nat k -> 0 <= acked -> 0 <= deadline -> (k < fuel)%nat ->
  good (k + a) (k + n) w ->
  returns (drain_rounds fuel to_expect acked deadline b) w a n (fun v => v = to_expect).
Proof.
  revert k acked w; induction fuel as [|fuel IH]; intros k acked w Hk Ha Hd Hf Hg; [lia|].
  cbn [drain_rounds]. destruct k as [|k].
  - rewrite (proj2 (Z.ltb_ge _ _)) by lia. apply returns_ret; [done | lia].
  - rewrite (proj2 (Z.ltb_lt _ _)) by lia.
    eapply returns_bind; [by apply (returns_drain_ack w (k + a))|]. intros v w1 Hg1 ->.
    cbn [Z.ltb Z.compare Z.eqb andb].
    eapply returns_bind; [by apply (returns_clock w1 (k + a) (k + n))|]. intros now w2 Hg2 ->.
    rewrite Z.gtb_ltb, (proj2 (Z.ltb_ge _ _)) by lia.
    apply (IH k); [lia | lia | done | lia | done].
Qed.

Lemma returns_drain k b t w a n :
  0 <= t -> good (k + a) (S (k + n)) w ->
  returns (drain_ack_timeout (Z.of_nat k) b t) w a n (fun v => v = Z.of_nat k).
Proof.
  intros Ht Hg. unfold drain_ack_timeout. destruct (Z.eqb_spec (Z.of_nat k) 0) as [Hk|Hk].
  - apply returns_ret; [eapply good_mono; [exact Hg | lia | lia] | lia].
  - eapply returns_bind; [by apply returns_clock|]. intros start w1 Hg1 ->.
    eapply returns_bind; [by apply returns_fuel|]. intros fuel w2 Hg2 Hf. cbn beta in Hf.
    apply (returns_drain_rounds _ k); [lia | lia | lia | lia | done].
Qed.

(** Sending one packet, with the window refilled when it is empty. *)
Lemma returns_send_single buf off p hflags msgid ea wl L w a n :
  0 <= wl -> (wl = 0 -> ea = true -> (0 < L)%nat) ->
  good (L + a) (L + S (S n)) w ->
  returns (send_single buf off p hflags msgid ea wl (Z.of_nat L) TIMEOUT) w a n
    (fun rw => rw.1 = 0 /\
       rw.2 = (if ea && (wl =? 0) then Z.of_nat L else wl) - 1).
Proof.
  intros Hwl HL Hg. unfold send_single.
  assert (forall window w1, good a (S n) w1 -> returns
    (let! start := gettimeofday in
     let! fuel := sget (fun w => S (length (w_clock w))) in
     let! r := send_rounds fuel
       (slmp_hdr hflags (u32 msgid) (u32 off) ++ sub_list (Z.to_nat off)
          (Z.to_nat (if Z.of_nat (length buf) - off >? p then p else Z.of_nat (length buf) - off)) buf)
       (start + TIMEOUT) in
     if r <? 0 then sret (-1, window) else sret (0, window - 1)) w1 a n
    (fun rw => rw.1 = 0 /\ rw.2 = window - 1)) as Hsend.
  { intros window w1 Hg1. eapply returns_bind; [by apply returns_clock|]. intros start w2 Hg2 ->.
    eapply returns_bind; [by apply returns_fuel|]. intros fuel w3 Hg3 Hf. cbn beta in Hf.
    eapply (returns_bind _ _ _ a n _ _ (fun r => r = 0)).
    - destruct fuel as [|fuel]; [lia|]. cbn [send_rounds]. destruct Hg3 as [Hs ? ? ? ?].
      do 2 eexists. split; [unfold sbind, sendto; rewrite Hs; reflexivity|]. split; [by split | done].
    - intros r w4 Hg4 ->. by apply returns_ret. }
  cbv zeta. destruct (ea && (wl =? 0)) eqn:Ee.
  - apply andb_true_iff in Ee as [-> Hz%Z.eqb_eq]. specialize (HL Hz eq_refl).
    eapply returns_bind.
    { apply (returns_drain L _ _ _ a (S n)); [done|]. eapply good_mono; [exact Hg | lia | lia]. }
    intros v w1 Hg1 ->. rewrite (proj2 (Z.eqb_neq _ _)) by lia. subst wl. by apply (Hsend (Z.of_nat L)).
  - apply Hsend. eapply good_mono; [exact Hg | lia | lia].
Qed.

Section ItersReturn.
Context (buf : list Z) (p msgid : Z) (L : nat).

(** The windows stay between 0 and the limit, the results stay 0. *)
Definition iters_inv (n : nat) (st : loop_st) : Prop :=
  length (windows st) = n /\ Forall (fun x => 0 <= x <= Z.of_nat L) (windows st) /\
  Forall (fun r => r = 0) (rets st) /\ exit_flag st = false.

Lemma returns_run_iters sched st w a c n :
  (0 < L)%nat -> iters_inv n st -> Forall (fun x => (x.2 < n)%nat) sched ->
  good (length sched * L + a) (length sched * (L + 2) + c) w ->
  returns (run_iters buf p msgid (Z.of_nat L) TIMEOUT true sched st) w a c (iters_inv n).
Proof.
  intros HL. revert st w. induction sched as [|[off tid] sched IH]; intros st w Hinv Hs Hg; cbn [run_iters].
  { by apply returns_ret. }
  inversion_clear Hs as [|? ? Htid Hs']. cbn [snd] in Htid.
  destruct Hinv as (Hlw & Hw & Hr & He). rewrite He.
  destruct (lookup_lt_is_Some_2 (windows st) tid) as [wl Hwl]; [lia|].
  rewrite (nth_lookup_Some _ _ _ _ Hwl).
  assert (0 <= wl <= Z.of_nat L) as Hwr by (rewrite Forall_lookup in Hw; by eapply Hw).
  eapply returns_bind.
  { apply (returns_send_single _ _ _ _ _ _ _ L w (length sched * L + a) (length sched * (L + 2) + c));
      [lia | lia |]. eapply good_mono; [exact Hg | cbn [length]; lia | cbn [length]; lia]. }
  intros [r wl'] w1 Hg1 [Hr0 Hwl']. cbn [fst snd] in *. subst r.
  apply IH; [|done|done].
  split; [cbn; by rewrite length_insert|]. split; [|split; [|done]].
  - cbn [windows]. apply Forall_insert; [done|]. cbn [andb] in Hwl'.
    destruct (Z.eqb_spec wl 0); lia.
  - cbn [rets]. by apply Forall_insert.
Qed.
End ItersReturn.

Lemma mid_offsets_length fuel cur limit p offs fin :
  mid_offsets fuel cur limit p = Some (offs, fin) -> (length offs < fuel)%nat.
Proof.
  revert cur offs fin; induction fuel as [|fuel IH]; intros cur offs fin E; [done|].
  cbn [mid_offsets] in E.
  destruct (cur <? limit); [|simplify_eq; simpl; lia].
  apply bind_Some in E as ([offs' fin'] & E & Hs). apply IH in E. simplify_eq. simpl. lia.
Qed.

Lemma sum_windows_range L l :
  Forall (fun x => 0 <= x <= Z.of_nat L) l -> 0 <= foldr Z.add 0 l <= Z.of_nat (L * length l).
Proof. induction 1; cbn [foldr length]; lia. Qed.

Lemma sum_rets_all0 l : Forall (fun r => r = 0) l -> foldr Z.add 0 l = 0.
Proof. induction 1; cbn [foldr]; lia. Qed.

(** The last packet with a non-negative window. *)
Lemma returns_send_last buf p msgid fin wl T w :
  0 <= wl <= Z.of_nat T -> (0 < T)%nat -> good (T + T) (T + S (S (S T))) w ->
  returns (send_last buf p msgid fin wl (Z.of_nat T)) w 0 0 (fun r => r = 0).
Proof.
  intros Hwl HT Hg. unfold send_last.
  eapply (returns_bind _ _ _ T (S T) _ _ (fun rw => rw.1 = 0 /\ 0 <= rw.2 <= Z.of_nat T)).
  - destruct (fin <? Z.of_nat (length buf)).
    + destruct (returns_send_single buf fin p (Z.lor MKEOM MKSYN) msgid true wl T w T (S T))
        as (rw & w' & E & Hg' & H1 & H2); [lia | lia | eapply good_mono; [exact Hg | lia | lia] |].
      exists rw, w'. split; [done|]. split; [done|]. split; [done|]. cbn [andb] in H2.
      destruct (Z.eqb_spec wl 0); lia.
    + apply returns_ret; [eapply good_mono; [exact Hg | lia | lia] | by split].
  - intros [r wl'] w1 Hg1 [Hr Hw']. cbn [fst snd] in *. subst r.
    replace (Z.of_nat T - wl') with (Z.of_nat (Z.to_nat (Z.of_nat T - wl'))) by lia.
    eapply returns_bind.
    { apply (returns_drain (Z.to_nat (Z.of_nat T - wl')) _ _ _ 0 0); [done|].
      eapply good_mono; [exact Hg1 | lia | lia]. }
    intros v w2 Hg2 ->. rewrite Z.ltb_irrefl. by apply returns_ret.
Qed.

(** What one message needs of the scripts, generously. *)
Definition script_budget (sock : slmp_sock_t) (buf : list Z) : nat :=
  (length buf + 4) * (Z.to_nat (wnd_sz sock + num_threads sock) + 3).

(** The window of a thread is at least 1, and all windows together are at
    most the window of the socket and one packet per thread. *)
Lemma window_limit_bounds sock :
  0 < num_threads sock -> 0 < wnd_sz sock ->
  let L := Z.to_nat (window_limit sock) in
  window_limit sock = Z.of_nat L /\ (0 < L)%nat /\
  (L * Z.to_nat (num_threads sock) <= Z.to_nat (wnd_sz sock + num_threads sock))%nat.
Proof.
  intros Hn Hw L. unfold L, window_limit. rewrite Z.quot_div_nonneg by lia.
  assert (1 <= (wnd_sz sock + num_threads sock - 1) / num_threads sock) by (apply Z.div_le_lower_bound; lia).
  pose proof (Z.mul_div_le (wnd_sz sock + num_threads sock - 1) (num_threads sock) ltac:(lia)).
  split; [lia|]. split; [lia|]. nia.
Qed.


(** ** No window *)

#[export] Instance is_ack_dec r : Decision (is_ack r).
Proof. destruct r; simpl; apply _. Defined.

(** Only acknowledgements arrive; [acks w] of them are still to come. *)
Definition clean (w : world) : Prop := Forall (fun r => r = RcvAgain \/ is_ack r) (w_recv w).
Definition acks (w : world) : nat := length (filter is_ack (w_recv w)).

(** [takes c Q]: from a clean system, [c] returns [a] having consumed [k]
    acknowledgements with [Q a k]. *)
Definition takes {A} (c : M world A) (Q : A -> nat -> Prop) : Prop :=
  forall w a w', clean w -> c w = (Ok a, w') ->
    clean w' /\ exists k, acks w = (k + acks w')%nat /\ Q a k.

Lemma takes_ret {A} (a : A) (Q : A -> nat -> Prop) : Q a 0%nat -> takes (sret a) Q.
Proof. intros HQ w b w' Hc [= <- <-]. split; [done|]. by exists 0%nat. Qed.

Lemma takes_err {A} e (Q : A -> nat -> Prop) : takes (serr e) Q.
Proof. intros w b w' _ Hc. unfold serr in Hc. discriminate. Qed.

Lemma takes_bind {A B} (c : M world A) (k : A -> M world B) Q1 Q2 :
  takes c Q1 -> (forall a n1, Q1 a n1 -> takes (k a) (fun b n2 => Q2 b (n1 + n2)%nat)) ->
  takes (sbind c k) Q2.
Proof.
  intros Hc Hk w b w' Hcl E. unfold sbind in E. destruct (c w) as [[a|e] w1] eqn:Ec; [|discriminate].
  destruct (Hc w a w1 Hcl Ec) as (Hcl1 & n1 & Hn1 & H1).
  destruct (Hk a n1 H1 w1 b w' Hcl1 E) as (Hcl2 & n2 & Hn2 & H2).
  split; [done|]. exists (n1 + n2)%nat. split; [lia | done].
Qed.

Lemma takes_bind_none {A B} (c : M world A) (k : A -> M world B) Q :
  takes c (fun _ n => n = 0%nat) -> (forall a, takes (k a) Q) -> takes (sbind c k) Q.
Proof. intros Hc Hk. eapply takes_bind; [exact Hc|]. intros a n ->. apply Hk. Qed.

Lemma takes_same {A} (c : M world A) :
  (forall w a w', c w = (Ok a, w') -> w_recv w' = w_recv w) -> takes c (fun _ n => n = 0%nat).
Proof.
  intros Hc w a w' Hcl E. apply Hc in E. unfold clean, acks. rewrite E. split; [done|]. by exists 0%nat.
Qed.

Lemma takes_gettimeofday : takes gettimeofday (fun _ n => n = 0%nat).
Proof. apply takes_same. intros w a w' E. unfold gettimeofday in E. by destruct (w_clock w); simplify_eq. Qed.
Lemma takes_sget {A} (f : world -> A) : takes (sget f) (fun _ n => n = 0%nat).
Proof. apply takes_same. intros w a w' E. unfold sget in E. by simplify_eq. Qed.
Lemma takes_sendto pkt : takes (sendto pkt) (fun _ n => n = 0%nat).
Proof. apply takes_same. intros w a w' E. unfold sendto in E. by destruct (w_send w); simplify_eq. Qed.
#[local] Hint Resolve takes_gettimeofday takes_sget takes_sendto : sends.

Lemma takes_drain_ack : takes (drain_ack 1 0) (fun v n => v = Z.of_nat n).
Proof.
  intros w a w' Hcl E. cbn [drain_ack] in E. unfold sbind, recvfrom in E. unfold clean, acks in *.
  destruct (w_recv w) as [|r rs] eqn:Er.
  - unfold sret in E. simplify_eq. rewrite Er. split; [done|]. by exists 0%nat.
  - inversion_clear Hcl as [|? ? Hr Hcl']. destruct Hr as [->|Hr].
    + unfold sret in E. simplify_eq. split; [done|]. exists 0%nat. split; [|done].
      cbn [w_recv]. by rewrite filter_cons_False by (by intros []).
    + destruct r as [| |bytes]; try done. pose proof Hr as [Hl Ha].
      rewrite Nat.min_r, Nat.eqb_refl, Ha in E by done. cbn [negb] in E. unfold sret in E.
      simplify_eq. split; [done|]. exists 1%nat. split; [|done]. cbn [w_recv].
      by rewrite filter_cons_True by done.
Qed.

Lemma takes_drain_rounds fuel to_expect acked deadline b :
  takes (drain_rounds fuel to_expect acked deadline b) (fun v n => v = acked + Z.of_nat n).
Proof.
  revert acked; induction fuel as [|fuel IH]; intros acked; cbn [drain_rounds]; [apply takes_err|].
  destruct (acked <? to_expect); [|apply takes_ret; lia].
  eapply takes_bind; [apply takes_drain_ack|]. intros v n ->.
  rewrite (proj2 (Z.ltb_ge _ _)) by lia.
  destruct (Z.eqb_spec (Z.of_nat n) 0) as [Hn|Hn]; cbn [andb].
  1: destruct (negb (acked =? 0) && negb b); [apply takes_ret; lia|].
  all: apply takes_bind_none; [eauto with sends|]; intros now;
    destruct (now >? deadline); [apply takes_ret; lia|].
  all: intros w a w' Hcl E; destruct (IH _ w a w' Hcl E) as (Hcl' & k & Hk & ->);
    (split; [done|]); exists k; (split; [done | lia]).
Qed.

Lemma takes_drain to_expect b t :
  takes (drain_ack_timeout to_expect b t) (fun v n => v = Z.of_nat n).
Proof.
  unfold drain_ack_timeout. destruct (to_expect =? 0); [by apply takes_ret|].
  do 2 (apply takes_bind_none; [eauto with sends | intros ?]). apply takes_drain_rounds.
Qed.

Lemma takes_send_rounds fuel pkt d : takes (send_rounds fuel pkt d) (fun _ n => n = 0%nat).
Proof.
  induction fuel as [|fuel IH]; cbn [send_rounds]; [apply takes_err|].
  apply takes_bind_none; [eauto with sends|]. intros [| |]; try by apply takes_ret.
  apply takes_bind_none; [eauto with sends|]. intros now. by destruct (now >? d); [apply takes_ret|].
Qed.
#[local] Hint Resolve takes_send_rounds : sends.

(** Without a wait for the window. *)
Lemma takes_send_single buf off p hflags msgid ea wl tw t :
  ea = false \/ wl <> 0 ->
  takes (send_single buf off p hflags msgid ea wl tw t)
    (fun rw n => n = 0%nat /\ (rw.1 = 0 -> rw.2 = wl - 1)).
Proof.
  intros Hw. unfold send_single.
  assert (ea && (wl =? 0) = false) as -> by (destruct Hw as [->|Hw]; [done|];
    rewrite (proj2 (Z.eqb_neq _ _) Hw); apply andb_false_r).
  do 3 (apply takes_bind_none; [eauto with sends | intros ?]).
  by destruct (_ <? 0); apply takes_ret.
Qed.

Lemma sum_insert (l : list Z) k x y :
  l !! k = Some x -> foldr Z.add 0 (<[k := y]> l) = foldr Z.add 0 l - x + y.
Proof.
  revert k; induction l as [|z l IH]; intros [|k] Hk; try done; simplify_eq/=; [lia|].
  change (foldr Z.add 0 (z :: <[k := y]> l) = z + foldr Z.add 0 l - x + y). cbn [foldr].
  rewrite (IH k) by done. lia.
Qed.

(** In the loop without acknowledgements the windows go down by one per
    packet. *)
Lemma takes_run_iters buf p msgid limit t sched st n :
  exit_flag st = false -> Forall ret_ok (rets st) -> length (windows st) = n -> length (rets st) = n ->
  Forall (fun x => x.1 <> 0 /\ (x.2 < n)%nat) sched ->
  takes (run_iters buf p msgid limit t false sched st)
    (fun st' k => k = 0%nat /\ Forall ret_ok (rets st') /\
       (foldr Z.add 0 (windows st') = foldr Z.add 0 (windows st) - Z.of_nat (length sched) \/
        -1 ∈ rets st')).
Proof.
  revert st; induction sched as [|[off tid] sched IH]; intros st He Hr Hlw Hlr Hs; cbn [run_iters].
  { apply takes_ret. split; [done|]. split; [done|]. left. cbn. lia. }
  inversion_clear Hs as [|? ? [Hoff Htid] Hs']. cbn [fst snd] in Hoff, Htid.
  rewrite He, (proj2 (Z.eqb_neq off 0)) by done.
  destruct (lookup_lt_is_Some_2 (windows st) tid) as [wl Hwl]; [lia|].
  rewrite (nth_lookup_Some _ _ _ _ Hwl).
  intros w st' w' Hcl E. unfold sbind in E.
  destruct (send_single _ _ _ _ _ _ _ _ _ w) as [[[r wl']|e] w1] eqn:Es; [|discriminate].
  destruct (takes_send_single buf off p 0 msgid false wl limit t (or_introl eq_refl) w _ w1 Hcl Es)
    as (Hcl1 & k & Hk & -> & Hw'). cbn [fst snd] in *.
  destruct (sends_send_single buf off p 0 msgid false wl limit t w _ w1 Es)
    as (l & _ & [[Hr0 _]|[Hr0 _]]); cbn [fst] in Hr0; subst r; cbn [negb Z.eqb] in E.
  - rewrite Hw' in E by done.
    destruct (IH (mk_loop_st (<[tid:=wl - 1]> (windows st)) (<[tid:=0]> (rets st)) false)
      eq_refl ltac:(apply Forall_insert; [done | by left])
      ltac:(cbn; by rewrite length_insert) ltac:(cbn; by rewrite length_insert) Hs' w1 st' w' Hcl1 E)
      as (Hcl2 & k2 & Hk2 & -> & Hok & Hsum).
    split; [done|]. exists 0%nat. split; [lia|]. split; [done|]. split; [done|].
    destruct Hsum as [Hsum|]; [left | by right]. rewrite Hsum. cbn [windows length].
    rewrite (sum_insert _ _ _ _ Hwl). lia.
  - assert (forall sched st0 w0, exit_flag st0 = true ->
      run_iters buf p msgid limit t false sched st0 w0 = (Ok st0, w0)) as Hexit.
    { intros sched0 st0 w0 He0. induction sched0 as [|[o i] sched0 IH0]; [done|]. cbn [run_iters].
      by rewrite He0. }
    rewrite Hexit in E by done. simplify_eq. split; [done|]. exists 0%nat. split; [lia|].
    split; [done|]. cbn [rets]. split; [apply Forall_insert; [done | by right]|]. right.
    apply list_elem_of_lookup. exists tid. apply list_lookup_insert_eq. lia.
Qed.

(** The last packet of a message sent without acknowledgements. *)
Lemma takes_send_last_0 buf p msgid fin (m : nat) :
  fin < Z.of_nat (length buf) ->
  takes (send_last buf p msgid fin (- Z.of_nat m) 0)
    (fun r k => r = 0 -> (0 < m)%nat /\ (m + 1 <= k)%nat).
Proof.
  intros Hfin. unfold send_last. rewrite (proj2 (Z.ltb_lt _ _) Hfin).
  intros w r w' Hcl E. unfold sbind at 1 in E.
  destruct (send_single _ _ _ _ _ _ _ _ _ w) as [[[r1 wl]|e] w1] eqn:Es; [|discriminate].
  destruct m as [|m].
  - assert (send_single buf fin p (Z.lor MKEOM MKSYN) msgid true (- Z.of_nat 0) 0 TIMEOUT w
            = (Ok (-1, 0), w)) as Es' by reflexivity.
    rewrite Es' in Es. injection Es as <- <- <-. cbn [fst snd] in E.
    assert (sbind (drain_ack_timeout (0 - 0) true FINAL_TIMEOUT)
              (fun drained => sret (if drained <? 0 - 0 then -1 else -1)) w = (Ok (-1), w)) as E'
      by reflexivity.
    rewrite E' in E. injection E as <- <-. split; [done|]. exists 0%nat. split; [done | lia].
  - assert (true = false \/ - Z.of_nat (S m) <> 0) as Hne by (right; lia).
    destruct (takes_send_single buf fin p (Z.lor MKEOM MKSYN) msgid true (- Z.of_nat (S m)) 0 TIMEOUT
      Hne w _ w1 Hcl Es) as (Hcl1 & k & Hk & -> & Hw'). cbn [fst snd] in *.
    unfold sbind in E.
    destruct (drain_ack_timeout (0 - wl) true FINAL_TIMEOUT w1) as [[v|e] w2] eqn:Ed; [|discriminate].
    destruct (takes_drain _ _ _ w1 v w2 Hcl1 Ed) as (Hcl2 & k2 & Hk2 & ->).
    unfold sret in E. simplify_eq. split; [done|]. exists k2. split; [lia|].
    intros Hr. split; [lia|]. destruct (Z.ltb_spec (Z.of_nat k2) (0 - wl)); [done|].
    specialize (Hw' Hr). lia.
Qed.

(** "window size 0: unlimited window, no ACK" does not work for messages
    of more than one packet. The receiver acknowledges the two packets that
    carry SYN; [slmp_sendmsg] then never returns success: a two-packet message
    is cut off before its last packet, and for a longer one the sender waits
    for acknowledgements of packets it did not ask to be acknowledged. *)
Theorem slmp_no_window_fails env sock msgid buf w w' :
  sock_ok sock -> wnd_sz sock = 0 -> sched_ok env (num_threads sock) ->
  packet_size sock < Z.of_nat (length buf) ->
  clean w -> (acks w <= 2)%nat ->
  slmp_sendmsg env sock msgid buf w <> (Ok 0, w').
Proof.
  intros Hs Hw0 Hsch Hsz Hcl Hacks E. pose proof (packet_size_range sock Hs) as Hp.
  destruct Hs as (Ha & Hn & _).
  enough (takes (slmp_sendmsg env sock msgid buf) (fun r k => r = 0 -> (3 <= k)%nat)) as Ht.
  { destruct (Ht w 0 w' Hcl E) as (_ & k & Hk & H3). specialize (H3 eq_refl). lia. }
  clear E. unfold slmp_sendmsg.
  destruct (sndbuf_ret env <? 0); [by apply takes_ret|].
  destruct (Z.ltb_spec (rcvbuf_ret env) 0); [apply takes_ret; lia|].
  rewrite (proj2 (Z.eqb_neq _ _)) by lia.
  eapply takes_bind; [apply takes_send_single; by right|]. intros rw k0 [-> _].
  destruct (rw.1 <? 0); [by apply takes_ret|].
  eapply takes_bind; [apply takes_drain|]. intros v k1 ->.
  destruct (Z.eqb_spec (Z.of_nat k1) 0); [by apply takes_ret|].
  destruct (mid_offsets _ _ _ _) as [[offs fin]|] eqn:Hmid; [|apply takes_err].
  apply mid_offsets_count in Hmid as [_ Hmany]; [|lia]. destruct (Hmany Hsz) as (-> & -> & Hfin).
  destruct (Hsch (mid_of (Z.of_nat (length buf)) (packet_size sock))) as [Hperm Htid].
  assert (window_limit sock = 0) as Hlim.
  { unfold window_limit. rewrite Hw0, Z.quot_div_nonneg by lia. apply Z.div_small. lia. }
  rewrite Hw0. change (0 >? 0) with false. rewrite Hlim.
  eapply takes_bind.
  { apply (takes_run_iters _ _ _ _ _ _ _ (Z.to_nat (num_threads sock))); try done.
    - by apply Forall_replicate; left.
    - cbn. by rewrite length_replicate.
    - cbn. by rewrite length_replicate.
    - apply Forall_forall. intros x Hx. rewrite Forall_forall in Htid. split; [|by apply Htid].
      assert (x.1 ∈ mid_of (Z.of_nat (length buf)) (packet_size sock)) as Hin
        by (rewrite <- Hperm; by apply list_elem_of_fmap_2).
      apply elem_of_offsets in Hin as (k & _ & ->). nia. }
  intros st k2 (-> & Hok & Hsum).
  destruct (Z.eqb_spec (foldr Z.add 0 (rets st)) 0) as [Hz|Hz]; cbn [negb]; [|by apply takes_ret].
  destruct Hsum as [Hsum|Hbad]; [|by apply sum_rets_0 in Hz].
  assert (foldr Z.add 0 (replicate (Z.to_nat (num_threads sock)) 0) = 0) as H0
    by (apply sum_rets_all0; by apply Forall_replicate).
  cbn [windows] in Hsum. rewrite H0, Z.sub_0_l in Hsum. rewrite Hsum, Z.mul_0_l.
  intros w1 r w2 Hcl1 El.
  destruct (takes_send_last_0 _ _ _ _ _ Hfin w1 r w2 Hcl1 El) as (Hcl2 & k3 & Hk3 & HQ).
  split; [done|]. exists k3. split; [done|]. intros Hr. destruct (HQ Hr). lia.
Qed.

(** ** Example runs: a message of two packets *)

Definition sock_w (wnd : Z) : slmp_sock_t := mk_slmp_sock wnd 732 0 1.
Definition env_seq : send_env := mk_send_env 0 0 (fun offs => (fun o => (o, 0%nat)) <$> offs).
Definition ack_dgram : recv_result := RcvData (slmp_hdr MKACK 1 0).
Definition msg800 : list Z := replicate 800 7.
Definition world_ok (a c : nat) : world := mk_world (replicate a ack_dgram) [] (replicate c 0) [].

Lemma env_seq_ok : sched_ok env_seq 1.
Proof.
  intros offs. cbn [env_seq schedule]. split.
  - rewrite <- list_fmap_compose. unfold compose. cbn. by rewrite list_fmap_id.
  - apply Forall_fmap, Forall_true. intros x. cbn. lia.
Qed.

Lemma sock_w_ok wnd : 0 <= wnd -> sock_ok (sock_w wnd).
Proof. intros. unfold sock_ok, sock_w, SLMP_PAYLOAD_SIZE. cbn. lia. Qed.

Lemma slmp_sendmsg_segments_witness :
  exists w', slmp_sendmsg env_seq (sock_w 2) 1 msg800 (world_ok 3 20) = (Ok 0, w') /\
    w_sent w' = [segment msg800 732 1 MKSYN 0; segment msg800 732 1 (Z.lor MKEOM MKSYN) 732].
Proof.
  eexists. split; [vm_compute; reflexivity|].
  destruct (slmp_sendmsg_segments env_seq (sock_w 2) 1 msg800 (world_ok 3 20) _ (sock_w_ok 2 ltac:(lia))
              env_seq_ok ltac:(vm_compute; reflexivity)) as (order & Ho & Hsent).
  assert (order = []) as -> by (apply Permutation_nil_r; exact Ho).
  exact Hsent.
Defined.


Lemma slmp_no_window_fails_witness :
  slmp_sendmsg env_seq (sock_w 0) 1 msg800 (world_ok 2 20) <> (Ok 0, world_ok 0 0).
Proof.
  apply (slmp_no_window_fails env_seq (sock_w 0) 1 msg800 (world_ok 2 20) (world_ok 0 0)
           (sock_w_ok 0 ltac:(lia)) eq_refl env_seq_ok).
  - by vm_compute.
  - apply Forall_replicate. right. by vm_compute.
  - vm_compute. lia.
Defined.
