(* ===== verification/Packets.v ===== *)
(** * Packet headers on the device

    Model of [sw/runtime/include/packets.h]: byte swaps, field access in the
    packed headers, and the Internet checksum. A packet in device memory is
    its list of bytes. *)

From S2P Require Import Prelude.

(** ** Byte swaps *)

Definition bswap_16 (v : Z) : Z :=
  u16 (Z.lor (Z.shiftl (Z.land v 0xff) 8) (Z.shiftr v 8)).
Definition bswap_32 (v : Z) : Z :=
  u32 (Z.lor (Z.shiftl (bswap_16 (u16 v)) 16) (bswap_16 (u16 (Z.shiftr v 16)))).

Definition htons (x : Z) : Z := bswap_16 (u16 x).
Definition ntohs (x : Z) : Z := bswap_16 (u16 x).
Definition htonl (x : Z) : Z := bswap_32 (u32 x).
Definition ntohl (x : Z) : Z := bswap_32 (u32 x).

Lemma lor_add_low a b n : 0 <= n -> 0 <= b < 2 ^ n -> Z.lor (a * 2 ^ n) b = a * 2 ^ n + b.
Proof.
  intros Hn Hb. rewrite <- Z.shiftl_mul_pow2 by done.
  assert (Z.land (Z.shiftl a n) b = 0) as H0.
  { apply Z.bits_inj'. intros k Hk. rewrite Z.land_spec, Z.bits_0, Z.shiftl_spec by done.
    destruct (Z.lt_ge_cases k n).
    - by rewrite (Z.testbit_neg_r _ (k - n)) by lia.
    - rewrite <- (Z.mod_small b (2 ^ n)), Z.mod_pow2_bits_high by lia. apply andb_false_r. }
  rewrite <- Z.lxor_lor by done. symmetry. by apply Z.add_nocarry_lxor.
Qed.

Lemma bswap_16_spec v : 0 <= v < 2 ^ 16 -> bswap_16 v = bswap16 v.
Proof.
  intros Hv. unfold bswap_16, bswap16. cbn [le_split rev app le_combine].
  change 0xff with (Z.ones 8). rewrite Z.land_ones, Z.shiftl_mul_pow2, Z.shiftr_div_pow2 by lia.
  change (2 ^ 8) with 256. pose proof (Z.mod_pos_bound v 256 ltac:(lia)).
  assert (0 <= v / 256 < 256) by (split; [apply Z.div_pos; lia | apply Z.div_lt_upper_bound; lia]).
  rewrite (lor_add_low _ _ 8), u16_id, (Z.mod_small (v / 256)) by lia. lia.
Qed.

Lemma bswap_32_spec v : 0 <= v < 2 ^ 32 -> bswap_32 v = bswap32 v.
Proof.
  intros Hv. unfold bswap_32.
  rewrite !bswap_16_spec by apply u16_range.
  rewrite Z.shiftl_mul_pow2, Z.shiftr_div_pow2 by lia.
  pose proof (bswap16_range (u16 v)). pose proof (bswap16_range (u16 (v / 2 ^ 16))).
  rewrite lor_add_low, u32_id by lia.
  unfold bswap16, bswap32. cbn [le_split rev app le_combine].
  unfold u16. change (2 ^ 16) with (256 * 256).
  rewrite <- !Z.div_div, !Z.rem_mul_r by lia.
  pose proof (Z.mod_pos_bound v 256 ltac:(lia)). pose proof (Z.mod_pos_bound (v / 256) 256 ltac:(lia)).
  rewrite !(Z.mul_comm 256 (_ mod 256)), !Z.mod_add, !Z.div_add, !Z.mod_mod by lia.
  rewrite !(Z.div_small (_ mod 256)) by (apply Z.mod_pos_bound; lia).
  rewrite !Z.add_0_l, !Z.mod_mod by lia. lia.
Qed.

Lemma ntohs_spec v : ntohs v = bswap16 (u16 v).
Proof. apply bswap_16_spec, u16_range. Qed.
Lemma htons_spec v : htons v = bswap16 (u16 v).
Proof. apply bswap_16_spec, u16_range. Qed.
Lemma ntohl_spec v : ntohl v = bswap32 (u32 v).
Proof. apply bswap_32_spec, u32_range. Qed.
Lemma htonl_spec v : htonl v = bswap32 (u32 v).
Proof. apply bswap_32_spec, u32_range. Qed.

(** ** Fields of a packet *)

Definition get16 (pkt : list Z) (off : nat) : Z := le_combine (sub_list off 2 pkt).
Definition get32 (pkt : list Z) (off : nat) : Z := le_combine (sub_list off 4 pkt).
Definition put16 (off : nat) (v : Z) (pkt : list Z) : list Z := write_bytes off (le_split 2 v) pkt.
Definition put32 (off : nat) (v : Z) (pkt : list Z) : list Z := write_bytes off (le_split 4 v) pkt.

(** ** The Internet checksum *)

(** The loop over whole words, then a last odd byte. *)
Definition checksum_add (acc word : Z) : Z :=
  let acc := u32 (acc + ntohs word) in
  if acc >? 0xffff then acc - 0xffff else acc.

Fixpoint checksum_words (data : list Z) (acc : Z) : Z :=
  match data with
  | b0 :: b1 :: data' => checksum_words data' (checksum_add acc (le_combine [b0; b1]))
  | [b0] => checksum_add acc (le_combine [b0])
  | [] => acc
  end.

Definition ip_checksum (data : list Z) : Z :=
  htons (u32 (Z.lnot (checksum_words data 0xffff))).

(** The words of the data in network order. *)
Fixpoint be_words (data : list Z) : list Z :=
  match data with
  | b0 :: b1 :: data' => 256 * b0 + b1 :: be_words data'
  | [b0] => [256 * b0]
  | [] => []
  end.

Definition sum (l : list Z) : Z := foldr Z.add 0 l.

Lemma checksum_add_spec acc w :
  1 <= acc <= 0xffff -> 0 <= w < 2 ^ 16 ->
  1 <= checksum_add acc (bswap16 w) <= 0xffff /\
  exists k, checksum_add acc (bswap16 w) = acc + w - 0xffff * k.
Proof.
  intros Ha Hw. unfold checksum_add. rewrite ntohs_spec.
  rewrite (u16_id (bswap16 w)) by apply bswap16_range. rewrite bswap16_involutive, u16_id by done.
  rewrite u32_id by lia. destruct (Z.gtb_spec (acc + w) 0xffff).
  - split; [lia|]. exists 1. lia.
  - split; [lia|]. exists 0. lia.
Qed.

Lemma le2_bswap b0 b1 : is_byte b0 -> is_byte b1 -> le_combine [b0; b1] = bswap16 (256 * b0 + b1).
Proof.
  intros H0 H1. unfold is_byte in *. unfold bswap16. cbn [le_split rev app le_combine].
  assert ((256 * b0 + b1) mod 256 = b1) as -> by (symmetry; apply (Z.mod_unique _ _ b0); lia).
  assert ((256 * b0 + b1) / 256 = b0) as -> by (symmetry; apply (Z.div_unique _ _ _ b1); lia).
  rewrite Z.mod_small by lia. lia.
Qed.

(** The accumulator is the sum of the words modulo 0xffff, never 0. *)
Lemma checksum_words_spec data acc :
  Forall is_byte data -> 1 <= acc <= 0xffff ->
  1 <= checksum_words data acc <= 0xffff /\
  exists k, checksum_words data acc = acc + sum (be_words data) - 0xffff * k.
Proof.
  revert acc. induction data as [|b0|b0 b1 data IH] using list_two_ind; intros acc HB Ha;
    cbn [checksum_words be_words sum foldr].
  - split; [done|]. exists 0. lia.
  - inversion_clear HB as [|? ? H0 _].
    assert (le_combine [b0] = bswap16 (256 * b0)) as ->.
    { rewrite <- (Z.add_0_r (256 * b0)), <- le2_bswap by (done || unfold is_byte; lia). simpl. lia. }
    unfold is_byte in H0. destruct (checksum_add_spec acc (256 * b0)) as [Hr [k Hk]]; [lia | lia |].
    split; [done|]. exists k. lia.
  - inversion_clear HB as [|? ? H0 HB1]. inversion_clear HB1 as [|? ? H1 HB2].
    rewrite le2_bswap by done. unfold is_byte in *.
    destruct (checksum_add_spec acc (256 * b0 + b1)) as [Hr [k Hk]]; [lia | lia |].
    destruct (IH _ HB2 Hr) as [Hr2 [k2 Hk2]]. split; [done|]. exists (k + k2).
    rewrite Hk2, Hk. unfold sum. lia.
Qed.

Lemma ip_checksum_value data :
  Forall is_byte data ->
  exists v k, ip_checksum data = bswap16 v /\ 0 <= v <= 0xfffe /\
              v = 0xffff * k - sum (be_words data).
Proof.
  intros HB. destruct (checksum_words_spec data 0xffff HB) as [Hr [k Hk]]; [lia|].
  set (acc := checksum_words data 0xffff) in *.
  exists (0xffff - acc), k. split; [|lia].
  unfold ip_checksum. fold acc. rewrite htons_spec. f_equal.
  unfold u32, u16, Z.lnot. rewrite <- Znumtheory.Zmod_div_mod by (lia || by exists (2 ^ 16)).
  rewrite <- (Z.mod_add _ 1) by lia. rewrite Z.mod_small; lia.
Qed.

Lemma be_words_app l1 l2 :
  Nat.Even (length l1) -> be_words (l1 ++ l2) = be_words l1 ++ be_words l2.
Proof.
  induction l1 as [|x|x y l1 IH] using list_two_ind; intros He; [done | |].
  - destruct He as [n Hn]. simpl in Hn. lia.
  - cbn [app be_words]. f_equal. apply IH. destruct He as [n Hn]. exists (n - 1)%nat. simpl in Hn. lia.
Qed.

Lemma sum_app l1 l2 : sum (l1 ++ l2) = sum l1 + sum l2.
Proof. induction l1 as [|x l1 IH]; [done|]. unfold sum in *. cbn [app foldr]. lia. Qed.

(** Filling in the checksum makes the sum of the words a multiple of 0xffff. *)
Lemma ip_checksum_fill pre post :
  Forall is_byte pre -> Forall is_byte post -> Nat.Even (length pre) ->
  ip_checksum (pre ++ le_split 2 (ip_checksum (pre ++ [0; 0] ++ post)) ++ post) = 0.
Proof.
  intros Hpre Hpost Heven.
  assert (Forall is_byte [0; 0]) as H00 by (repeat constructor; unfold is_byte; lia).
  destruct (ip_checksum_value (pre ++ [0; 0] ++ post)) as (v & k & Hv & Hr & Hk).
  { by repeat apply Forall_app_2. }
  rewrite Hv. set (b := le_split 2 (bswap16 v)).
  assert (b = [v / 256; v mod 256]) as Hb.
  { unfold b, bswap16. rewrite le_split_bswap. cbn [le_split rev app].
    rewrite (Z.mod_small (v / 256)); [done|].
    split; [apply Z.div_pos; lia | apply Z.div_lt_upper_bound; lia]. }
  destruct (ip_checksum_value (pre ++ b ++ post)) as (v' & k' & Hv' & Hr' & Hk').
  { apply Forall_app_2; [done|]. apply Forall_app_2; [apply le_split_bytes | done]. }
  rewrite Hv'. assert (v' = 0) as ->; [|done].
  rewrite be_words_app, sum_app in Hk, Hk' by done. rewrite Hb in Hk'.
  cbn [app be_words] in Hk, Hk'. unfold sum in *. cbn [foldr] in Hk, Hk'.
  pose proof (Z.div_mod v 256 ltac:(lia)). lia.
Qed.

(** The Internet checksum verifies. Writing the checksum of a header,
    computed with its checksum field cleared, into that field gives a header
    whose own checksum is 0, which is what a receiver checks. *)
Theorem ip_checksum_verifies pre post :
  Forall is_byte pre -> Forall is_byte post -> Nat.Even (length pre) ->
  ip_checksum (pre ++ le_split 2 (ip_checksum (pre ++ [0; 0] ++ post)) ++ post) = 0.
Proof. apply ip_checksum_fill. Qed.

Lemma ip_checksum_verifies_witness :
  ip_checksum ([0x45; 0; 0; 38; 0; 1; 0; 0; 64; 17] ++
    le_split 2 (ip_checksum ([0x45; 0; 0; 38; 0; 1; 0; 0; 64; 17] ++ [0; 0] ++ [10; 0; 0; 1; 10; 0; 0; 2]))
    ++ [10; 0; 0; 1; 10; 0; 0; 2]) = 0.
Proof.
  apply (ip_checksum_verifies [0x45; 0; 0; 38; 0; 1; 0; 0; 64; 17] [10; 0; 0; 1; 10; 0; 0; 2]).
  - repeat constructor; unfold is_byte; lia.
  - repeat constructor; unfold is_byte; lia.
  - by exists 5%nat.
Defined.
