(* ===== verification/SlmpHandlers.v ===== *)
(** * The SLMP receiver

    Model of the handlers of [examples/slmp/handlers/slmp.c], which run on the
    device for the packets of a message: the payload handler copies the
    payload to its place in host memory and acknowledges, the tail handler
    reports the length of the message. The end-to-end theorem connects them
    with the sender of [lib/fpspin/slmp.c]. *)

From S2P Require Import Prelude Packets Slmp.

(** ** Layout of [slmp_pkt_hdr_t] *)

Definition ETH_HDR : nat := 14.
Definition IP_HDR : nat := 20.
Definition UDP_HDR : nat := 8.
Definition OFF_IP : nat := 14.
Definition OFF_IP_LEN : nat := 16.
Definition OFF_IP_CSUM : nat := 24.
Definition OFF_IP_SRC : nat := 26.
Definition OFF_IP_DST : nat := 30.
Definition OFF_UDP_SRC : nat := 34.
Definition OFF_UDP_DST : nat := 36.
Definition OFF_UDP_LEN : nat := 38.
Definition OFF_UDP_CSUM : nat := 40.
Definition OFF_FLAGS : nat := 42.
Definition OFF_MSG_ID : nat := 44.
Definition OFF_PKT_OFF : nat := 48.
Definition SLMP_PKT_HDR : nat := 52.

(** [SLMP_PAYLOAD_LEN]: 32-bit [size_t] arithmetic. *)
Definition SLMP_PAYLOAD_LEN (pkt : list Z) : Z := u32 (ntohs (get16 pkt OFF_UDP_LEN) - 8 - 10).

(** [SWAP] of two fields of [n] bytes. *)
Definition swap_fields (n a b : nat) (pkt : list Z) : list Z :=
  let tmp := sub_list a n pkt in
  write_bytes b tmp (write_bytes a (sub_list b n pkt) pkt).

Definition prepare_hdrs_ack (flags : Z) (hdrs : list Z) : list Z :=
  let h1 := swap_fields 2 OFF_UDP_DST OFF_UDP_SRC hdrs in
  let h2 := swap_fields 4 OFF_IP_DST OFF_IP_SRC h1 in
  let h3 := swap_fields 6 0 6 h2 in
  let h4 := put16 OFF_IP_LEN (htons (20 + 8 + 10)) h3 in
  let h5 := put16 OFF_IP_CSUM 0 h4 in
  let h6 := put16 OFF_IP_CSUM (ip_checksum (sub_list OFF_IP IP_HDR h5)) h5 in
  let h7 := put16 OFF_UDP_LEN (htons (10 + 8)) h6 in
  let h8 := put16 OFF_UDP_CSUM 0 h7 in
  put16 OFF_FLAGS (htons flags) h8.

(** ** The handlers

    What a handler does to the outside: host memory (bytes by bus address),
    the frames sent, and the requests to the host (length). *)
Record nic := mk_nic {
  host_mem : Z -> Z;
  tx : list (list Z);
  host_reqs : list Z;
}.

(** The task's part of [handler_args_t]. *)
Record task := mk_task {
  host_addr : Z;
  pkt_mem : list Z;
}.

Definition CORE_COUNT : Z := 16.
Definition PAGE_SIZE : Z := 4096.

(** [spin_dma_to_host]: the bytes [data] to [addr] (64-bit addresses). *)
Definition dma_to_host (addr : Z) (data : list Z) (m : Z -> Z) : Z -> Z :=
  fun x => if (addr <=? x) && (x <? addr + Z.of_nat (length data))
           then nth (Z.to_nat (x - addr)) data 0 else m x.

(** [send_ack]: the headers are rewritten in place and sent. *)
Definition send_ack (hdrs : list Z) (n : nic) : nic :=
  let h := prepare_hdrs_ack MKACK hdrs in
  mk_nic (host_mem n) (tx n ++ [take SLMP_PKT_HDR h]) (host_reqs n).

(** The head handler only checks; it returns whether it found an error. *)
Definition slmp_hh (t : task) : bool :=
  let pkt_off := ntohl (get32 (pkt_mem t) OFF_PKT_OFF) in
  let flags := ntohs (get16 (pkt_mem t) OFF_FLAGS) in
  if negb (pkt_off =? 0) then true
  else if negb (SYN flags) then true
  else false.

Definition host_start_addr (t : task) : Z := u64 (host_addr t + CORE_COUNT * PAGE_SIZE).

Definition slmp_ph (t : task) (n : nic) : nic :=
  let pkt := pkt_mem t in
  let pkt_off := ntohl (get32 pkt OFF_PKT_OFF) in
  let flags := ntohs (get16 pkt OFF_FLAGS) in
  let payload := sub_list SLMP_PKT_HDR (Z.to_nat (SLMP_PAYLOAD_LEN pkt)) pkt in
  let n1 := mk_nic (dma_to_host (u64 (host_start_addr t + pkt_off)) payload (host_mem n))
              (tx n) (host_reqs n) in
  if SYN flags then send_ack pkt n1 else n1.

(** The tail handler; [fpspin_host_req] is modelled with the host interface. *)
Definition slmp_th (t : task) (n : nic) : nic :=
  let pkt := pkt_mem t in
  let pkt_off := ntohl (get32 pkt OFF_PKT_OFF) in
  let flags := ntohs (get16 pkt OFF_FLAGS) in
  if negb (EOM flags) then n
  else mk_nic (host_mem n) (tx n) (host_reqs n ++ [u32 (pkt_off + SLMP_PAYLOAD_LEN pkt)]).

(** ** Frames on the wire *)

(** A frame that carries the datagram [dg]: headers of the given lengths, the
    UDP length and the payload in place (the host's network stack fills in
    the rest). *)
Record frame_of (frame dg : list Z) : Prop := {
  fr_bytes : Forall is_byte frame;
  fr_len : (42 + length dg <= length frame)%nat;
  fr_short : Z.of_nat (length dg) < 2 ^ 16 - 8;
  fr_udp : sub_list OFF_UDP_LEN 2 frame = le_split 2 (bswap16 (8 + Z.of_nat (length dg)));
  fr_data : sub_list OFF_FLAGS (length dg) frame = dg;
}.

Lemma sub_list_sub {A} a b n m (l : list A) :
  (b + m <= n)%nat -> sub_list b m (sub_list a n l) = sub_list (a + b) m l.
Proof.
  intros Hb. unfold sub_list. rewrite skipn_firstn_comm, take_take, drop_drop.
  rewrite Nat.min_l by lia. done.
Qed.

Section Frame.
Context (frame : list Z) (flags msgid off : Z) (payload : list Z).
Hypothesis Hframe : frame_of frame (slmp_hdr flags msgid off ++ payload).
Hypothesis Hflags : 0 <= flags < 2 ^ 16.
Hypothesis Hoff : 0 <= off < 2 ^ 32.

Lemma slmp_hdr_length : length (slmp_hdr flags msgid off) = 10%nat.
Proof. unfold slmp_hdr. by rewrite !length_app, !length_le_split. Qed.

Lemma frame_sub b m :
  (b + m <= 10 + length payload)%nat ->
  sub_list (OFF_FLAGS + b) m frame = sub_list b m (slmp_hdr flags msgid off ++ payload).
Proof.
  intros Hb. rewrite <- (fr_data _ _ Hframe).
  rewrite sub_list_sub; [done|]. rewrite length_app, slmp_hdr_length. lia.
Qed.

Lemma frame_flags : ntohs (get16 frame OFF_FLAGS) = flags.
Proof.
  unfold get16. rewrite <- (Nat.add_0_r OFF_FLAGS), frame_sub by lia.
  unfold sub_list, slmp_hdr. rewrite drop_0, <- app_assoc, take_app_length'
    by (by rewrite length_le_split).
  rewrite le_combine_split_id by apply bswap16_range.
  rewrite ntohs_spec, u16_id by apply bswap16_range. rewrite bswap16_involutive. by apply u16_id.
Qed.

Lemma frame_off : ntohl (get32 frame OFF_PKT_OFF) = off.
Proof.
  unfold get32. change OFF_PKT_OFF with (OFF_FLAGS + 6)%nat. rewrite frame_sub by lia.
  unfold sub_list, slmp_hdr. rewrite <- !app_assoc, (app_assoc (le_split 2 _)).
  rewrite drop_app_length' by (by rewrite length_app, !length_le_split).
  rewrite take_app_length' by (by rewrite length_le_split).
  rewrite le_combine_split_id by apply bswap32_range.
  rewrite ntohl_spec, u32_id by apply bswap32_range. rewrite bswap32_involutive. by apply u32_id.
Qed.

Lemma frame_payload_len : SLMP_PAYLOAD_LEN frame = Z.of_nat (length payload).
Proof.
  pose proof (fr_short _ _ Hframe) as Hs. rewrite length_app, slmp_hdr_length in Hs.
  unfold SLMP_PAYLOAD_LEN, get16. rewrite (fr_udp _ _ Hframe), length_app, slmp_hdr_length.
  rewrite le_combine_split_id by apply bswap16_range.
  rewrite ntohs_spec, (u16_id (bswap16 _)) by apply bswap16_range.
  rewrite bswap16_involutive, u16_id, u32_id by lia. lia.
Qed.

Lemma frame_payload :
  sub_list SLMP_PKT_HDR (Z.to_nat (SLMP_PAYLOAD_LEN frame)) frame = payload.
Proof.
  rewrite frame_payload_len, Nat2Z.id.
  change SLMP_PKT_HDR with (OFF_FLAGS + 10)%nat. rewrite frame_sub by lia.
  unfold sub_list. rewrite drop_app_length' by apply slmp_hdr_length. by apply take_ge.
Qed.

(** The payload handler on a frame. *)
Lemma slmp_ph_frame haddr n :
  0 <= haddr -> haddr + CORE_COUNT * PAGE_SIZE + off < 2 ^ 64 ->
  host_mem (slmp_ph (mk_task haddr frame) n)
  = dma_to_host (haddr + CORE_COUNT * PAGE_SIZE + off) payload (host_mem n) /\
  tx (slmp_ph (mk_task haddr frame) n)
  = tx n ++ (if SYN flags then [take SLMP_PKT_HDR (prepare_hdrs_ack MKACK frame)] else []).
Proof.
  intros Hh Hh'. unfold slmp_ph, host_start_addr. cbn [pkt_mem host_addr].
  rewrite frame_off, frame_flags, frame_payload.
  unfold CORE_COUNT, PAGE_SIZE in *. rewrite (u64_id (haddr + _)), u64_id by lia.
  destruct (SYN flags); unfold send_ack; cbn [host_mem tx]; (split; [reflexivity|]);
    [reflexivity | by rewrite app_nil_r].
Qed.
End Frame.

(** ** Delivery of a message *)

Lemma num_packets_bounds p sz :
  0 < p -> p < sz -> (num_packets sz p - 1) * p < sz <= num_packets sz p * p.
Proof.
  intros Hp Hps. unfold num_packets.
  pose proof (Z.div_mod (sz + p - 1) p ltac:(lia)). pose proof (Z.mod_pos_bound (sz + p - 1) p ltac:(lia)).
  nia.
Qed.

Section Delivery.
Context (buf : list Z) (p msgid haddr : Z).
Hypothesis Hp : 0 < p.
Hypothesis Hsz : Z.of_nat (length buf) < 2 ^ 32.
Hypothesis Hhost : 0 <= haddr /\ haddr + CORE_COUNT * PAGE_SIZE + 2 ^ 32 <= 2 ^ 64.

Definition base : Z := haddr + CORE_COUNT * PAGE_SIZE.

(** The packet at [off] carries byte [k] of the message. *)
Definition covers (off k : Z) : bool :=
  (off <=? k) && (k <? off + Z.min p (Z.of_nat (length buf) - off)).

(** The frame carries the segment at [off], whatever its flags. *)
Definition seg_frame (frame : list Z) (off : Z) : Prop :=
  0 <= off <= Z.of_nat (length buf) /\
  exists flags, 0 <= flags < 2 ^ 16 /\ frame_of frame (segment buf p msgid flags off).

Lemma slmp_ph_segment frame off n x :
  seg_frame frame off ->
  host_mem (slmp_ph (mk_task haddr frame) n) x
  = if covers off (x - base) then nth (Z.to_nat (x - base)) buf 0 else host_mem n x.
Proof.
  intros (Ho & flags & Hfl & Hf). unfold segment in Hf. rewrite (u32_id off) in Hf by lia.
  destruct (slmp_ph_frame frame flags (u32 msgid) off _ Hf Hfl ltac:(lia) haddr n) as [-> _]; [lia | lia |].
  unfold dma_to_host, covers, base.
  rewrite length_sub_list by lia.
  rewrite Z2Nat.id by lia. set (b := haddr + CORE_COUNT * PAGE_SIZE) in *.
  destruct (Z.leb_spec (b + off) x), (Z.ltb_spec x (b + off + Z.min p (Z.of_nat (length buf) - off))),
    (Z.leb_spec off (x - b)), (Z.ltb_spec (x - b) (off + Z.min p (Z.of_nat (length buf) - off)));
    cbn [andb]; try done; try (exfalso; lia).
  unfold sub_list. rewrite !nth_lookup, lookup_take, decide_True, lookup_drop by lia.
  do 2 f_equal. lia.
Qed.

Definition ph_all (frames : list (list Z)) (n : nic) : nic :=
  foldl (fun n f => slmp_ph (mk_task haddr f) n) n frames.

(** Whatever the order, and with any repetition: the bytes some packet
    carries are those of the message, all others are untouched. *)
Lemma ph_all_mem frames offs n x :
  Forall2 seg_frame frames offs ->
  host_mem (ph_all frames n) x
  = if existsb (fun off => covers off (x - base)) offs then nth (Z.to_nat (x - base)) buf 0
    else host_mem n x.
Proof.
  intros HF. revert n. induction HF as [|f off frames offs Hf _ IH]; intros n; [done|].
  cbn [ph_all foldl existsb]. unfold ph_all in IH. rewrite IH, (slmp_ph_segment f off n x Hf).
  by destruct (covers off (x - base)), (existsb _ offs).
Qed.

(** The offsets of the packets of a message, and that they cover it. *)
Definition message_offsets (order : list Z) : list Z :=
  let sz := Z.of_nat (length buf) in
  if sz <=? p then [0] else 0 :: order ++ [(num_packets sz p - 1) * p].

Lemma message_covered order k :
  order ≡ₚ (if Z.of_nat (length buf) <=? p then [] else mid_of (Z.of_nat (length buf)) p) ->
  0 <= k < Z.of_nat (length buf) ->
  exists off, off ∈ message_offsets order /\ covers off k = true.
Proof.
  intros Ho Hk. unfold message_offsets, covers. set (sz := Z.of_nat (length buf)) in *.
  destruct (Z.leb_spec sz p).
  - exists 0. split; [by left | lia].
  - pose proof (num_packets_bounds p sz Hp ltac:(lia)) as Hn.
    pose proof (Z.div_mod k p ltac:(lia)). pose proof (Z.mod_pos_bound k p ltac:(lia)).
    assert (0 <= k / p) by (apply Z.div_pos; lia).
    assert (k / p <= num_packets sz p - 1) by (apply Z.lt_succ_r, Z.div_lt_upper_bound; nia).
    exists (k / p * p). split.
    + rewrite elem_of_cons, elem_of_app, list_elem_of_singleton.
      destruct (Z.eq_dec (k / p) 0) as [E|E]; [left; by rewrite E|]. right.
      destruct (Z.eq_dec (k / p) (num_packets sz p - 1)) as [E2|E2]; [right; by rewrite E2|]. left.
      rewrite Ho. unfold mid_of. apply elem_of_offsets. exists (Z.to_nat (k / p - 1)). nia.
    + apply andb_true_iff. rewrite Z.leb_le, Z.ltb_lt. nia.
Qed.

Lemma message_offsets_range order off :
  order ≡ₚ (if Z.of_nat (length buf) <=? p then [] else mid_of (Z.of_nat (length buf)) p) ->
  off ∈ message_offsets order -> 0 <= off <= Z.of_nat (length buf).
Proof.
  intros Ho. unfold message_offsets. set (sz := Z.of_nat (length buf)) in *.
  destruct (Z.leb_spec sz p).
  - intros ->%list_elem_of_singleton. lia.
  - pose proof (num_packets_bounds p sz Hp ltac:(lia)) as Hn.
    rewrite elem_of_cons, elem_of_app, list_elem_of_singleton, Ho.
    intros [->|[Hin| ->]]; [lia | | nia].
    unfold mid_of in Hin. apply elem_of_offsets in Hin as (j & Hj & ->). nia.
Qed.

(** The packets of a message carry the segments of its offsets. *)
Lemma message_packets_offsets ack order :
  order ≡ₚ (if Z.of_nat (length buf) <=? p then [] else mid_of (Z.of_nat (length buf)) p) ->
  Forall2 (fun dg off => exists flags, 0 <= flags < 2 ^ 16 /\ dg = segment buf p msgid flags off)
    (message_packets buf p msgid ack order) (message_offsets order).
Proof.
  intros _. unfold message_packets, message_offsets.
  assert (forall fl off, fl ∈ [Z.lor MKSYN MKEOM; MKSYN; 0; Z.lor MKEOM MKSYN] ->
    exists flags, 0 <= flags < 2 ^ 16 /\ segment buf p msgid fl off = segment buf p msgid flags off) as Hfl.
  { intros fl off Hin. exists fl. split; [|done].
    rewrite !elem_of_cons in Hin.
    destruct Hin as [->|[->|[->|[->|[]%not_elem_of_nil]]]]; split; by vm_compute. }
  destruct (_ <=? p).
  - constructor; [|done]. apply Hfl. set_solver.
  - cbn [app]. constructor; [apply Hfl; set_solver|]. apply Forall2_app.
    + induction order as [|o order IH]; [done|]. constructor; [|done].
      apply Hfl. unfold mid_flags. destruct ack; set_solver.
    + constructor; [|done]. apply Hfl. set_solver.
Qed.

(** Frames for the packets in any order are frames for the offsets in some
    order. *)
Lemma frames_segments frames dgs ack order :
  order ≡ₚ (if Z.of_nat (length buf) <=? p then [] else mid_of (Z.of_nat (length buf)) p) ->
  dgs ≡ₚ message_packets buf p msgid ack order -> Forall2 frame_of frames dgs ->
  exists offs, offs ≡ₚ message_offsets order /\ Forall2 seg_frame frames offs.
Proof.
  intros Ho Hd HF. pose proof (message_packets_offsets ack order Ho) as HP.
  symmetry in Hd. destruct (Permutation_Forall2 Hd HP) as (offs & Hoffs & HP2).
  exists offs. split; [by symmetry|].
  assert (Forall (fun off => 0 <= off <= Z.of_nat (length buf)) offs) as Hr.
  { apply Forall_forall. intros off Hin. apply (message_offsets_range order); [done|].
    by rewrite Hoffs. }
  clear Hd HP Hoffs. revert offs HP2 Hr.
  induction HF as [|f dg frames dgs Hf _ IH]; intros offs HP2 Hr.
  - inversion HP2; subst. constructor.
  - inversion HP2 as [|? off ? offs' (flags & Hfl & ->) HP3]; subst.
    inversion_clear Hr as [|? ? Hr1 Hr2]. constructor; [|by apply IH].
    split; [done|]. by exists flags.
Qed.
End Delivery.

(** C1: a message arrives whole. When [slmp_sendmsg] reports success, and the
    datagrams it sent reach the device as frames in any order, running the
    payload handler on them leaves the message in host memory, byte for byte,
    from the page after the flag pages on, and changes no other byte of host
    memory. *)
Theorem slmp_message_delivered env sock msgid buf w w' frames dgs haddr n :
  sock_ok sock -> sched_ok env (num_threads sock) -> Z.of_nat (length buf) < 2 ^ 32 ->
  w_sent w = [] -> slmp_sendmsg env sock msgid buf w = (Ok 0, w') ->
  0 <= haddr -> haddr + CORE_COUNT * PAGE_SIZE + 2 ^ 32 <= 2 ^ 64 ->
  dgs ≡ₚ w_sent w' -> Forall2 frame_of frames dgs ->
  let n' := ph_all haddr frames n in
  (forall k, 0 <= k < Z.of_nat (length buf) ->
     host_mem n' (haddr + CORE_COUNT * PAGE_SIZE + k) = nth (Z.to_nat k) buf 0) /\
  (forall x, x < haddr + CORE_COUNT * PAGE_SIZE \/
             haddr + CORE_COUNT * PAGE_SIZE + Z.of_nat (length buf) <= x ->
     host_mem n' x = host_mem n x).
Proof.
  intros Hs Hsch Hsz Hw E Hh Hh' Hd HF n'.
  pose proof (packet_size_range sock Hs) as [Hp _].
  destruct (sends_sendmsg env sock msgid buf Hs Hsch w 0 w' E) as (l & Hl & HQ).
  destruct (HQ eq_refl) as (order & Ho & ->). rewrite Hw in Hl. cbn [app] in Hl. rewrite Hl in Hd.
  assert (exists offs, offs ≡ₚ message_offsets buf (packet_size sock) order /\
    Forall2 (seg_frame buf (packet_size sock) msgid) frames offs) as (offs & Hoffs & HS)
    by (eapply frames_segments; eauto).
  assert (forall x, host_mem n' x = if existsb (fun off => covers buf (packet_size sock) off (x - base haddr)) offs
    then nth (Z.to_nat (x - base haddr)) buf 0 else host_mem n x) as Hmem
    by (intros x; eapply ph_all_mem; eauto).
  unfold base in Hmem. split.
  - intros k Hk. rewrite Hmem.
    replace (haddr + CORE_COUNT * PAGE_SIZE + k - (haddr + CORE_COUNT * PAGE_SIZE)) with k by lia.
    assert (exists off, off ∈ message_offsets buf (packet_size sock) order /\
      covers buf (packet_size sock) off k = true) as (off & Hin & Hc)
      by (eapply message_covered; eauto).
    assert (existsb (fun off => covers buf (packet_size sock) off k) offs = true) as ->; [|done].
    apply existsb_exists. exists off. split; [|done]. apply list_elem_of_In. by rewrite Hoffs.
  - intros x Hx. rewrite Hmem.
    assert (existsb (fun off => covers buf (packet_size sock) off
              (x - (haddr + CORE_COUNT * PAGE_SIZE))) offs = false) as ->; [|done].
    apply not_true_iff_false. rewrite existsb_exists. intros (off & Hin & Hc).
    apply list_elem_of_In in Hin. rewrite Hoffs in Hin.
    assert (0 <= off <= Z.of_nat (length buf)) by (eapply message_offsets_range; eauto).
    unfold covers in Hc. apply andb_true_iff in Hc as [Hc1%Z.leb_le Hc2%Z.ltb_lt]. lia.
Qed.

(** ** Acknowledgements *)

(** The fields of a frame, as pieces of the byte string. *)
Record frame_fields := mk_fields {
  f_mac_dst : list Z; f_mac_src : list Z; f_ethertype : list Z;
  f_ip_a : list Z; f_ip_len : list Z; f_ip_b : list Z; f_ip_csum : list Z;
  f_ip_src : list Z; f_ip_dst : list Z;
  f_udp_src : list Z; f_udp_dst : list Z; f_udp_len : list Z; f_udp_csum : list Z;
  f_flags : list Z; f_rest : list Z;
}.

Definition bytes_of (f : frame_fields) : list Z :=
  f_mac_dst f ++ f_mac_src f ++ f_ethertype f ++ f_ip_a f ++ f_ip_len f ++ f_ip_b f ++ f_ip_csum f
  ++ f_ip_src f ++ f_ip_dst f ++ f_udp_src f ++ f_udp_dst f ++ f_udp_len f ++ f_udp_csum f
  ++ f_flags f ++ f_rest f.

Definition fields_wf (f : frame_fields) : Prop :=
  length (f_mac_dst f) = 6%nat /\ length (f_mac_src f) = 6%nat /\ length (f_ethertype f) = 2%nat /\
  length (f_ip_a f) = 2%nat /\ length (f_ip_len f) = 2%nat /\ length (f_ip_b f) = 6%nat /\
  length (f_ip_csum f) = 2%nat /\ length (f_ip_src f) = 4%nat /\ length (f_ip_dst f) = 4%nat /\
  length (f_udp_src f) = 2%nat /\ length (f_udp_dst f) = 2%nat /\ length (f_udp_len f) = 2%nat /\
  length (f_udp_csum f) = 2%nat /\ length (f_flags f) = 2%nat.

(** The acknowledgement: addresses and ports swapped, lengths and flags set,
    the IP checksum of the new header. *)
Definition ack_fields (f : frame_fields) (csum : Z) : frame_fields :=
  mk_fields (f_mac_src f) (f_mac_dst f) (f_ethertype f) (f_ip_a f) (le_split 2 (bswap16 38)) (f_ip_b f)
    (le_split 2 csum) (f_ip_dst f) (f_ip_src f) (f_udp_dst f) (f_udp_src f)
    (le_split 2 (bswap16 18)) [0; 0] (le_split 2 (bswap16 MKACK)) (f_rest f).

Definition ip_header (f : frame_fields) : list Z :=
  f_ip_a f ++ f_ip_len f ++ f_ip_b f ++ f_ip_csum f ++ f_ip_src f ++ f_ip_dst f.

Lemma htons_ack_lengths : htons (20 + 8 + 10) = bswap16 38 /\ htons (10 + 8) = bswap16 18 /\ htons MKACK = bswap16 MKACK.
Proof. by vm_compute. Qed.

Ltac explode l n :=
  match n with
  | O => destruct l as [|? ?]; [|discriminate]
  | S ?n' => destruct l as [|? l]; [discriminate|]; explode l n'
  end.

Lemma prepare_hdrs_ack_fields f :
  fields_wf f ->
  prepare_hdrs_ack MKACK (bytes_of f)
  = bytes_of (ack_fields f (ip_checksum (ip_header (ack_fields f 0)))).
Proof.
  destruct f as [md ms et ia il ib ic is_ id_ us ud ul uc fl rest].
  intros (H1 & H2 & H3 & H4 & H5 & H6 & H7 & H8 & H9 & H10 & H11 & H12 & H13 & H14).
  cbn [f_mac_dst f_mac_src f_ethertype f_ip_a f_ip_len f_ip_b f_ip_csum f_ip_src f_ip_dst f_udp_src
       f_udp_dst f_udp_len f_udp_csum f_flags] in *.
  explode md 6%nat. explode ms 6%nat. explode et 2%nat. explode ia 2%nat. explode il 2%nat.
  explode ib 6%nat. explode ic 2%nat. explode is_ 4%nat. explode id_ 4%nat. explode us 2%nat.
  explode ud 2%nat. explode ul 2%nat. explode uc 2%nat. explode fl 2%nat.
  unfold prepare_hdrs_ack. destruct htons_ack_lengths as (-> & -> & ->). reflexivity.
Qed.

Definition set_rest (r : list Z) (f : frame_fields) : frame_fields :=
  mk_fields (f_mac_dst f) (f_mac_src f) (f_ethertype f) (f_ip_a f) (f_ip_len f) (f_ip_b f) (f_ip_csum f)
    (f_ip_src f) (f_ip_dst f) (f_udp_src f) (f_udp_dst f) (f_udp_len f) (f_udp_csum f) (f_flags f) r.

Lemma bytes_of_take f r :
  fields_wf f -> take SLMP_PKT_HDR (bytes_of (set_rest r f)) = bytes_of (set_rest (take 8 r) f) /\
  drop 42 (bytes_of (set_rest r f)) = f_flags f ++ r.
Proof.
  destruct f as [md ms et ia il ib ic is_ id_ us ud ul uc fl rest].
  intros (H1 & H2 & H3 & H4 & H5 & H6 & H7 & H8 & H9 & H10 & H11 & H12 & H13 & H14).
  cbn [f_mac_dst f_mac_src f_ethertype f_ip_a f_ip_len f_ip_b f_ip_csum f_ip_src f_ip_dst f_udp_src
       f_udp_dst f_udp_len f_udp_csum f_flags] in *.
  explode md 6%nat. explode ms 6%nat. explode et 2%nat. explode ia 2%nat. explode il 2%nat.
  explode ib 6%nat. explode ic 2%nat. explode is_ 4%nat. explode id_ 4%nat. explode us 2%nat.
  explode ud 2%nat. explode ul 2%nat. explode uc 2%nat. explode fl 2%nat.
  split; reflexivity.
Qed.

Lemma ack_fields_wf f csum : fields_wf f -> fields_wf (ack_fields f csum).
Proof.
  intros (H1 & H2 & H3 & H4 & H5 & H6 & H7 & H8 & H9 & H10 & H11 & H12 & H13 & H14).
  by repeat split.
Qed.

(** C30: the acknowledgement. For a packet with complete headers, the frame
    sent back is the 52 bytes of headers with the MAC and IP addresses and
    the ports exchanged, the lengths of an empty SLMP packet, a valid IP
    checksum, the ACK flag, and the message number and offset of the packet;
    and the sender's [drain_ack] counts its payload as an acknowledgement. *)
Theorem ack_frame_correct f n :
  fields_wf f -> Forall is_byte (bytes_of f) -> (8 <= length (f_rest f))%nat ->
  exists csum ack,
    tx (send_ack (bytes_of f) n) = tx n ++ [ack] /\
    ack = bytes_of (set_rest (take 8 (f_rest f)) (ack_fields f csum)) /\
    ip_checksum (ip_header (ack_fields f csum)) = 0 /\
    is_ack (RcvData (drop 42 ack)).
Proof.
  intros Hwf HB Hr. set (csum := ip_checksum (ip_header (ack_fields f 0))).
  exists csum, (take SLMP_PKT_HDR (prepare_hdrs_ack MKACK (bytes_of f))).
  rewrite prepare_hdrs_ack_fields by done. fold csum.
  assert (ack_fields f csum = set_rest (f_rest f) (ack_fields f csum)) as E by (by destruct f).
  pose proof (ack_fields_wf f csum Hwf) as Hwf'.
  destruct (bytes_of_take (ack_fields f csum) (f_rest f) Hwf') as [Ht _]. rewrite <- E in Ht.
  rewrite Ht. destruct (bytes_of_take (ack_fields f csum) (take 8 (f_rest f)) Hwf') as [_ Hd].
  rewrite Hd. split_and!; [| done | |].
  - unfold send_ack. cbn [tx]. rewrite prepare_hdrs_ack_fields by done. fold csum. by rewrite Ht.
  - unfold csum, ip_header, ack_fields.
    cbn [f_ip_a f_ip_len f_ip_b f_ip_csum f_ip_src f_ip_dst].
    unfold bytes_of in HB. rewrite !Forall_app in HB.
    rewrite !app_assoc. rewrite <- (app_assoc _ (f_ip_dst f)), <- (app_assoc _ (le_split 2 _)).
    rewrite <- (app_assoc _ (f_ip_dst f) (f_ip_src f)).
    rewrite <- (app_assoc _ (le_split 2 0) (f_ip_dst f ++ f_ip_src f)).
    change (le_split 2 0) with [0; 0].
    apply (ip_checksum_fill ((f_ip_a f ++ le_split 2 (bswap16 38)) ++ f_ip_b f) (f_ip_dst f ++ f_ip_src f)).
    + repeat apply Forall_app_2; try apply le_split_bytes; tauto.
    + apply Forall_app_2; tauto.
    + exists 5%nat. rewrite !length_app, length_le_split. unfold fields_wf in Hwf. lia.
  - cbn [is_ack ack_fields f_flags]. split.
    + rewrite length_app, length_le_split, length_take. unfold SLMP_HDR_LEN. lia.
    + rewrite take_app_length' by (by rewrite length_le_split). by vm_compute.
Qed.

(** ** The tail handler *)

(** The length reported to the host. For the last packet of a message the
    tail handler requests the host with exactly the length of the message; for
    every other packet it reports nothing. *)
Theorem slmp_th_reports buf p msgid ack order pre dg post frame haddr n :
  0 < p -> Z.of_nat (length buf) < 2 ^ 32 ->
  order ≡ₚ (if Z.of_nat (length buf) <=? p then [] else mid_of (Z.of_nat (length buf)) p) ->
  message_packets buf p msgid ack order = pre ++ dg :: post -> frame_of frame dg ->
  slmp_th (mk_task haddr frame) n
  = mk_nic (host_mem n) (tx n)
      (host_reqs n ++ if bool_decide (post = []) then [Z.of_nat (length buf)] else []).
Proof.
  intros Hp Hsz Ho Hdg Hf. set (sz := Z.of_nat (length buf)) in *.
  assert (exists flags off, 0 <= flags < 2 ^ 16 /\ 0 <= off <= sz /\ dg = segment buf p msgid flags off /\
    EOM flags = bool_decide (post = []) /\ (post = [] -> off + Z.min p (sz - off) = sz)) as
    (flags & off & Hfl & Hoff & -> & HE & Hlast).
  { unfold message_packets in Hdg. fold sz in Hdg.
    destruct (Z.leb_spec sz p).
    - destruct pre as [|? [|? ?]]; simplify_eq/=.
      exists (Z.lor MKSYN MKEOM), 0. split; [by vm_compute|]. split; [lia|]. split; [done|].
      split; [by vm_compute | lia].
    - pose proof (num_packets_bounds p sz Hp ltac:(lia)) as Hn.
      set (loff := (num_packets sz p - 1) * p) in *.
      destruct post as [|q post] using rev_ind; [|clear IHpost].
      + rewrite app_assoc in Hdg. apply app_inj_tail in Hdg as [_ <-].
        exists (Z.lor MKEOM MKSYN), loff. split; [by vm_compute|]. split; [nia|]. split; [done|].
        split; [by vm_compute | lia].
      + rewrite app_assoc, app_comm_cons, (app_assoc pre) in Hdg.
        apply app_inj_tail in Hdg as [Hdg _].
        assert (post ++ [q] <> []) as Hne by (by destruct post).
        rewrite (bool_decide_eq_false_2 _ Hne).
        destruct pre as [|x pre]; cbn [app] in Hdg; injection Hdg as Hx Hmid.
        * exists MKSYN, 0. split; [by vm_compute|]. split; [lia|]. split; [by rewrite <- Hx|].
          split; [by vm_compute | intros E'; by destruct (Hne E')].
        * assert (dg ∈ segment buf p msgid (mid_flags ack) <$> order) as Hin
            by (rewrite Hmid; set_solver).
          apply list_elem_of_fmap in Hin as (o & -> & Hin).
          exists (mid_flags ack), o. split; [by destruct ack; vm_compute|].
          split.
          { rewrite Ho in Hin. unfold mid_of in Hin. apply elem_of_offsets in Hin as (j & Hj & ->). nia. }
          split; [done|]. split; [by destruct ack; vm_compute | intros E'; by destruct (Hne E')]. }
  unfold segment in Hf. rewrite (u32_id off) in Hf by lia. unfold slmp_th. cbn [pkt_mem].
  rewrite (frame_flags _ _ _ _ _ Hf Hfl), (frame_off _ _ _ _ _ Hf ltac:(lia)), HE.
  rewrite (frame_payload_len _ _ _ _ _ Hf).
  rewrite length_sub_list by lia. rewrite Z2Nat.id by lia.
  destruct (bool_decide_reflect (post = [])) as [Hpost|_]; cbn [negb].
  - specialize (Hlast Hpost). fold sz. rewrite Hlast, u32_id by lia. done.
  - rewrite app_nil_r. by destruct n.
Qed.

(** ** Examples *)

(** A frame around a datagram. *)
Definition frame_for (dg : list Z) : list Z :=
  replicate 38 0 ++ le_split 2 (bswap16 (8 + Z.of_nat (length dg))) ++ [0; 0] ++ dg.

Lemma frame_for_ok dg : Forall is_byte dg -> Z.of_nat (length dg) < 2 ^ 16 - 8 -> frame_of (frame_for dg) dg.
Proof.
  intros HB Hl. unfold frame_for. split.
  - repeat apply Forall_app_2; [| apply le_split_bytes | | done].
    + apply Forall_replicate. unfold is_byte. lia.
    + repeat constructor; unfold is_byte; lia.
  - rewrite !length_app, length_replicate, length_le_split. simpl. lia.
  - done.
  - unfold sub_list, OFF_UDP_LEN. rewrite drop_app_length' by (by rewrite length_replicate).
    rewrite take_app_length' by (by rewrite length_le_split). done.
  - unfold sub_list, OFF_FLAGS. rewrite !app_assoc.
    rewrite drop_app_length' by (by rewrite !length_app, length_replicate, length_le_split).
    by apply take_ge.
Qed.

Lemma segment_bytes buf p msgid fl off : Forall is_byte buf -> Forall is_byte (segment buf p msgid fl off).
Proof.
  intros HB. unfold segment, slmp_hdr. repeat apply Forall_app_2; try apply le_split_bytes.
  unfold sub_list. by apply Forall_take, Forall_drop.
Qed.

Lemma slmp_message_delivered_witness :
  exists w', slmp_sendmsg env_seq (sock_w 2) 1 msg800 (world_ok 3 20) = (Ok 0, w') /\
    host_mem (ph_all 0x100000 (frame_for <$> reverse (w_sent w')) (mk_nic (fun _ => 0) [] []))
      (0x100000 + 0x10000 + 799) = 7.
Proof.
  eexists. split; [vm_compute; reflexivity|].
  set (w' := mk_world _ _ _ _).
  assert (Forall is_byte msg800) as HB by (apply Forall_replicate; unfold is_byte; lia).
  assert (w_sent w' = [segment msg800 732 1 MKSYN 0; segment msg800 732 1 (Z.lor MKEOM MKSYN) 732]) as Hsent
    by reflexivity.
  destruct (slmp_message_delivered env_seq (sock_w 2) 1 msg800 (world_ok 3 20) w'
    (frame_for <$> reverse (w_sent w')) (reverse (w_sent w')) 0x100000 (mk_nic (fun _ => 0) [] [])
    (sock_w_ok 2 ltac:(lia)) env_seq_ok ltac:(by vm_compute) eq_refl ltac:(vm_compute; reflexivity)
    ltac:(lia) ltac:(by vm_compute)) as [H _].
  - apply reverse_Permutation.
  - rewrite Hsent. cbn [reverse rev_append fmap list_fmap].
    do 2 (apply Forall2_cons_2; [apply frame_for_ok; [by apply segment_bytes | by vm_compute]|]).
    constructor.
  - exact (H 799 ltac:(vm_compute; split; [discriminate | reflexivity])).
Defined.

Lemma slmp_th_reports_witness :
  slmp_th (mk_task 0x100000 (frame_for (segment msg800 732 1 (Z.lor MKEOM MKSYN) 732)))
    (mk_nic (fun _ => 0) [] []) = mk_nic (fun _ => 0) [] [800].
Proof.
  apply (slmp_th_reports msg800 732 1 true [] [segment msg800 732 1 MKSYN 0]
           (segment msg800 732 1 (Z.lor MKEOM MKSYN) 732) []).
  - lia.
  - by vm_compute.
  - by vm_compute.
  - reflexivity.
  - apply frame_for_ok; [|by vm_compute]. apply segment_bytes.
    apply Forall_replicate. unfold is_byte. lia.
Defined.

Definition example_fields : frame_fields :=
  mk_fields [1;2;3;4;5;6] [7;8;9;10;11;12] [8;0] [0x45;0] [0;58] [0;1;0;0;64;17] [0;0]
    [10;0;0;1] [10;0;0;2] [4;210] [0x24;0x72] [0;38] [0;0] [0x40;0] (replicate 20 0).

Lemma ack_frame_correct_witness :
  exists ack, tx (send_ack (bytes_of example_fields) (mk_nic (fun _ => 0) [] [])) = [ack] /\
              is_ack (RcvData (drop 42 ack)).
Proof.
  destruct (ack_frame_correct example_fields (mk_nic (fun _ => 0) [] [])) as (csum & ack & Ht & _ & _ & Ha).
  - by vm_compute.
  - unfold is_byte. apply (bool_decide_unpack _). vm_compute. exact I.
  - cbn. lia.
  - exists ack. split; [exact Ht | exact Ha].
Defined.
