(* ===== verification/PingHandlers.v ===== *)
(** * The ping handlers

    Model of [examples/icmp_ping/handlers/icmp_ping.c] and
    [examples/udp_ping/handlers/udp_ping.c]: a packet is turned round, with or
    without the help of a host process, and sent back. The ICMP handler has
    a checksum of its own, which works on words in the byte order of the
    processor and folds the carries at the end. *)

From S2P Require Import Prelude Packets Slmp SlmpHandlers.

(** ** [ip_checksum_timo] *)

(** The sum of the 16-bit words as they are in memory, then of an odd byte. *)
Fixpoint timo_words (data : list Z) (acc : Z) : Z :=
  match data with
  | b0 :: b1 :: data' => timo_words data' (u32 (acc + le_combine [b0; b1]))
  | [b0] => u32 (acc + b0)
  | [] => acc
  end.

Definition fold_acc (acc : Z) : Z := u32 (Z.land acc 0xffff + Z.land (Z.shiftr acc 16) 0xffff).

Definition ip_checksum_timo (data : list Z) : Z :=
  u16 (Z.lnot (fold_acc (fold_acc (timo_words data 0xffff)))).

(** ** The handlers *)

(** The parts of [handler_args_t] they use. [pkt_mem] is the packet's buffer. *)
Record ping_args := mk_args {
  pg_host_addr : Z;                (* [HOST_ADDR] *)
  pg_host_mem_size : Z;
  pg_hpu_gid : Z;
  pg_pkt_mem : list Z;
  pg_pkt_mem_size : Z;
}.

Definition DMA_ALIGN : Z := 64.
Definition HOST_PLD_ADDR (a : ping_args) : Z := u64 (u64 (pg_host_addr a + pg_hpu_gid a * PAGE_SIZE) + DMA_ALIGN).

Definition fpspin_check_host_mem (a : ping_args) : bool :=
  negb (pg_host_addr a =? 0) && (CORE_COUNT * PAGE_SIZE <=? pg_host_mem_size a).

Definition dma_from_host (addr : Z) (len : nat) (m : Z -> Z) : list Z := (fun j => m (addr + Z.of_nat j)) <$> seq 0 len.

(** What the host process makes of a request for [len] bytes: its memory
    afterwards, and the length in the response. *)
Definition host_process : Type := Z -> (Z -> Z) -> (Z -> Z) * Z.

(** [spin_send_packet]; [None]: more than the buffer holds. *)
Definition send_packet (pkt : list Z) (len : Z) (n : nic) : option nic :=
  if Z.of_nat (length pkt) <? len then None
  else Some (mk_nic (host_mem n) (tx n ++ [take (Z.to_nat len) pkt]) (host_reqs n)).

(** The packet goes to the HPU's page, the host is asked, and what it left
    there comes back; the new contents of the buffer and their length.
    [None]: beyond the buffer. *)
Definition host_round_trip (host : host_process) (a : ping_args) (pkt : list Z) (pkt_len : Z) (n : nic) : option (list Z * Z * nic) :=
  if Z.of_nat (length pkt) <? pkt_len then None
  else
    let m := dma_to_host (HOST_PLD_ADDR a) (take (Z.to_nat pkt_len) pkt) (host_mem n) in
    let '(m, len) := host pkt_len m in
    let host_pkt_len := u16 len in
    if Z.of_nat (length pkt) <? host_pkt_len then None
    else Some (write_bytes 0 (dma_from_host (HOST_PLD_ADDR a) (Z.to_nat host_pkt_len) m) pkt, host_pkt_len,
               mk_nic m (tx n) (host_reqs n ++ [pkt_len])).

(** Swap the MAC addresses, then the IP addresses. *)
Definition swap_addresses (pkt : list Z) : list Z := swap_fields 4 OFF_IP_SRC OFF_IP_DST (swap_fields 6 6 0 pkt).

Definition OFF_ICMP : nat := 34.
Definition OFF_ICMP_CSUM : nat := 36.

(** An echo reply in place: type and checksum; the length of the frame.
    [None]: the length in the IP header is beyond the buffer. *)
Definition icmp_reply (pkt : list Z) : option (list Z * Z) :=
  let ip_len := ntohs (get16 pkt OFF_IP_LEN) in
  let icmp_len := u16 (ip_len - Z.of_nat IP_HDR) in
  if Z.of_nat (length pkt) <? Z.of_nat OFF_ICMP + icmp_len then None
  else
    let pkt := write_bytes OFF_ICMP [0] pkt in
    let pkt := put16 OFF_ICMP_CSUM 0 pkt in
    let pkt := put16 OFF_ICMP_CSUM (ip_checksum_timo (sub_list OFF_ICMP (Z.to_nat icmp_len) pkt)) pkt in
    Some (pkt, u16 (ip_len + Z.of_nat ETH_HDR)).

(** The bytes of the headers the handlers touch. *)
Definition HDRS_USED : nat := 38.

(** [pingpong_ph] of icmp_ping.c; [do_host] is [DO_HOST]. [None]: headers
    beyond the buffer. *)
Definition icmp_pingpong_ph (do_host : bool) (host : host_process) (a : ping_args) (n : nic) : option nic :=
  if (length (pg_pkt_mem a) <? HDRS_USED)%nat then None else
  let pkt := swap_addresses (pg_pkt_mem a) in
  let pkt_len := u16 (pg_pkt_mem_size a) in
  if do_host && fpspin_check_host_mem a then
    '(pkt, pkt_len, n) ← host_round_trip host a pkt pkt_len n; send_packet pkt pkt_len n
  else
    '(pkt, pkt_len) ← icmp_reply pkt; send_packet pkt pkt_len n.

(** [pingpong_ph] of udp_ping.c; the cycle counters are not modelled. *)
Definition udp_pingpong_ph (do_host : bool) (host : host_process) (a : ping_args) (n : nic) : option nic :=
  if (length (pg_pkt_mem a) <? HDRS_USED)%nat then None else
  let pkt := swap_fields 2 OFF_UDP_SRC OFF_UDP_DST (swap_addresses (pg_pkt_mem a)) in
  let pkt_len := u16 (pg_pkt_mem_size a) in
  if do_host && fpspin_check_host_mem a then
    '(pkt, pkt_len, n) ← host_round_trip host a pkt pkt_len n; send_packet pkt pkt_len n
  else send_packet pkt pkt_len n.

(** ** The two checksums *)

(** The words in the order of the processor. *)
Fixpoint le_words (data : list Z) : list Z :=
  match data with
  | b0 :: b1 :: data' => b0 + 256 * b1 :: le_words data'
  | [b0] => [b0]
  | [] => []
  end.

Lemma le_words_bound data : Forall is_byte data -> 0 <= sum (le_words data) <= 65535 * Z.of_nat (length data / 2) + 255.
Proof.
  induction data as [|b0|b0 b1 data IH] using list_two_ind; intros HB; cbn [le_words sum foldr length].
  - cbn. lia.
  - inversion_clear HB as [|? ? H0 _]. unfold is_byte in H0. cbn. lia.
  - inversion_clear HB as [|? ? H0 HB1]. inversion_clear HB1 as [|? ? H1 HB2]. specialize (IH HB2). unfold is_byte, sum in *.
    replace (S (S (length data)) / 2)%nat with (S (length data / 2)) by (replace (S (S (length data))) with (length data + 1 * 2)%nat by lia; rewrite Nat.div_add; lia). lia.
Qed.

Lemma timo_words_sum data : forall acc, Forall is_byte data -> 0 <= acc -> acc + sum (le_words data) < 2 ^ 32 -> timo_words data acc = acc + sum (le_words data).
Proof.
  induction data as [|b0|b0 b1 data IH] using list_two_ind; intros acc HB Ha Hlt; cbn [timo_words le_words sum foldr] in *.
  - lia.
  - inversion_clear HB as [|? ? H0 _]. unfold is_byte in H0. rewrite u32_id; lia.
  - inversion_clear HB as [|? ? H0 HB1]. inversion_clear HB1 as [|? ? H1 HB2]. pose proof (proj1 (le_words_bound data HB2)). unfold is_byte, sum in *.
    cbn [le_combine]. rewrite u32_id by lia. rewrite IH; [lia|done|lia|lia].
Qed.

(** In one's complement the byte order does not matter: the words of one order
    are 256 times those of the other, modulo 0xffff. *)
Lemma le_be_words data : Forall is_byte data -> exists k, sum (le_words data) = 256 * sum (be_words data) - 65535 * k.
Proof.
  induction data as [|b0|b0 b1 data IH] using list_two_ind; intros HB; cbn [le_words be_words sum foldr].
  - exists 0. lia.
  - exists b0. lia.
  - inversion_clear HB as [|? ? H0 HB1]. inversion_clear HB1 as [|? ? H1 HB2]. destruct (IH HB2) as [k Hk]. exists (k + b0). unfold sum in *. lia.
Qed.

Lemma fold_twice acc : 1 <= acc < 2 ^ 32 -> 1 <= fold_acc (fold_acc acc) <= 0xffff /\ exists k, fold_acc (fold_acc acc) = acc - 0xffff * k.
Proof.
  intros Ha. unfold fold_acc. change 0xffff with (Z.ones 16). rewrite !Z.land_ones, !Z.shiftr_div_pow2 by lia. change (2 ^ 16) with 65536.
  pose proof (Z.div_mod acc 65536 ltac:(lia)) as E. pose proof (Z.mod_pos_bound acc 65536 ltac:(lia)) as B.
  assert (0 <= acc / 65536 < 65536) as Q by (split; [apply Z.div_pos; lia|apply Z.div_lt_upper_bound; lia]). rewrite (Z.mod_small (acc / 65536)) by lia.
  set (a := acc mod 65536 + acc / 65536) in *. rewrite (u32_id a) by lia.
  pose proof (Z.div_mod a 65536 ltac:(lia)) as E2. pose proof (Z.mod_pos_bound a 65536 ltac:(lia)) as B2.
  assert (0 <= a / 65536 <= 1) as Q2 by (split; [apply Z.div_pos; lia|apply Z.lt_succ_r, Z.div_lt_upper_bound; lia]). rewrite (Z.mod_small (a / 65536)) by lia.
  rewrite u32_id by lia. change (Z.ones 16) with 65535. split; [lia|]. exists (acc / 65536 + a / 65536). lia.
Qed.

Lemma bswap16_mod v : 0 <= v < 65536 -> 0 <= bswap16 v < 65536 /\ exists k, bswap16 v = 256 * v - 65535 * k.
Proof.
  intros Hv. unfold bswap16. cbn [le_split rev app le_combine]. pose proof (Z.div_mod v 256 ltac:(lia)). pose proof (Z.mod_pos_bound v 256 ltac:(lia)).
  assert (0 <= v / 256 < 256) by (split; [apply Z.div_pos; lia|apply Z.div_lt_upper_bound; lia]). rewrite (Z.mod_small (v / 256)) by lia. split; [lia|]. exists (v / 256). lia.
Qed.

Lemma mod_0xffff_eq a b k : 0 <= a < 65535 -> 0 <= b < 65535 -> a = b - 65535 * k -> a = b.
Proof. intros. assert (k = 0) by nia. lia. Qed.

Lemma timo_equiv data : Forall is_byte data -> Z.of_nat (length data) <= 131071 -> ip_checksum_timo data = ip_checksum data.
Proof.
  intros HB Hl. destruct (ip_checksum_value data HB) as (v & k & -> & Hv & Ev). pose proof (le_words_bound data HB) as Hb.
  assert (Z.of_nat (length data / 2) <= 65535) as Hh. { pose proof (Nat.Div0.mul_div_le (length data) 2). lia. }
  unfold ip_checksum_timo. rewrite timo_words_sum by (done || lia).
  destruct (fold_twice (0xffff + sum (le_words data)) ltac:(lia)) as [Hf [k1 Ek1]]. set (f := fold_acc _) in *. clearbody f. destruct (le_be_words data HB) as [k2 Ek2].
  destruct (bswap16_mod v ltac:(lia)) as [Hbs [k3 Ek3]]. assert (u16 (Z.lnot f) = 0xffff - f) as ->.
  { unfold u16, Z.lnot, Z.pred. symmetry. apply (Z.mod_unique_pos _ _ (-1)); lia. }
  assert (bswap16 v <> 65535). { intros E. apply (f_equal bswap16) in E. rewrite bswap16_involutive, u16_id in E by lia. vm_compute in E. lia. }
  apply (mod_0xffff_eq _ _ (256 * k - k3 - k1 - k2)); lia.
Qed.

(** C34: the checksum of the ICMP handler. On any data of up to 131071 bytes
    [ip_checksum_timo], which adds the words in the processor's byte order
    and folds the carries twice at the end, gives what the reference
    [ip_checksum] gives, which swaps every word and subtracts as it goes. *)
Theorem ip_checksum_timo_correct data : Forall is_byte data -> Z.of_nat (length data) <= 131071 -> ip_checksum_timo data = ip_checksum data.
Proof. apply timo_equiv. Qed.

Lemma ip_checksum_timo_correct_witness : ip_checksum_timo [8; 0; 0; 0; 0x12; 0x34; 0xff; 0xff; 7] = ip_checksum [8; 0; 0; 0; 0x12; 0x34; 0xff; 0xff; 7].
Proof. apply ip_checksum_timo_correct; [repeat constructor; unfold is_byte; lia|cbn; lia]. Defined.

(** ** Frames *)

(** An IPv4 frame without options in pieces: the IP header is [g_head], with
    the length at its second word, and the addresses. *)
Record ip_frame := mk_frame {
  g_mac_dst : list Z; g_mac_src : list Z; g_ethertype : list Z;
  g_head : list Z; g_ip_src : list Z; g_ip_dst : list Z;
  g_pay : list Z;
}.
Definition frame_bytes (f : ip_frame) : list Z :=
  g_mac_dst f ++ g_mac_src f ++ g_ethertype f ++ g_head f ++ g_ip_src f ++ g_ip_dst f ++ g_pay f.
Definition frame_wf (f : ip_frame) : Prop :=
  length (g_mac_dst f) = 6%nat /\ length (g_mac_src f) = 6%nat /\ length (g_ethertype f) = 2%nat /\ length (g_head f) = 12%nat /\
  length (g_ip_src f) = 4%nat /\ length (g_ip_dst f) = 4%nat.
Definition frame_ip_header (f : ip_frame) : list Z := g_head f ++ g_ip_src f ++ g_ip_dst f.
Definition ip_length (f : ip_frame) : Z := ntohs (get16 (g_head f) 2).

(** The frame on its way back, with payload [pay]. *)
Definition turned (pay : list Z) (f : ip_frame) : ip_frame :=
  mk_frame (g_mac_src f) (g_mac_dst f) (g_ethertype f) (g_head f) (g_ip_dst f) (g_ip_src f) pay.

Ltac explode_frame f H :=
  destruct f as [md ms et hd sa da gp]; destruct H as (H1 & H2 & H3 & H4 & H5 & H6); cbn [g_mac_dst g_mac_src g_ethertype g_head g_ip_src g_ip_dst g_pay] in *;
  explode md 6%nat; explode ms 6%nat; explode et 2%nat; explode hd 12%nat; explode sa 4%nat; explode da 4%nat.

Lemma swap_addresses_frame f : frame_wf f -> swap_addresses (frame_bytes f) = frame_bytes (turned (g_pay f) f).
Proof. intros H. explode_frame f H. reflexivity. Qed.

Lemma frame_length f : frame_wf f -> length (frame_bytes f) = (34 + length (g_pay f))%nat.
Proof. intros (H1 & H2 & H3 & H4 & H5 & H6). unfold frame_bytes. rewrite !length_app. lia. Qed.

Lemma hdrs_used f : frame_wf f -> (4 <= length (g_pay f))%nat -> (length (frame_bytes f) <? HDRS_USED)%nat = false.
Proof. intros Hf Hp. rewrite frame_length by done. apply Nat.ltb_ge. unfold HDRS_USED. lia. Qed.

Lemma turned_wf f pay : frame_wf f -> frame_wf (turned pay f).
Proof. unfold frame_wf. cbn [turned g_mac_dst g_mac_src g_ethertype g_head g_ip_src g_ip_dst]. tauto. Qed.

Lemma frame_bytes_pad f pay pad : frame_bytes (turned (pay ++ pad) f) = frame_bytes (turned pay f) ++ pad.
Proof. unfold frame_bytes. cbn [turned g_mac_dst g_mac_src g_ethertype g_head g_ip_src g_ip_dst g_pay]. by rewrite <- !app_assoc. Qed.

Lemma frame_ip_length f pay : frame_wf f -> ntohs (get16 (frame_bytes (turned pay f)) OFF_IP_LEN) = ip_length f.
Proof. intros H. explode_frame f H. reflexivity. Qed.

Lemma frame_payload_at f pay : frame_wf f -> drop OFF_ICMP (frame_bytes (turned pay f)) = pay /\
  forall pay', take OFF_ICMP (frame_bytes (turned pay f)) ++ pay' = frame_bytes (turned pay' f).
Proof. intros H. explode_frame f H. split; reflexivity. Qed.

(** Only the sum of the words counts, so that swapped addresses leave the
    checksum of the IP header as it is. *)
Lemma ip_checksum_sum a b : Forall is_byte a -> Forall is_byte b -> sum (be_words a) = sum (be_words b) -> ip_checksum a = ip_checksum b.
Proof.
  intros Ha Hb E. destruct (ip_checksum_value a Ha) as (v & k & -> & Hv & Ev). destruct (ip_checksum_value b Hb) as (v' & k' & -> & Hv' & Ev').
  f_equal. apply (mod_0xffff_eq _ _ (k' - k)); lia.
Qed.

Lemma Forall_frame f : Forall is_byte (frame_bytes f) ->
  Forall is_byte (g_head f) /\ Forall is_byte (g_ip_src f) /\ Forall is_byte (g_ip_dst f) /\ Forall is_byte (g_pay f).
Proof. unfold frame_bytes. rewrite !Forall_app. tauto. Qed.

Lemma turned_ip_checksum f pay : frame_wf f -> Forall is_byte (frame_bytes f) -> ip_checksum (frame_ip_header (turned pay f)) = ip_checksum (frame_ip_header f).
Proof.
  intros (_ & _ & _ & H4 & H5 & H6) HB. destruct (Forall_frame f HB) as (B1 & B2 & B3 & _). unfold frame_ip_header. cbn [turned g_head g_ip_src g_ip_dst].
  apply ip_checksum_sum; [by repeat apply Forall_app_2..|]. rewrite !be_words_app, !sum_app; [lia|..]; rewrite ?H4, ?H5, ?H6; [by exists 2%nat|by exists 6%nat|by exists 2%nat|by exists 6%nat].
Qed.

(** ** The ICMP handler on its own *)

Lemma icmp_reply_frame f t c k0 k1 rest pad :
  frame_wf f -> Forall is_byte (frame_bytes f) -> g_pay f = (t :: c :: k0 :: k1 :: rest) ++ pad ->
  ip_length f = 24 + Z.of_nat (length rest) -> 38 + Z.of_nat (length rest) < 2 ^ 16 ->
  icmp_reply (frame_bytes (turned (g_pay f) f))
  = Some (frame_bytes (turned ((0 :: c :: le_split 2 (ip_checksum (0 :: c :: 0 :: 0 :: rest)) ++ rest) ++ pad) f), 38 + Z.of_nat (length rest)).
Proof.
  intros Hwf HB Hp Hl Hs. destruct (Forall_frame f HB) as (_ & _ & _ & B). rewrite Hp in B. apply Forall_app in B as [B _].
  unfold icmp_reply. rewrite frame_ip_length, Hl by done. change (Z.of_nat IP_HDR) with 20. change (Z.of_nat ETH_HDR) with 14. rewrite !u16_id by lia.
  rewrite (proj2 (Z.ltb_ge _ _)).
  2: { rewrite frame_length by (by apply turned_wf). cbn [turned g_pay]. rewrite Hp, length_app. cbn [length]. change (Z.of_nat OFF_ICMP) with 34. lia. }
  assert (forall o bs pay, frame_wf f -> write_bytes (OFF_ICMP + o) bs (frame_bytes (turned pay f)) = frame_bytes (turned (write_bytes o bs pay) f)) as Hw.
  { intros o bs pay Hf. destruct (frame_payload_at f pay Hf) as [Hd Ht]. rewrite <- (Ht (write_bytes o bs pay)). unfold write_bytes.
    assert (length (take OFF_ICMP (frame_bytes (turned pay f))) = OFF_ICMP) as HL by (rewrite length_take, frame_length by (by apply turned_wf); unfold OFF_ICMP; lia).
    rewrite <- (take_drop OFF_ICMP (frame_bytes (turned pay f))) at 1 2. rewrite Hd. set (h := take OFF_ICMP _) in *. rewrite <- HL.
    rewrite take_app_add, drop_app_ge by lia. rewrite <- app_assoc. do 3 f_equal. f_equal. lia. }
  change (write_bytes OFF_ICMP [0]) with (write_bytes (OFF_ICMP + 0) [0]). unfold put16. change OFF_ICMP_CSUM with (OFF_ICMP + 2)%nat. rewrite !Hw by done. rewrite Hp. cbn [turned g_pay].
  unfold sub_list. destruct (frame_payload_at f (write_bytes 2 (le_split 2 0) (write_bytes 0 [0] ((t :: c :: k0 :: k1 :: rest) ++ pad))) Hwf) as [-> _].
  change (write_bytes 2 (le_split 2 0) (write_bytes 0 [0] ((t :: c :: k0 :: k1 :: rest) ++ pad))) with ((0 :: c :: 0 :: 0 :: rest) ++ pad).
  rewrite take_app_length' by (cbn; lia). rewrite timo_equiv.
  - do 2 f_equal. lia.
  - inversion_clear B as [|? ? _ B1]. inversion_clear B1 as [|? ? Bc B2]. inversion_clear B2 as [|? ? _ B3]. inversion_clear B3 as [|? ? _ B4].
    repeat (constructor; [first [done|unfold is_byte; lia]|]). done.
  - cbn [length]. lia.
Qed.

(** C33: the ICMP handler answers. Without a host process, for an echo request
    in an IPv4 frame without options, padded or not, it sends one frame: the
    request with the MAC and IP addresses exchanged and the type of a reply,
    cut to the length in the IP header, code, identifier, sequence number and
    data unchanged, with a valid ICMP checksum; and the checksum in the IP
    header is as right as it was. *)
Theorem icmp_ping_replies do_host host a n f t c k0 k1 rest pad :
  do_host && fpspin_check_host_mem a = false -> pg_pkt_mem a = frame_bytes f ->
  frame_wf f -> Forall is_byte (frame_bytes f) -> g_pay f = (t :: c :: k0 :: k1 :: rest) ++ pad ->
  ip_length f = 24 + Z.of_nat (length rest) -> 38 + Z.of_nat (length rest) < 2 ^ 16 ->
  exists csum n', icmp_pingpong_ph do_host host a n = Some n' /\
    tx n' = tx n ++ [frame_bytes (turned (0 :: c :: le_split 2 csum ++ rest) f)] /\
    ip_checksum (0 :: c :: le_split 2 csum ++ rest) = 0 /\
    ip_checksum (frame_ip_header (turned (0 :: c :: le_split 2 csum ++ rest) f)) = ip_checksum (frame_ip_header f) /\
    host_mem n' = host_mem n /\ host_reqs n' = host_reqs n.
Proof.
  intros Hh Ha Hwf HB Hp Hl Hs. unfold icmp_pingpong_ph. rewrite Ha, hdrs_used, Hh, swap_addresses_frame by (done || (rewrite Hp; cbn; lia)).
  rewrite (icmp_reply_frame f t c k0 k1 rest pad) by done. cbn [mbind option_bind]. set (csum := ip_checksum (0 :: c :: 0 :: 0 :: rest)).
  set (pay := 0 :: c :: le_split 2 csum ++ rest). assert (length pay = (4 + length rest)%nat) as Hlp by (unfold pay; cbn [length]; rewrite length_app, length_le_split; lia).
  unfold send_packet. rewrite frame_length by (by apply turned_wf). cbn [turned g_pay]. rewrite (proj2 (Z.ltb_ge _ _)) by (rewrite length_app; lia).
  exists csum. eexists. split; [reflexivity|]. cbn [tx host_mem host_reqs]. split.
  { do 2 f_equal. fold (turned (pay ++ pad) f). rewrite frame_bytes_pad. apply take_app_length'. rewrite frame_length by (by apply turned_wf). cbn [turned g_pay]. fold pay. rewrite Hlp. clear. lia. }
  split; [|by split; [apply turned_ip_checksum|]].
  destruct (Forall_frame f HB) as (_ & _ & _ & B). rewrite Hp in B. apply Forall_app in B as [B _].
  inversion_clear B as [|? ? _ B1]. inversion_clear B1 as [|? ? Bc B2]. inversion_clear B2 as [|? ? _ B3]. inversion_clear B3 as [|? ? _ B4].
  apply (ip_checksum_fill [0; c] rest); [constructor; [unfold is_byte; lia|by constructor]|done|by exists 1%nat].
Qed.

Lemma swap_ports_frame f sp dp rest :
  frame_wf f -> length sp = 2%nat -> length dp = 2%nat ->
  swap_fields 2 OFF_UDP_SRC OFF_UDP_DST (frame_bytes (turned (sp ++ dp ++ rest) f)) = frame_bytes (turned (dp ++ sp ++ rest) f).
Proof. intros H Hs Hd. explode_frame f H. explode sp 2%nat. explode dp 2%nat. reflexivity. Qed.

(** The data under a UDP checksum: addresses, protocol, length, segment. *)
Definition udp_covered (f : ip_frame) (udp_len : list Z) : list Z := g_ip_src f ++ g_ip_dst f ++ [0; 17] ++ udp_len ++ g_pay f.

Lemma turned_udp_checksum f sp dp rest udp_len :
  frame_wf f -> Forall is_byte (frame_bytes f) -> g_pay f = sp ++ dp ++ rest -> length sp = 2%nat -> length dp = 2%nat -> Forall is_byte udp_len -> length udp_len = 2%nat ->
  ip_checksum (udp_covered (turned (dp ++ sp ++ rest) f) udp_len) = ip_checksum (udp_covered f udp_len).
Proof.
  intros (_ & _ & _ & _ & H5 & H6) HB Hp Hs Hd Bl Hl. destruct (Forall_frame f HB) as (_ & B2 & B3 & B). rewrite Hp in B. apply Forall_app in B as [Bs B]. apply Forall_app in B as [Bd Br].
  assert (Forall is_byte [0; 17]) as B17 by (repeat constructor; unfold is_byte; lia).
  unfold udp_covered. cbn [turned g_ip_src g_ip_dst g_pay]. rewrite Hp. apply ip_checksum_sum; [by repeat apply Forall_app_2..|].
  assert (forall l : list Z, length l = 2%nat -> Nat.Even (length l)) as E2 by (intros l ->; by exists 1%nat). assert (forall l : list Z, length l = 4%nat -> Nat.Even (length l)) as E4 by (intros l ->; by exists 2%nat).
  rewrite (be_words_app (g_ip_dst f)), (be_words_app (g_ip_src f)), (be_words_app [0; 17]), (be_words_app udp_len), (be_words_app dp), (be_words_app sp) by auto.
  rewrite (be_words_app (g_ip_src f)), (be_words_app (g_ip_dst f)), (be_words_app [0; 17]), (be_words_app udp_len), (be_words_app sp), (be_words_app dp) by auto.
  rewrite !sum_app. lia.
Qed.

(** The UDP handler answers. Without a host process it sends the packet
    back with the MAC addresses, the IP addresses and the ports exchanged and
    everything else as it was; the checksums of the IP header and of the
    UDP segment, which it leaves alone, are as right as they were. *)
Theorem udp_ping_replies do_host host a n f sp dp rest udp_len :
  do_host && fpspin_check_host_mem a = false -> pg_pkt_mem a = frame_bytes f -> pg_pkt_mem_size a = Z.of_nat (length (frame_bytes f)) -> pg_pkt_mem_size a < 2 ^ 16 ->
  frame_wf f -> Forall is_byte (frame_bytes f) -> g_pay f = sp ++ dp ++ rest -> length sp = 2%nat -> length dp = 2%nat -> Forall is_byte udp_len -> length udp_len = 2%nat ->
  exists n', udp_pingpong_ph do_host host a n = Some n' /\ tx n' = tx n ++ [frame_bytes (turned (dp ++ sp ++ rest) f)] /\
    ip_checksum (frame_ip_header (turned (dp ++ sp ++ rest) f)) = ip_checksum (frame_ip_header f) /\
    ip_checksum (udp_covered (turned (dp ++ sp ++ rest) f) udp_len) = ip_checksum (udp_covered f udp_len).
Proof.
  intros Hh Ha Hsz Hs Hwf HB Hp Hsp Hdp Bl Hul. unfold udp_pingpong_ph. rewrite Ha, hdrs_used by (done || (rewrite Hp, !length_app; lia)). rewrite Hh, swap_addresses_frame, Hp, swap_ports_frame, Hsz by done.
  assert (length (frame_bytes (turned (dp ++ sp ++ rest) f)) = length (frame_bytes f)) as E
    by (rewrite !frame_length by (done || by apply turned_wf); cbn [turned g_pay]; rewrite Hp, !length_app; lia).
  rewrite Hsz in Hs. rewrite u16_id by lia. unfold send_packet. rewrite E, Z.ltb_irrefl. eexists. split; [reflexivity|]. cbn [tx]. split.
  - do 2 f_equal. apply take_ge. lia.
  - split; [by apply turned_ip_checksum|by apply turned_udp_checksum].
Qed.

(** ** With a host process *)

Lemma length_dma_from_host addr len m : length (dma_from_host addr len m) = len.
Proof. unfold dma_from_host. by rewrite length_fmap, length_seq. Qed.

Lemma round_trip_sends host a pkt n m' len :
  Z.of_nat (length pkt) < 2 ^ 16 -> host (Z.of_nat (length pkt)) (dma_to_host (HOST_PLD_ADDR a) pkt (host_mem n)) = (m', len) -> 0 <= len <= Z.of_nat (length pkt) ->
  ('(pkt, pkt_len, n) ← host_round_trip host a pkt (Z.of_nat (length pkt)) n; send_packet pkt pkt_len n)
  = Some (mk_nic m' (tx n ++ [dma_from_host (HOST_PLD_ADDR a) (Z.to_nat len) m']) (host_reqs n ++ [Z.of_nat (length pkt)])).
Proof.
  intros Hs Eh Hl. unfold host_round_trip. rewrite Z.ltb_irrefl, Nat2Z.id, take_ge, Eh by lia. rewrite u16_id by lia. rewrite (proj2 (Z.ltb_ge _ _)) by lia. cbn [mbind option_bind].
  unfold send_packet. rewrite length_write_bytes by (rewrite length_dma_from_host; lia). rewrite (proj2 (Z.ltb_ge _ _)) by lia. cbn [host_mem tx host_reqs]. do 4 f_equal.
  unfold write_bytes. rewrite take_0, app_nil_l. apply take_app_length'. by rewrite length_dma_from_host.
Qed.

(** The handlers with a host process. The host finds the turned packet in
    the page of the HPU, and its length in the request; what the host leaves
    there, as long as it says, at most as long as the packet, is what is
    sent, unchanged; this holds for both handlers. *)
Theorem ping_via_host host a n f sp dp rest m' len m'' len' :
  fpspin_check_host_mem a = true -> pg_pkt_mem a = frame_bytes f -> pg_pkt_mem_size a = Z.of_nat (length (frame_bytes f)) -> pg_pkt_mem_size a < 2 ^ 16 ->
  frame_wf f -> g_pay f = sp ++ dp ++ rest -> length sp = 2%nat -> length dp = 2%nat ->
  host (pg_pkt_mem_size a) (dma_to_host (HOST_PLD_ADDR a) (frame_bytes (turned (g_pay f) f)) (host_mem n)) = (m', len) -> 0 <= len <= pg_pkt_mem_size a ->
  host (pg_pkt_mem_size a) (dma_to_host (HOST_PLD_ADDR a) (frame_bytes (turned (dp ++ sp ++ rest) f)) (host_mem n)) = (m'', len') -> 0 <= len' <= pg_pkt_mem_size a ->
  icmp_pingpong_ph true host a n
  = Some (mk_nic m' (tx n ++ [dma_from_host (HOST_PLD_ADDR a) (Z.to_nat len) m']) (host_reqs n ++ [pg_pkt_mem_size a])) /\
  udp_pingpong_ph true host a n
  = Some (mk_nic m'' (tx n ++ [dma_from_host (HOST_PLD_ADDR a) (Z.to_nat len') m'']) (host_reqs n ++ [pg_pkt_mem_size a])).
Proof.
  intros Hh Ha Hsz Hs Hwf Hp Hsp Hdp E1 L1 E2 L2. unfold icmp_pingpong_ph, udp_pingpong_ph. rewrite Ha, hdrs_used by (done || (rewrite Hp, !length_app; lia)). rewrite Hh, swap_addresses_frame by done. cbn [andb].
  assert (forall pay, length pay = length (g_pay f) -> length (frame_bytes (turned pay f)) = length (frame_bytes f)) as E
    by (intros pay Hpay; rewrite !frame_length by (done || by apply turned_wf); cbn [turned g_pay]; lia).
  rewrite Hsz in *. rewrite u16_id by lia. split.
  - rewrite <- (E (g_pay f) eq_refl) in E1, L1, Hs |- *. by apply round_trip_sends.
  - assert (length (dp ++ sp ++ rest) = length (g_pay f)) as El by (rewrite Hp, !length_app; lia). rewrite Hp at 1. rewrite swap_ports_frame by done.
    rewrite <- (E _ El) in E2, L2, Hs |- *. by apply round_trip_sends.
Qed.

(** ** Examples *)

Definition ping_frame (proto : Z) (pay : list Z) : ip_frame :=
  mk_frame [2; 0; 0; 0; 0; 2] [2; 0; 0; 0; 0; 1] [8; 0] ([0x45; 0; 0; 20 + Z.of_nat (length pay); 0; 7; 0; 0; 64; proto] ++ [0; 0]) [10; 0; 0; 1] [10; 0; 0; 2] pay.
Definition echo : list Z := [8; 0; 0xe5; 0xca; 0x12; 0x34; 0; 1; 0x61; 0x62; 0x63].
Definition no_host : host_process := fun len m => (m, len).
Definition nic0 : nic := mk_nic (fun _ => 0) [] [].

Lemma icmp_ping_replies_witness :
  exists csum n', icmp_pingpong_ph false no_host (mk_args 0 0 0 (frame_bytes (mk_frame [2; 0; 0; 0; 0; 2] [2; 0; 0; 0; 0; 1] [8; 0] (g_head (ping_frame 1 echo)) [10; 0; 0; 1] [10; 0; 0; 2] (echo ++ [0; 0]))) 47) nic0 = Some n' /\
    tx n' = [[2; 0; 0; 0; 0; 1; 2; 0; 0; 0; 0; 2; 8; 0] ++ g_head (ping_frame 1 echo) ++ [10; 0; 0; 2; 10; 0; 0; 1] ++ [0; 0] ++ le_split 2 csum ++ [0x12; 0x34; 0; 1; 0x61; 0x62; 0x63]] /\
    ip_checksum ([0; 0] ++ le_split 2 csum ++ [0x12; 0x34; 0; 1; 0x61; 0x62; 0x63]) = 0.
Proof.
  destruct (icmp_ping_replies false no_host (mk_args 0 0 0 (frame_bytes (mk_frame [2; 0; 0; 0; 0; 2] [2; 0; 0; 0; 0; 1] [8; 0] (g_head (ping_frame 1 echo)) [10; 0; 0; 1] [10; 0; 0; 2] (echo ++ [0; 0]))) 47) nic0
    (mk_frame [2; 0; 0; 0; 0; 2] [2; 0; 0; 0; 0; 1] [8; 0] (g_head (ping_frame 1 echo)) [10; 0; 0; 1] [10; 0; 0; 2] (echo ++ [0; 0])) 8 0 0xe5 0xca [0x12; 0x34; 0; 1; 0x61; 0x62; 0x63] [0; 0])
    as (csum & n' & E & Ht & Hc & _); [reflexivity|reflexivity|by repeat split|repeat constructor; unfold is_byte; lia|reflexivity|reflexivity|cbn; lia|].
  exists csum, n'. split; [exact E|]. split; [exact Ht|exact Hc].
Defined.

Definition udp_payload : list Z := [0x04; 0; 0; 7; 0; 12; 0xab; 0xcd; 1; 2; 3; 4].

Lemma udp_ping_replies_witness :
  exists n', udp_pingpong_ph false no_host (mk_args 0 0 0 (frame_bytes (ping_frame 17 udp_payload)) 46) nic0 = Some n' /\
    tx n' = [frame_bytes (turned [0; 7; 0x04; 0; 0; 12; 0xab; 0xcd; 1; 2; 3; 4] (ping_frame 17 udp_payload))].
Proof.
  destruct (udp_ping_replies false no_host (mk_args 0 0 0 (frame_bytes (ping_frame 17 udp_payload)) 46) nic0 (ping_frame 17 udp_payload) [0x04; 0] [0; 7] [0; 12; 0xab; 0xcd; 1; 2; 3; 4] [0; 12])
    as (n' & E & Ht & _); [reflexivity|reflexivity|reflexivity|cbn; lia|by repeat split|repeat constructor; unfold is_byte; lia|reflexivity|reflexivity|reflexivity|repeat constructor; unfold is_byte; lia|reflexivity|].
  exists n'. split; [exact E|exact Ht].
Defined.

Lemma ping_via_host_witness :
  exists n', udp_pingpong_ph true no_host (mk_args 0x100000 0x10000 3 (frame_bytes (ping_frame 17 udp_payload)) 46) nic0 = Some n' /\ host_reqs n' = [46].
Proof.
  eexists. split; [|shelve].
  refine (proj2 (ping_via_host no_host (mk_args 0x100000 0x10000 3 (frame_bytes (ping_frame 17 udp_payload)) 46) nic0 (ping_frame 17 udp_payload) [0x04; 0] [0; 7] [0; 12; 0xab; 0xcd; 1; 2; 3; 4]
    _ _ _ _ eq_refl eq_refl eq_refl _ _ eq_refl eq_refl eq_refl eq_refl _ eq_refl _)); [cbn; lia|by repeat split|cbn; lia|cbn; lia].
  Unshelve. reflexivity.
Defined.
