(* ===== verification/LazyList.v ===== *)
(** * The reorder buffer: a sorted list of byte ranges

    Model of [examples/ooorb/handlers/lazylist.h] and [ooorb_handlers.c]. The
    buffer is an array of nodes linked by indices: a list of ranges between
    two sentinels, and a free list. A pointer to a node is its place in the
    array; what the code reads from the field [idx] is read from it. The
    operations run one at a time here: a lock that is held is waited for
    forever. *)

From S2P Require Import Prelude.

Definition NUM_SEGMENTS : Z := 128.
Definition EOL : Z := 2 ^ 32 - 1.
Definition RANGE_START_ANY : Z := 2 ^ 32 - 1.
Definition INT32_MIN : Z := - 2 ^ 31.
Definition INT32_MAX : Z := 2 ^ 31 - 1.

Record lazylist_range_t := mk_range { left : Z; right : Z }.
#[export] Instance range_eq_dec : EqDecision lazylist_range_t.
Proof. solve_decision. Defined.

Record lazylist_node_t := mk_node { idx : Z; range : lazylist_range_t; lock : Z; next_idx : Z }.

(** The arrays are functions; [GET_NODE_PTR] and [IS_NODE_MARKED] check the
    bounds. *)
Record lazylist_t := mk_list {
  head_idx : Z;
  free_head_idx : Z;
  free_head_lock : Z;
  nodes : Z -> lazylist_node_t;
  marks : Z -> Z;
}.

(** [Spin]: a loop did not end within its fuel, or waits for a lock that
    nobody gives back. [Undef]: an access out of an array. *)
Inductive outcome (A : Type) := Ret (a : A) | Spin | Undef.
Arguments Ret {A} _.
Arguments Spin {A}.
Arguments Undef {A}.

#[export] Instance outcome_bind : MBind outcome := fun A B f m => match m with Ret a => f a | Spin => Spin | Undef => Undef end.

(** ** Accesses *)

Definition node_in (i : Z) : bool := (0 <=? i) && (i <? NUM_SEGMENTS + 2).
Definition mark_in (i : Z) : bool := (0 <=? i) && (i <? NUM_SEGMENTS).

Definition GET_NODE_PTR (l : lazylist_t) (i : Z) : outcome lazylist_node_t := if node_in i then Ret (nodes l i) else Undef.
Definition IS_NODE_MARKED (l : lazylist_t) (i : Z) : outcome bool := if mark_in i then Ret (negb (marks l i =? 0)) else Undef.

Definition upd {A} (i : Z) (v : A) (f : Z -> A) : Z -> A := fun j => if j =? i then v else f j.
Definition with_nodes (f : Z -> lazylist_node_t) (l : lazylist_t) : lazylist_t := mk_list (head_idx l) (free_head_idx l) (free_head_lock l) f (marks l).
Definition with_free_head (i : Z) (l : lazylist_t) : lazylist_t := mk_list (head_idx l) i (free_head_lock l) (nodes l) (marks l).
Definition with_free_lock (v : Z) (l : lazylist_t) : lazylist_t := mk_list (head_idx l) (free_head_idx l) v (nodes l) (marks l).

Definition set_node (i : Z) (g : lazylist_node_t -> lazylist_node_t) (l : lazylist_t) : outcome lazylist_t :=
  if node_in i then Ret (with_nodes (upd i (g (nodes l i)) (nodes l)) l) else Undef.
Definition set_mark (i v : Z) (l : lazylist_t) : outcome lazylist_t :=
  if mark_in i then Ret (mk_list (head_idx l) (free_head_idx l) (free_head_lock l) (nodes l) (upd i v (marks l))) else Undef.

Definition with_idx (v : Z) (n : lazylist_node_t) := mk_node v (range n) (lock n) (next_idx n).
Definition with_range (v : lazylist_range_t) (n : lazylist_node_t) := mk_node (idx n) v (lock n) (next_idx n).
Definition with_lock (v : Z) (n : lazylist_node_t) := mk_node (idx n) (range n) v (next_idx n).
Definition with_next (v : Z) (n : lazylist_node_t) := mk_node (idx n) (range n) (lock n) v.
Definition with_left (v : Z) (n : lazylist_node_t) := with_range (mk_range v (right (range n))) n.
Definition with_right (v : Z) (n : lazylist_node_t) := with_range (mk_range (left (range n)) v) n.

(** [spin_lock_lock] and [spin_lock_unlock] on a node, and on the free list. *)
Definition lock_node (i : Z) (l : lazylist_t) : outcome lazylist_t :=
  n ← GET_NODE_PTR l i; if negb (lock n =? 0) then Spin else set_node i (with_lock (Z.lor (lock n) 1)) l.
Definition unlock_node (i : Z) (l : lazylist_t) : outcome lazylist_t := set_node i (with_lock 0) l.
Definition lock_free (l : lazylist_t) : outcome lazylist_t :=
  if negb (free_head_lock l =? 0) then Spin else Ret (with_free_lock (Z.lor (free_head_lock l) 1) l).
Definition unlock_free (l : lazylist_t) : lazylist_t := with_free_lock 0 l.

(** ** Operations *)

(** The loop of [lazylist_init]: node [i], then the following [n - 1]. *)
Fixpoint init_loop (n : nat) (i : Z) (l : lazylist_t) : outcome lazylist_t :=
  match n with
  | O => Ret l
  | S n' =>
      l ← set_node i (fun nd => with_lock 0 (with_next (u32 (i + 1)) (with_idx i nd))) l;
      l ← set_mark i 0 l;
      init_loop n' (i + 1) l
  end.

Definition lazylist_init (l : lazylist_t) (capacity : Z) : outcome lazylist_t :=
  let num_actual_nodes := u32 (capacity - 2) in
  l ← init_loop (Z.to_nat num_actual_nodes) 0 l;
  l ← set_node (u32 (num_actual_nodes - 1)) (with_next EOL) l;
  l ← set_node num_actual_nodes (fun _ => mk_node num_actual_nodes (mk_range INT32_MIN INT32_MIN) 0 (u32 (num_actual_nodes + 1))) l;
  l ← set_node (u32 (num_actual_nodes + 1)) (fun _ => mk_node (u32 (num_actual_nodes + 1)) (mk_range INT32_MAX INT32_MAX) 0 EOL) l;
  n ← GET_NODE_PTR l num_actual_nodes;
  Ret (mk_list (idx n) 0 0 (nodes l) (marks l)).

(** The result, the free node when it is 1. *)
Definition lazylist_get_free_node (l : lazylist_t) : outcome (Z * Z * lazylist_t) :=
  l ← lock_free l;
  '(res, free_node, l) ←
    (if negb (free_head_lock l =? EOL) then
       n ← GET_NODE_PTR l (free_head_idx l);
       Ret (1, free_head_idx l, with_free_head (next_idx n) l)
     else Ret (0, 0, l));
  Ret (res, free_node, unlock_free l).

Definition lazylist_put_free_node (freed_node : Z) (l : lazylist_t) : outcome lazylist_t :=
  l ← lock_free l;
  l ← set_node freed_node (with_next (free_head_idx l)) l;
  n ← GET_NODE_PTR l freed_node;
  Ret (unlock_free (with_free_head (idx n) l)).

Fixpoint find_loop (fuel : nat) (r : lazylist_range_t) (pred curr : Z) (l : lazylist_t) : outcome (Z * Z) :=
  n ← GET_NODE_PTR l curr;
  if right (range n) <? left r then
    match fuel with O => Spin | S fuel' => find_loop fuel' r curr (next_idx n) l end
  else Ret (pred, curr).

(** The turns the list can need: one per node. *)
Definition FIND_FUEL : nat := 130.

(** [None]: 0 is returned. *)
Definition lazylist_find_pred (l : lazylist_t) (r : lazylist_range_t) : outcome (option (Z * Z)) :=
  '(pred, curr) ← find_loop FIND_FUEL r (head_idx l) (head_idx l) l;
  n ← GET_NODE_PTR l curr;
  Ret (if left (range n) <=? right r then None else Some (pred, curr)).

Definition lazylist_validate (l : lazylist_t) (pred curr : Z) : outcome bool :=
  p ← GET_NODE_PTR l pred;
  mp ← IS_NODE_MARKED l (idx p);
  if (mp : bool) then Ret false
  else
    c ← GET_NODE_PTR l curr;
    mc ← IS_NODE_MARKED l (idx c);
    Ret (negb mc && (next_idx p =? idx c)).

(** The part of [lazylist_insert] between the locks: [error], [to_delete]. *)
Definition insert_between (r : lazylist_range_t) (pred curr : Z) (l : lazylist_t) : outcome (Z * option Z * lazylist_t) :=
  p ← GET_NODE_PTR l pred;
  c ← GET_NODE_PTR l curr;
  let connects_left := (right (range p) + 1 =? left r) && (left (range p) >? INT32_MIN) in
  let connects_right := (right r + 1 =? left (range c)) && (left (range c) <? INT32_MAX) in
  if connects_left && connects_right then
    l ← set_node pred (with_right (right (range c))) l;
    l ← set_mark (idx c) 1 l;
    l ← set_node pred (with_next (next_idx c)) l;
    Ret (0, Some curr, l)
  else if connects_left then
    l ← set_node pred (with_right (right r)) l;
    Ret (0, None, l)
  else if connects_right then
    l ← set_node curr (with_left (left r)) l;
    Ret (0, None, l)
  else
    '(got, new, l) ← lazylist_get_free_node l;
    if got =? 0 then Ret (1, None, l)
    else
      l ← set_node new (with_range r) l;
      n ← GET_NODE_PTR l new;
      l ← set_mark (idx n) 0 l;
      l ← set_node new (fun nd => with_next (idx c) (with_lock 0 nd)) l;
      l ← set_node pred (with_next (idx n)) l;
      Ret (0, None, l).

Fixpoint lazylist_insert (fuel : nat) (r : lazylist_range_t) (l : lazylist_t) : outcome (Z * lazylist_t) :=
  match fuel with
  | O => Spin
  | S fuel' =>
      found ← lazylist_find_pred l r;
      match found with
      | None => Ret (0, l)
      | Some (pred, curr) =>
          l ← lock_node pred l;
          l ← lock_node curr l;
          valid ← lazylist_validate l pred curr;
          if (valid : bool) then
            '(error, to_delete, l) ← insert_between r pred curr l;
            l ← unlock_node curr l;
            l ← unlock_node pred l;
            l ← (match to_delete with Some d => lazylist_put_free_node d l | None => Ret l end);
            Ret (error, l)
          else
            l ← unlock_node curr l;
            l ← unlock_node pred l;
            lazylist_insert fuel' r l
      end
  end.

(** The range when 1 is returned, [None] when 0 is. *)
Fixpoint lazylist_pop_front (fuel : nat) (range_left : Z) (l : lazylist_t) : outcome (option lazylist_range_t * lazylist_t) :=
  match fuel with
  | O => Spin
  | S fuel' =>
      if head_idx l =? EOL then Ret (None, l)
      else
        head ← GET_NODE_PTR l (head_idx l);
        let front := next_idx head in
        f ← GET_NODE_PTR l front;
        let front_next := next_idx f in
        if left (range f) =? INT32_MAX then Ret (None, l)
        else if negb (u32 range_left =? RANGE_START_ANY) && negb (left (range f) =? range_left) then Ret (None, l)
        else
          l ← lock_node front l;
          l ← lock_node front_next l;
          valid ← lazylist_validate l front front_next;
          if valid && ((left (range f) =? range_left) || (u32 range_left =? RANGE_START_ANY)) then
            f ← GET_NODE_PTR l front;
            l ← set_mark (idx f) 1 l;
            fn ← GET_NODE_PTR l front_next;
            l ← set_node (head_idx l) (with_next (idx fn)) l;
            l ← unlock_node front_next l;
            l ← unlock_node front l;
            l ← lazylist_put_free_node (idx f) l;
            Ret (Some (range f), l)
          else
            l ← unlock_node front_next l;
            l ← unlock_node front l;
            lazylist_pop_front fuel' range_left l
  end.

(** ** The handlers *)

Record rb_state := mk_rb { rb_list : lazylist_t; next_expected_byte : Z }.

Definition ooorb_hh (s : rb_state) : outcome rb_state := l ← lazylist_init (rb_list s) NUM_SEGMENTS; Ret (mk_rb l 0).

(** A packet is the words [pkt_info]; with the state, the range popped. *)
Definition ooorb_ph (fuel : nat) (op w1 w2 : Z) (s : rb_state) : outcome (option lazylist_range_t * rb_state) :=
  let r := mk_range (s32 w1) (s32 w2) in
  if op =? 0 then
    '(_, l) ← lazylist_insert fuel r (rb_list s); Ret (None, mk_rb l (next_expected_byte s))
  else if op =? 1 then
    '(popped, l) ← lazylist_pop_front fuel (s32 (next_expected_byte s)) (rb_list s);
    Ret (popped, mk_rb l (match popped with Some r => u32 (right r + 1) | None => next_expected_byte s end))
  else Ret (None, s).

(** What the completion handler prints: the ranges from the left sentinel on. *)
Fixpoint print_loop (fuel : nat) (head : lazylist_node_t) (l : lazylist_t) : outcome (list lazylist_range_t) :=
  match fuel with
  | O => Spin
  | S fuel' =>
      nx ← GET_NODE_PTR l (next_idx head);
      if right (range nx) =? INT32_MAX then Ret [range head]
      else rest ← print_loop fuel' nx l; Ret (range head :: rest)
  end.

Definition ooorb_th (fuel : nat) (s : rb_state) : outcome (list lazylist_range_t * rb_state) :=
  '(_, l) ← lazylist_pop_front fuel (s32 (next_expected_byte s)) (rb_list s);
  head ← GET_NODE_PTR l (head_idx l);
  out ← print_loop FIND_FUEL head l;
  Ret (out, mk_rb l (next_expected_byte s)).

(** ** Sets of bytes as ranges *)

Definition in_range (x : Z) (r : lazylist_range_t) : Prop := left r <= x <= right r.
Definition covered (rs : list lazylist_range_t) (x : Z) : Prop := Exists (in_range x) rs.

(** In order, not empty, and no two that touch: the coarsest ranges of the
    set they cover. *)
Fixpoint normal (lo : Z) (rs : list lazylist_range_t) : Prop :=
  match rs with
  | [] => lo <= INT32_MAX + 1
  | r :: rs' => lo <= left r <= right r /\ normal (right r + 2) rs'
  end.
Definition hi (lo : Z) (rs : list lazylist_range_t) : Z := foldl (fun _ r => right r + 2) lo rs.

(** The reference: the union with a range, in that form. *)
Fixpoint ins (r : lazylist_range_t) (rs : list lazylist_range_t) : list lazylist_range_t :=
  match rs with
  | [] => [r]
  | c :: rs' =>
      if right r + 1 <? left c then r :: rs
      else if right c + 1 <? left r then c :: ins r rs'
      else ins (mk_range (Z.min (left r) (left c)) (Z.max (right r) (right c))) rs'
  end.

Lemma normal_weaken lo lo' rs : lo' <= lo -> normal lo rs -> normal lo' rs.
Proof. destruct rs as [|r rs]; cbn [normal]; [lia|]. intros ? [? ?]. split; [lia|done]. Qed.

Lemma normal_bound lo rs : normal lo rs -> lo <= INT32_MAX + 1.
Proof. revert lo. induction rs as [|r rs IH]; cbn; intros lo H; [done|]. destruct H as [? H%IH]. lia. Qed.

Lemma normal_app lo D E : normal lo (D ++ E) <-> normal lo D /\ normal (hi lo D) E.
Proof.
  revert lo. induction D as [|r D IH]; intros lo; cbn [app normal hi foldl]; [|rewrite IH; unfold hi; tauto].
  split; [|tauto]. intros H. split; [exact (normal_bound _ _ H)|done].
Qed.

Lemma hi_app lo D E : hi lo (D ++ E) = hi (hi lo D) E.
Proof. apply foldl_app. Qed.

Lemma normal_in_range lo rs x : normal lo rs -> covered rs x -> lo <= x < INT32_MAX.
Proof.
  revert lo. induction rs as [|r rs IH]; intros lo H Hc; [by inversion Hc|]. destruct H as [H1 H2]. pose proof (normal_bound _ _ H2).
  apply Exists_cons in Hc as [Hc|Hc]; [unfold in_range in Hc; lia|]. specialize (IH _ H2 Hc). lia.
Qed.

Lemma normal_ins r rs lo : normal lo rs -> lo <= left r <= right r -> right r < INT32_MAX -> normal lo (ins r rs).
Proof.
  revert r lo. induction rs as [|c rs IH]; intros r lo H Hr Hm; cbn [ins]; [cbn; lia|]. destruct H as [H1 H2]. pose proof (normal_bound _ _ H2).
  destruct (Z.ltb_spec (right r + 1) (left c)); [cbn; split; [lia|split; [lia|done]]|].
  destruct (Z.ltb_spec (right c + 1) (left r)); [cbn; split; [done|apply IH; [done|lia|done]]|].
  apply IH; cbn [left right]; [by eapply normal_weaken, H2; lia|lia|lia].
Qed.

Lemma covered_ins r rs lo x : normal lo rs -> left r <= right r -> covered (ins r rs) x <-> in_range x r \/ covered rs x.
Proof.
  revert r lo. induction rs as [|c rs IH]; intros r lo H Hr; cbn [ins].
  - unfold covered. rewrite Exists_cons. done.
  - destruct H as [H1 H2]. destruct (Z.ltb_spec (right r + 1) (left c)); [unfold covered; by rewrite Exists_cons|].
    destruct (Z.ltb_spec (right c + 1) (left r)).
    + unfold covered in *. rewrite !Exists_cons. rewrite (IH r _ H2 Hr). tauto.
    + rewrite (IH _ _ H2) by (cbn; lia). unfold covered. rewrite Exists_cons. unfold in_range. cbn [left right].
      assert (Z.min (left r) (left c) <= x <= Z.max (right r) (right c) <-> left r <= x <= right r \/ left c <= x <= right c) as -> by lia. tauto.
Qed.

Lemma ins_skip r D E : Forall (fun c => right c + 1 < left r) D -> left r <= right r -> Forall (fun c => left c <= right c) D -> ins r (D ++ E) = D ++ ins r E.
Proof.
  induction 1 as [|c D Hc HD IH]; intros Hr Hn; [done|]. inversion_clear Hn. cbn [app ins]. rewrite (proj2 (Z.ltb_ge _ _)) by lia. rewrite (proj2 (Z.ltb_lt _ _)) by lia. f_equal. by apply IH.
Qed.

Lemma normal_Forall lo rs : normal lo rs -> Forall (fun c => left c <= right c /\ lo <= left c /\ right c < INT32_MAX) rs.
Proof.
  revert lo. induction rs as [|r rs IH]; intros lo H; constructor; destruct H as [H1 H2].
  - pose proof (normal_bound _ _ H2). lia.
  - eapply Forall_impl; [by apply IH|]. cbn. intros; lia.
Qed.

Lemma normal_below lo D : normal lo D -> Forall (fun c => right c + 2 <= hi lo D) D.
Proof.
  revert lo. induction D as [|r D IH]; intros lo H; constructor; destruct H as [H1 H2].
  - cbn [hi foldl]. clear -H2. revert H2. generalize (right r + 2). clear. induction D as [|s D IH]; intros lo H; cbn [foldl]; [lia|]. destruct H as [H1 H2]. specialize (IH _ H2). lia.
  - cbn [hi foldl]. by apply IH.
Qed.

(** ** The list in the array *)

Definition LS : lazylist_range_t := mk_range INT32_MIN INT32_MIN.
Definition RS : lazylist_range_t := mk_range INT32_MAX INT32_MAX.

(** Following [next_idx] from [i], the nodes [es] with their ranges, none of
    them marked, then [j]. *)
Fixpoint path (l : lazylist_t) (i : Z) (es : list (Z * lazylist_range_t)) (j : Z) : Prop :=
  match es with
  | [] => i = j
  | (k, r) :: es' => i = k /\ range (nodes l k) = r /\ marks l k = 0 /\ path l (next_idx (nodes l k)) es' j
  end.

Fixpoint fpath (l : lazylist_t) (i : Z) (fs : list Z) (j : Z) : Prop :=
  match fs with [] => i = j | k :: fs' => i = k /\ fpath l (next_idx (nodes l k)) fs' j end.

(** The ranges [es] between the sentinels, the free nodes [fs], and every
    node in one of the two. *)
Record list_inv (l : lazylist_t) (es : list (Z * lazylist_range_t)) (fs : list Z) : Prop := {
  li_head : head_idx l = 126;
  li_free_lock : free_head_lock l = 0;
  li_path : path l 126 ((126, LS) :: es ++ [(127, RS)]) EOL;
  li_free : fpath l (free_head_idx l) fs EOL;
  li_ids : 126 :: es.*1 ++ 127 :: fs ≡ₚ seqZ 0 128;
  li_nodes : forall i, 0 <= i < 128 -> idx (nodes l i) = i /\ lock (nodes l i) = 0;
}.

Lemma path_app l i es1 es2 j : path l i (es1 ++ es2) j <-> exists m, path l i es1 m /\ path l m es2 j.
Proof.
  revert i. induction es1 as [|[k r] es1 IH]; intros i; cbn [app path].
  - split; [intros H; by exists i|by intros (m & -> & H)].
  - rewrite IH. split; [intros (? & ? & ? & m & ? & ?); by exists m|]. intros (m & (? & ? & ? & ?) & ?). split_and!; try done. by exists m.
Qed.

Lemma path_frame l l' i es j : (forall k, k ∈ es.*1 -> nodes l' k = nodes l k /\ marks l' k = marks l k) -> path l i es j -> path l' i es j.
Proof.
  revert i. induction es as [|[k r] es IH]; intros i Hf; [done|]. cbn [path]. intros (? & ? & ? & ?).
  destruct (Hf k) as [-> ->]; [left|]. split_and!; try done. apply IH; [|done]. intros k' Hk'. apply Hf. by right.
Qed.

Lemma fpath_frame l l' i fs j : (forall k, k ∈ fs -> nodes l' k = nodes l k) -> fpath l i fs j -> fpath l' i fs j.
Proof.
  revert i. induction fs as [|k fs IH]; intros i Hf; [done|]. cbn [fpath]. intros [? ?].
  rewrite (Hf k) by left. split; [done|]. apply IH; [|done]. intros k' Hk'. apply Hf. by right.
Qed.

Lemma at_upd_eq {A} i (v : A) f : upd i v f i = v.
Proof. unfold upd. by rewrite Z.eqb_refl. Qed.
Lemma at_upd_ne {A} i j (v : A) f : j <> i -> upd i v f j = f j.
Proof. intros H. unfold upd. by rewrite (proj2 (Z.eqb_neq _ _)). Qed.

Lemma get_ok l i : 0 <= i < 128 -> GET_NODE_PTR l i = Ret (nodes l i).
Proof. intros H. unfold GET_NODE_PTR, node_in, NUM_SEGMENTS. by rewrite (proj2 (Z.leb_le _ _)), (proj2 (Z.ltb_lt _ _)) by lia. Qed.
Lemma set_node_ok i g l : 0 <= i < 128 -> set_node i g l = Ret (with_nodes (upd i (g (nodes l i)) (nodes l)) l).
Proof. intros H. unfold set_node, node_in, NUM_SEGMENTS. by rewrite (proj2 (Z.leb_le _ _)), (proj2 (Z.ltb_lt _ _)) by lia. Qed.
Lemma marked_ok l i : 0 <= i < 128 -> IS_NODE_MARKED l i = Ret (negb (marks l i =? 0)).
Proof. intros H. unfold IS_NODE_MARKED, mark_in, NUM_SEGMENTS. by rewrite (proj2 (Z.leb_le _ _)), (proj2 (Z.ltb_lt _ _)) by lia. Qed.
Lemma set_mark_ok i v l : 0 <= i < 128 -> set_mark i v l = Ret (mk_list (head_idx l) (free_head_idx l) (free_head_lock l) (nodes l) (upd i v (marks l))).
Proof. intros H. unfold set_mark, mark_in, NUM_SEGMENTS. by rewrite (proj2 (Z.leb_le _ _)), (proj2 (Z.ltb_lt _ _)) by lia. Qed.
Lemma lock_ok i l : 0 <= i < 128 -> lock (nodes l i) = 0 -> lock_node i l = Ret (with_nodes (upd i (with_lock 1 (nodes l i)) (nodes l)) l).
Proof. intros H Hl. unfold lock_node. rewrite get_ok by done. cbn [mbind outcome_bind]. rewrite Hl. cbn [Z.eqb negb]. by rewrite set_node_ok by done. Qed.
Lemma unlock_ok i l : 0 <= i < 128 -> unlock_node i l = Ret (with_nodes (upd i (with_lock 0 (nodes l i)) (nodes l)) l).
Proof. intros H. unfold unlock_node. by rewrite set_node_ok. Qed.

(** What an operation that takes the locks of two nodes finds in a place of
    the list. *)
Record place (l : lazylist_t) (fs : list Z) (A : list (Z * lazylist_range_t)) (p : Z) (pr : lazylist_range_t) (c : Z) (cr : lazylist_range_t)
    (B : list (Z * lazylist_range_t)) : Prop := {
  pl_before : path l 126 A p;
  pl_p : range (nodes l p) = pr /\ marks l p = 0 /\ next_idx (nodes l p) = c;
  pl_c : range (nodes l c) = cr /\ marks l c = 0;
  pl_after : path l (next_idx (nodes l c)) B EOL;
  pl_ids : A.*1 ++ p :: c :: B.*1 ++ fs ≡ₚ seqZ 0 128;
}.

Lemma place_at l es fs A p pr c cr B :
  list_inv l es fs -> (126, LS) :: es ++ [(127, RS)] = A ++ (p, pr) :: (c, cr) :: B -> place l fs A p pr c cr B.
Proof.
  intros H E. pose proof (li_path _ _ _ H) as Hp. rewrite E in Hp. apply path_app in Hp as (m & HA & Hp). cbn [path] in Hp. destruct Hp as (-> & Hpr & Hpm & Hpn & Hcr & Hcm & HB).
  split; [done|done|done|done|]. pose proof (li_ids _ _ _ H) as Hi. rewrite <- Hi. apply (f_equal (fmap fst)) in E. rewrite fmap_cons, !fmap_app, !fmap_cons in E. cbn [fst fmap list_fmap] in E.
  assert (126 :: es.*1 ++ 127 :: fs = (126 :: (es.*1 ++ [127])) ++ fs) as -> by (cbn [app]; by rewrite <- app_assoc). rewrite E. by rewrite <- app_assoc.
Qed.

Section Place.
Context l fs A p pr c cr B (Hp : place l fs A p pr c cr B).

Lemma place_bound k : k ∈ A.*1 \/ k = p \/ k = c \/ k ∈ B.*1 \/ k ∈ fs -> 0 <= k < 128.
Proof.
  intros Hk. assert (k ∈ seqZ 0 128) as H; [|apply elem_of_seqZ in H; lia]. rewrite <- (pl_ids _ _ _ _ _ _ _ _ Hp). set_solver.
Qed.

Lemma place_NoDup : NoDup (A.*1 ++ p :: c :: B.*1 ++ fs).
Proof. rewrite (pl_ids _ _ _ _ _ _ _ _ Hp). apply NoDup_seqZ. Qed.

Lemma place_distinct : p <> c /\ (forall k, k ∈ A.*1 \/ k ∈ B.*1 \/ k ∈ fs -> k <> p /\ k <> c).
Proof.
  pose proof place_NoDup as H. apply NoDup_app in H as (_ & H1 & H2). apply NoDup_cons in H2 as [Hpn H2]. apply NoDup_cons in H2 as [Hc H2]. split; [set_solver|].
  intros k [Hk|[Hk|Hk]]; [specialize (H1 k Hk); set_solver|set_solver..].
Qed.
Lemma place_free_distinct k : k ∈ fs -> k ∉ A.*1 /\ k ∉ B.*1.
Proof.
  intros Hk. pose proof place_NoDup as H. apply NoDup_app in H as (_ & H1 & H2). apply NoDup_cons in H2 as [_ H2]. apply NoDup_cons in H2 as [_ H2]. apply NoDup_app in H2 as (_ & H2 & _). split; [intros Ha; specialize (H1 k Ha); set_solver|intros Hb; by specialize (H2 k Hb)].
Qed.
End Place.

Lemma rebuild l l' fs A p pr c cr B M es' fs' :
  place l fs A p pr c cr B -> (126, LS) :: es' ++ [(127, RS)] = A ++ M ++ B ->
  (forall k, k ∈ A.*1 \/ k ∈ B.*1 -> nodes l' k = nodes l k /\ marks l' k = marks l k) ->
  path l' p M (next_idx (nodes l c)) -> fpath l' (free_head_idx l') fs' EOL -> M.*1 ++ fs' ≡ₚ p :: c :: fs ->
  head_idx l' = 126 -> free_head_lock l' = 0 -> (forall i, 0 <= i < 128 -> idx (nodes l' i) = i /\ lock (nodes l' i) = 0) ->
  list_inv l' es' fs'.
Proof.
  intros Hpl E Hf HM Hfree Hids Hh Hl Hn. split; try done.
  - rewrite E. apply path_app. exists p. split; [apply (path_frame l); [auto|exact (pl_before _ _ _ _ _ _ _ _ Hpl)]|]. apply path_app. eexists. split; [exact HM|].
    apply (path_frame l); [auto|exact (pl_after _ _ _ _ _ _ _ _ Hpl)].
  - apply (f_equal (fmap fst)) in E. rewrite fmap_cons, !fmap_app in E. cbn [fst fmap list_fmap] in E.
    assert (126 :: es'.*1 ++ 127 :: fs' = (126 :: (es'.*1 ++ [127])) ++ fs') as -> by (cbn [app]; by rewrite <- app_assoc). rewrite E.
    rewrite <- (pl_ids _ _ _ _ _ _ _ _ Hpl), <- !app_assoc. apply Permutation_app_head. rewrite (Permutation_app_comm B.*1 fs'), app_assoc, Hids. cbn [app]. by rewrite (Permutation_app_comm fs B.*1).
Qed.

(** ** Finding the place *)

Lemma find_loop_ok l r j c cr B : left r <= right cr -> forall D fuel pred i,
  path l i (D ++ (c, cr) :: B) j -> Forall (fun k => 0 <= k < 128) (D.*1 ++ [c]) -> Forall (fun s => right s < left r) D.*2 -> (length D <= fuel)%nat ->
  find_loop fuel r pred i l = Ret (default pred (last D.*1), c).
Proof.
  intros Hc. induction D as [|[k s] D IH]; intros fuel pred i Hp Hb Hr Hl; cbn [app path] in Hp.
  - destruct Hp as (-> & E & _). inversion_clear Hb as [|? ? H1 _]. destruct fuel; cbn [find_loop]; rewrite get_ok by done; cbn [mbind outcome_bind]; rewrite E, (proj2 (Z.ltb_ge _ _)) by lia; done.
  - destruct Hp as (-> & E & _ & Hp). cbn [fmap list_fmap fst snd app] in Hb, Hr. apply Forall_cons in Hb as [Hk Hb]. apply Forall_cons in Hr as [Hs Hr].
    destruct fuel as [|fuel]; [cbn in Hl; lia|]. cbn [find_loop]. rewrite get_ok by done. cbn [mbind outcome_bind]. rewrite E, (proj2 (Z.ltb_lt _ _)) by lia.
    rewrite (IH fuel k _ Hp Hb Hr) by (cbn in Hl; lia). do 2 f_equal. rewrite fmap_cons, last_cons. by destruct (last D.*1).
Qed.

Lemma split_ranges (es : list (Z * lazylist_range_t)) x :
  exists D E, es = D ++ E /\ Forall (fun s => right s < x) D.*2 /\ match E with [] => True | (_, s) :: _ => x <= right s end.
Proof.
  induction es as [|[k s] es IH]; [by exists [], []|]. destruct (Z.lt_ge_cases (right s) x) as [H|H].
  - destruct IH as (D & E & -> & HD & HE). exists ((k, s) :: D), E. split; [done|]. split; [by constructor|done].
  - exists [], ((k, s) :: es). done.
Qed.

Lemma inv_length l es fs : list_inv l es fs -> (length es + length fs)%nat = 126%nat.
Proof. intros H. pose proof (Permutation_length (li_ids _ _ _ H)) as E. cbn [length] in E. rewrite length_app, length_fmap, length_seqZ in E. cbn [length] in E. change (Z.to_nat 128) with 128%nat in E. lia. Qed.

Lemma inv_bound l es fs k : list_inv l es fs -> k = 126 \/ k = 127 \/ k ∈ es.*1 \/ k ∈ fs -> 0 <= k < 128.
Proof. intros H Hk. assert (k ∈ seqZ 0 128) as Hs; [|apply elem_of_seqZ in Hs; lia]. rewrite <- (li_ids _ _ _ H). set_solver. Qed.

(** The node before and the node after the range. *)
Lemma find_pred_splits l es fs r D E A p pr c cr B :
  list_inv l es fs -> es = D ++ E -> Forall (fun s => right s < left r) D.*2 -> INT32_MIN < left r -> left r <= right cr ->
  (126, LS) :: D = A ++ [(p, pr)] -> E ++ [(127, RS)] = (c, cr) :: B ->
  lazylist_find_pred l r = Ret (if left cr <=? right r then None else Some (p, c)) /\ place l fs A p pr c cr B.
Proof.
  intros H -> HD Hr Hcr EA EB. assert ((126, LS) :: (D ++ E) ++ [(127, RS)] = A ++ (p, pr) :: (c, cr) :: B) as EF.
  { rewrite <- app_assoc, EB. change ((126, LS) :: D ++ (c, cr) :: B) with (((126, LS) :: D) ++ (c, cr) :: B). rewrite EA. by rewrite <- app_assoc. }
  pose proof (place_at _ _ _ _ _ _ _ _ _ H EF) as Hpl. split; [|done]. pose proof (li_path _ _ _ H) as HP. rewrite EF in HP.
  unfold lazylist_find_pred. rewrite (li_head _ _ _ H).
  rewrite (find_loop_ok l r EOL c cr B Hcr (A ++ [(p, pr)])).
  - cbn [mbind outcome_bind]. rewrite fmap_app. cbn [fmap list_fmap fst]. rewrite last_snoc. cbn [default from_option]. rewrite get_ok by (apply (place_bound _ _ _ _ _ _ _ _ Hpl); tauto). unfold mbind, outcome_bind. by rewrite (proj1 (pl_c _ _ _ _ _ _ _ _ Hpl)).
  - rewrite <- app_assoc. exact HP.
  - apply Forall_forall. intros k Hk. apply (place_bound _ _ _ _ _ _ _ _ Hpl). rewrite fmap_app in Hk. set_solver.
  - rewrite <- EA. constructor; [cbn; unfold LS; cbn [right]; lia|done].
  - pose proof (inv_length _ _ _ H) as HL. rewrite length_app in HL. apply (f_equal length) in EA. cbn [length] in EA. unfold FIND_FUEL. lia.
Qed.

(** ** Insertion *)

Ltac ll_cbn :=
  cbn [mbind outcome_bind with_nodes with_free_head with_free_lock unlock_free nodes marks head_idx free_head_idx free_head_lock
       idx range lock next_idx with_idx with_range with_lock with_next with_left with_right left right].

Section Insert.
Context l es fs A p pr c cr B (Hi : list_inv l es fs) (Hp : place l fs A p pr c cr B).

Lemma place_p : 0 <= p < 128.
Proof. apply (place_bound _ _ _ _ _ _ _ _ Hp). tauto. Qed.
Lemma place_c : 0 <= c < 128.
Proof. apply (place_bound _ _ _ _ _ _ _ _ Hp). tauto. Qed.
Lemma place_ne : p <> c /\ c <> p.
Proof. destruct (place_distinct _ _ _ _ _ _ _ _ Hp) as [H _]. auto. Qed.

(** The list with both locks taken. *)
Definition locked2 (a b : Z) (l : lazylist_t) : lazylist_t := with_nodes (upd b (with_lock 1 (nodes l b)) (upd a (with_lock 1 (nodes l a)) (nodes l))) l.

Lemma lock_both a b : 0 <= a < 128 -> 0 <= b < 128 -> a <> b -> (l1 ← lock_node a l; lock_node b l1) = Ret (locked2 a b l).
Proof.
  intros Ha Hb Hab. destruct (li_nodes _ _ _ Hi a Ha) as [_ La]. destruct (li_nodes _ _ _ Hi b Hb) as [_ Lb]. rewrite lock_ok by done. ll_cbn. rewrite lock_ok; ll_cbn; rewrite ?(at_upd_ne a b) by done; done.
Qed.

Lemma validate_ok : lazylist_validate (locked2 p c l) p c = Ret true.
Proof.
  pose proof place_p as pb. pose proof place_c as cb. destruct place_ne as [pc cp]. destruct (li_nodes _ _ _ Hi p pb) as [Ip _]. destruct (li_nodes _ _ _ Hi c cb) as [Ic _]. destruct (pl_p _ _ _ _ _ _ _ _ Hp) as (_ & Mp & Np). destruct (pl_c _ _ _ _ _ _ _ _ Hp) as (_ & Mc).
  unfold lazylist_validate, locked2. rewrite !get_ok by done. ll_cbn. rewrite at_upd_eq, (at_upd_ne c p), at_upd_eq by done. ll_cbn. rewrite Ip, Ic, !marked_ok by done. ll_cbn. rewrite Mp, Mc, Np. cbn. by rewrite Z.eqb_refl.
Qed.

Lemma insert_unfold fuel r : lazylist_find_pred l r = Ret (Some (p, c)) ->
  lazylist_insert (S fuel) r l =
    ('(error, to_delete, l) ← insert_between r p c (locked2 p c l);
     l ← unlock_node c l; l ← unlock_node p l;
     l ← (match to_delete with Some d => lazylist_put_free_node d l | None => Ret l end);
     Ret (error, l)).
Proof.
  intros E. cbn [lazylist_insert]. rewrite E. pose proof (lock_both p c place_p place_c (proj1 place_ne)) as EL. unfold mbind, outcome_bind in EL |- *.
  destruct (lock_node p l) as [l1| |]; [|done..]. rewrite EL. by rewrite validate_ok.
Qed.
End Insert.

Lemma get_free_ok l n : free_head_lock l = 0 -> free_head_idx l = n -> 0 <= n < 128 ->
  lazylist_get_free_node l = Ret (1, n, mk_list (head_idx l) (next_idx (nodes l n)) 0 (nodes l) (marks l)).
Proof. intros Hl <- Hb. unfold lazylist_get_free_node, lock_free. rewrite Hl. cbn [Z.eqb negb]. ll_cbn. by rewrite get_ok by done. Qed.

Lemma put_free_ok l d : free_head_lock l = 0 -> 0 <= d < 128 ->
  lazylist_put_free_node d l = Ret (mk_list (head_idx l) (idx (nodes l d)) 0 (upd d (with_next (free_head_idx l) (nodes l d)) (nodes l)) (marks l)).
Proof.
  intros Hl Hb. unfold lazylist_put_free_node, lock_free. rewrite Hl. cbn [Z.eqb negb]. ll_cbn. rewrite set_node_ok by done. ll_cbn. rewrite get_ok by done. ll_cbn. by rewrite at_upd_eq.
Qed.

(** The rest of an insertion, once the place is locked. *)
Definition insert_rest (r : lazylist_range_t) (p c : Z) (l : lazylist_t) : outcome (Z * lazylist_t) :=
  '(error, to_delete, l) ← insert_between r p c (locked2 p c l);
  l ← unlock_node c l; l ← unlock_node p l;
  l ← (match to_delete with Some d => lazylist_put_free_node d l | None => Ret l end);
  Ret (error, l).

Ltac ll_step := first [rewrite get_ok by done | rewrite set_node_ok by done | rewrite set_mark_ok by done | rewrite unlock_ok by done | rewrite at_upd_eq | rewrite at_upd_ne by done]; ll_cbn.

(** What is left to show of the nodes of a list that was rebuilt. *)
Ltac upd_cases := unfold upd; repeat match goal with |- context [?a =? ?b] => destruct (Z.eqb_spec a b); subst; try congruence end.

Section Insert2.
Context l es fs A p pr c cr B (Hi : list_inv l es fs) (Hp : place l fs A p pr c cr B).

Ltac start_insert :=
  pose proof (place_p _ _ _ _ _ _ _ _ Hp) as pb; pose proof (place_c _ _ _ _ _ _ _ _ Hp) as cb; destruct (place_ne _ _ _ _ _ _ _ _ Hp) as [pc cp];
  destruct (li_nodes _ _ _ Hi p pb) as [Ip Lp]; destruct (li_nodes _ _ _ Hi c cb) as [Ic Lc];
  destruct (pl_p _ _ _ _ _ _ _ _ Hp) as (Rp & Mp & Np); destruct (pl_c _ _ _ _ _ _ _ _ Hp) as (Rc & Mc);
  destruct (place_distinct _ _ _ _ _ _ _ _ Hp) as [_ Hd].

Definition connects_left (r : lazylist_range_t) : bool := (right pr + 1 =? left r) && (left pr >? INT32_MIN).
Definition connects_right (r : lazylist_range_t) : bool := (right r + 1 =? left cr) && (left cr <? INT32_MAX).

Ltac open_insert r Rp Rc :=
  unfold insert_rest, insert_between, locked2; rewrite !get_ok by done; ll_cbn; rewrite at_upd_eq, (at_upd_ne c p), at_upd_eq by done; ll_cbn; rewrite Rp, Rc;
  fold (connects_left r) (connects_right r).

Lemma insert_new r n fs' D E :
  (126, LS) :: D = A ++ [(p, pr)] -> E ++ [(127, RS)] = (c, cr) :: B -> connects_left r = false -> connects_right r = false -> fs = n :: fs' ->
  exists l', insert_rest r p c l = Ret (0, l') /\ list_inv l' (D ++ (n, r) :: E) fs'.
Proof.
  intros ED EE Hl Hr Hfs. start_insert. assert (0 <= n < 128) as nb by (apply (place_bound _ _ _ _ _ _ _ _ Hp); rewrite Hfs; set_solver).
  destruct (Hd n) as [np nc]; [rewrite Hfs; set_solver|]. destruct (li_nodes _ _ _ Hi n nb) as [In Ln]. pose proof (li_free _ _ _ Hi) as Hf. rewrite Hfs in Hf. cbn [fpath] in Hf. destruct Hf as [Fh Hf].
  open_insert r Rp Rc. rewrite Hl, Hr. cbn [andb]. rewrite (get_free_ok _ n) by (done || exact (li_free_lock _ _ _ Hi)). ll_cbn. cbn [Z.eqb].
  repeat (progress (rewrite ?In) || ll_step). 
  eexists. split; [reflexivity|].
  assert (forall k, k ∈ A.*1 \/ k ∈ B.*1 -> k <> n) as Hn. { intros k Hk ->. destruct (place_free_distinct _ _ _ _ _ _ _ _ Hp n) as [? ?]; [rewrite Hfs; left|tauto]. }
  apply (rebuild l _ fs A p pr c cr B [(p, pr); (n, r); (c, cr)]); [exact Hp| | | | | | | |]; ll_cbn.
  - rewrite <- app_assoc. cbn [app]. rewrite EE. change ((126, LS) :: D ++ (n, r) :: (c, cr) :: B) with (((126, LS) :: D) ++ (n, r) :: (c, cr) :: B). rewrite ED, <- app_assoc. done.
  - intros k Hk. destruct (Hd k) as [? ?]; [tauto|]. specialize (Hn k Hk). rewrite !at_upd_ne by done. done.
  - cbn [path]. ll_cbn. repeat ll_step. split_and!; try done. 
  - apply (fpath_frame l); [|done]. intros k Hk. ll_cbn. destruct (Hd k) as [? ?]; [rewrite Hfs; set_solver|]. assert (k <> n). { intros ->. pose proof (place_NoDup _ _ _ _ _ _ _ _ Hp) as HN. rewrite Hfs in HN.
    rewrite !NoDup_app, !NoDup_cons in HN. rewrite NoDup_app, NoDup_cons in HN. tauto. } rewrite !at_upd_ne by done. done.
  - rewrite Hfs. cbn [fmap list_fmap fst app]. by rewrite (Permutation_swap n c).
  - exact (li_head _ _ _ Hi).
  - done.
  - intros i Hib. destruct (li_nodes _ _ _ Hi i Hib) as [? ?]. upd_cases; ll_cbn; done.
Qed.

Lemma left_shape D : (126, LS) :: D = A ++ [(p, pr)] -> (left pr >? INT32_MIN) = true -> exists D', D = D' ++ [(p, pr)] /\ A = (126, LS) :: D'.
Proof.
  intros ED Hg. destruct A as [|a A']; [by injection ED as <- <- _|]. injection ED as <- ED. by exists A'.
Qed.
Lemma right_shape E : E ++ [(127, RS)] = (c, cr) :: B -> (left cr <? INT32_MAX) = true -> exists E', E = (c, cr) :: E' /\ B = E' ++ [(127, RS)].
Proof.
  intros EE Hg. destruct E as [|e E']; [by injection EE as <- <- _|]. injection EE as <- EE. by exists E'.
Qed.

(** The range joins the one before it. *)
Lemma insert_left r D E :
  (126, LS) :: D = A ++ [(p, pr)] -> E ++ [(127, RS)] = (c, cr) :: B -> connects_left r = true -> connects_right r = false ->
  exists l' D', D = D' ++ [(p, pr)] /\ insert_rest r p c l = Ret (0, l') /\ list_inv l' (D' ++ (p, mk_range (left pr) (right r)) :: E) fs.
Proof.
  intros ED EE Hl Hr. start_insert. open_insert r Rp Rc. rewrite Hl, Hr. cbn [andb]. apply andb_true_iff in Hl as [_ Hg]. destruct (left_shape D ED Hg) as (D' & -> & EA).
  repeat ll_step. eexists _, D'. split; [done|]. split; [reflexivity|].
  apply (rebuild l _ fs A p pr c cr B [(p, mk_range (left pr) (right r)); (c, cr)]); [exact Hp| | | | | | | |]; ll_cbn.
  - rewrite <- app_assoc. cbn [app]. by rewrite EE, EA.
  - intros k Hk. destruct (Hd k) as [? ?]; [tauto|]. rewrite !at_upd_ne by done. done.
  - cbn [path]. ll_cbn. repeat ll_step. rewrite ?Rp, ?Rc. done.
  - apply (fpath_frame l); [|exact (li_free _ _ _ Hi)]. intros k Hk. ll_cbn. destruct (Hd k) as [? ?]; [tauto|]. rewrite !at_upd_ne by done. done.
  - done.
  - exact (li_head _ _ _ Hi).
  - exact (li_free_lock _ _ _ Hi).
  - intros i Hib. destruct (li_nodes _ _ _ Hi i Hib) as [? ?]. upd_cases; ll_cbn; done.
Qed.

(** The range joins the one after it. *)
Lemma insert_right r D E :
  (126, LS) :: D = A ++ [(p, pr)] -> E ++ [(127, RS)] = (c, cr) :: B -> connects_left r = false -> connects_right r = true ->
  exists l' E', E = (c, cr) :: E' /\ insert_rest r p c l = Ret (0, l') /\ list_inv l' (D ++ (c, mk_range (left r) (right cr)) :: E') fs.
Proof.
  intros ED EE Hl Hr. start_insert. open_insert r Rp Rc. rewrite Hl, Hr. cbn [andb]. apply andb_true_iff in Hr as [_ Hg]. destruct (right_shape E EE Hg) as (E' & -> & EB).
  repeat ll_step. eexists _, E'. split; [done|]. split; [reflexivity|].
  apply (rebuild l _ fs A p pr c cr B [(p, pr); (c, mk_range (left r) (right cr))]); [exact Hp| | | | | | | |]; ll_cbn.
  - rewrite <- app_assoc, EB. change ((126, LS) :: D ++ ?x) with (((126, LS) :: D) ++ x). by rewrite ED, <- app_assoc.
  - intros k Hk. destruct (Hd k) as [? ?]; [tauto|]. rewrite !at_upd_ne by done. done.
  - cbn [path]. ll_cbn. repeat ll_step. rewrite ?Rp, ?Rc. done.
  - apply (fpath_frame l); [|exact (li_free _ _ _ Hi)]. intros k Hk. ll_cbn. destruct (Hd k) as [? ?]; [tauto|]. rewrite !at_upd_ne by done. done.
  - done.
  - exact (li_head _ _ _ Hi).
  - exact (li_free_lock _ _ _ Hi).
  - intros i Hib. destruct (li_nodes _ _ _ Hi i Hib) as [? ?]. upd_cases; ll_cbn; done.
Qed.

(** The range closes the gap between two: the second node is freed. *)
Lemma insert_both r D E :
  (126, LS) :: D = A ++ [(p, pr)] -> E ++ [(127, RS)] = (c, cr) :: B -> connects_left r = true -> connects_right r = true ->
  exists l' D' E', D = D' ++ [(p, pr)] /\ E = (c, cr) :: E' /\ insert_rest r p c l = Ret (0, l') /\ list_inv l' (D' ++ (p, mk_range (left pr) (right cr)) :: E') (c :: fs).
Proof.
  intros ED EE Hl Hr. start_insert. open_insert r Rp Rc. rewrite Hl, Hr. cbn [andb]. apply andb_true_iff in Hl as [_ Hg]. destruct (left_shape D ED Hg) as (D' & -> & EA).
  apply andb_true_iff in Hr as [_ Hg']. destruct (right_shape E EE Hg') as (E' & -> & EB).
  repeat (progress (rewrite ?Ic) || ll_step). rewrite put_free_ok by (exact (li_free_lock _ _ _ Hi) || done). ll_cbn. repeat ll_step. eexists _, D', E'. split; [done|]. split; [done|]. split; [reflexivity|].
  apply (rebuild l _ fs A p pr c cr B [(p, mk_range (left pr) (right cr))]); [exact Hp| | | | | | | |]; ll_cbn.
  - rewrite <- app_assoc, EB. by rewrite EA.
  - intros k Hk. destruct (Hd k) as [? ?]; [tauto|]. rewrite !at_upd_ne by done. done.
  - cbn [path]. ll_cbn. repeat ll_step. rewrite ?Rp, ?Rc. done.
  - cbn [fpath]. ll_cbn. repeat ll_step. split; [done|]. apply (fpath_frame l); [|exact (li_free _ _ _ Hi)]. intros k Hk. ll_cbn. destruct (Hd k) as [? ?]; [tauto|]. rewrite !at_upd_ne by done. done.
  - done.
  - exact (li_head _ _ _ Hi).
  - done.
  - intros i Hib. destruct (li_nodes _ _ _ Hi i Hib) as [? ?]. upd_cases; ll_cbn; done.
Qed.
End Insert2.

Lemma ins_front r lo E : normal lo E -> right r + 2 <= lo -> ins r E = r :: E.
Proof. destruct E as [|e E]; [done|]. cbn [normal ins]. intros [? _] ?. by rewrite (proj2 (Z.ltb_lt _ _)) by lia. Qed.

Lemma ins_join r e lo E : normal lo (e :: E) -> left r <= right r -> right r + 1 = left e -> ins r (e :: E) = mk_range (left r) (right e) :: E.
Proof.
  cbn [normal ins]. intros [? ?] ? ?. rewrite (proj2 (Z.ltb_ge _ _)), (proj2 (Z.ltb_ge _ _)) by lia. rewrite Z.min_l, Z.max_r by lia. apply (ins_front _ (right e + 2)); [done|cbn; lia].
Qed.

Lemma ins_extend r d E : left d <= right d -> left r <= right r -> right d + 1 = left r -> ins r (d :: E) = ins (mk_range (left d) (right r)) E.
Proof. intros. cbn [ins]. rewrite (proj2 (Z.ltb_ge _ _)), (proj2 (Z.ltb_ge _ _)) by lia. by rewrite Z.min_r, Z.max_l by lia. Qed.

(** The ranges before one that is not joined to the last of them. *)
Lemma gap_before lo D x : normal lo D -> Forall (fun s => right s < x) D -> match last D with Some d => right d + 1 <> x | None => True end -> Forall (fun s => right s + 1 < x) D.
Proof.
  destruct D as [|d D _] using rev_ind; [constructor|]. rewrite last_snoc. intros HN HF Hd. apply normal_app in HN as [HN [Hd' _]]. apply Forall_app in HF as [HF HFd]. inversion_clear HFd as [|? ? Hx _].
  apply Forall_app. split; [|constructor; [lia|constructor]]. eapply Forall_impl; [exact (normal_below _ _ HN)|]. cbn. intros s Hs. lia.
Qed.

(** Where [ins] puts a range that meets the ones around it, or not. *)
Section InsCases.
Context (lo : Z) (r : lazylist_range_t) (Hr : left r <= right r).

Lemma ins_past D E : normal lo (D ++ E) -> Forall (fun s => right s + 1 < left r) D -> ins r (D ++ E) = D ++ ins r E.
Proof.
  intros HN HD. apply ins_skip; [done|done|]. apply normal_app in HN as [HN _]. eapply Forall_impl; [exact (normal_Forall _ _ HN)|]. cbn. intros; lia.
Qed.

Lemma past_joined D pr E : normal lo (D ++ pr :: E) -> right pr + 1 = left r -> Forall (fun s => right s + 1 < left r) D /\ left pr <= right pr /\ normal (right pr + 2) E.
Proof.
  intros HN Hp. apply normal_app in HN as [HN [Hpr HE]]. split; [|split; [lia|done]]. eapply Forall_impl; [exact (normal_below _ _ HN)|]. cbn. intros; lia.
Qed.

Lemma ins_both D pr cr E : normal lo (D ++ pr :: cr :: E) -> right pr + 1 = left r -> right r + 1 = left cr ->
  ins r (D ++ pr :: cr :: E) = D ++ mk_range (left pr) (right cr) :: E.
Proof.
  intros HN Hp Hc. destruct (past_joined _ _ _ HN Hp) as (HD & Hpr & HE). rewrite ins_past, ins_extend by (done || lia). f_equal. rewrite (ins_join _ _ (right pr + 2)) by (done || (cbn [left right]; lia)). done.
Qed.

Lemma ins_left D pr E : normal lo (D ++ pr :: E) -> right pr + 1 = left r -> match E with [] => True | c :: _ => right r + 1 < left c end ->
  ins r (D ++ pr :: E) = D ++ mk_range (left pr) (right r) :: E.
Proof.
  intros HN Hp Hc. destruct (past_joined _ _ _ HN Hp) as (HD & Hpr & HE). rewrite ins_past, ins_extend by (done || lia). f_equal.
  destruct E as [|c E]; [done|]. apply (ins_front _ (right r + 2)); [|cbn [right]; lia]. destruct HE as [? HE]. split; [lia|done].
Qed.

Lemma ins_right D cr E : normal lo (D ++ cr :: E) -> Forall (fun s => right s + 1 < left r) D -> right r + 1 = left cr ->
  ins r (D ++ cr :: E) = D ++ mk_range (left r) (right cr) :: E.
Proof. intros HN HD Hc. rewrite ins_past by done. f_equal. apply normal_app in HN as [_ HN]. by apply (ins_join _ _ _ _ HN). Qed.

Lemma ins_none D E : normal lo (D ++ E) -> Forall (fun s => right s + 1 < left r) D -> match E with [] => True | c :: _ => right r + 1 < left c end ->
  ins r (D ++ E) = D ++ r :: E.
Proof.
  intros HN HD Hc. rewrite ins_past by done. f_equal. apply normal_app in HN as [_ HN]. destruct E as [|c E]; [done|]. apply (ins_front _ (right r + 2)); [|lia]. destruct HN as [? HN]. split; [lia|done].
Qed.
End InsCases.

(** The place of a range that overlaps none of the list. *)
Lemma place_for l es fs r :
  list_inv l es fs -> normal (INT32_MIN + 1) es.*2 -> INT32_MIN < left r <= right r -> right r < INT32_MAX -> (forall x, in_range x r -> ~ covered es.*2 x) ->
  exists D E A p pr c cr B, es = D ++ E /\ (126, LS) :: D = A ++ [(p, pr)] /\ E ++ [(127, RS)] = (c, cr) :: B /\
    Forall (fun s => right s < left r) D.*2 /\ right pr < left r /\ right r < left cr /\
    lazylist_find_pred l r = Ret (Some (p, c)) /\ place l fs A p pr c cr B.
Proof.
  intros Hi HN Hr Hr2 Hdis. destruct (split_ranges es (left r)) as (D & E & -> & HD & HE).
  destruct (exists_last (l := (126, LS) :: D)) as (A & [p pr] & ED); [done|].
  assert (exists c cr B, E ++ [(127, RS)] = (c, cr) :: B) as (c & cr & B & EE) by (destruct E as [|[c cr] E]; cbn; eauto).
  rewrite fmap_app in HN, Hdis. pose proof (proj1 (normal_app _ _ _) HN) as [_ HNE].
  assert (left r <= right cr) as Hcr by (destruct E as [|[c' cr'] E]; cbn in EE; injection EE as <- <- _; [cbn [RS right]; lia|done]).
  assert (right r < left cr) as Hrc.
  { destruct E as [|[c' cr'] E]; cbn in EE; injection EE as <- <- _; [cbn [RS left]; lia|]. cbn [fmap list_fmap snd normal] in HNE, Hdis. apply Z.nle_gt. intros Hle.
    apply (Hdis (Z.max (left cr') (left r))); [unfold in_range; lia|]. apply Exists_app. right. left. unfold in_range. lia. }
  assert (right pr < left r) as Hpr.
  { apply (f_equal (fmap snd)) in ED. rewrite fmap_cons, !fmap_app in ED. cbn [fmap list_fmap snd] in ED.
    assert (Forall (fun s => right s < left r) (LS :: D.*2)) as HF by (constructor; [cbn [LS right]; lia|done]). rewrite ED in HF. apply Forall_app in HF as [_ HF]. by inversion HF. }
  destruct (find_pred_splits l (D ++ E) fs r D E A p pr c cr B) as [Ef Hpl]; [done|done|done|lia|done|done|done|].
  rewrite (proj2 (Z.leb_gt _ _)) in Ef by done. by exists D, E, A, p, pr, c, cr, B.
Qed.

(** Insertion refines the union of ranges: with a range that overlaps none of
    the list and a result that fits. *)
Lemma insert_refines l es fs r fuel :
  list_inv l es fs -> normal (INT32_MIN + 1) es.*2 -> INT32_MIN < left r <= right r -> right r < INT32_MAX ->
  (forall x, in_range x r -> ~ covered es.*2 x) -> (length (ins r es.*2) <= 126)%nat ->
  exists l' es' fs', lazylist_insert (S fuel) r l = Ret (0, l') /\ list_inv l' es' fs' /\ es'.*2 = ins r es.*2.
Proof.
  intros Hi HN Hr Hr2 Hdis Hlen. destruct (place_for l es fs r Hi HN Hr Hr2 Hdis) as (D & E & A & p & pr & c & cr & B & -> & ED & EE & HD & Hpr & Hrc & Ef & Hpl).
  rewrite (insert_unfold l (D ++ E) fs A p pr c cr B Hi Hpl fuel r Ef). fold (insert_rest r p c l). rewrite fmap_app in *.
  assert (connects_right cr r = false -> match E.*2 with [] => True | s :: _ => right r + 1 < left s end) as HnE.
  { destruct E as [|[c' cr'] E]; [done|]. injection EE as -> -> _. unfold connects_right. cbn [fmap list_fmap snd] in HN |- *. apply normal_app in HN as [_ [? HN%normal_bound]]. rewrite (proj2 (Z.ltb_lt (left cr) _)) by lia. rewrite andb_true_r. intros ?%Z.eqb_neq. lia. }
  assert (connects_left pr r = false -> Forall (fun s => right s + 1 < left r) D.*2) as HnD.
  { intros Hl. apply (gap_before (INT32_MIN + 1)); [by apply normal_app in HN as [HN _]|done|]. destruct D as [|d D _] using rev_ind; [done|]. rewrite fmap_app. cbn [fmap list_fmap]. rewrite last_snoc.
    change ((126, LS) :: D ++ [d]) with (((126, LS) :: D) ++ [d]) in ED. apply app_inj_tail in ED as [_ ->]. cbn [snd]. rewrite fmap_app in HN. cbn [fmap list_fmap snd] in HN. apply normal_app in HN as [HN _]. apply normal_Forall, Forall_app in HN as [_ HN]. inversion_clear HN as [|? ? Hx _].
    unfold connects_left in Hl. rewrite Z.gtb_ltb, (proj2 (Z.ltb_lt INT32_MIN _)), andb_true_r in Hl by lia. by apply Z.eqb_neq. }
  destruct (connects_left pr r) eqn:Hl, (connects_right cr r) eqn:Hrt.
  - destruct (insert_both l _ fs A p pr c cr B Hi Hpl r D E ED EE Hl Hrt) as (l' & D' & E' & -> & -> & -> & Hinv). do 3 eexists. split; [reflexivity|]. split; [exact Hinv|].
    unfold connects_left, connects_right in *. bool_to_prop. rewrite !fmap_app, <- app_assoc in *. cbn [fmap list_fmap snd app] in *. symmetry. apply (ins_both (INT32_MIN + 1)); try done; lia.
  - destruct (insert_left l _ fs A p pr c cr B Hi Hpl r D E ED EE Hl Hrt) as (l' & D' & -> & -> & Hinv). do 3 eexists. split; [reflexivity|]. split; [exact Hinv|].
    unfold connects_left in *. bool_to_prop. rewrite !fmap_app, <- app_assoc in *. cbn [fmap list_fmap snd app] in *. symmetry. apply (ins_left (INT32_MIN + 1)); [lia|done|lia|exact (HnE eq_refl)].
  - destruct (insert_right l _ fs A p pr c cr B Hi Hpl r D E ED EE Hl Hrt) as (l' & E' & -> & -> & Hinv). do 3 eexists. split; [reflexivity|]. split; [exact Hinv|].
    unfold connects_right in *. bool_to_prop. rewrite !fmap_app in *. cbn [fmap list_fmap snd] in *. symmetry. apply (ins_right (INT32_MIN + 1)); [lia|done|exact (HnD eq_refl)|lia].
  - assert (ins r (D.*2 ++ E.*2) = D.*2 ++ r :: E.*2) as EI by (apply (ins_none (INT32_MIN + 1)); [lia|done|exact (HnD eq_refl)|exact (HnE eq_refl)]).
    rewrite EI, length_app in Hlen. cbn [length] in Hlen. rewrite !length_fmap in Hlen. pose proof (inv_length _ _ _ Hi) as HL. rewrite length_app in HL. destruct fs as [|n fs']; [cbn in HL; lia|].
    destruct (insert_new l _ _ A p pr c cr B Hi Hpl r n fs' D E ED EE Hl Hrt eq_refl) as (l' & -> & Hinv). do 3 eexists. split; [reflexivity|]. split; [exact Hinv|]. by rewrite EI, fmap_app.
Qed.

(** A range that overlaps one of the list is refused, with the same result. *)
Lemma insert_overlap l es fs r fuel x :
  list_inv l es fs -> normal (INT32_MIN + 1) es.*2 -> INT32_MIN < left r -> in_range x r -> covered es.*2 x -> lazylist_insert (S fuel) r l = Ret (0, l).
Proof.
  intros Hi HN Hr Hx Hc. destruct (split_ranges es (left r)) as (D & E & -> & HD & HE).
  destruct (exists_last (l := (126, LS) :: D)) as (A & [p pr] & ED); [done|]. rewrite fmap_app in HN, Hc. apply normal_app in HN as [_ HNE]. unfold in_range in Hx.
  apply Exists_app in Hc as [Hc|Hc].
  { exfalso. apply Exists_exists in Hc as (s & Hs & Hxs). rewrite Forall_forall in HD. specialize (HD s Hs). unfold in_range in Hxs. lia. }
  destruct E as [|[c cr] E]; [by apply Exists_nil in Hc|]. cbn [fmap list_fmap snd] in HNE, Hc. assert (left cr <= x).
  { destruct HNE as [? ?]. destruct (normal_in_range (left cr) (cr :: E.*2) x); [cbn [normal]; split; [lia|done]|done|lia]. }
  destruct (find_pred_splits l (D ++ (c, cr) :: E) fs r D ((c, cr) :: E) A p pr c cr (E ++ [(127, RS)])) as [Ef _]; [done|done|done|done|done|done|done|].
  cbn [lazylist_insert]. rewrite Ef. rewrite (proj2 (Z.leb_le _ _)) by lia. done.
Qed.

(** ** Taking the first range *)

Lemma pop_refines l es fs n fuel :
  list_inv l es fs -> normal (INT32_MIN + 1) es.*2 ->
  match es with
  | [] => lazylist_pop_front (S fuel) n l = Ret (None, l)
  | (f, fr) :: es' =>
      if (left fr =? n) || (u32 n =? RANGE_START_ANY)
      then exists l', lazylist_pop_front (S fuel) n l = Ret (Some fr, l') /\ list_inv l' es' (f :: fs)
      else lazylist_pop_front (S fuel) n l = Ret (None, l)
  end.
Proof.
  intros Hi HN. pose proof (li_path _ _ _ Hi) as HP. cbn [app path] in HP. destruct HP as (_ & R126 & M126 & HP). cbn [lazylist_pop_front]. rewrite (li_head _ _ _ Hi). change (126 =? EOL) with false. cbv iota. rewrite get_ok by lia. ll_cbn.
  destruct es as [|[f fr] es']; cbn [app path] in HP.
  { destruct HP as (-> & R127 & _). rewrite get_ok by lia. ll_cbn. by rewrite R127. }
  destruct HP as (Nf & Rf & Mf & HP). cbn [fmap list_fmap snd normal] in HN. destruct HN as [Hfr HN]. pose proof (normal_bound _ _ HN).
  assert (exists c cr B, es' ++ [(127, RS)] = (c, cr) :: B) as (c & cr & B & EE) by (destruct es' as [|[c cr] E]; cbn; eauto).
  assert (place l fs [(126, LS)] f fr c cr B) as Hpl by (apply (place_at l ((f, fr) :: es')); [done|]; cbn [app]; by rewrite EE).
  assert (place l fs [] 126 LS f fr (es' ++ [(127, RS)])) as Hpl0 by (apply (place_at l ((f, fr) :: es')); [done|done]).
  pose proof (place_p _ _ _ _ _ _ _ _ Hpl) as fb. pose proof (place_c _ _ _ _ _ _ _ _ Hpl) as cb. destruct (place_ne _ _ _ _ _ _ _ _ Hpl) as [fc cf].
  rewrite Nf, get_ok by done. ll_cbn. rewrite Rf. rewrite (proj2 (Z.eqb_neq _ INT32_MAX)) by lia.
  assert (negb (u32 n =? RANGE_START_ANY) && negb (left fr =? n) = negb ((left fr =? n) || (u32 n =? RANGE_START_ANY))) as -> by (by destruct (left fr =? n), (u32 n =? RANGE_START_ANY)).
  destruct ((left fr =? n) || (u32 n =? RANGE_START_ANY)) eqn:Hm; cbn [negb]; [|done].
  destruct (pl_p _ _ _ _ _ _ _ _ Hpl) as (_ & _ & Nc). rewrite Nc. pose proof (lock_both l _ fs Hi f c fb cb fc) as EL. pose proof (validate_ok l _ fs _ _ _ _ _ _ Hi Hpl) as EV.
  destruct (li_nodes _ _ _ Hi f fb) as [If Lf]. destruct (li_nodes _ _ _ Hi c cb) as [Ic Lc]. destruct (place_distinct _ _ _ _ _ _ _ _ Hpl0) as [f126 Hd0]. destruct (place_distinct _ _ _ _ _ _ _ _ Hpl) as [_ Hd]. destruct (Hd 126) as [n1 n2]; [set_solver|].
  unfold mbind, outcome_bind in EL |- *. destruct (lock_node f l) as [l1| |]; [|done..]. rewrite EL, EV. cbn [andb]. unfold locked2. repeat (progress (rewrite ?If, ?Ic) || ll_step).
  assert (f <> 126) by auto. assert (c <> 126) by auto. assert (0 <= 126 < 128) by lia. rewrite (li_head _ _ _ Hi). repeat (progress (rewrite ?If, ?Ic) || ll_step).
  rewrite put_free_ok by (exact (li_free_lock _ _ _ Hi) || done). ll_cbn. repeat ll_step. rewrite Rf. eexists. split; [reflexivity|].
  assert (forall k, k ∈ (es' ++ [(127, RS)]).*1 \/ k ∈ fs -> k <> 126 /\ k <> f) as Hk by (intros k Hk; apply Hd0; tauto).
  apply (rebuild l _ fs [] 126 LS f fr (es' ++ [(127, RS)]) [(126, LS)]); [exact Hpl0|done| | | | | | |]; ll_cbn.
  - intros k [Hin|Hin]; [by apply elem_of_nil in Hin|]. destruct (Hk k) as [? ?]; [by left|]. split; upd_cases; ll_cbn; try done. unfold with_lock. cbn. rewrite <- Lc. by match goal with |- _ = ?x => destruct x end.
  - cbn [path]. ll_cbn. repeat ll_step. done.
  - cbn [fpath]. ll_cbn. repeat ll_step. split; [done|]. apply (fpath_frame l); [|exact (li_free _ _ _ Hi)]. intros k Hin. ll_cbn. destruct (Hk k) as [? ?]; [by right|]. destruct (Hd k) as [? ?]; [tauto|]. rewrite !at_upd_ne by done. done.
  - done.
  - done.
  - done.
  - intros i Hib. destruct (li_nodes _ _ _ Hi i Hib) as [? ?]. upd_cases; ll_cbn; done.
Qed.


(** ** Initialisation *)

Lemma init_loop_ok n : forall i l, 0 <= i -> i + Z.of_nat n <= 126 -> exists l', init_loop n i l = Ret l' /\
  (forall k, nodes l' k = if (i <=? k) && (k <? i + Z.of_nat n) then mk_node k (range (nodes l k)) 0 (k + 1) else nodes l k) /\
  (forall k, marks l' k = if (i <=? k) && (k <? i + Z.of_nat n) then 0 else marks l k).
Proof.
  induction n as [|n IH]; intros i l Hi Hb; cbn [init_loop].
  - exists l. split; [done|]. split; intros k; destruct (Z.leb_spec i k), (Z.ltb_spec k (i + Z.of_nat 0)); try done; lia.
  - rewrite set_node_ok by lia. ll_cbn. rewrite set_mark_ok by lia. ll_cbn. rewrite u32_id by lia.
    match goal with |- context [init_loop n (i + 1) ?l1] => destruct (IH (i + 1) l1) as (l' & E & Hn & Hm); [lia|lia|] end. exists l'. split; [exact E|]. split; intros k; [rewrite Hn|rewrite Hm]; ll_cbn; unfold upd;
    destruct (Z.leb_spec (i + 1) k), (Z.ltb_spec k (i + 1 + Z.of_nat n)), (Z.leb_spec i k), (Z.ltb_spec k (i + Z.of_nat (S n))), (Z.eqb_spec k i); subst; cbn [andb]; try lia; try done.
Qed.

Lemma fpath_seqZ l n : forall i, (forall k, i <= k < i + Z.of_nat n -> next_idx (nodes l k) = k + 1) -> forall j, fpath l i (seqZ i (Z.of_nat n) ++ [i + Z.of_nat n]) j <-> next_idx (nodes l (i + Z.of_nat n)) = j.
Proof.
  induction n as [|n IH]; intros i H j.
  - cbn [Z.of_nat seqZ app fpath]. rewrite Z.add_0_r. split; [by intros [_ ?]|done].
  - rewrite seqZ_cons by lia. cbn [app fpath]. rewrite H by lia. replace (Z.pred (Z.of_nat (S n))) with (Z.of_nat n) by lia. change (Z.succ i) with (i + 1). replace (i + Z.of_nat (S n)) with (i + 1 + Z.of_nat n) by lia.
    rewrite IH by (intros; apply H; lia). split; [by intros [_ ?]|done].
Qed.

(** The marks of the sentinels are not set by the code. *)
Lemma init_ok l : marks l 126 = 0 -> marks l 127 = 0 -> exists l', lazylist_init l NUM_SEGMENTS = Ret l' /\ list_inv l' [] (seqZ 0 126).
Proof.
  intros M6 M7. unfold lazylist_init. change (u32 (NUM_SEGMENTS - 2)) with 126. change (u32 (126 - 1)) with 125. change (u32 (126 + 1)) with 127. change (Z.to_nat 126) with 126%nat.
  destruct (init_loop_ok 126 0 l) as (l1 & -> & Hn & Hm); [lia|lia|]. ll_cbn. rewrite !set_node_ok by lia. ll_cbn. rewrite !set_node_ok by lia. ll_cbn. rewrite set_node_ok by lia. ll_cbn. rewrite get_ok by lia. ll_cbn. eexists. split; [reflexivity|].
  change (0 + Z.of_nat 126) with 126 in Hn, Hm. split; ll_cbn.
  - done.
  - done.
  - cbn [app path]. ll_cbn. split_and!; try done; rewrite Hm; done.
  - change (seqZ 0 126) with (seqZ 0 (Z.of_nat 125) ++ [0 + Z.of_nat 125]). apply fpath_seqZ; [|done]. intros k Hk. ll_cbn. rewrite !at_upd_ne by lia. rewrite Hn. rewrite (proj2 (Z.leb_le _ _)), (proj2 (Z.ltb_lt _ _)) by lia. done.
  - cbn [fmap list_fmap app]. change (126 :: 127 :: seqZ 0 126) with ([126; 127] ++ seqZ 0 126). rewrite Permutation_app_comm. reflexivity.
  - intros i Hib. unfold upd. destruct (Z.eqb_spec i 127); [by subst|]. destruct (Z.eqb_spec i 126); [by subst|]. destruct (Z.eqb_spec i 125); [subst; rewrite Hn; done|]. rewrite Hn, (proj2 (Z.leb_le _ _)), (proj2 (Z.ltb_lt _ _)) by lia. done.
Qed.

(** C18: insertion is union. In a list in normal form a range that overlaps one
    of those there changes nothing; any other, when there is a node for it,
    gives a list in normal form again that covers exactly the bytes covered
    before and those of the range; nodes of ranges that were joined are free
    again. *)
Theorem lazylist_insert_spec l es fs r fuel :
  list_inv l es fs -> normal (INT32_MIN + 1) es.*2 -> INT32_MIN < left r <= right r -> right r < INT32_MAX ->
  ((exists x, in_range x r /\ covered es.*2 x) -> lazylist_insert (S fuel) r l = Ret (0, l)) /\
  ((forall x, in_range x r -> ~ covered es.*2 x) -> (length (ins r es.*2) <= 126)%nat ->
   exists l' es' fs', lazylist_insert (S fuel) r l = Ret (0, l') /\ list_inv l' es' fs' /\ normal (INT32_MIN + 1) es'.*2 /\
     (forall x, covered es'.*2 x <-> in_range x r \/ covered es.*2 x)).
Proof.
  intros Hi HN Hr Hr2. split; [intros (x & Hx & Hc); apply (insert_overlap l es fs r fuel x); try done; lia|].
  intros Hd Hl. destruct (insert_refines l es fs r fuel Hi HN Hr Hr2 Hd Hl) as (l' & es' & fs' & E & Hi' & He). exists l', es', fs'. split; [done|]. split; [done|]. rewrite He.
  split; [apply normal_ins; [done|lia|done]|]. intros x. apply (covered_ins _ _ (INT32_MIN + 1)); [done|lia].
Qed.

Lemma lazylist_insert_spec_witness :
  exists l l', list_inv l [] (seqZ 0 126) /\ lazylist_insert 1 (mk_range 5 9) l = Ret (0, l').
Proof.
  destruct (init_ok (mk_list 0 0 0 (fun _ => mk_node 0 (mk_range 0 0) 0 0) (fun _ => 0)) eq_refl eq_refl) as (l & _ & Hl).
  destruct (lazylist_insert_spec l [] (seqZ 0 126) (mk_range 5 9) 0 Hl) as [_ H]; [vm_compute; discriminate|vm_compute; split; [reflexivity|discriminate]|reflexivity|].
  destruct H as (l' & es' & fs' & E & _); [intros x _ Hc; inversion Hc|cbn; lia|]. exists l, l'. split; [exact Hl|exact E].
Defined.

(** ** A stream of segments *)

(** The packets of a message: what [ooorb_ph] pops and leaves. *)
Fixpoint ph_run (fuel : nat) (pkts : list (Z * Z * Z)) (s : rb_state) : outcome (list lazylist_range_t * rb_state) :=
  match pkts with
  | [] => Ret ([], s)
  | (op, w1, w2) :: pkts' =>
      '(popped, s) ← ooorb_ph fuel op w1 w2 s;
      '(rest, s) ← ph_run fuel pkts' s;
      Ret (match popped with Some r => r :: rest | None => rest end, s)
  end.

(** The segments among them. *)
Definition segments (pkts : list (Z * Z * Z)) : list lazylist_range_t :=
  omap (fun '(op, w1, w2) => if op =? 0 then Some (mk_range w1 w2) else None) pkts.
Definition segment_ok (r : lazylist_range_t) : Prop := 0 <= left r <= right r /\ right r < INT32_MAX.

Definition apart (r s : lazylist_range_t) : bool := (right r <? left s) || (right s <? left r).
Fixpoint no_overlap (rs : list lazylist_range_t) : bool :=
  match rs with [] => true | r :: rs' => forallb (apart r) rs' && no_overlap rs' end.

(** The buffer as it is meant: ranges held, next byte. *)
Definition buf_step (pkt : Z * Z * Z) (a : list lazylist_range_t * Z) : list lazylist_range_t * Z :=
  let '(op, w1, w2) := pkt in
  let '(rs, n) := a in
  if op =? 0 then (ins (mk_range w1 w2) rs, n)
  else if op =? 1 then
    match rs with
    | r :: rs' => if left r =? n then (rs', right r + 1) else a
    | [] => a
    end
  else a.

(** The ranges held at any time are at most the nodes there are. *)
Fixpoint fits (pkts : list (Z * Z * Z)) (a : list lazylist_range_t * Z) : bool :=
  match pkts with
  | [] => true
  | pkt :: pkts' => let a := buf_step pkt a in (length a.1 <=? 126)%nat && fits pkts' a
  end.

(** Ranges that follow one another from [a] up to [b]. *)
Fixpoint contiguous (a : Z) (rs : list lazylist_range_t) (b : Z) : Prop :=
  match rs with [] => a = b | r :: rs' => left r = a /\ left r <= right r /\ contiguous (right r + 1) rs' b end.

(** The buffer after the segments [seen]. *)
Record rb_inv (seen : list lazylist_range_t) (s : rb_state) (rs : list lazylist_range_t) (n : Z) : Prop := {
  ri_list : exists es fs, list_inv (rb_list s) es fs /\ es.*2 = rs;
  ri_next : next_expected_byte s = n;
  ri_bound : 0 <= n <= INT32_MAX;
  ri_normal : normal n rs;
  ri_seen : forall x, covered seen x <-> 0 <= x < n \/ covered rs x;
}.

Lemma s32_next n : 0 <= n <= INT32_MAX -> s32 n = n /\ u32 n =? RANGE_START_ANY = false.
Proof. unfold INT32_MAX, RANGE_START_ANY. intros H. split; [apply s32_id; lia|]. apply Z.eqb_neq. rewrite u32_id by lia. lia. Qed.

Lemma insert_step fuel seen s rs n w1 w2 :
  rb_inv seen s rs n -> segment_ok (mk_range w1 w2) -> (forall x, in_range x (mk_range w1 w2) -> ~ covered seen x) -> (length (ins (mk_range w1 w2) rs) <= 126)%nat ->
  exists s', ooorb_ph (S fuel) 0 w1 w2 s = Ret (None, s') /\ rb_inv (seen ++ [mk_range w1 w2]) s' (ins (mk_range w1 w2) rs) n.
Proof.
  intros [(es & fs & Hi & He) Hn Hb HN Hs] [Hr Hr2] Hd Hl. cbn [left right] in Hr, Hr2. unfold ooorb_ph. cbn [Z.eqb]. unfold INT32_MAX in *. rewrite !s32_id by lia. set (r := mk_range w1 w2) in *.
  assert (n <= w1) as Hnw. { apply Z.nlt_ge. intros Hlt. apply (Hd w1); [unfold in_range; cbn; lia|]. apply Hs. left. lia. }
  destruct (insert_refines (rb_list s) es fs r fuel) as (l' & es' & fs' & -> & Hi' & He').
  - done.
  - rewrite He. eapply normal_weaken, HN. unfold INT32_MIN. lia.
  - cbn [left right r]. unfold INT32_MIN. lia.
  - done.
  - rewrite He. intros x Hx Hc. apply (Hd x Hx). apply Hs. by right.
  - by rewrite He.
  - cbn [mbind outcome_bind]. eexists. split; [reflexivity|]. rewrite He in He'. split; cbn [rb_list next_expected_byte]; [by exists es', fs'|done|done|apply normal_ins; [done|cbn; lia|done]|].
    intros x. unfold covered at 1. rewrite Exists_app, Exists_cons, Exists_nil. fold (covered seen x). rewrite Hs, (covered_ins r rs n x HN) by (cbn; lia). tauto.
Qed.

(** Afterwards the next byte has not arrived yet. *)
Lemma pop_step fuel seen s rs n w1 w2 :
  rb_inv seen s rs n ->
  exists popped s' rs' n', ooorb_ph (S fuel) 1 w1 w2 s = Ret (popped, s') /\ buf_step (1, w1, w2) (rs, n) = (rs', n') /\ rb_inv seen s' rs' n' /\
    match popped with Some r => contiguous n [r] n' | None => n' = n end /\ ~ covered seen n'.
Proof.
  intros [(es & fs & Hi & He) Hn Hb HN Hs]. unfold ooorb_ph. cbn [Z.eqb Pos.eqb]. rewrite Hn. destruct (s32_next n Hb) as [-> Hany]. cbn [buf_step Z.eqb Pos.eqb].
  pose proof (pop_refines (rb_list s) es fs n fuel Hi) as HP. rewrite Hany in HP. subst rs. destruct es as [|[f fr] es'].
  - rewrite HP by (eapply normal_weaken, HN; unfold INT32_MIN; lia). do 4 eexists. split; [reflexivity|]. split; [reflexivity|]. split; [split; [by exists [], fs|done..]|]. split; [done|]. rewrite Hs. intros [?|Hc]; [lia|by inversion Hc].
  - cbn [fmap list_fmap snd] in *. specialize (HP ltac:(eapply normal_weaken, HN; unfold INT32_MIN; lia)). rewrite orb_false_r in HP. cbn [normal] in HN. destruct HN as [Hfr HN]. pose proof (normal_bound _ _ HN). destruct (Z.eqb_spec (left fr) n) as [E|E].
    + destruct HP as (l' & -> & Hi'). cbn [mbind outcome_bind]. unfold INT32_MAX in *. rewrite u32_id by lia. do 4 eexists. split; [reflexivity|]. split; [reflexivity|]. split; [|split; [cbn; lia|]].
      * split; cbn [rb_list next_expected_byte]; [by exists es', (f :: fs)|done|unfold INT32_MAX; lia|eapply normal_weaken, HN; lia|]. intros x. rewrite Hs. unfold covered. rewrite Exists_cons. unfold in_range at 1. split; [intros [?|[?|?]]; [left; lia|left; lia|by right]|]. intros [?|?]; [|tauto]. destruct (decide (x < n)); [left; lia|right; left; lia].
      * rewrite Hs. intros [?|Hc]; [lia|]. apply Exists_cons in Hc as [Hc|Hc]; [unfold in_range in Hc; lia|]. pose proof (normal_in_range _ _ _ HN Hc). lia.
    + rewrite HP. do 4 eexists. split; [reflexivity|]. split; [reflexivity|]. split; [split; [by exists ((f, fr) :: es'), fs|done|done|cbn; split; [lia|done]|done]|]. split; [done|]. rewrite Hs. intros [?|Hc]; [lia|].
      apply Exists_cons in Hc as [Hc|Hc]; [unfold in_range in Hc; lia|]. pose proof (normal_in_range _ _ _ HN Hc). lia.
Qed.

Lemma apart_spec r s : apart r s = true -> forall x, in_range x r -> in_range x s -> False.
Proof. unfold apart, in_range. intros H x Hr Hs. apply orb_true_iff in H as [H|H]; apply Z.ltb_lt in H; lia. Qed.

Lemma no_overlap_app_cons seen r rest : no_overlap (seen ++ r :: rest) = true -> forall x, in_range x r -> ~ covered seen x.
Proof.
  induction seen as [|s seen IH]; intros H x Hr Hc; [by inversion Hc|]. cbn [app no_overlap] in H. apply andb_true_iff in H as [H1 H2]. apply Exists_cons in Hc as [Hc|Hc]; [|by apply (IH H2 x)].
  rewrite forallb_forall in H1. apply (apart_spec s r) with x; [|done|done]. apply H1. apply in_or_app. right. by left.
Qed.

Lemma contiguous_app a rs m rs' b : contiguous a rs m -> contiguous m rs' b -> contiguous a (rs ++ rs') b.
Proof. revert a. induction rs as [|r rs IH]; intros a; cbn [app contiguous]; [by intros ->|]. intros (? & ? & ?) ?. auto. Qed.

Lemma ph_run_inv fuel pkts : forall seen s rs n,
  rb_inv seen s rs n -> Forall segment_ok (segments pkts) -> no_overlap (seen ++ segments pkts) = true -> fits pkts (rs, n) = true ->
  exists popped s' rs' n', ph_run (S fuel) pkts s = Ret (popped, s') /\ rb_inv (seen ++ segments pkts) s' rs' n' /\ contiguous n popped n'.
Proof.
  induction pkts as [|[[op w1] w2] pkts IH]; intros seen s rs n Hi Hok Hno Hf; cbn [ph_run].
  { exists [], s, rs, n. split; [done|]. cbn. rewrite app_nil_r. done. }
  cbn [fits] in Hf. apply andb_true_iff in Hf as [Hlen Hf]. apply Nat.leb_le in Hlen. unfold segments in Hok, Hno |- *. cbn [omap list_omap] in Hok, Hno |- *. destruct (Z.eqb_spec op 0) as [->|H0].
  - fold (segments pkts) in Hok, Hno |- *. inversion_clear Hok as [|? ? Hr Hok']. destruct (insert_step fuel seen s rs n w1 w2 Hi Hr) as (s1 & -> & Hi1); [by apply no_overlap_app_cons with (segments pkts)|done|].
    destruct (IH _ s1 _ n Hi1) as (popped & s' & rs' & n' & E & Hi' & Hc); [done|by rewrite <- app_assoc|done|]. cbn [mbind outcome_bind]. rewrite E. exists popped, s', rs', n'. split; [done|]. split; [|done]. by rewrite <- app_assoc in Hi'.
  - fold (segments pkts) in Hok, Hno |- *. destruct (Z.eqb_spec op 1) as [->|H1].
    + destruct (pop_step fuel seen s rs n w1 w2 Hi) as (o & s1 & rs1 & n1 & -> & Eb & Hi1 & Ho & _). rewrite Eb in Hf. destruct (IH _ s1 _ n1 Hi1) as (popped & s' & rs' & n' & E & Hi' & Hc); [done..|]. cbn [mbind outcome_bind]. rewrite E.
      exists (match o with Some r => r :: popped | None => popped end), s', rs', n'. split; [done|]. split; [done|]. destruct o as [r|]; [by apply (contiguous_app n [r] n1)|by subst].
    + unfold ooorb_ph, buf_step in *. rewrite (proj2 (Z.eqb_neq op 0) H0), (proj2 (Z.eqb_neq op 1) H1) in *. cbn [mbind outcome_bind]. destruct (IH seen s rs n Hi) as (popped & s' & rs' & n' & E & Hi' & Hc); [done..|]. rewrite E. by exists popped, s', rs', n'.
Qed.

(** What is printed at the end: the ranges still held, after the sentinel. *)
Lemma print_loop_ok l : forall es fuel i ir,
  path l (next_idx (nodes l i)) (es ++ [(127, RS)]) EOL -> range (nodes l i) = ir -> Forall (fun k => 0 <= k < 128) (es.*1 ++ [127]) -> Forall (fun r => right r < INT32_MAX) es.*2 -> (length es < fuel)%nat ->
  print_loop fuel (nodes l i) l = Ret (ir :: es.*2).
Proof.
  induction es as [|[k r] es IH]; intros fuel i ir HP Hr Hb HF Hl; (destruct fuel as [|fuel]; [cbn in Hl; lia|]); cbn [print_loop]; cbn [app path fmap list_fmap fst snd] in *.
  - destruct HP as (-> & E & _). rewrite get_ok by lia. ll_cbn. by rewrite E, Hr.
  - destruct HP as (-> & E & _ & HP). apply Forall_cons in Hb as [Hk Hb]. apply Forall_cons in HF as [Hf HF]. rewrite get_ok by done. ll_cbn. rewrite E, (proj2 (Z.eqb_neq _ _)) by lia. rewrite (IH fuel k r) by (done || (cbn in Hl; lia)). ll_cbn. by rewrite Hr.
Qed.

Lemma th_step fuel seen s rs n : rb_inv seen s rs n -> exists s', ooorb_th (S fuel) s = Ret (LS :: (buf_step (1, 0, 0) (rs, n)).1, s').
Proof.
  intros Hi. destruct (pop_step fuel seen s rs n 0 0 Hi) as (o & s1 & rs1 & n1 & E & Eb & [(es & fs & Hl & He) _ _ HN _] & _). rewrite Eb. unfold ooorb_ph in E. cbn [Z.eqb Pos.eqb] in E. unfold ooorb_th.
  destruct (lazylist_pop_front _ _ _) as [[o' l1]| |]; [|done..]. cbn [mbind outcome_bind] in E |- *. injection E as <- <-. cbn [rb_list] in Hl. rewrite (li_head _ _ _ Hl), get_ok by lia. ll_cbn.
  pose proof (li_path _ _ _ Hl) as HP. cbn [path] in HP. destruct HP as (_ & HR & _ & HP). rewrite (print_loop_ok l1 es FIND_FUEL 126 LS HP HR).
  - ll_cbn. rewrite He. eauto.
  - apply Forall_forall. intros k Hk. apply (inv_bound _ _ _ k Hl). apply elem_of_app in Hk as [Hk|Hk]; [tauto|]. apply list_elem_of_singleton in Hk. tauto.
  - rewrite He. eapply Forall_impl; [exact (normal_Forall _ _ HN)|]. cbn. intros; lia.
  - pose proof (inv_length _ _ _ Hl). unfold FIND_FUEL. lia.
Qed.

(** C17: the reorder buffer. In whatever order the segments of a stream arrive,
    with attempts to take data out anywhere between them, when no two of them
    overlap and the separate ranges held never exceed the nodes there are:
    the handlers return, what is taken out is the stream from byte 0 on
    without gap or repetition and only bytes that have arrived, and a further
    attempt takes out everything that is there, so that it ends at [N] once
    exactly the bytes before [N] have arrived. *)
Theorem ooorb_in_order fuel pkts s0 :
  marks (rb_list s0) 126 = 0 -> marks (rb_list s0) 127 = 0 ->
  Forall segment_ok (segments pkts) -> no_overlap (segments pkts) = true -> fits pkts ([], 0) = true ->
  exists popped s, (s ← ooorb_hh s0; ph_run (S fuel) pkts s) = Ret (popped, s) /\
    contiguous 0 popped (next_expected_byte s) /\
    (forall x, 0 <= x < next_expected_byte s -> covered (segments pkts) x) /\
    (exists out s', ooorb_th (S fuel) s = Ret (out, s')) /\
    forall w1 w2, exists last_popped s', ooorb_ph (S fuel) 1 w1 w2 s = Ret (last_popped, s') /\
      ~ covered (segments pkts) (next_expected_byte s') /\
      forall N, 0 <= N -> (forall x, covered (segments pkts) x <-> 0 <= x < N) -> next_expected_byte s' = N.
Proof.
  intros M6 M7 Hok Hno Hf. unfold ooorb_hh. destruct (init_ok (rb_list s0) M6 M7) as (l & -> & Hl). cbn [mbind outcome_bind].
  assert (rb_inv [] (mk_rb l 0) [] 0) as Hi0.
  { split; [by exists [], (seqZ 0 126)|done|unfold INT32_MAX; lia|cbn; unfold INT32_MAX; lia|]. intros x. unfold covered. rewrite Exists_nil. lia. }
  destruct (ph_run_inv fuel pkts [] (mk_rb l 0) [] 0 Hi0 Hok Hno Hf) as (popped & s & rs & n & -> & Hi & Hc). cbn [app] in Hi. exists popped, s. split; [done|]. rewrite (ri_next _ _ _ _ Hi).
  split; [done|]. split; [intros x Hx; apply (ri_seen _ _ _ _ Hi); by left|]. split; [destruct (th_step fuel _ s rs n Hi) as [s' ->]; eauto|].
  intros w1 w2. destruct (pop_step fuel _ s rs n w1 w2 Hi) as (o & s' & rs' & n' & -> & _ & Hi' & _ & Hnc). exists o, s'. rewrite (ri_next _ _ _ _ Hi'). split; [done|]. split; [done|].
  intros N HN Hex. rewrite Hex in Hnc. pose proof (ri_bound _ _ _ _ Hi'). assert (n' <= N); [|lia]. apply Z.nlt_ge. intros Hlt. assert (covered (segments pkts) N) as HcN by (apply (ri_seen _ _ _ _ Hi'); left; lia). apply Hex in HcN. lia.
Qed.

(** ** Examples *)

Definition node0 : lazylist_node_t := mk_node 0 (mk_range 0 0) 0 0.
Definition rb0 : rb_state := mk_rb (mk_list 0 0 0 (fun _ => node0) (fun _ => 0)) 0.

(** Four segments out of order, with a pop in between. *)
Definition stream4 : list (Z * Z * Z) := [(0, 300, 399); (0, 0, 99); (1, 0, 0); (0, 200, 299); (1, 0, 0); (0, 100, 199)].

Lemma ooorb_in_order_witness :
  exists popped s, (s ← ooorb_hh rb0; ph_run 1 stream4 s) = Ret (popped, s) /\ popped = [mk_range 0 99] /\
    exists last_popped s', ooorb_ph 1 1 0 0 s = Ret (last_popped, s') /\ next_expected_byte s' = 400.
Proof.
  destruct (ooorb_in_order 0 stream4 rb0) as (popped & s & E & _ & _ & _ & H); [reflexivity|reflexivity|repeat constructor; cbn; unfold INT32_MAX; lia|reflexivity|reflexivity|].
  exists popped, s. split; [exact E|]. split; [vm_compute in E; injection E as <- _; reflexivity|]. destruct (H 0 0) as (o & s' & E' & _ & HN). exists o, s'. split; [exact E'|]. apply HN; [lia|].
  intros x. change (segments stream4) with [mk_range 300 399; mk_range 0 99; mk_range 200 299; mk_range 100 199]. unfold covered. rewrite !Exists_cons, Exists_nil. unfold in_range. cbn [left right]. lia.
Defined.

(** ** Where it goes wrong *)

(** With every node in use the free list is empty, but [lazylist_get_free_node]
    tests the lock instead of the index: the next range that touches no other
    makes it follow [EOL]. *)
Theorem full_list_out_of_bounds :
  (s ← ooorb_hh rb0; ph_run 1 ((fun k => (0, 10 * k, 10 * k)) <$> seqZ 0 127) s) = Undef.
Proof. vm_compute. reflexivity. Qed.

(** [lazylist_init] does not clear the marks of the sentinels: when one is
    left over in the scratchpad, the first insertion never ends. *)
Definition rb_marked : rb_state := mk_rb (mk_list 0 0 0 (fun _ => node0) (fun i => if i =? 126 then 1 else 0)) 0.

Definition sentinel_marked (l : lazylist_t) : Prop :=
  head_idx l = 126 /\ nodes l 126 = mk_node 126 LS 0 127 /\ nodes l 127 = mk_node 127 RS 0 EOL /\ marks l 126 = 1.

Lemma marked_insert_spins r : INT32_MIN < left r -> right r < INT32_MAX -> left r <= right r -> forall fuel l, sentinel_marked l -> lazylist_insert fuel r l = Spin.
Proof.
  intros H1 H2 H3. induction fuel as [|fuel IH]; intros l (Hh & N6 & N7 & Hm); [done|]. cbn [lazylist_insert].
  assert (lazylist_find_pred l r = Ret (Some (126, 127))) as ->.
  { unfold lazylist_find_pred, FIND_FUEL. rewrite Hh. cbn [find_loop]. rewrite !get_ok by lia. ll_cbn. rewrite N6. cbn [range LS right next_idx]. rewrite (proj2 (Z.ltb_lt _ _)) by lia. rewrite get_ok by lia. ll_cbn. rewrite N7. cbn [range RS right].
    rewrite (proj2 (Z.ltb_ge _ _)) by lia. ll_cbn. rewrite get_ok by lia. ll_cbn. rewrite N7. cbn [range RS left]. by rewrite (proj2 (Z.leb_gt _ _)) by lia. }
  cbn [mbind outcome_bind]. rewrite lock_ok by (lia || by rewrite N6). ll_cbn. rewrite lock_ok; ll_cbn; [|lia|by rewrite (at_upd_ne 126 127), N7]. unfold lazylist_validate. rewrite !get_ok by lia. ll_cbn. rewrite (at_upd_ne 127 126), at_upd_eq, N6 by lia. ll_cbn.
  rewrite (marked_ok _ 126) by lia. ll_cbn. rewrite Hm. cbn [Z.eqb negb]. rewrite unlock_ok by lia. ll_cbn. rewrite unlock_ok by lia. ll_cbn. apply IH. unfold sentinel_marked. ll_cbn. split; [done|].
  unfold upd. cbn [Z.eqb Pos.eqb]. rewrite ?N6, ?N7. done.
Qed.

Theorem sentinel_mark_spins fuel : (s ← ooorb_hh rb_marked; ooorb_ph fuel 0 0 99 s) = Spin.
Proof.
  unfold ooorb_ph. change (s32 0) with 0. change (s32 99) with 99. cbn [Z.eqb].
  assert (exists s, ooorb_hh rb_marked = Ret s /\ sentinel_marked (rb_list s)) as (s & -> & Hs) by (eexists; split; [vm_compute; reflexivity|vm_compute; done]).
  cbn [mbind outcome_bind]. by rewrite marked_insert_spins.
Qed.
