(* ===== verification/DataHandlers.v ===== *)
(** * Handlers that compute on packet data

    Model of the handlers of [examples/reduce], [examples/histogram],
    [examples/aggregate] (the same code is in [examples/aggregate_and_reduce])
    and [examples/filtering] of the PsPIN tree, and of [GET_IP_UDP_PLD]
    ([handler.h]).

    The packet handlers of a cluster run at the same time on its HPUs and
    share a scratchpad; they change it by atomic additions ([amo_add]) only.
    A handler is the list of its additions, computed from its packet; a run
    of several handlers is any interleaving of their lists. *)

From S2P Require Import Prelude Packets.

Definition IP_HDR : nat := 20.
Definition UDP_HDR : nat := 8.

(** The macro [GET_IP_UDP_PLD]: offset and length of the payload, from the
    header length nibble and the length field in processor order. *)
Definition GET_IP_UDP_PLD (pkt : list Z) : nat * Z :=
  (Nat.add (Z.to_nat (nth 0%nat pkt 0 mod 16 * 4)) UDP_HDR, u32 (get16 pkt 2 - Z.of_nat IP_HDR - Z.of_nat UDP_HDR)).

(** The 32-bit words [0 .. n-1] from [off]; [None]: beyond the packet memory. *)
Fixpoint words_at (pkt : list Z) (off n : nat) : option (list Z) :=
  match n with
  | O => Some []
  | S n' => if (off + 4 <=? length pkt)%nat then ws ← words_at pkt (off + 4) n'; Some (get32 pkt off :: ws) else None
  end.
Definition payload_words (pkt : list Z) : option (list Z) := let '(off, len) := GET_IP_UDP_PLD pkt in words_at pkt off (Z.to_nat (len / 4)).

(** An atomic addition: the index of the word and what is added. *)
Definition amo : Type := Z * Z.
Definition amo_add (x : amo) (m : Z -> Z) : Z -> Z := fun i => if i =? x.1 then u32 (m i + x.2) else m i.

(** ** The handlers *)

Fixpoint reduce_loop (i : Z) (ws : list Z) : list amo := match ws with [] => [] | w :: ws' => (i, w) :: reduce_loop (u32 (i + 1)) ws' end.
Definition reduce_l1_ph (pkt : list Z) : option (list amo) := ws ← payload_words pkt; Some (reduce_loop 0 ws).

(** The index is a signed word of the packet. *)
Fixpoint histogram_loop (word_ptr : Z) (ws : list Z) : list amo := match ws with [] => [] | w :: ws' => (word_ptr, 1) :: histogram_loop (s32 w) ws' end.
Definition histogram_l1_ph (pkt : list Z) : option (list amo) :=
  ws ← payload_words pkt;
  match ws with
  | [] => None    (* the first word is read in any case *)
  | w :: ws' => Some (histogram_loop (s32 w) ws')
  end.

Definition MAX_CLUSTERS : nat := 4.
Definition aggregate (ws : list Z) : Z := foldl (fun acc w => u32 (acc + w)) 0 ws.
Definition aggregate_global_ph (cluster_id : Z) (pkt : list Z) : option (list amo) := ws ← payload_words pkt; Some [(cluster_id, aggregate ws)].
(** The word written to the host. The source takes [task->scratchpad], the
    array of the clusters' scratchpad addresses, for the counters; here they
    are an array of their own. *)
Definition aggregate_global_th (scratchpad : Z -> Z) : Z := foldl (fun acc i => u32 (acc + scratchpad (Z.of_nat i))) 0 (seq 0 MAX_CLUSTERS).

(** *** Filtering *)

Definition KEY_SIZE : nat := 8.
Definition TOT_WORDS : Z := 262144.
Definition FAST_MOD (a b : Z) : Z := Z.land a (b - 1).
Definition sub32 (a b : Z) : Z := u32 (a - b).

Definition HASH_JEN_MIX (s : Z * Z * Z) : Z * Z * Z :=
  let '(a, b, c) := s in
  let a := Z.lxor (sub32 (sub32 a b) c) (Z.shiftr c 13) in
  let b := Z.lxor (sub32 (sub32 b c) a) (u32 (Z.shiftl a 8)) in
  let c := Z.lxor (sub32 (sub32 c a) b) (Z.shiftr b 13) in
  let a := Z.lxor (sub32 (sub32 a b) c) (Z.shiftr c 12) in
  let b := Z.lxor (sub32 (sub32 b c) a) (u32 (Z.shiftl a 16)) in
  let c := Z.lxor (sub32 (sub32 c a) b) (Z.shiftr b 5) in
  let a := Z.lxor (sub32 (sub32 a b) c) (Z.shiftr c 3) in
  let b := Z.lxor (sub32 (sub32 b c) a) (u32 (Z.shiftl a 10)) in
  let c := Z.lxor (sub32 (sub32 c a) b) (Z.shiftr b 15) in
  (a, b, c).

(** Little-endian words of the key. *)
Definition key_word (key : list Z) (off n : nat) : Z := le_combine (sub_list off n key).
(** The loop over blocks of 12 bytes; the rest of the key. *)
Fixpoint hash_loop (fuel : nat) (key : list Z) (s : Z * Z * Z) : list Z * (Z * Z * Z) :=
  match fuel with
  | O => (key, s)
  | S fuel' =>
      if (length key <? 12)%nat then (key, s)
      else let '(i, j, h) := s in
           hash_loop fuel' (drop 12 key) (HASH_JEN_MIX (u32 (i + key_word key 0 4), u32 (j + key_word key 4 4), u32 (h + key_word key 8 4)))
  end.
(** The [switch] with its falling through: bytes 8 to 10 go to the upper bytes
    of the hash. *)
Definition HASH_JEN (key : list Z) : Z :=
  let '(r, (i, j, h)) := hash_loop (length key) key (0x9e3779b9, 0x9e3779b9, 0xfeedbeef) in
  let h := u32 (h + Z.of_nat (length key)) in
  let '(_, _, h) := HASH_JEN_MIX (u32 (i + key_word r 0 4), u32 (j + key_word r 4 4), u32 (h + Z.shiftl (key_word r 8 3) 8)) in h.

(** The word looked up replaces the first word of the packet, which goes to
    the host whole. *)
Definition filter_index (pkt : list Z) : Z := FAST_MOD (HASH_JEN (take KEY_SIZE pkt)) TOT_WORDS.
Definition filtering_ph (mem : Z -> Z) (pkt : list Z) : list Z := put32 0 (mem (filter_index pkt)) pkt.

(** ** Interleavings *)

(** The scratchpad and what each handler still has to add. *)
Definition hstate : Type := (Z -> Z) * list (list amo).
Inductive hstep : hstate -> hstate -> Prop :=
  | hstep_amo m k x l ls : ls !! k = Some (x :: l) -> hstep (m, ls) (amo_add x m, <[k := l]> ls).
Definition finished (s : hstate) : Prop := Forall (fun l => l = []) s.2.

(** What all the additions of a list add to word [i]. *)
Definition total (i : Z) (l : list amo) : Z := sum (snd <$> base.filter (fun x => x.1 = i) l).
Definition pending (i : Z) (ls : list (list amo)) : Z := sum (total i <$> ls).
Definition left (ls : list (list amo)) : nat := sum_list (length <$> ls).

Lemma total_cons i x l : total i (x :: l) = (if i =? x.1 then x.2 else 0) + total i l.
Proof. unfold total. rewrite filter_cons. destruct (decide (x.1 = i)) as [->|H]; [by rewrite Z.eqb_refl|]. by rewrite (proj2 (Z.eqb_neq _ _)) by congruence. Qed.
Lemma total_app i l l' : total i (l ++ l') = total i l + total i l'.
Proof. induction l as [|x l IH]; [done|]. cbn [app]. rewrite !total_cons, IH. lia. Qed.

Lemma pending_insert i k x l ls : ls !! k = Some (x :: l) -> pending i ls = (if i =? x.1 then x.2 else 0) + pending i (<[k := l]> ls).
Proof.
  revert k. induction ls as [|l0 ls IH]; intros [|k] H; try done.
  - injection H as ->. change (total i (x :: l) + pending i ls = (if i =? x.1 then x.2 else 0) + (total i l + pending i ls)). rewrite total_cons. lia.
  - change (total i l0 + pending i ls = (if i =? x.1 then x.2 else 0) + (total i l0 + pending i (<[k := l]> ls))). rewrite (IH k H). lia.
Qed.
Lemma left_insert k x l ls : ls !! k = Some (x :: l) -> left ls = S (left (<[k := l]> ls)).
Proof.
  revert k. induction ls as [|l0 ls IH]; intros [|k] H; try done.
  - by injection H as ->.
  - change ((length l0 + left ls)%nat = S (length l0 + left (<[k := l]> ls))). rewrite (IH k H). lia.
Qed.

(** Modulo [2^32] nothing is lost: a word and what is still to come for it. *)
Definition conserved (i : Z) (s s' : hstate) : Prop := (s.1 i + pending i s.2) mod 2 ^ 32 = (s'.1 i + pending i s'.2) mod 2 ^ 32.

Lemma hstep_conserved i s s' : hstep s s' -> conserved i s s'.
Proof.
  intros [m k x l ls H]. unfold conserved. cbn [fst snd]. rewrite (pending_insert i k x l ls H). unfold amo_add. set (q := pending i _). clearbody q. destruct (i =? x.1); [|by rewrite Z.add_0_l].
  unfold u32. rewrite Zplus_mod_idemp_l. by rewrite Z.add_assoc.
Qed.
Lemma run_conserved i s s' : rtc hstep s s' -> conserved i s s'.
Proof. induction 1 as [s|s s1 s' H _ IH]; [done|]. apply (hstep_conserved i) in H. unfold conserved in *. congruence. Qed.

Lemma finished_pending i s : finished s -> pending i s.2 = 0.
Proof. unfold finished. induction s.2 as [|l ls IH]; [done|]. intros H. apply Forall_cons in H as [-> H]. exact (IH H). Qed.
Lemma pending_concat i ls : pending i ls = total i (concat ls).
Proof. induction ls as [|l ls IH]; [done|]. cbn [concat]. rewrite total_app, <- IH. done. Qed.

(** A word that is a 32-bit number stays one. *)
Lemma hstep_range i s s' : hstep s s' -> 0 <= s.1 i < 2 ^ 32 -> 0 <= s'.1 i < 2 ^ 32.
Proof. intros [m k x l ls H] Hr. cbn [fst] in *. unfold amo_add. destruct (i =? x.1); [|done]. apply u32_range. Qed.
Lemma run_range i s s' : rtc hstep s s' -> 0 <= s.1 i < 2 ^ 32 -> 0 <= s'.1 i < 2 ^ 32.
Proof. induction 1 as [s|s s1 s' H _ IH]; [done|]. intros Hr. by apply IH, (hstep_range i s). Qed.

Lemma run_final i m ls s' : rtc hstep (m, ls) s' -> finished s' -> 0 <= m i < 2 ^ 32 -> s'.1 i = u32 (m i + total i (concat ls)).
Proof.
  intros Hr Hf Hm. pose proof (run_conserved i _ _ Hr) as Hc. pose proof (run_range i _ _ Hr Hm) as Hs. unfold conserved in Hc. rewrite (finished_pending i _ Hf), Z.add_0_r in Hc. cbn [fst snd] in Hc, Hs. rewrite <- pending_concat.
  unfold u32. rewrite Hc. symmetry. by apply Z.mod_small.
Qed.

(** A handler that has something left can go on, and every step is one
    addition less. *)
Lemma hstep_or_finished s : finished s \/ exists s', hstep s s'.
Proof.
  destruct s as [m ls]. destruct (decide (Forall (fun l => l = []) ls)) as [H|H]; [by left|right]. apply not_Forall_Exists in H; [|apply _]. apply Exists_exists in H as (l & Hl & Hn). destruct l as [|x l]; [exfalso; by apply Hn|].
  apply list_elem_of_lookup in Hl as [k Hk]. eexists. by apply (hstep_amo m k x l).
Qed.
Lemma hstep_left s s' : hstep s s' -> left s.2 = S (left s'.2).
Proof. intros [m k x l ls H]. exact (left_insert k x l ls H). Qed.
Lemma runs_end n : forall s, left s.2 = n -> exists s', rtc hstep s s' /\ finished s'.
Proof.
  induction n as [|n IH]; intros s Hn; destruct (hstep_or_finished s) as [Hf|[s1 H1]]; try (by exists s); [apply hstep_left in H1; lia|].
  destruct (IH s1) as (s' & Hr & Hf); [apply hstep_left in H1; lia|]. exists s'. split; [by eapply rtc_l|done].
Qed.

(** ** What the handlers compute *)

Lemma aggregate_sum ws : aggregate ws = u32 (sum ws).
Proof.
  unfold aggregate. assert (forall acc, 0 <= acc < 2 ^ 32 -> foldl (fun acc w => u32 (acc + w)) acc ws = u32 (acc + sum ws)) as H.
  { induction ws as [|w ws IH]; intros acc Ha; cbn [foldl]; [cbn; by rewrite Z.add_0_r, u32_id|]. rewrite IH by apply u32_range. unfold u32. rewrite Zplus_mod_idemp_l. f_equal. cbn [sum foldr]. unfold sum. lia. }
  rewrite H by lia. by rewrite Z.add_0_l.
Qed.

Lemma total_reduce_low k ws : forall j, k < j -> j + Z.of_nat (length ws) < 2 ^ 32 -> 0 <= j -> total k (reduce_loop j ws) = 0.
Proof.
  induction ws as [|w ws IH]; intros j Hj Hb H0; [done|]. cbn [reduce_loop length] in *. rewrite total_cons. cbn [fst]. rewrite (proj2 (Z.eqb_neq _ _)), u32_id by lia. rewrite IH by lia. done.
Qed.
Lemma total_reduce ws : forall j k, 0 <= j -> j + Z.of_nat (length ws) < 2 ^ 32 -> total (j + Z.of_nat k) (reduce_loop j ws) = default 0 (ws !! k).
Proof.
  induction ws as [|w ws IH]; intros j k H0 Hb; [done|]. cbn [reduce_loop length] in *. rewrite total_cons. cbn [fst snd]. rewrite u32_id by lia. destruct k as [|k].
  - rewrite Z.add_0_r, Z.eqb_refl, total_reduce_low by lia. cbn. lia.
  - rewrite (proj2 (Z.eqb_neq _ _)) by lia. replace (j + Z.of_nat (S k)) with (j + 1 + Z.of_nat k) by lia. rewrite IH by lia. done.
Qed.

Lemma words_length pkt n : forall off ws, words_at pkt off n = Some ws -> length ws = n.
Proof. induction n as [|n IH]; intros off ws H; cbn [words_at] in H; [by injection H as <-|]. destruct (_ <=? _)%nat; [|done]. destruct (words_at pkt (off + 4) n) as [ws'|] eqn:E; [|done]. injection H as <-. cbn. f_equal. exact (IH _ _ E). Qed.
Lemma words_beyond pkt n : forall off, (length pkt < off + 4 * n)%nat -> (0 < n)%nat -> words_at pkt off n = None.
Proof.
  induction n as [|n IH]; intros off H H0; [lia|]. cbn [words_at]. destruct (Nat.leb_spec (off + 4) (length pkt)); [|done]. rewrite IH by lia. done.
Qed.
Lemma payload_short pkt ws : payload_words pkt = Some ws -> Z.of_nat (length ws) < 2 ^ 31.
Proof.
  unfold payload_words. cbn [GET_IP_UDP_PLD]. intros H. rewrite (words_length _ _ _ _ H). pose proof (u32_range (get16 pkt 2 - Z.of_nat IP_HDR - Z.of_nat UDP_HDR)) as Hr. set (z := u32 _) in *. clearbody z. assert (z / 4 < 2 ^ 31) by (apply Z.div_lt_upper_bound; lia). assert (0 <= z / 4) by (apply Z.div_pos; lia). lia.
Qed.

(** The sum of word [k] of all packets. *)
Definition word_sum (k : nat) (pkts : list (list Z)) : Z := sum ((fun ws => default 0 (ws !! k)) <$> pkts).

(** The packets and their words. *)
Definition read_as (pkts : list (list Z)) (wss : list (list Z)) : Prop := Forall2 (fun p ws => payload_words p = Some ws) pkts wss.

Lemma reduce_lists pkts wss : read_as pkts wss -> mapM reduce_l1_ph pkts = Some (reduce_loop 0 <$> wss).
Proof. induction 1 as [|p ws ps wss E _ IH]; [done|]. assert (reduce_l1_ph p = Some (reduce_loop 0 ws)) as Ep by (unfold reduce_l1_ph; by rewrite E). simpl. by rewrite Ep, IH. Qed.
Lemma reduce_total k pkts wss : read_as pkts wss -> total (Z.of_nat k) (concat (reduce_loop 0 <$> wss)) = word_sum k wss.
Proof.
  induction 1 as [|p ws ps wss E _ IH]; [done|]. cbn [concat fmap list_fmap]. rewrite total_app, IH. unfold word_sum. cbn [fmap list_fmap sum foldr]. f_equal.
  pose proof (payload_short _ _ E). pose proof (total_reduce ws 0 k ltac:(lia) ltac:(lia)) as H'. by rewrite Z.add_0_l in H'.
Qed.

(** A run from [s] can be finished, and every finished run has [P]. *)
Definition all_runs (s : hstate) (P : (Z -> Z) -> Prop) : Prop :=
  (forall s1, rtc hstep s s1 -> exists s2, rtc hstep s1 s2 /\ finished s2) /\ forall s2, rtc hstep s s2 -> finished s2 -> P s2.1.
Lemma all_runs_final m ls (P : (Z -> Z) -> Prop) : (forall m', (forall i, 0 <= m i < 2 ^ 32 -> m' i = u32 (m i + total i (concat ls))) -> P m') -> all_runs (m, ls) P.
Proof. intros HP. split; [intros s1 _; by apply (runs_end (left s1.2))|]. intros s2 Hr Hf. apply HP. intros i Hi. by apply (run_final i m ls s2). Qed.

(** C22: the reduction does not depend on the order. However many packets are
    handled at once, and however the additions of their handlers interleave
    on the scratchpad of the cluster, the handlers finish, and word [k] of the
    scratchpad has grown by the sum of word [k] of all packets, modulo
    [2^32]. *)
Theorem reduce_any_order pkts wss m :
  read_as pkts wss -> (forall i, 0 <= m i < 2 ^ 32) ->
  exists ls, mapM reduce_l1_ph pkts = Some ls /\ all_runs (m, ls) (fun m' => forall k, m' (Z.of_nat k) = u32 (m (Z.of_nat k) + word_sum k wss)).
Proof.
  intros Hp Hm. exists (reduce_loop 0 <$> wss). split; [by apply reduce_lists|]. apply all_runs_final. intros m' H k. rewrite H by apply Hm. by rewrite (reduce_total k pkts wss Hp).
Qed.

(** *** Histogram *)

Definition count (v : Z) (l : list Z) : Z := Z.of_nat (length (base.filter (fun x => x = v) l)).
Lemma count_cons v x l : count v (x :: l) = (if v =? x then 1 else 0) + count v l.
Proof. unfold count. rewrite filter_cons. destruct (decide (x = v)) as [->|H]; [rewrite Z.eqb_refl; cbn; lia|]. rewrite (proj2 (Z.eqb_neq v x)) by congruence. lia. Qed.
Lemma total_histogram v ws : forall p, total v (histogram_loop p ws) = count v (removelast (p :: (s32 <$> ws))).
Proof.
  induction ws as [|w ws IH]; intros p; [done|]. cbn [histogram_loop fmap list_fmap]. rewrite total_cons, IH. cbn [fst snd]. change (removelast (p :: s32 w :: (s32 <$> ws))) with (p :: removelast (s32 w :: (s32 <$> ws))). by rewrite count_cons.
Qed.
Lemma histogram_lists pkts wss : read_as pkts wss -> Forall (fun ws => ws <> []) wss ->
  exists ls, mapM histogram_l1_ph pkts = Some ls /\ forall v, total v (concat ls) = sum ((fun ws => count v (removelast (s32 <$> ws))) <$> wss).
Proof.
  induction 1 as [|p ws ps wss E _ IH]; intros Hn; [by exists []|]. apply Forall_cons in Hn as [Hw Hn]. destruct (IH Hn) as (ls & E2 & Ht). destruct ws as [|w ws]; [done|].
  exists (histogram_loop (s32 w) ws :: ls). split; [assert (histogram_l1_ph p = Some (histogram_loop (s32 w) ws)) as Ep by (unfold histogram_l1_ph; by rewrite E); simpl; by rewrite Ep, E2|]. intros v. cbn [concat]. rewrite total_app, Ht, total_histogram. done.
Qed.

(** The histogram counts every word of the packets but the last of each, in
    any interleaving. *)
Theorem histogram_any_order pkts wss m :
  read_as pkts wss -> Forall (fun ws => ws <> []) wss -> (forall i, 0 <= m i < 2 ^ 32) ->
  exists ls, mapM histogram_l1_ph pkts = Some ls /\ all_runs (m, ls) (fun m' => forall v, m' v = u32 (m v + sum ((fun ws => count v (removelast (s32 <$> ws))) <$> wss))).
Proof.
  intros Hp Hn Hm. destruct (histogram_lists pkts wss Hp Hn) as (ls & E & Ht). exists ls. split; [done|]. apply all_runs_final. intros m' H v. rewrite H by apply Hm. by rewrite Ht.
Qed.

(** *** Aggregation *)

Definition aggregate_all (pkts : list (Z * list Z)) : option (list (list amo)) := mapM (fun p => aggregate_global_ph p.1 p.2) pkts.

Lemma aggregate_lists (pkts : list (Z * list Z)) wss : read_as (snd <$> pkts) wss -> aggregate_all pkts = Some ((fun x => [(x.1, aggregate x.2)]) <$> zip (fst <$> pkts) wss).
Proof.
  unfold read_as. revert wss. induction pkts as [|[c p] pkts IH]; intros wss H; cbn [fmap list_fmap] in H.
  - by apply Forall2_nil_inv_l in H as ->.
  - apply Forall2_cons_inv_l in H as (ws & wss' & E & H & ->). cbn [snd] in E. unfold aggregate_all in *. assert (aggregate_global_ph c p = Some [(c, aggregate ws)]) as Ep by (unfold aggregate_global_ph; by rewrite E). simpl. by rewrite Ep, (IH _ H).
Qed.

Lemma sum_clusters (f : Z -> Z) : aggregate_global_th f = u32 (sum (f <$> [0; 1; 2; 3])).
Proof. exact (aggregate_sum [f 0; f 1; f 2; f 3]). Qed.

Lemma total_clusters (l : list amo) : Forall (fun x => 0 <= x.1 < 4) l -> sum ((fun i => total i l) <$> [0; 1; 2; 3]) = sum (snd <$> l).
Proof.
  induction 1 as [|x l Hx _ IH]; [done|]. cbn [fmap list_fmap sum foldr] in *. rewrite !total_cons. assert (x.1 = 0 \/ x.1 = 1 \/ x.1 = 2 \/ x.1 = 3) as [->|[->|[->| ->]]] by lia; cbn [Z.eqb Pos.eqb]; unfold sum in *; cbn [foldr] in *; lia.
Qed.

Lemma mod_sum (l : list (list Z)) a : (a + sum ((fun ws => u32 (sum ws)) <$> l)) mod 2 ^ 32 = (a + sum (concat l)) mod 2 ^ 32.
Proof.
  revert a. induction l as [|ws l IH]; intros a; [done|]. cbn [fmap list_fmap concat sum foldr]. assert (forall x y, sum (x ++ y) = sum x + sum y) as Hs by (intros x y; induction x as [|z x IHx]; [done|]; cbn [app sum foldr] in *; unfold sum in *; lia).
  fold (sum ((fun ws => u32 (sum ws)) <$> l)). rewrite Z.add_assoc, IH, Hs. unfold u32. rewrite (Z.add_comm a), <- !Z.add_assoc, Zplus_mod_idemp_l. f_equal. lia.
Qed.

Lemma mod4 a b c d n : (a mod n + (b mod n + (c mod n + (d mod n + 0)))) mod n = (a + b + c + d) mod n.
Proof.
  rewrite Zplus_mod_idemp_l. replace (a + (b mod n + (c mod n + (d mod n + 0)))) with (b mod n + (a + c mod n + d mod n)) by lia. rewrite Zplus_mod_idemp_l.
  replace (b + (a + c mod n + d mod n)) with (c mod n + (a + b + d mod n)) by lia. rewrite Zplus_mod_idemp_l. replace (c + (a + b + d mod n)) with (d mod n + (a + b + c)) by lia. rewrite Zplus_mod_idemp_l. f_equal. lia.
Qed.

(** The aggregate of a message: when the handlers of all its packets have run,
    on any clusters and in any order, the last handler writes the sum of all
    words to the host, modulo [2^32]. *)
Theorem aggregate_any_order pkts wss m :
  read_as (snd <$> pkts) wss -> Forall (fun p => 0 <= p.1 < 4) pkts -> (forall i, 0 <= m i < 2 ^ 32) ->
  exists ls, aggregate_all pkts = Some ls /\ all_runs (m, ls) (fun m' => aggregate_global_th m' = u32 (sum (m <$> [0; 1; 2; 3]) + sum (concat wss))).
Proof.
  intros Hp Hc Hm. eexists. split; [by apply aggregate_lists|]. apply all_runs_final. intros m' H. set (l := concat _) in H. rewrite sum_clusters.
  assert (Forall (fun x => 0 <= x.1 < 4) l /\ sum (snd <$> l) = sum ((fun ws => u32 (sum ws)) <$> wss)) as [Hl Hs].
  { unfold l. clear -Hp Hc. revert wss Hp. induction Hc as [|[c p] pkts Hx _ IH]; intros wss Hp; cbn [fmap list_fmap] in Hp; [apply Forall2_nil_inv_l in Hp as ->; done|].
    apply Forall2_cons_inv_l in Hp as (ws & wss' & E & Hp & ->). destruct (IH _ Hp) as [H1 H2]. cbn [fmap list_fmap zip zip_with concat app fst snd]. split; [by constructor|]. cbn [fmap list_fmap sum foldr snd]. rewrite aggregate_sum. unfold sum in *. by rewrite H2. }
  pose proof (total_clusters l Hl) as Ht. rewrite Hs in Ht. unfold u32 at 1 2. rewrite <- mod_sum, <- Ht. cbn [fmap list_fmap sum foldr]. rewrite !H by apply Hm. unfold u32, sum. cbn [foldr].
  rewrite mod4. f_equal. lia.
Qed.

(** *** Filtering *)

(** The lookup stays in the table of 1 MiB, whatever the packet. *)
Theorem filter_index_range pkt : 0 <= filter_index pkt < TOT_WORDS /\ filter_index pkt = HASH_JEN (take KEY_SIZE pkt) mod TOT_WORDS.
Proof.
  unfold filter_index, FAST_MOD. change (TOT_WORDS - 1) with (Z.ones 18). rewrite Z.land_ones by lia. change (2 ^ 18) with TOT_WORDS. split; [|done]. apply Z.mod_pos_bound. done.
Qed.

(** ** Examples *)

(** A packet with a payload of words. *)
Definition pkt_of (ws : list Z) : list Z :=
  [0x45; 0] ++ le_split 2 (28 + 4 * Z.of_nat (length ws)) ++ replicate 24 0 ++ concat (le_split 4 <$> ws).
Lemma pkts_read : read_as [pkt_of [1; 2]; pkt_of [10; 20]; pkt_of [0xFFFFFFFF; 5]] [[1; 2]; [10; 20]; [0xFFFFFFFF; 5]].
Proof. repeat constructor; vm_compute; reflexivity. Qed.

Lemma reduce_any_order_witness :
  exists ls, mapM reduce_l1_ph [pkt_of [1; 2]; pkt_of [10; 20]; pkt_of [0xFFFFFFFF; 5]] = Some ls /\
    all_runs (fun _ => 0, ls) (fun m => m 0 = 10 /\ m 1 = 27 /\ m 2 = 0).
Proof.
  destruct (reduce_any_order _ _ (fun _ => 0) pkts_read ltac:(intros; lia)) as (ls & E & H1 & H2). exists ls. split; [exact E|]. split; [exact H1|]. intros s2 Hr Hf. pose proof (H2 s2 Hr Hf) as H.
  split; [|split]; [exact (H 0%nat)|exact (H 1%nat)|exact (H 2%nat)].
Defined.

Lemma histogram_any_order_witness :
  exists ls, mapM histogram_l1_ph [pkt_of [1; 2]; pkt_of [10; 20]; pkt_of [0xFFFFFFFF; 5]] = Some ls /\ all_runs (fun _ => 0, ls) (fun m => m 1 = 1 /\ m 2 = 0 /\ m (-1) = 1).
Proof.
  destruct (histogram_any_order _ _ (fun _ => 0) pkts_read ltac:(repeat constructor; discriminate) ltac:(intros; lia)) as (ls & E & H1 & H2). exists ls. split; [exact E|]. split; [exact H1|]. intros s2 Hr Hf. pose proof (H2 s2 Hr Hf) as H.
  split; [|split]; [exact (H 1)|exact (H 2)|exact (H (-1))].
Defined.

Lemma aggregate_any_order_witness :
  exists ls, aggregate_all [(0, pkt_of [1; 2]); (1, pkt_of [10; 20]); (0, pkt_of [0xFFFFFFFF; 5])] = Some ls /\ all_runs (fun _ => 0, ls) (fun m => aggregate_global_th m = 37).
Proof.
  destruct (aggregate_any_order [(0, pkt_of [1; 2]); (1, pkt_of [10; 20]); (0, pkt_of [0xFFFFFFFF; 5])] _ (fun _ => 0) pkts_read ltac:(repeat constructor; cbn; lia) ltac:(intros; lia)) as (ls & E & H). exists ls. split; [exact E|exact H].
Defined.

(** A length below the size of the headers: the number of words wraps and the
    handler reads on beyond the packet. *)
Theorem short_length_reads_on : reduce_l1_ph (<[2%nat := 27]> (pkt_of [1; 2])) = None.
Proof.
  unfold reduce_l1_ph, payload_words. set (pkt := <[2%nat := 27]> (pkt_of [1; 2])). assert (GET_IP_UDP_PLD pkt = (28%nat, 4294967295)) as -> by (vm_compute; reflexivity).
  assert (words_at pkt 28 (Z.to_nat (4294967295 / 4)) = None) as ->; [|done]. apply words_beyond; change (4294967295 / 4) with 1073741823; [change (length pkt) with 36%nat|]; lia.
Qed.
(** The index into the histogram is a word of the packet: any address can be
    incremented. *)
Theorem histogram_index_unchecked : histogram_l1_ph (pkt_of [0x7FFFFFFF; 0]) = Some [(0x7FFFFFFF, 1)].
Proof. vm_compute. reflexivity. Qed.
