(* ===== verification/Runtime.v ===== *)
(** * The host runtime and the request/response interface

    Model of [lib/fpspin/runtime.c] (the host's side: [fpspin_pop_req],
    [fpspin_push_resp], the performance counters) and of [spin_host.h] (the
    handlers' side: [fpspin_host_req]). A handler on HPU [i] posts a request by
    writing a flag into page [i] of the host buffer and polls word [i] of
    [__host_data.flag] in the handler memory; the host polls the page and
    answers through the driver's ioctl. *)

From S2P Require Import Prelude Regs Mmio PspinDev PspinFile PspinDma.

Local Open Scope fpspin_scope.

Definition NUM_HPUS : Z := 16.
Definition DMA_ALIGN : Z := 64.
Definition MAX_COUNTERS : Z := 16.

(** ** The flag

    [fpspin_flag_t]: a packed struct over a 64-bit word. *)
Record fpspin_flag_t := mk_flag {
  dma_id : Z;      (* uint8_t *)
  len : Z;         (* uint32_t *)
  hpu_id : Z;      (* uint16_t *)
}.

Definition flag_data (f : fpspin_flag_t) : Z :=
  le_combine (le_split 1 (dma_id f) ++ le_split 4 (len f) ++ le_split 2 (hpu_id f) ++ [0]).

Definition flag_of_data (data : Z) : fpspin_flag_t :=
  let bytes := le_split 8 data in
  mk_flag (le_combine (sub_list 0 1 bytes)) (le_combine (sub_list 1 4 bytes))
    (le_combine (sub_list 5 2 bytes)).

Definition flag_wf (f : fpspin_flag_t) : Prop :=
  0 <= dma_id f < 256 /\ 0 <= len f < 2 ^ 32 /\ 0 <= hpu_id f < 2 ^ 16.

Lemma flag_bytes f :
  le_split 8 (flag_data f) = le_split 1 (dma_id f) ++ le_split 4 (len f) ++ le_split 2 (hpu_id f) ++ [0].
Proof.
  unfold flag_data.
  set (l := le_split 1 (dma_id f) ++ le_split 4 (len f) ++ le_split 2 (hpu_id f) ++ [0]).
  assert (Forall is_byte l) as HB.
  { unfold l. repeat apply Forall_app_2; try apply le_split_bytes.
    repeat constructor; unfold is_byte; lia. }
  exact (le_split_combine l HB).
Qed.

Lemma flag_roundtrip f : flag_wf f -> flag_of_data (flag_data f) = f.
Proof.
  intros (Hd & Hl & Hh). unfold flag_of_data. rewrite flag_bytes. unfold sub_list.
  destruct f as [d l h]; cbn [dma_id len hpu_id] in *. f_equal.
  - change (le_combine (le_split 1 d) = d). apply le_combine_split_id. lia.
  - change (le_combine (le_split 4 l) = l). apply le_combine_split_id. lia.
  - change (le_combine (le_split 2 h) = h). apply le_combine_split_id. lia.
Qed.

Lemma flag_data_range f : 0 <= flag_data f < 2 ^ 64.
Proof.
  unfold flag_data. set (l := _ ++ _).
  assert (Forall is_byte l) as HB.
  { unfold l. repeat apply Forall_app_2; try apply le_split_bytes.
    repeat constructor; unfold is_byte; lia. }
  exact (le_combine_range l HB).
Qed.

(** ** Host side *)

(** The part of [fpspin_ctx_t] the requests use. *)
Record host_ctx := mk_host_ctx {
  dma_idx : list Z;        (* one per HPU *)
  host_data_ptr : Z;       (* address of [__host_data] in the handler memory *)
}.

(** [fpspin_pop_req]: [hflag] is the flag word of the HPU's page. The offset
    of the request's data in the buffer, or [None] for NULL; the flag read. *)
Definition fpspin_pop_req (ctx : host_ctx) (i : nat) (hflag : Z)
    : option Z * fpspin_flag_t * host_ctx :=
  let f := flag_of_data hflag in
  if dma_id f =? nth i (dma_idx ctx) 0 then (None, f, ctx)
  else (Some (Z.of_nat i * PAGE_SIZE + DMA_ALIGN), f,
        mk_host_ctx (<[i := dma_id f]> (dma_idx ctx)) (host_data_ptr ctx)).

(** Addresses in [struct host_data]: 16 flags, then the counters. *)
Definition flag_addr (ctx : host_ctx) (i : nat) : Z := host_data_ptr ctx + 8 * Z.of_nat i.
Definition counter_addr (ctx : host_ctx) (id : nat) : Z :=
  host_data_ptr ctx + 8 * NUM_HPUS + 8 * Z.of_nat id.

(** The message of [PSPIN_HOST_WRITE] and [PSPIN_HOST_READ]; unset bytes of
    the union are 0. *)
Definition write_msg (addr data : Z) : list Z := le_split 8 addr ++ le_split 8 data ++ replicate 8 0.
Definition read_msg (addr : Z) : list Z := le_split 8 addr ++ replicate 16 0.

Section Host.
Context {hw : Type} `{!Mmio hw}.

(** The ioctl calls; a failure is only reported. *)
Definition host_write (env : ioctl_env) (cdev : pspin_cdev) (addr data : Z) (d : drv hw) : drv hw :=
  match pspin_ioctl env cdev PSPIN_HOST_WRITE (write_msg addr data) d with
  | Some (_, _, d') => d'
  | None => d
  end.

Definition host_read (env : ioctl_env) (cdev : pspin_cdev) (addr : Z) (d : drv hw) : Z * drv hw :=
  match pspin_ioctl env cdev PSPIN_HOST_READ (read_msg addr) d with
  | Some (_, msg, d') => (msg_u64 0 msg, d')
  | None => (0, d)
  end.

Definition fpspin_push_resp (env : ioctl_env) (cdev : pspin_cdev) (ctx : host_ctx) (i : nat)
    (flag : fpspin_flag_t) (d : drv hw) : drv hw :=
  let flag := mk_flag (nth i (dma_idx ctx) 0) (len flag) (Z.of_nat i) in
  host_write env cdev (flag_addr ctx i) (flag_data flag) d.

(** [fpspin_counter_t]. *)
Record fpspin_counter_t := mk_counter { ctr_sum : Z; ctr_count : Z }.

Definition fpspin_clear_counter (env : ioctl_env) (cdev : pspin_cdev) (ctx : host_ctx) (id : nat)
    (d : drv hw) : drv hw :=
  host_write env cdev (counter_addr ctx id) 0 d.

Definition fpspin_get_counter (env : ioctl_env) (cdev : pspin_cdev) (ctx : host_ctx) (id : nat)
    (d : drv hw) : fpspin_counter_t * drv hw :=
  let '(word, d') := host_read env cdev (counter_addr ctx id) d in
  (mk_counter (u32 word) (u32 (Z.shiftr word 32)), d').

Definition fpspin_get_avg_cycles (env : ioctl_env) (cdev : pspin_cdev) (ctx : host_ctx) (d : drv hw)
    : Z * drv hw :=
  let '(c, d') := fpspin_get_counter env cdev ctx 0 d in
  (if ctr_count c =? 0 then 0 else ctr_sum c / ctr_count c, d').
End Host.

(** ** Device side: [fpspin_host_req] in two parts, up to the polling loop and
    one turn of it *)

(** Increment the index, post the flag: the new index and the flag word
    written to the HPU's page. *)
Definition host_req_post (idx : Z) (i : nat) (l : Z) : Z * Z :=
  let idx' := u8 (idx + 1) in
  (idx', flag_data (mk_flag idx' l (Z.of_nat i))).

(** One turn of the loop: the response if the flag in [__host_data] has the
    index of the request. *)
Definition host_req_poll (idx resp : Z) : option fpspin_flag_t :=
  let f := flag_of_data resp in
  if idx =? dma_id f then Some f else None.

(** ** Writing and reading the cluster's memory *)

(** The 64-bit word at BAR offset [a]. *)
Definition word64_at `{MmioRam hw ram} (h : hw) (a : Z) : Z :=
  word_at h a + Z.shiftl (word_at h (a + 4)) 32.

(** A word of the cluster's memory the driver can reach: the eight bytes at
    the PsPIN address [a] are mapped and behave as memory. *)
Definition mem_word64 (ram : Z -> Prop) (a : Z) : Prop :=
  in_hnd a /\ in_hnd (a + 7) /\
  forall x, pspin_addr_to_corundum a <= x < pspin_addr_to_corundum a + 8 -> ram x.

Definition env_ok : ioctl_env := mk_ioctl_env false false.

Section Words.
Context `{MmioRam hw ram}.
Implicit Types d : drv hw.

Definition cluster_word d (a : Z) : Z := word64_at (d_hw d) (pspin_addr_to_corundum a).

Lemma mem_word64_words a :
  mem_word64 ram a ->
  0 <= pspin_addr_to_corundum a /\ ram_word ram (pspin_addr_to_corundum a) /\
  ram_word ram (pspin_addr_to_corundum a + 4).
Proof.
  intros (Ha & _ & Hr). split; [rewrite pspin_addr_to_corundum_hnd by done; unfold_map; lia|].
  split; intros x Hx; apply Hr; lia.
Qed.

Lemma write_msg_fields a v :
  0 <= a < 2 ^ 64 -> 0 <= v < 2 ^ 64 ->
  msg_u64 0 (write_msg a v) = a /\ msg_u64 8 (write_msg a v) = v.
Proof.
  intros Ha Hv. unfold write_msg, msg_u64, sub_list. split.
  - rewrite drop_0, take_app_length' by (by rewrite length_le_split). apply le_combine_split_id. lia.
  - rewrite drop_app_length', take_app_length' by (by rewrite length_le_split).
    apply le_combine_split_id. lia.
Qed.

Lemma host_write_hw cdev a v d :
  type cdev = TY_MEM -> mem_word64 ram a -> 0 <= v < 2 ^ 64 ->
  host_write env_ok cdev a v d
  = set_hw (iowrite64_lo_hi v (pspin_addr_to_corundum a) (d_hw d)) d.
Proof.
  intros Ht Hm Hv. destruct (mem_word64_words a Hm) as [Hc _]. destruct Hm as (Ha & _ & _).
  destruct (write_msg_fields a v) as [Ea Ev]; [unfold_map; lia|done|].
  unfold host_write, pspin_ioctl, is_mem. rewrite Ht. cbn [negb fault1 fault2 env_ok].
  rewrite Ea, Ev, (proj2 (Z.ltb_ge _ _)) by done. done.
Qed.

Lemma word64_write_eq v a (h : hw) :
  ram_word ram a -> ram_word ram (a + 4) -> 0 <= v < 2 ^ 64 ->
  word64_at (iowrite64_lo_hi v a h) a = v.
Proof.
  intros Ha Hb Hv. unfold word64_at, iowrite64_lo_hi.
  rewrite word_at_write_ne, !word_at_write_eq by (done || lia).
  rewrite Z.shiftl_mul_pow2, Z.shiftr_div_pow2 by lia. unfold u32. rewrite !Z.mod_mod by lia.
  rewrite (Z.mod_small (v / 2 ^ 32)) by (split; [apply Z.div_pos | apply Z.div_lt_upper_bound]; lia).
  pose proof (Z.div_mod v (2 ^ 32)). lia.
Qed.

Lemma word64_write_ne v a b (h : hw) :
  ram_word ram a -> ram_word ram (a + 4) -> ram_word ram b -> ram_word ram (b + 4) ->
  b + 8 <= a \/ a + 8 <= b ->
  word64_at (iowrite64_lo_hi v a h) b = word64_at h b.
Proof.
  intros. unfold word64_at, iowrite64_lo_hi. by rewrite !word_at_write_ne by (done || lia).
Qed.

(** A write through the driver changes its word and no other. *)
Lemma cluster_word_write_eq cdev a v d :
  type cdev = TY_MEM -> mem_word64 ram a -> 0 <= v < 2 ^ 64 ->
  cluster_word (host_write env_ok cdev a v d) a = v.
Proof.
  intros Ht Hm Hv. rewrite host_write_hw by done. destruct (mem_word64_words a Hm) as (_ & ? & ?).
  by apply word64_write_eq.
Qed.

Lemma cluster_word_write_ne cdev a b v d :
  type cdev = TY_MEM -> mem_word64 ram a -> mem_word64 ram b -> 0 <= v < 2 ^ 64 ->
  b + 8 <= a \/ a + 8 <= b ->
  cluster_word (host_write env_ok cdev a v d) b = cluster_word d b.
Proof.
  intros Ht Ha Hb Hv Hne. rewrite host_write_hw by done.
  destruct (mem_word64_words a Ha) as (_ & ? & ?), (mem_word64_words b Hb) as (_ & ? & ?).
  apply word64_write_ne; try done. destruct Ha as (? & _), Hb as (? & _).
  rewrite !pspin_addr_to_corundum_hnd by done. lia.
Qed.

Lemma host_read_word cdev a d :
  type cdev = TY_MEM -> mem_word64 ram a ->
  exists d', host_read env_ok cdev a d = (cluster_word d a, d') /\
             d_app d' = d_app d /\ d_hw d' = d_hw d.
Proof.
  intros Ht Hm. destruct (mem_word64_words a Hm) as (Hc & Hlo & Hhi).
  pose proof (word_at_range (d_hw d) _ Hlo). pose proof (word_at_range (d_hw d) _ Hhi).
  destruct Hm as (Ha & _ & _).
  assert (msg_u64 0 (read_msg a) = a) as Ea.
  { unfold read_msg, msg_u64, sub_list.
    rewrite drop_0, take_app_length' by (by rewrite length_le_split).
    apply le_combine_split_id. unfold_map; lia. }
  unfold host_read, pspin_ioctl, is_mem. rewrite Ht. cbn [negb fault1 fault2 env_ok].
  rewrite Ea, (proj2 (Z.ltb_ge _ _)) by done. unfold PSPIN_MEM, ioread64_lo_hi.
  rewrite !ioread32_word by done. exists (set_hw (d_hw d) d). split; [|done]. f_equal.
  change (word_at (d_hw d) (pspin_addr_to_corundum a)
          + Z.shiftl (word_at (d_hw d) (pspin_addr_to_corundum a + 4)) 32) with (cluster_word d a).
  unfold msg_u64. rewrite <- (length_le_split 8 (cluster_word d a)) at 1.
  rewrite sub_list_write_eq by (unfold read_msg; rewrite length_app, !length_le_split; simpl; lia).
  apply le_combine_split_id.
  unfold cluster_word, word64_at. rewrite Z.shiftl_mul_pow2 by lia. lia.
Qed.
End Words.

(** ** The handshake as a transition system

    All HPUs, the host application and the memories between them. The host
    answers only requests it has popped; nothing else is assumed of the order
    in which the two sides and the HPUs take their turns. The last four fields
    are history, the payload lengths exchanged by each HPU in order. *)

Section Handshake.
Context `{MmioRam hw ram}.
Variables (cdev : pspin_cdev) (base : Z).

Record hs_state := mk_hs {
  hs_idx : nat -> Z;                          (* [dma_idx] of the clusters *)
  hs_wait : nat -> bool;                      (* polling in [fpspin_host_req] *)
  hs_page : nat -> Z;                         (* flag word of the HPU's host page *)
  hs_ctx : host_ctx;
  hs_held : nat -> option fpspin_flag_t;      (* popped, not answered yet *)
  hs_drv : drv hw;
  hs_posted : nat -> list Z;
  hs_popped : nat -> list Z;
  hs_pushed : nat -> list Z;
  hs_returned : nat -> list Z;
}.

Definition upd {A} (i : nat) (x : A) (f : nat -> A) : nat -> A :=
  fun j => if decide (j = i) then x else f j.

Inductive hs_action :=
| DevPost (i : nat) (l : Z)     (* [fpspin_host_req], up to its loop *)
| DevPoll (i : nat)             (* one turn of the loop *)
| HostPop (i : nat)             (* [fpspin_pop_req] *)
| HostPush (i : nat) (l : Z).   (* [fpspin_push_resp] *)

(** [None]: the action is not possible in this state. *)
Definition hs_exec (a : hs_action) (s : hs_state) : option hs_state :=
  match a with
  | DevPost i l =>
      if hs_wait s i then None
      else
        let '(idx', w) := host_req_post (hs_idx s i) i l in
        Some (mk_hs (upd i idx' (hs_idx s)) (upd i true (hs_wait s)) (upd i w (hs_page s))
                (hs_ctx s) (hs_held s) (hs_drv s)
                (upd i (hs_posted s i ++ [l]) (hs_posted s)) (hs_popped s) (hs_pushed s) (hs_returned s))
  | DevPoll i =>
      if negb (hs_wait s i) then None
      else match host_req_poll (hs_idx s i) (cluster_word (hs_drv s) (flag_addr (hs_ctx s) i)) with
      | None => Some s
      | Some f =>
          Some (mk_hs (hs_idx s) (upd i false (hs_wait s)) (hs_page s)
                  (hs_ctx s) (hs_held s) (hs_drv s)
                  (hs_posted s) (hs_popped s) (hs_pushed s)
                  (upd i (hs_returned s i ++ [len f]) (hs_returned s)))
      end
  | HostPop i =>
      match fpspin_pop_req (hs_ctx s) i (hs_page s i) with
      | (None, _, _) => Some s
      | (Some _, f, ctx') =>
          Some (mk_hs (hs_idx s) (hs_wait s) (hs_page s)
                  ctx' (upd i (Some f) (hs_held s)) (hs_drv s)
                  (hs_posted s) (upd i (hs_popped s i ++ [len f]) (hs_popped s)) (hs_pushed s) (hs_returned s))
      end
  | HostPush i l =>
      match hs_held s i with
      | None => None
      | Some f =>
          Some (mk_hs (hs_idx s) (hs_wait s) (hs_page s) (hs_ctx s)
                  (upd i None (hs_held s))
                  (fpspin_push_resp env_ok cdev (hs_ctx s) i (mk_flag (dma_id f) l (hpu_id f)) (hs_drv s))
                  (hs_posted s) (hs_popped s) (upd i (hs_pushed s i ++ [l]) (hs_pushed s)) (hs_returned s))
      end
  end.

(** Actions of the 16 HPUs with 32-bit lengths. *)
Definition action_wf (a : hs_action) : Prop :=
  match a with
  | DevPost i l | HostPush i l => (i < 16)%nat /\ 0 <= l < 2 ^ 32
  | DevPoll i | HostPop i => (i < 16)%nat
  end.

Inductive hs_step : hs_state -> hs_state -> Prop :=
| hs_step_intro a s s' : action_wf a -> hs_exec a s = Some s' -> hs_step s s'.

Definition hs_reach := rtc hs_step.

(** After [fpspin_init], whose last loop takes the host's indices from the
    flags in the pages. [fpspin_load] writes neither the section of
    [__host_data] nor the clusters' [dma_idx]: that the two agree (both zero,
    or both as the last run left them) is assumed of the device, and that the
    next index is not by chance the one in the page. *)
Definition hs_init (s : hs_state) : Prop :=
  host_data_ptr (hs_ctx s) = base /\
  dma_idx (hs_ctx s) = (fun i => dma_id (flag_of_data (hs_page s i))) <$> seq 0 16 /\
  forall i, (i < 16)%nat ->
    hs_wait s i = false /\ hs_held s i = None /\ 0 <= hs_idx s i < 256 /\
    dma_id (flag_of_data (cluster_word (hs_drv s) (base + 8 * Z.of_nat i))) = hs_idx s i /\
    u8 (hs_idx s i + 1) <> dma_id (flag_of_data (hs_page s i)) /\
    hs_posted s i = [] /\ hs_popped s i = [] /\ hs_pushed s i = [] /\ hs_returned s i = [].

(** *** Invariant: each HPU is in one of four phases *)

Inductive phase := Idle | Requested | Popped | Answered.

(** The last request [l] / response [r] in flight in a phase. *)
Definition phase_inv (s : hs_state) (i : nat) : Prop :=
  let d := hs_idx s i in
  let page := flag_of_data (hs_page s i) in
  let c := nth i (dma_idx (hs_ctx s)) 0 in
  let resp := flag_of_data (cluster_word (hs_drv s) (base + 8 * Z.of_nat i)) in
  0 <= d < 256 /\
  exists p, match p with
  | Idle => hs_wait s i = false /\ hs_held s i = None /\ c = dma_id page /\ u8 (d + 1) <> c /\ dma_id resp = d /\
            hs_popped s i = hs_posted s i /\ hs_returned s i = hs_pushed s i /\
            length (hs_pushed s i) = length (hs_posted s i)
  | Requested => hs_wait s i = true /\ hs_held s i = None /\ dma_id page = d /\ c <> d /\ dma_id resp <> d /\
            hs_posted s i = hs_popped s i ++ [len page] /\ hs_returned s i = hs_pushed s i /\
            length (hs_pushed s i) = length (hs_popped s i)
  | Popped => hs_wait s i = true /\ hs_held s i = Some page /\ dma_id page = d /\ c = d /\ dma_id resp <> d /\
            hs_popped s i = hs_posted s i /\ hs_returned s i = hs_pushed s i /\
            length (hs_posted s i) = S (length (hs_pushed s i))
  | Answered => hs_wait s i = true /\ hs_held s i = None /\ dma_id page = d /\ c = d /\ dma_id resp = d /\
            hs_popped s i = hs_posted s i /\ hs_pushed s i = hs_returned s i ++ [len resp] /\
            length (hs_pushed s i) = length (hs_posted s i)
  end.

Definition hs_inv (s : hs_state) : Prop :=
  host_data_ptr (hs_ctx s) = base /\ length (dma_idx (hs_ctx s)) = 16%nat /\
  forall i, (i < 16)%nat -> phase_inv s i.
(** *** The invariant holds *)

Hypothesis cdev_mem : type cdev = TY_MEM.
Hypothesis flags_mapped : forall i, (i < 16)%nat -> mem_word64 ram (base + 8 * Z.of_nat i).

Lemma upd_eq {A} i (x : A) f : upd i x f i = x.
Proof. unfold upd. by rewrite decide_True. Qed.
Lemma upd_ne {A} i j (x : A) f : j <> i -> upd i x f j = f j.
Proof. intros. unfold upd. by rewrite decide_False. Qed.

(** The phase of an HPU depends on its own part of the state only. *)
Lemma phase_inv_frame s s' j :
  hs_idx s' j = hs_idx s j -> hs_wait s' j = hs_wait s j -> hs_page s' j = hs_page s j ->
  nth j (dma_idx (hs_ctx s')) 0 = nth j (dma_idx (hs_ctx s)) 0 ->
  cluster_word (hs_drv s') (base + 8 * Z.of_nat j) = cluster_word (hs_drv s) (base + 8 * Z.of_nat j) ->
  hs_held s' j = hs_held s j -> hs_posted s' j = hs_posted s j -> hs_popped s' j = hs_popped s j ->
  hs_pushed s' j = hs_pushed s j -> hs_returned s' j = hs_returned s j ->
  phase_inv s j -> phase_inv s' j.
Proof.
  intros E1 E2 E3 E4 E5 E6 E7 E8 E9 E10. unfold phase_inv.
  by rewrite E1, E2, E3, E4, E5, E6, E7, E8, E9, E10.
Qed.

Lemma hs_inv_init s : hs_init s -> hs_inv s.
Proof.
  intros (Hb & Hc & Hi). unfold hs_inv. rewrite Hc. split_and!; [done|done|]. intros i Hlt.
  destruct (Hi i Hlt) as (E1 & E2 & E3 & E4 & E5 & E6 & E7 & E8 & E9). unfold phase_inv.
  rewrite E1, E2, E4, E6, E7, E8, E9, Hc. split; [done|]. exists Idle.
  rewrite nth_lookup, list_lookup_fmap, lookup_seq_lt by lia. done.
Qed.

(** Only the HPU an action names changes phase. *)
Ltac frame_other Hj :=
  eapply phase_inv_frame; [..|exact Hj];
  cbn [hs_idx hs_wait hs_page hs_ctx hs_held hs_drv hs_posted hs_popped hs_pushed hs_returned];
  try (by rewrite upd_ne by done); try reflexivity.

Ltac simpl_hs :=
  cbn [hs_idx hs_wait hs_page hs_ctx hs_held hs_drv hs_posted hs_popped hs_pushed hs_returned
       dma_idx host_data_ptr dma_id len hpu_id]; rewrite ?upd_eq.

Lemma u8_succ_neq c : 0 <= c < 256 -> u8 (c + 1) <> c.
Proof. intros Hc. unfold u8. pose proof (Z.div_mod (c + 1) (2 ^ 8)). lia. Qed.

Lemma post_inv s s' i l :
  (i < 16)%nat -> 0 <= l < 2 ^ 32 -> hs_inv s -> hs_exec (DevPost i l) s = Some s' -> hs_inv s'.
Proof.
  intros Hi Hl (Hb & Hlen & Hph) E. cbn [hs_exec] in E. destruct (hs_wait s i) eqn:Hw; [done|].
  unfold host_req_post in E. simplify_eq. split_and!; [done|done|]. intros j Hj.
  destruct (decide (j = i)) as [->|Hne]; [|pose proof (Hph j Hj) as Hj'; frame_other Hj'].
  destruct (Hph i Hi) as (Hd & [] & Hphase); destruct Hphase as (W & Hphase); try congruence.
  destruct Hphase as (Hh & Hc & Hne & Hr & Hpop & Hret & Hcnt).
  unfold phase_inv. simpl_hs.
  rewrite flag_roundtrip by (split_and!; cbn [dma_id len hpu_id]; try apply u8_range; lia).
  simpl_hs. split; [apply u8_range|]. exists Requested.
  pose proof (u8_succ_neq _ Hd). rewrite Hr, Hpop, Hret, Hcnt. split_and!; done.
Qed.

Lemma poll_inv s s' i :
  (i < 16)%nat -> hs_inv s -> hs_exec (DevPoll i) s = Some s' -> hs_inv s'.
Proof.
  intros Hi (Hb & Hlen & Hph) E. cbn [hs_exec] in E.
  destruct (hs_wait s i) eqn:Hw; cbn [negb] in E; [|done].
  unfold host_req_poll, flag_addr in E. rewrite Hb in E.
  set (resp := flag_of_data _) in E.
  destruct (Z.eqb_spec (hs_idx s i) (dma_id resp)) as [Heq|]; [|by simplify_eq].
  simplify_eq. split_and!; [done|done|]. intros j Hj.
  destruct (decide (j = i)) as [->|Hne]; [|pose proof (Hph j Hj) as Hj'; frame_other Hj'].
  destruct (Hph i Hi) as (Hd & p & Hphase). fold resp in Hphase.
  unfold phase_inv. simpl_hs. fold resp. split; [done|]. exists Idle.
  destruct p; destruct Hphase as (W & Hh & Hpg & Hc & Hr & Hphase); try congruence.
  destruct Hphase as (Hpop & Hpush & Hcnt). rewrite <- Hpush, Hc, Hpg.
  pose proof (u8_succ_neq _ Hd). split_and!; done.
Qed.

Lemma pop_inv s s' i :
  (i < 16)%nat -> hs_inv s -> hs_exec (HostPop i) s = Some s' -> hs_inv s'.
Proof.
  intros Hi (Hb & Hlen & Hph) E. cbn [hs_exec] in E. unfold fpspin_pop_req in E.
  set (page := flag_of_data _) in E.
  destruct (Z.eqb_spec (dma_id page) (nth i (dma_idx (hs_ctx s)) 0)) as [|Hneq]; [by simplify_eq|].
  simplify_eq. split_and!; [done|by cbn; rewrite length_insert|]. intros j Hj.
  destruct (decide (j = i)) as [->|Hne].
  2: { pose proof (Hph j Hj) as Hj'. frame_other Hj'. cbn [dma_idx].
       rewrite !nth_lookup, list_lookup_insert_ne; done. }
  destruct (Hph i Hi) as (Hd & p & Hphase). fold page in Hphase.
  unfold phase_inv. simpl_hs. fold page. split; [done|]. exists Popped.
  rewrite nth_lookup, list_lookup_insert_eq by lia. cbn [default].
  destruct p; destruct Hphase as (W & Hh & Hpg & Hc & Hr & Hphase); try congruence.
  destruct Hphase as (Hpost & Hret & Hcnt).
  rewrite <- Hpost, Hcnt in *. split_and!; try done.
  rewrite Hpost, length_app. simpl. lia.
Qed.

Lemma push_inv s s' i l :
  (i < 16)%nat -> 0 <= l < 2 ^ 32 -> hs_inv s -> hs_exec (HostPush i l) s = Some s' -> hs_inv s'.
Proof.
  intros Hi Hl (Hb & Hlen & Hph) E. cbn [hs_exec] in E. destruct (hs_held s i) as [f|] eqn:Hf; [|done].
  unfold fpspin_push_resp, flag_addr in E. rewrite Hb in E. cbn [len] in E.
  simplify_eq. split_and!; [done|done|]. intros j Hj.
  destruct (decide (j = i)) as [->|Hne].
  2: { pose proof (Hph j Hj) as Hj'. frame_other Hj'.
       apply cluster_word_write_ne; auto using flag_data_range. lia. }
  destruct (Hph i Hi) as (Hd & p & Hphase).
  unfold phase_inv. simpl_hs. split; [done|]. exists Answered.
  rewrite cluster_word_write_eq by auto using flag_data_range.
  destruct p; destruct Hphase as (W & Hh & Hpg & Hc & Hr & Hphase); try congruence.
  destruct Hphase as (Hpop & Hret & Hcnt).
  rewrite flag_roundtrip by (split_and!; cbn [dma_id len hpu_id]; lia).
  cbn [dma_id len]. rewrite Hret, length_app, Hcnt. split_and!; try done. simpl. lia.
Qed.

Lemma hs_inv_reach s s' : hs_inv s -> hs_reach s s' -> hs_inv s'.
Proof.
  intros Hs Hr. induction Hr as [|s s1 s' Hstep _ IH]; [done|]. apply IH.
  destruct Hstep as [[i l|i|i|i l] ? ? Ha He]; simpl in Ha; destruct_and?;
    eauto using post_inv, poll_inv, pop_inv, push_inv.
Qed.

(** The invariant, for the histories alone. *)
Lemma phase_inv_histories s i :
  phase_inv s i ->
  hs_popped s i `prefix_of` hs_posted s i /\ hs_returned s i `prefix_of` hs_pushed s i /\
  (length (hs_returned s i) <= length (hs_pushed s i) <= length (hs_popped s i))%nat /\
  (length (hs_popped s i) <= length (hs_posted s i) <= length (hs_returned s i) + 1)%nat.
Proof.
  intros (_ & p & Hp).
  destruct p; destruct_and! Hp;
    repeat match goal with
    | E : hs_popped s i = _ |- _ => rewrite E in *; clear E
    | E : hs_posted s i = hs_popped s i ++ _ |- _ => rewrite E in *; clear E
    | E : hs_pushed s i = hs_returned s i ++ _ |- _ => rewrite E in *; clear E
    | E : hs_returned s i = _ |- _ => rewrite E in *; clear E
    end;
    rewrite ?length_app in *; cbn [length] in *;
    split_and!; try reflexivity; try lia; by apply prefix_app_r.
Qed.

(** From each phase the turn of one side leads to the next. *)
Lemma poll_completes s i :
  (i < 16)%nat -> hs_inv s -> hs_wait s i = true ->
  length (hs_pushed s i) = length (hs_posted s i) ->
  exists s', hs_step s s' /\ hs_wait s' i = false /\ hs_returned s' i = hs_pushed s i /\
             hs_pushed s' i = hs_pushed s i.
Proof.
  intros Hi (Hb & Hlen & Hph) Hw Hcnt. destruct (Hph i Hi) as (Hd & [] & W & Hh & Hpg & Hc & Hr & Hphase).
  - congruence.
  - destruct Hphase as (E & _ & Hn). rewrite E, length_app in Hcnt. simpl in Hcnt. lia.
  - destruct Hphase as (_ & _ & Hn). lia.
  - destruct Hphase as (_ & Hpush & _). eexists. split; [|split; [|split]].
    + apply (hs_step_intro (DevPoll i)); [done|]. cbn [hs_exec]. rewrite Hw. cbn [negb].
      unfold host_req_poll, flag_addr. by rewrite Hb, Hr, Z.eqb_refl.
    + apply upd_eq.
    + cbn [hs_returned]. by rewrite upd_eq, Hpush.
    + done.
Qed.

Lemma push_answers s i l :
  (i < 16)%nat -> 0 <= l < 2 ^ 32 -> hs_inv s -> is_Some (hs_held s i) ->
  exists s', hs_step s s' /\ hs_wait s' i = true /\ hs_pushed s' i = hs_pushed s i ++ [l] /\
             length (hs_pushed s' i) = length (hs_posted s' i).
Proof.
  intros Hi Hl (Hb & Hlen & Hph) [f Hf]. destruct (Hph i Hi) as (Hd & [] & W & Hh & Hpg & Hc & Hr & Hphase);
    try congruence.
  destruct Hphase as (_ & _ & Hn). eexists. split; [|split; [|split]].
  - apply (hs_step_intro (HostPush i l)); [done|]. cbn [hs_exec]. by rewrite Hf.
  - done.
  - apply upd_eq.
  - cbn [hs_pushed hs_posted]. rewrite upd_eq, length_app, Hn. simpl. lia.
Qed.

Lemma pop_receives s i :
  (i < 16)%nat -> hs_inv s -> length (hs_posted s i) = S (length (hs_popped s i)) ->
  exists s', hs_step s s' /\ is_Some (hs_held s' i) /\ hs_pushed s' i = hs_pushed s i.
Proof.
  intros Hi (Hb & Hlen & Hph) Hn. destruct (Hph i Hi) as (Hd & [] & W & Hh & Hpg & Hc & Hr & Hpo & _);
    try (rewrite Hpo in Hn; lia).
  eexists. split; [|split].
  - apply (hs_step_intro (HostPop i)); [done|]. cbn [hs_exec]. unfold fpspin_pop_req.
    rewrite Hpg, (proj2 (Z.eqb_neq _ _)) by congruence. done.
  - cbn [hs_held]. rewrite upd_eq. done.
  - done.
Qed.
End Handshake.

(** *** Exactly once, in order *)

(** C2: the flag protocol between the handlers and the host. Whatever the
    interleaving of the 16 HPUs and the host, the host pops every request of
    an HPU exactly once and in order, and the HPU returns from every request
    with the response the host pushed for it, exactly once and in order: the
    popped lengths are a prefix of the posted ones and the returned ones a
    prefix of the pushed ones, and at most one request of an HPU is under
    way. The 8-bit index may start anywhere and wrap any number of times. *)
Theorem host_request_exactly_once `{MmioRam hw ram} cdev base (s s' : hs_state (hw := hw)) i :
  type cdev = TY_MEM ->
  (forall i, (i < 16)%nat -> mem_word64 ram (base + 8 * Z.of_nat i)) ->
  hs_init base s -> hs_reach cdev s s' -> (i < 16)%nat ->
  hs_popped s' i `prefix_of` hs_posted s' i /\ hs_returned s' i `prefix_of` hs_pushed s' i /\
  (length (hs_returned s' i) <= length (hs_pushed s' i) <= length (hs_popped s' i))%nat /\
  (length (hs_popped s' i) <= length (hs_posted s' i) <= length (hs_returned s' i) + 1)%nat.
Proof.
  intros Ht Hm Hs Hr Hi.
  assert (hs_inv base s') as (_ & _ & Hph) by (eapply hs_inv_reach; eauto using hs_inv_init).
  eapply phase_inv_histories, Hph, Hi.
Qed.

(** C11: no request is stuck. In every reachable state in which an HPU polls
    for its response, at most three more turns (the host pops, the host
    pushes [l], the HPU polls) end its wait; when the host had not answered
    yet, the HPU returns with [l]. *)
Theorem host_request_completes `{MmioRam hw ram} cdev base (s s' : hs_state (hw := hw)) i l :
  type cdev = TY_MEM ->
  (forall i, (i < 16)%nat -> mem_word64 ram (base + 8 * Z.of_nat i)) ->
  hs_init base s -> hs_reach cdev s s' -> (i < 16)%nat -> 0 <= l < 2 ^ 32 ->
  hs_wait s' i = true ->
  exists n s'', (n <= 3)%nat /\ nsteps (hs_step cdev) n s' s'' /\ hs_wait s'' i = false /\
    hs_returned s'' i = hs_pushed s'' i /\
    (hs_pushed s'' i = hs_pushed s' i \/ hs_pushed s'' i = hs_pushed s' i ++ [l]).
Proof.
  intros Ht Hm Hs Hr Hi Hl Hw.
  assert (hs_inv base s') as Hinv by (eapply hs_inv_reach; eauto using hs_inv_init).
  assert (forall s1 s2, hs_inv base s1 -> hs_step cdev s1 s2 -> hs_inv base s2) as Hpres
    by (intros; eapply hs_inv_reach; eauto; by apply rtc_once).
  destruct (proj2 (proj2 Hinv) i Hi) as (Hd & [] & W & Hphase); [congruence|..].
  - destruct Hphase as (_ & _ & _ & _ & E & _ & _).
    destruct (pop_receives cdev base s' i) as (s1 & S1 & H1 & E1); try done.
    { rewrite E, length_app. simpl. lia. }
    destruct (push_answers cdev base s1 i l) as (s2 & S2 & W2 & E2 & N2); eauto.
    destruct (poll_completes cdev base s2 i) as (s3 & S3 & W3 & E3 & E3'); eauto.
    exists 3%nat, s3. split_and!; eauto using nsteps_l, nsteps_O; try congruence.
    right. congruence.
  - destruct Hphase as (Hh & _).
    destruct (push_answers cdev base s' i l) as (s2 & S2 & W2 & E2 & N2); eauto.
    destruct (poll_completes cdev base s2 i) as (s3 & S3 & W3 & E3 & E3'); eauto.
    exists 2%nat, s3. split_and!; eauto using nsteps_l, nsteps_O; try congruence.
    right. congruence.
  - destruct Hphase as (_ & _ & _ & _ & _ & _ & N).
    destruct (poll_completes cdev base s' i) as (s3 & S3 & W3 & E3 & E3'); eauto.
    exists 1%nat, s3. split_and!; eauto using nsteps_l, nsteps_O; try congruence.
Qed.

(** The start matters: a request whose index is the one the host found in the
    page is never seen. After a restart of the host program alone the clusters
    keep their indices while the pages are zero, so that the request with
    index 0 is lost. *)
Theorem host_request_lost ctx i idx l :
  (i < 16)%nat -> 0 <= l < 2 ^ 32 -> u8 (idx + 1) = nth i (dma_idx ctx) 0 ->
  (fpspin_pop_req ctx i (host_req_post idx i l).2).1.1 = None.
Proof.
  intros Hi Hl Hidx. unfold fpspin_pop_req, host_req_post. cbn [snd].
  rewrite flag_roundtrip by (split_and!; cbn [dma_id len hpu_id]; try apply u8_range; lia).
  cbn [dma_id]. by rewrite Hidx, Z.eqb_refl.
Qed.

(** *** A run *)

Definition hs0 : hs_state (hw := memory) :=
  mk_hs (fun _ => 0) (fun _ => false) (fun _ => 0)
    (mk_host_ctx (replicate 16 0) 0x1c000000) (fun _ => None) drv_mem0
    (fun _ => []) (fun _ => []) (fun _ => []) (fun _ => []).

Fixpoint hs_run (l : list hs_action) (s : hs_state (hw := memory)) : option (hs_state (hw := memory)) :=
  match l with
  | [] => Some s
  | a :: l' => hs_exec dev_mem0 a s ≫= hs_run l'
  end.

Lemma hs_run_reach l s s' : Forall action_wf l -> hs_run l s = Some s' -> hs_reach dev_mem0 s s'.
Proof.
  intros Hl. revert s. induction Hl as [|a l Ha Hl IH]; intros s E; cbn [hs_run] in E; [by simplify_eq; constructor|].
  apply bind_Some in E as (s1 & E1 & E). eapply rtc_l; [by econstructor|]. by apply IH.
Qed.

Lemma hs0_init : hs_init 0x1c000000 hs0.
Proof. split; [done|]. split; [done|]. intros i Hi. split_and!; done. Qed.

Lemma hs0_mapped i : (i < 16)%nat -> mem_word64 (fun _ => True) (0x1c000000 + 8 * Z.of_nat i).
Proof. intros Hi. unfold mem_word64. unfold_map. split_and!; done || lia. Qed.

Lemma host_request_exactly_once_witness :
  exists s', hs_reach dev_mem0 hs0 s' /\ hs_posted s' 3 = [100; 5] /\ hs_popped s' 3 = [100] /\
    hs_popped s' 3 `prefix_of` hs_posted s' 3 /\ hs_returned s' 3 = [7].
Proof.
  destruct (hs_run [DevPost 3 100; HostPop 3; HostPop 3; DevPoll 3; HostPush 3 7; DevPoll 3; DevPost 3 5] hs0)
    as [s'|] eqn:E; [|by vm_compute in E].
  assert (hs_reach dev_mem0 hs0 s') as Hr.
  { eapply hs_run_reach; [|exact E]. repeat constructor; lia. }
  destruct (host_request_exactly_once (ram := fun _ => True) dev_mem0 0x1c000000 hs0 s' 3
              eq_refl hs0_mapped hs0_init Hr) as [Hp _]; [lia|].
  exists s'. split; [exact Hr|]. vm_compute in E. injection E as <-. split_and!; try reflexivity. exact Hp.
Defined.

Lemma host_request_completes_witness :
  exists s' n s'', hs_reach dev_mem0 hs0 s' /\ (n <= 3)%nat /\ nsteps (hs_step dev_mem0) n s' s'' /\
    hs_wait s' 15 = true /\ hs_wait s'' 15 = false.
Proof.
  destruct (hs_run [DevPost 15 100; DevPost 3 1; HostPop 3] hs0) as [s'|] eqn:E; [|by vm_compute in E].
  assert (hs_reach dev_mem0 hs0 s') as Hr.
  { eapply hs_run_reach; [|exact E]. repeat constructor; lia. }
  assert (hs_wait s' 15 = true) as Hw by (vm_compute in E; by injection E as <-).
  destruct (host_request_completes (ram := fun _ => True) dev_mem0 0x1c000000 hs0 s' 15 7
              eq_refl hs0_mapped hs0_init Hr) as (n & s'' & Hn & Hs & Hw' & _); [lia|lia|exact Hw|].
  exists s', n, s''. split_and!; assumption.
Defined.

(** ** The performance counters *)

Lemma get_counter_word `{MmioRam hw ram} cdev ctx id (d : drv hw) :
  type cdev = TY_MEM -> mem_word64 ram (counter_addr ctx id) ->
  (fpspin_get_counter env_ok cdev ctx id d).1
  = mk_counter (u32 (cluster_word d (counter_addr ctx id)))
      (u32 (cluster_word d (counter_addr ctx id) / 2 ^ 32)).
Proof.
  intros Ht Hm. unfold fpspin_get_counter.
  destruct (host_read_word cdev (counter_addr ctx id) d Ht Hm) as (d' & -> & _).
  cbn [fst]. by rewrite Z.shiftr_div_pow2 by lia.
Qed.

(** The counters of [struct host_data]. Clearing counter [id] through the
    driver makes [fpspin_get_counter] return zero for it and
    [fpspin_get_avg_cycles] zero instead of dividing by zero, and leaves the
    other fifteen counters and all request flags as they are; a response of
    the host leaves every counter as it is. *)
Theorem counters_isolated `{MmioRam hw ram} cdev ctx id (d : drv hw) :
  type cdev = TY_MEM ->
  (forall k, (k < 32)%nat -> mem_word64 ram (host_data_ptr ctx + 8 * Z.of_nat k)) ->
  (id < 16)%nat ->
  let d' := fpspin_clear_counter env_ok cdev ctx id d in
  let get j (d0 : drv hw) : fpspin_counter_t := (fpspin_get_counter env_ok cdev ctx j d0).1 in
  get id d' = mk_counter 0 0 /\
  (id = 0%nat -> (fpspin_get_avg_cycles env_ok cdev ctx d').1 = 0) /\
  (forall j, (j < 16)%nat -> j <> id -> get j d' = get j d) /\
  (forall i, (i < 16)%nat -> cluster_word d' (flag_addr ctx i) = cluster_word d (flag_addr ctx i)) /\
  (forall i f, (i < 16)%nat -> get id (fpspin_push_resp env_ok cdev ctx i f d) = get id d).
Proof.
  intros Ht Hm Hid d' get.
  assert (forall j, (j < 16)%nat -> mem_word64 ram (counter_addr ctx j)) as Hc.
  { intros j Hj. unfold counter_addr, NUM_HPUS. specialize (Hm (16 + j)%nat).
    replace (host_data_ptr ctx + 8 * 16 + 8 * Z.of_nat j)
      with (host_data_ptr ctx + 8 * Z.of_nat (16 + j)) by lia. apply Hm. lia. }
  assert (forall i, (i < 16)%nat -> mem_word64 ram (flag_addr ctx i)) as Hf
    by (intros i Hi; apply (Hm i); lia).
  assert (get id d' = mk_counter 0 0) as Hz.
  { unfold get, d', fpspin_clear_counter. rewrite get_counter_word by auto.
    by rewrite cluster_word_write_eq by (auto; lia). }
  split_and!.
  - exact Hz.
  - intros ->. unfold fpspin_get_avg_cycles. unfold get in Hz.
    destruct (fpspin_get_counter env_ok cdev ctx 0 d') as [c d2]. cbn [fst] in *. by rewrite Hz.
  - intros j Hj Hne. unfold get, d', fpspin_clear_counter. rewrite !get_counter_word by auto.
    rewrite cluster_word_write_ne by (auto; unfold counter_addr; lia). done.
  - intros i Hi. unfold d', fpspin_clear_counter.
    apply cluster_word_write_ne; auto; unfold counter_addr, flag_addr, NUM_HPUS; lia.
  - intros i f Hi. unfold get, fpspin_push_resp. rewrite !get_counter_word by auto.
    rewrite cluster_word_write_ne by
      (auto using flag_data_range; unfold counter_addr, flag_addr, NUM_HPUS; lia). done.
Qed.

Lemma counters_isolated_witness :
  (fpspin_get_counter env_ok dev_mem0 (hs_ctx hs0) 5
     (fpspin_clear_counter env_ok dev_mem0 (hs_ctx hs0) 5
        (host_write env_ok dev_mem0 (counter_addr (hs_ctx hs0) 5) 0x300000007 drv_mem0))).1
  = mk_counter 0 0.
Proof.
  refine (proj1 (counters_isolated (ram := fun _ => True) dev_mem0 (hs_ctx hs0) 5 _ eq_refl _ _)).
  - intros k Hk. unfold mem_word64. cbn [host_data_ptr hs_ctx hs0]. unfold_map. split_and!; done || lia.
  - lia.
Defined.
