(* ===== verification/HostInit.v ===== *)
(** * Starting and stopping a handler from the host

    [fpspin_init] and [fpspin_exit] of [lib/fpspin/runtime.c], composed from the
    driver ([pspin_mmap], [pspin_ioctl], [pspin_vma_close]), the loader
    ([fpspin_load], [fpspin_prog_me], [fpspin_unload]) and the system calls of
    the process: which files are open, what is mapped, which host memory areas
    the driver has given out. The pipe to nm and the messages are not part of
    the state. *)

From S2P Require Import Prelude Regs Mmio PspinDev PspinFile PspinDma Loader LoaderMem LoadImage Runtime.

Local Open Scope fpspin_scope.

(** ** State *)

(** [fpspin_ctx_t]; the part about the image is [l_img] of the loader. *)
Record fpspin_ctx := mk_fctx {
  fc_ctx_id : Z;
  fc_fd : Z;
  fc_cpu_addr : Z;
  fc_mmap_len : Z;
  fc_dma_idx : list Z;
  fc_host_data_ptr : Z;
}.

(** The process: the loader's view of the device, the files open, the
    mappings of the device (address, length, context of the vma) and the
    allocations the driver has given back. *)
Record host_proc (hw : Type) := mk_hp {
  hp_l : lsys hw;
  hp_fds : list Z;
  hp_maps : list (Z * Z * Z);
  hp_freed : list (Z * Z * Z);
}.
Arguments mk_hp {hw}. Arguments hp_l {hw}. Arguments hp_fds {hw}. Arguments hp_maps {hw}. Arguments hp_freed {hw}.

(** What the kernel and the toolchain answer: the file descriptor, the address
    and the services of [mmap], [madvise], the copies of [ioctl], the writes
    of the loader, the image, whether nm could be started and the address it
    prints; [ie_word] are the 64-bit words of the process's memory when the
    flags are read. *)
Record init_env := mk_init_env {
  ie_open : option Z;
  ie_addr : Z;
  ie_mmap : mmap_env;
  ie_madvise_ok : bool;
  ie_ioctl : ioctl_env;
  ie_fops : list fops_env;
  ie_elf : elf_image;
  ie_popen_ok : bool;
  ie_nm : option Z;
  ie_word : Z -> Z;
}.

(** Return with a value, or the end of the process. *)
Inductive init_end := InitRet (b : bool) | InitExit (code : Z).

Definition MAP_FAILED : Z := 2 ^ 64 - 1.
Definition TASK_SIZE : Z := 2 ^ 47.

Section Init.
Context {hw : Type} `{!Mmio hw}.
Implicit Types p : host_proc hw.

Definition set_hp_l (l : lsys hw) p : host_proc hw := mk_hp l (hp_fds p) (hp_maps p) (hp_freed p).

(** ** System calls *)

(** [open]: the driver allocates the device's block buffer if it has none. *)
Definition sys_open (fd : Z) p : host_proc hw :=
  let l := hp_l p in
  let c := l_cdev l in
  let c := match block_buffer c with
           | Some _ => c
           | None => set_block_buffer (Some (replicate (Z.to_nat pspin_block_size) 0)) c
           end in
  mk_hp (mk_lsys true (l_sysfs l) (l_drv l) c 0 (l_img l)) (fd :: hp_fds p) (hp_maps p) (hp_freed p).

(** A failure of [close] or [munmap] is only reported. *)
Definition sys_close (fd : Z) p : host_proc hw :=
  match remove_one fd (hp_fds p) with
  | Some fds => mk_hp (hp_l p) fds (hp_maps p) (hp_freed p)
  | None => p
  end.

(** [munmap] of a whole mapping of the device: its vma is closed. *)
Definition sys_munmap (addr len : Z) p : option (host_proc hw) :=
  match list_find (fun m => m.1 = (addr, len)) (hp_maps p) with
  | None => Some p
  | Some (i, (_, ctx)) =>
      match pspin_vma_close ctx (l_drv (hp_l p)) with
      | None => None
      | Some (freed, d) =>
          Some (mk_hp (set_l_drv d (hp_l p)) (hp_fds p) (delete i (hp_maps p)) (option_list freed ++ hp_freed p))
      end
  end.

(** [mmap] with [MAP_SHARED]: [None] where the driver has no defined
    behaviour, [Some None] for [MAP_FAILED]. *)
Definition sys_mmap (env : init_env) (len off : Z) p : option (bool * host_proc hw) :=
  if (len =? 0) || (TASK_SIZE <=? len) then Some (false, p)
  else match pspin_mmap (mk_mmap_req len (off / PAGE_SIZE) true) (ie_mmap env) (l_drv (hp_l p)) with
  | None => None
  | Some (_, None, d) => Some (false, set_hp_l (set_l_drv d (hp_l p)) p)
  | Some (_, Some ctx, d) =>
      Some (true, mk_hp (set_l_drv d (hp_l p)) (hp_fds p) ((ie_addr env, len, ctx) :: hp_maps p) (hp_freed p))
  end.

(** ** The labels at the end of [fpspin_init] *)

Definition init_unmap (ctx : fpspin_ctx) p : option (init_end * fpspin_ctx * host_proc hw) :=
  p ← sys_munmap (fc_cpu_addr ctx) (fc_mmap_len ctx) p;
  Some (InitRet false, ctx, p).

Definition init_close_dev (ctx : fpspin_ctx) p : option (init_end * fpspin_ctx * host_proc hw) :=
  init_unmap ctx (sys_close (fc_fd ctx) p).

(** ** The parts of [fpspin_init] *)

(** Read the indices of the flags: page [i] must be mapped. *)
Fixpoint init_flags (word : Z -> Z) (maps : list (Z * Z * Z)) (cpu_addr : Z) (hpus : list nat) : option (list Z) :=
  match hpus with
  | [] => Some []
  | i :: hpus' =>
      let a := cpu_addr + Z.of_nat i * PAGE_SIZE in
      if existsb (fun m => (m.1.1 <=? a) && (a + 8 <=? m.1.1 + m.1.2)) maps
      then ids ← init_flags word maps cpu_addr hpus'; Some (dma_id (flag_of_data (word a)) :: ids)
      else None
  end.

(** After the image is loaded: the address of [__host_data], the flags. *)
Definition init_host_flags (env : init_env) (ctx : fpspin_ctx) p : option (init_end * fpspin_ctx * host_proc hw) :=
  match ie_popen_ok env, ie_nm env with
  | false, _ | _, None => init_close_dev ctx p
  | true, Some a =>
      idx ← init_flags (ie_word env) (hp_maps p) (fc_cpu_addr ctx) (seq 0 (Z.to_nat NUM_HPUS));
      Some (InitRet true, mk_fctx (fc_ctx_id ctx) (fc_fd ctx) (fc_cpu_addr ctx) (fc_mmap_len ctx) idx a, p)
  end.

(** From the query on. *)
Definition init_query (env : init_env) (rs : list fpspin_ruleset_t) (num_rs : Z) (ctx : fpspin_ctx) p
    : option (init_end * fpspin_ctx * host_proc hw) :=
  let l := hp_l p in
  match pspin_ioctl (ie_ioctl env) (l_cdev l) PSPIN_HOSTDMA_QUERY (le_split 4 (fc_ctx_id ctx) ++ replicate 20 0) (l_drv l) with
  | None => None
  | Some (ret, msg, d) =>
      let p := set_hp_l (set_l_drv d l) p in
      if ret <? 0 then init_unmap ctx p
      else if nth 16 msg 0 =? 0 then Some (InitExit SIGABRT, ctx, p)
      else
        match (fpspin_load (ie_fops env) (ie_elf env) (fc_ctx_id ctx) (msg_u64 0 msg) (msg_u64 8 msg) ;;;
               fpspin_prog_me rs num_rs) (hp_l p) with
        | (Err e, l) => Some (InitExit e, ctx, set_hp_l l p)
        | (Ok _, l) => init_host_flags env ctx (set_hp_l l p)
        end
  end.

Definition fpspin_init (env : init_env) (dest_ctx : Z) (rs : list fpspin_ruleset_t) (num_rs hostdma_pages : Z)
    (ctx : fpspin_ctx) p : option (init_end * fpspin_ctx * host_proc hw) :=
  match ie_open env with
  | None => Some (InitExit EXIT_FAILURE, ctx, p)
  | Some fd =>
      let p := sys_open fd p in
      if hostdma_pages =? 0 then
        init_query env rs num_rs (mk_fctx dest_ctx fd (fc_cpu_addr ctx) (fc_mmap_len ctx) (fc_dma_idx ctx) (fc_host_data_ptr ctx)) p
      else
        let mmap_len := u64 (s32 (hostdma_pages * PAGE_SIZE)) in
        match sys_mmap env mmap_len (u64 (dest_ctx * mmap_len)) p with
        | None => None
        | Some (false, p) =>
            Some (InitRet false, mk_fctx dest_ctx fd MAP_FAILED mmap_len (fc_dma_idx ctx) (fc_host_data_ptr ctx), p)
        | Some (true, p) =>
            let ctx := mk_fctx dest_ctx fd (ie_addr env) mmap_len (fc_dma_idx ctx) (fc_host_data_ptr ctx) in
            if negb (ie_madvise_ok env) then init_unmap ctx p else init_query env rs num_rs ctx p
        end
  end.

(** [fpspin_unload] may end the process. *)
Definition fpspin_exit (ctx : fpspin_ctx) p : option (init_end * host_proc hw) :=
  match fpspin_unload (fc_ctx_id ctx) (hp_l p) with
  | (Err e, l) => Some (InitExit e, set_hp_l l p)
  | (Ok _, l) =>
      let p := sys_close (fc_fd ctx) (set_hp_l l p) in
      p ← sys_munmap (fc_cpu_addr ctx) (fc_mmap_len ctx) p;
      Some (InitRet true, p)
  end.

(** ** The loader does not touch the host memory areas *)

Definition areas (l : lsys hw) : list dma_area_int := dma_areas (d_app (l_drv l)).

(** What the loader leaves alone: the areas, where the registers are found and
    the kind of the device. *)
Definition kept (l : lsys hw) := (areas l, l_base l, l_sysfs l, type (l_cdev l)).

Definition keeps_areas {A} (c : M (lsys hw) A) : Prop := forall s, kept (c s).2 = kept s.

Lemma keeps_ret {A} (a : A) : keeps_areas (sret a).
Proof. done. Qed.
Lemma keeps_err {A} e : keeps_areas (serr (A := A) e).
Proof. done. Qed.
Lemma keeps_img f : keeps_areas (smodify (set_l_img f)).
Proof. done. Qed.
Lemma keeps_bind {A B} (c : M (lsys hw) A) (k : A -> M (lsys hw) B) :
  keeps_areas c -> (forall a, keeps_areas (k a)) -> keeps_areas (sbind c k).
Proof.
  intros Hc Hk s. unfold sbind. specialize (Hc s). destruct (c s) as [[a|e] s']; cbn in *; [by rewrite Hk|done].
Qed.
Lemma keeps_seq l : Forall keeps_areas l -> keeps_areas (sseq l).
Proof. induction 1 as [|c l Hc _ IH]; [done|]. cbn [sseq]. apply keeps_bind; [done|]. intros _. exact IH. Qed.

Lemma run_check_areas c idx v (d : drv hw) : dma_areas (d_app (run_check c idx v d).2) = dma_areas (d_app d).
Proof.
  destruct c; cbn [run_check]; [..|done|done].
  - unfold check_cl_ctrl. destruct (_ && _); [done|]. destruct (_ >? _); [done|]. cbn [snd]. by destruct (negb _).
  - unfold check_me_en. by destruct (_ =? _).
  - unfold check_her_en. destruct (_ =? _); [done|]. destruct (check_her_ctxs _ _) as [[] h]; done.
Qed.

Lemma reg_store_areas a buf (d : drv hw) : dma_areas (d_app (pspin_reg_store a buf d).2) = dma_areas (d_app d).
Proof.
  unfold pspin_reg_store. destruct (attr_check a) as [c|]; [|done].
  pose proof (run_check_areas c (attr_idx a) (default 0 (scan_u32 buf)) d) as H.
  destruct (run_check _ _ _ _) as [ok d1]. by destruct ok.
Qed.

Lemma keeps_write_reg name id val : keeps_areas (write_reg name id val).
Proof.
  intros s. unfold write_reg, kept, areas. destruct (negb (l_base s)); [done|]. destruct (sysfs_open _ _ _) as [a|]; [|done].
  destruct (negb (attr_store a)); [done|]. pose proof (reg_store_areas a (print_u (u32 val)) (l_drv s)) as H.
  destruct (pspin_reg_store _ _ _) as [ret d]. cbn [snd] in H. destruct (ret <? 0); cbn; by rewrite H.
Qed.

Lemma keeps_sys_write env hmem addr len : keeps_areas (sys_write env hmem addr len).
Proof.
  intros s. unfold sys_write, kept, areas. destruct (_ >=? _); [done|]. unfold pspin_write.
  destruct (negb _); [done|]. destruct (in_reset _); [done|]. destruct (lock_killed _); [done|].
  destruct (_ >=? _); [done|]. by destruct (copy_fault _).
Qed.

Lemma keeps_sys_lseek off : keeps_areas (sys_lseek_set off).
Proof. intros s. unfold sys_lseek_set, kept, areas. by destruct (pspin_llseek _ _ _ _ _). Qed.
End Init.

Create HintDb areas.
#[export] Hint Resolve keeps_ret keeps_err keeps_img keeps_bind keeps_seq keeps_write_reg keeps_sys_write keeps_sys_lseek : areas.
#[export] Hint Extern 1 (keeps_areas (if ?b then _ else _)) => destruct b : areas.
#[export] Hint Extern 1 (keeps_areas (match ?b with _ => _ end)) => destruct b : areas.

Section Keeps.
Context {hw : Type} `{!Mmio hw}.

Lemma keeps_write_loop envs hmem addr len : keeps_areas (hw := hw) (write_loop envs hmem addr len).
Proof. revert addr len. induction envs as [|env envs IH]; intros addr len; cbn [write_loop]; auto with areas. Qed.
Hint Resolve keeps_write_loop : areas.

Lemma keeps_section_loop chunks envs rest addr : keeps_areas (hw := hw) (section_loop chunks envs rest addr).
Proof.
  revert rest addr. induction chunks as [|chunks IH]; intros rest addr; cbn [section_loop]; [auto with areas|].
  unfold fpspin_write_memory. auto 10 with areas.
Qed.
Hint Resolve keeps_section_loop : areas.

Lemma keeps_set_handler nm errno_ junk handler ctx_id out : keeps_areas (hw := hw) (set_handler nm errno_ junk handler ctx_id out).
Proof. unfold set_handler. destruct nm; cbn; auto 10 with areas. all: destruct (errno_ =? 0); auto 10 with areas. Qed.
Hint Resolve keeps_set_handler : areas.

Lemma keeps_ruleset i rs : keeps_areas (hw := hw) (fpspin_set_me_ruleset i rs).
Proof.
  unfold fpspin_set_me_ruleset. apply keeps_seq, Forall_lookup_2. intros j c Hj.
  rewrite list_lookup_imap in Hj. destruct (rs_r rs !! j) as [ru|]; [|done]. cbn in Hj. injection Hj as <-.
  unfold set_me_rule. auto 10 with areas.
Qed.
Hint Resolve keeps_ruleset : areas.

(** Loading, programming the engine and unloading keep the areas. *)
Lemma keeps_load envs elf ctx_id ptr size : keeps_areas (hw := hw) (fpspin_load envs elf ctx_id ptr size).
Proof.
  unfold fpspin_load, cycle_reset, fetch_on, fetch_off, her_on, her_off, load_handler, set_handler_mem, write_section.
  repeat (apply keeps_bind; [|intros _]); auto 10 with areas.
  all: try (destruct (elf_handler _ _) as [[? ?] ?]); auto 10 with areas.
Qed.

Lemma keeps_prog_me rs num : keeps_areas (hw := hw) (fpspin_prog_me rs num).
Proof.
  unfold fpspin_prog_me, me_off, me_on. destruct (num >? NUM_RULESETS); [auto with areas|].
  repeat (apply keeps_bind; [|intros _]); auto 10 with areas.
Qed.

Lemma keeps_unload ctx_id : keeps_areas (hw := hw) (fpspin_unload ctx_id).
Proof. unfold fpspin_unload, cycle_reset, fetch_off, me_off, me_on. auto 20 with areas. Qed.
End Keeps.

(** ** The host memory area *)

Section Life.
Context {hw : Type} `{!Mmio hw}.
Implicit Types p : host_proc hw.

Definition area_held (cpu handle len : Z) : dma_area_int := mk_dma_area_int cpu (mk_ctx_dma_area handle len true) 1.

(** The process may start a handler in context [c]: the driver has its four
    areas, that of [c] is free, the memory device is open to it. *)
Definition can_start (c : Z) p : Prop :=
  0 <= c < 4 /\ length (areas (hp_l p)) = 4%nat /\ type (l_cdev (hp_l p)) = TY_MEM /\
  exists a, areas (hp_l p) !! Z.to_nat c = Some a /\ enabled (phys a) = false /\ ref_count a = 0.

Definition mmap_answers (env : init_env) : option (Z * Z) :=
  if kzalloc_ok (ie_mmap env) then dma_alloc (ie_mmap env) else None.

(** The mapping of [pages] pages at the offset [fpspin_init] computes is that of
    its context. *)
Lemma sys_mmap_ok env c pages p :
  can_start c p -> 0 < pages < 2 ^ 19 -> iomap_ok (ie_mmap env) = true ->
  let len := pages * PAGE_SIZE in
  u64 (s32 len) = len /\
  exists ok p', sys_mmap env len (u64 (c * len)) p = Some (ok, p') /\
    hp_fds p' = hp_fds p /\ hp_freed p' = hp_freed p /\ l_cdev (hp_l p') = l_cdev (hp_l p) /\ l_sysfs (hp_l p') = l_sysfs (hp_l p) /\
    l_base (hp_l p') = l_base (hp_l p) /\ d_hw (l_drv (hp_l p')) = d_hw (l_drv (hp_l p)) /\
    match mmap_answers env with
    | Some (cpu, handle) => ok = true /\ hp_maps p' = (ie_addr env, len, c) :: hp_maps p /\
        areas (hp_l p') = <[Z.to_nat c := area_held cpu handle len]> (areas (hp_l p))
    | None => ok = false /\ hp_maps p' = hp_maps p /\
        exists a, areas (hp_l p') !! Z.to_nat c = Some a /\ enabled (phys a) = false /\ ref_count a = 0
    end.
Proof.
  intros (Hc & Hl & _ & a & Ha & Hen & Href) Hp Hio len. unfold len, PAGE_SIZE in *.
  assert (s32 (pages * 4096) = pages * 4096) as -> by (apply s32_id; lia). rewrite (u64_id (pages * 4096)) by lia. split; [done|].
  rewrite u64_id by nia. unfold sys_mmap. rewrite (proj2 (Z.eqb_neq _ _)) by lia. unfold TASK_SIZE.
  rewrite (proj2 (Z.leb_gt _ _)) by lia. cbn [orb]. unfold pspin_mmap, PAGE_SIZE. cbn [vm_len vm_pgoff vm_shared].
  rewrite Z.div_mul by lia. replace (c * (pages * 4096)) with (c * pages * 4096) by lia. rewrite Z.div_mul by lia.
  rewrite s32_id by lia. rewrite (u64_id pages) by lia. rewrite Z.div_mul by lia. rewrite (s32_id c) by lia.
  rewrite (proj2 (Z.eqb_neq _ _)) by lia. unfold HER_NUM_HANDLER_CTX. rewrite Z.geb_leb, (proj2 (Z.leb_gt _ _)) by lia. cbn [negb].
  unfold mmap_answers. destruct (kzalloc_ok (ie_mmap env)); cbn [negb].
  2: { do 2 eexists. split; [reflexivity|]. split_and!; try done. by exists a. }
  assert (dma_area (d_app (l_drv (hp_l p))) c = Some a) as Ed by (by apply dma_area_Some). rewrite Ed, Hen.
  destruct (dma_alloc (ie_mmap env)) as [[cpu handle]|].
  - rewrite Hio. cbn [negb]. unfold pspin_vma_open. cbn [d_app set_app]. erewrite dma_area_set_eq by exact Ed.
    do 2 eexists. split; [reflexivity|]. split_and!; try done. unfold areas. cbn. rewrite list_insert_insert_eq, Href, u64_id by lia. done.
  - do 2 eexists. split; [reflexivity|]. split_and!; try done. eexists.
    split; [unfold areas; cbn; apply list_lookup_insert_eq; by eapply lookup_lt_Some|done].
Qed.

Lemma sys_open_start c fd p : can_start c p -> can_start c (sys_open fd p).
Proof.
  intros (H1 & H2 & H3 & H4). split; [done|]. split; [exact H2|]. split; [|exact H4].
  cbn. by destruct (block_buffer (l_cdev (hp_l p))).
Qed.

(** What the query says about a held area. *)
Lemma query_held env c p cpu handle len :
  0 <= c < 4 -> type (l_cdev (hp_l p)) = TY_MEM -> 0 <= handle < 2 ^ 64 -> 0 <= len < 2 ^ 64 ->
  areas (hp_l p) !! Z.to_nat c = Some (area_held cpu handle len) ->
  exists ret msg, pspin_ioctl env (l_cdev (hp_l p)) PSPIN_HOSTDMA_QUERY (le_split 4 c ++ replicate 20 0) (l_drv (hp_l p))
    = Some (ret, msg, l_drv (hp_l p)) /\
    if fault1 env || fault2 env then ret < 0
    else ret = 0 /\ nth 16 msg 0 = 1 /\ msg_u64 0 msg = handle /\ msg_u64 8 msg = len.
Proof.
  intros Hc Ht Hh Hl Ha. unfold pspin_ioctl, is_mem. rewrite Ht. cbn [negb].
  assert (msg_s32 0 (le_split 4 c ++ replicate 20 0) = c) as ->.
  { unfold msg_s32, sub_list. change (take 4 (drop 0 (le_split 4 c ++ replicate 20 0))) with (le_split 4 c).
    rewrite le_combine_split_id by lia. apply s32_id. lia. }
  destruct (fault1 env); [do 2 eexists; split; [reflexivity|unfold EFAULT; cbn; lia]|].
  rewrite Z.geb_leb, (proj2 (Z.leb_gt _ _)) by (unfold HER_NUM_HANDLER_CTX; lia).
  assert (dma_area (d_app (l_drv (hp_l p))) c = Some (area_held cpu handle len)) as -> by (by apply dma_area_Some).
  destruct (fault2 env); [do 2 eexists; split; [reflexivity|unfold EFAULT; cbn; lia]|].
  do 2 eexists. split; [reflexivity|]. cbn [orb].
  assert (write_bytes 0 (ctx_dma_area_bytes (phys (area_held cpu handle len))) (le_split 4 c ++ replicate 20 0)
          = ctx_dma_area_bytes (phys (area_held cpu handle len))) as ->.
  { unfold write_bytes. reflexivity. }
  split; [done|]. split; [done|]. unfold msg_u64, sub_list, ctx_dma_area_bytes. cbn [phys area_held dma_handle dma_size]. split.
  - change (le_combine (le_split 8 handle) = handle). apply le_combine_split_id. lia.
  - change (le_combine (le_split 8 len) = len). apply le_combine_split_id. lia.
Qed.

Definition area_released (cpu handle len : Z) : dma_area_int := mk_dma_area_int cpu (mk_ctx_dma_area handle len false) 0.

Lemma munmap_held addr c p maps cpu handle len :
  0 <= c < 4 -> hp_maps p = (addr, len, c) :: maps ->
  areas (hp_l p) !! Z.to_nat c = Some (area_held cpu handle len) ->
  exists p', sys_munmap addr len p = Some p' /\ hp_fds p' = hp_fds p /\ hp_maps p' = maps /\
    hp_freed p' = (len, cpu, handle) :: hp_freed p /\
    areas (hp_l p') = <[Z.to_nat c := area_released cpu handle len]> (areas (hp_l p)) /\ l_cdev (hp_l p') = l_cdev (hp_l p).
Proof.
  intros Hc Hm Ha. unfold sys_munmap. rewrite Hm. cbn [list_find]. rewrite decide_True by done.
  unfold pspin_vma_close. assert (dma_area (d_app (l_drv (hp_l p))) c = Some (area_held cpu handle len)) as -> by (by apply dma_area_Some).
  cbn. eexists. split; [reflexivity|]. by split_and!.
Qed.

Lemma sys_close_head fd fds p : hp_fds p = fd :: fds ->
  exists p', sys_close fd p = p' /\ hp_fds p' = fds /\ hp_maps p' = hp_maps p /\ hp_freed p' = hp_freed p /\ hp_l p' = hp_l p.
Proof. intros Hf. eexists. split; [reflexivity|]. unfold sys_close. rewrite Hf. cbn. by rewrite decide_True. Qed.

(** The index of the flag in page [i]. *)
Definition flag_index (env : init_env) (i : nat) : Z := dma_id (flag_of_data (ie_word env (ie_addr env + Z.of_nat i * PAGE_SIZE))).

Lemma init_flags_ok env pages c maps hpus :
  Forall (fun i => Z.of_nat i < pages) hpus ->
  init_flags (ie_word env) ((ie_addr env, pages * PAGE_SIZE, c) :: maps) (ie_addr env) hpus = Some (flag_index env <$> hpus).
Proof.
  induction 1 as [|i l Hi _ IH]; [done|]. cbn [init_flags existsb fst snd].
  rewrite (proj2 (Z.leb_le _ _)) by (unfold PAGE_SIZE; lia).
  rewrite (proj2 (Z.leb_le (ie_addr env + Z.of_nat i * PAGE_SIZE + 8) _)) by (unfold PAGE_SIZE; lia).
  cbn [andb orb]. rewrite IH. done.
Qed.

(** The labels, in a process that holds the file and the mapping. *)
Lemma init_unmap_held ctx c p maps cpu handle len :
  0 <= c < 4 -> fc_mmap_len ctx = len -> hp_maps p = (fc_cpu_addr ctx, len, c) :: maps ->
  areas (hp_l p) !! Z.to_nat c = Some (area_held cpu handle len) ->
  exists p', init_unmap ctx p = Some (InitRet false, ctx, p') /\ hp_fds p' = hp_fds p /\ hp_maps p' = maps /\
    hp_freed p' = (len, cpu, handle) :: hp_freed p /\
    areas (hp_l p') = <[Z.to_nat c := area_released cpu handle len]> (areas (hp_l p)).
Proof.
  intros Hc Hl Hm Ha. unfold init_unmap. rewrite Hl.
  destruct (munmap_held _ c p maps cpu handle len Hc Hm Ha) as (p' & -> & H1 & H2 & H3 & H4 & _). cbn. by exists p'.
Qed.
End Life.

(** ** The outcomes of [fpspin_init] *)

Section Outcomes.
Context {hw : Type} `{!Mmio hw}.
Implicit Types p : host_proc hw.

(** The loader's part of [fpspin_init]. *)
Definition load_and_program (env : init_env) (rs : list fpspin_ruleset_t) (num_rs c handle len : Z) : M (lsys hw) unit :=
  fpspin_load (ie_fops env) (ie_elf env) c handle len ;;; fpspin_prog_me rs num_rs.

(** Mapping, [madvise] and the query all succeed. *)
Definition setup_ok (env : init_env) : bool :=
  (if mmap_answers env is Some _ then true else false) && ie_madvise_ok env && negb (fault1 (ie_ioctl env) || fault2 (ie_ioctl env)).

Definition init_outcome (env : init_env) (rs : list fpspin_ruleset_t) (num_rs c pages : Z) p (e : init_end) (ctx' : fpspin_ctx)
    (p' : host_proc hw) : Prop :=
  let len := pages * PAGE_SIZE in
  match e with
  | InitRet true =>
      exists fd cpu handle l0 a, ie_open env = Some fd /\ mmap_answers env = Some (cpu, handle) /\ ie_nm env = Some a /\
        hp_fds p' = fd :: hp_fds p /\ hp_maps p' = (ie_addr env, len, c) :: hp_maps p /\ hp_freed p' = hp_freed p /\
        areas (hp_l p') = <[Z.to_nat c := area_held cpu handle len]> (areas (hp_l p)) /\
        load_and_program env rs num_rs c handle len l0 = (Ok tt, hp_l p') /\
        l_base (hp_l p') = true /\ l_sysfs (hp_l p') = l_sysfs (hp_l p) /\ type (l_cdev (hp_l p')) = TY_MEM /\
        ctx' = mk_fctx c fd (ie_addr env) len (flag_index env <$> seq 0 (Z.to_nat NUM_HPUS)) a
  | InitRet false =>
      exists fd a, ie_open env = Some fd /\ hp_maps p' = hp_maps p /\
        hp_fds p' = (if setup_ok env then hp_fds p else fd :: hp_fds p) /\
        areas (hp_l p') !! Z.to_nat c = Some a /\ enabled (phys a) = false /\ ref_count a = 0
  | InitExit code =>
      ie_open env = None \/ exists handle l0, load_and_program env rs num_rs c handle len l0 = (Err code, hp_l p')
  end.

Lemma keeps_load_and_program env rs num_rs c handle len : keeps_areas (load_and_program env rs num_rs c handle len).
Proof. unfold load_and_program. apply keeps_bind; [apply keeps_load|]. intros _. apply keeps_prog_me. Qed.

(** From the query on, with the file and the mapping held. *)
Lemma init_query_ok env rs num_rs c pages fd cpu handle idx ptr p0 p :
  can_start c p0 -> 16 <= pages < 2 ^ 19 -> 0 <= handle < 2 ^ 64 ->
  ie_open env = Some fd -> mmap_answers env = Some (cpu, handle) -> ie_madvise_ok env = true ->
  hp_fds p = fd :: hp_fds p0 -> hp_maps p = (ie_addr env, pages * PAGE_SIZE, c) :: hp_maps p0 -> hp_freed p = hp_freed p0 ->
  type (l_cdev (hp_l p)) = TY_MEM -> l_base (hp_l p) = true -> l_sysfs (hp_l p) = l_sysfs (hp_l p0) ->
  areas (hp_l p) = <[Z.to_nat c := area_held cpu handle (pages * PAGE_SIZE)]> (areas (hp_l p0)) ->
  exists e ctx' p', init_query env rs num_rs (mk_fctx c fd (ie_addr env) (pages * PAGE_SIZE) idx ptr) p = Some (e, ctx', p') /\
    init_outcome env rs num_rs c pages p0 e ctx' p'.
Proof.
  intros (Hc & Hlen & _ & _) Hp Hh Ho Hm Hma Hfds Hmaps Hfreed Ht Hbase Hsys Hareas. unfold init_query. cbn [fc_ctx_id].
  set (ctx := mk_fctx _ _ _ _ _ _). set (len := pages * PAGE_SIZE) in *.
  assert (areas (hp_l p) !! Z.to_nat c = Some (area_held cpu handle len)) as Ha.
  { rewrite Hareas. apply list_lookup_insert_eq. lia. }
  assert (forall areas', areas' = areas (hp_l p) -> exists a, <[Z.to_nat c := area_released cpu handle len]> areas' !! Z.to_nat c = Some a /\
            enabled (phys a) = false /\ ref_count a = 0) as Hrel.
  { intros areas' ->. eexists. split; [apply list_lookup_insert_eq; by eapply lookup_lt_Some|done]. }
  destruct (query_held (ie_ioctl env) c p cpu handle len Hc Ht Hh) as (ret & msg & -> & Hq); [unfold len, PAGE_SIZE; lia|done|].
  assert (set_hp_l (set_l_drv (l_drv (hp_l p)) (hp_l p)) p = p) as -> by (by destruct p as [[]]).
  destruct (fault1 _ || fault2 _) eqn:Ef.
  { rewrite (proj2 (Z.ltb_lt _ _)) by done.
    destruct (init_unmap_held ctx c p (hp_maps p0) cpu handle len Hc eq_refl Hmaps Ha) as (p' & -> & H1 & H2 & H3 & H4).
    do 3 eexists. split; [reflexivity|]. destruct (Hrel _ eq_refl) as (a & Ha1 & Ha2 & Ha3). exists fd, a.
    unfold setup_ok. rewrite Hm, Hma, Ef, H1, H2, H4. cbn [andb negb]. by split_and!. }
  destruct Hq as (-> & -> & -> & ->). cbn [Z.ltb Z.compare Z.eqb]. fold (load_and_program env rs num_rs c handle len).
  pose proof (keeps_load_and_program env rs num_rs c handle len (hp_l p)) as Hk.
  destruct (load_and_program env rs num_rs c handle len (hp_l p)) as [[[]|code] l] eqn:El; cbn [snd] in Hk; injection Hk as Hk Hk1 Hk2 Hk3.
  2: { do 3 eexists. split; [reflexivity|]. right. by exists handle, (hp_l p). }
  unfold init_host_flags.
  assert (exists p', init_close_dev ctx (set_hp_l l p) = Some (InitRet false, ctx, p') /\
            init_outcome env rs num_rs c pages p0 (InitRet false) ctx p') as (p' & Eclose & Hclose).
  { unfold init_close_dev. change (fc_fd ctx) with fd. destruct (sys_close_head fd (hp_fds p0) (set_hp_l l p) Hfds) as (p1 & -> & H1 & H2 & H3 & H4).
    destruct (init_unmap_held ctx c p1 (hp_maps p0) cpu handle len Hc eq_refl) as (p' & -> & H5 & H6 & H7 & H8);
      [by rewrite H2|by rewrite H4; cbn [set_hp_l hp_l]; rewrite Hk|].
    exists p'. split; [reflexivity|]. destruct (Hrel _ Hk) as (a & Ha1 & Ha2 & Ha3). exists fd, a.
    unfold setup_ok. rewrite Hm, Hma, Ef, H5, H1, H6, H8, H4. cbn [andb negb]. by split_and!. }
  destruct (ie_popen_ok env); [|by do 3 eexists]. destruct (ie_nm env) as [a|] eqn:Enm; [|by do 3 eexists].
  cbn [set_hp_l hp_maps]. rewrite Hmaps. cbn [ctx fc_cpu_addr]. unfold len.
  rewrite init_flags_ok by (apply Forall_forall; intros i Hi%elem_of_seq; unfold NUM_HPUS in Hi; lia).
  do 3 eexists. split; [reflexivity|]. cbn [init_outcome]. exists fd, cpu, handle, (hp_l p), a.
  cbn [set_hp_l hp_l hp_fds hp_freed hp_maps]. rewrite Hk, Hk1, Hk2, Hk3. by split_and!.
Qed.
Lemma init_outcomes env rs num_rs c pages ctx p :
  can_start c p -> 16 <= pages < 2 ^ 19 -> iomap_ok (ie_mmap env) = true ->
  (forall cpu handle, dma_alloc (ie_mmap env) = Some (cpu, handle) -> 0 <= handle < 2 ^ 64) ->
  exists e ctx' p', fpspin_init env c rs num_rs pages ctx p = Some (e, ctx', p') /\ init_outcome env rs num_rs c pages p e ctx' p'.
Proof.
  intros Hs Hp Hio Hh. unfold fpspin_init. destruct (ie_open env) as [fd|] eqn:Eo; [|by do 3 eexists; split; [reflexivity|left]].
  rewrite (proj2 (Z.eqb_neq _ _)) by lia.
  assert (can_start c (sys_open fd p)) as Hs' by (by apply sys_open_start).
  destruct (sys_mmap_ok env c pages (sys_open fd p) Hs' ltac:(lia) Hio) as (-> & ok & p1 & -> & F1 & F2 & F3 & F4 & F5 & _ & Hm).
  destruct (mmap_answers env) as [[cpu handle]|] eqn:Em.
  2: { destruct Hm as (-> & Hmaps & a & Ha & Hen & Href). do 3 eexists. split; [reflexivity|]. exists fd, a.
       unfold setup_ok. rewrite Em. by split_and!. }
  destruct Hm as (-> & Hmaps & Hareas). pose proof Hs as (Hc & Hlen & Ht & _).
  assert (0 <= handle < 2 ^ 64) as Hhr.
  { unfold mmap_answers in Em. destruct (kzalloc_ok _); [|done]. by eapply Hh. }
  destruct (ie_madvise_ok env) eqn:Ema; cbn [negb].
  - apply (init_query_ok env rs num_rs c pages fd cpu handle _ _ p p1); try done.
    rewrite F3. cbn. by destruct (block_buffer (l_cdev (hp_l p))).
  - set (ctx1 := mk_fctx _ _ _ _ _ _).
    destruct (init_unmap_held ctx1 c p1 (hp_maps p) cpu handle (pages * PAGE_SIZE) Hc eq_refl Hmaps) as (p' & -> & H1 & H2 & H3 & H4).
    { rewrite Hareas. apply list_lookup_insert_eq. cbn. unfold areas in Hlen |- *. cbn. lia. }
    do 3 eexists. split; [reflexivity|]. exists fd. eexists. unfold setup_ok. rewrite Em, Ema, H1, H2, H4, F1.
    split; [done|]. split; [done|]. split; [done|]. rewrite Hareas, list_insert_insert_eq.
    split; [apply list_lookup_insert_eq; unfold areas in Hlen |- *; cbn; lia|done].
Qed.
End Outcomes.


(** ** A start that succeeds *)

(** What [fpspin_init] needs to succeed: the file, the memory of the area at
    bus address [handle], no fault, an image that fits, the address of
    [__host_data]. *)
Record init_granted (env : init_env) (n : nat) (fd cpu handle host_data : Z) (rodata l2_data vectors text : list Z) (daddr dsize : Z) : Prop := {
  ig_open : ie_open env = Some fd;
  ig_mmap : mmap_answers env = Some (cpu, handle);
  ig_iomap : iomap_ok (ie_mmap env) = true;
  ig_handle : 0 <= handle < 2 ^ 64;
  ig_madvise : ie_madvise_ok env = true;
  ig_ioctl : fault1 (ie_ioctl env) || fault2 (ie_ioctl env) = false;
  ig_fops : ie_fops env = replicate (S (S n)) PspinFile.env_ok;
  ig_fits : image_fits (ie_elf env) rodata l2_data vectors text;
  ig_l2 : elf_l2_data (ie_elf env) = Some (daddr, dsize);
  ig_nm : ie_popen_ok env = true /\ ie_nm env = Some host_data;
}.

(** The block buffer of the device is a block, if there is one. *)
Definition buffer_ok {hw} (p : host_proc hw) : Prop :=
  exiting (l_cdev (hp_l p)) = false /\
  forall buf, block_buffer (l_cdev (hp_l p)) = Some buf -> length buf = Z.to_nat pspin_block_size /\ Forall is_byte buf.

Lemma sys_open_ready {hw} fd (p : host_proc hw) :
  buffer_ok p -> type (l_cdev (hp_l p)) = TY_MEM -> exists buf, cdev_ready (l_cdev (hp_l (sys_open fd p))) buf.
Proof.
  intros [He Hb] Ht. cbn. destruct (block_buffer (l_cdev (hp_l p))) as [buf|] eqn:E.
  - exists buf. destruct (Hb buf eq_refl). by split_and!.
  - eexists. split_and!; try done. apply Forall_replicate. unfold is_byte. lia.
Qed.

(** The held area is accepted by the HER generator. *)
Lemma held_accepted `{MmioRam hw ram} (app : mqnic_app_pspin) (h : hw) dareas c cpu handle len :
  dma_areas app = <[Z.to_nat c := area_held cpu handle len]> dareas -> 0 <= c < 4 -> 0 <= len < 2 ^ 32 ->
  (forall i a, 0 <= i -> i <> c -> dareas !! Z.to_nat i = Some a -> area_matches h i a) ->
  her_accepts app h c handle len.
Proof.
  intros Ha Hc Hl Ho i a Hi Hia Hen. rewrite Ha in Hia. case_decide as Hd.
  - subst i. apply list_lookup_insert_Some in Hia as [(_ & <- & _)|[Hne _]]; [|done]. cbn. by rewrite u32_id.
  - rewrite list_lookup_insert_ne in Hia by lia. exact (Ho i a Hi Hd Hia Hen).
Qed.

(** C24: a start that the kernel grants succeeds and sets everything up. If
    the area of the context is free, the registers of every other context
    with an area hold it, the kernel grants the file and the memory, and the
    image fits, then [fpspin_init] returns true; the image is loaded with
    exactly the area the driver has just given out (so the HER generator is
    enabled), and the matching engine is programmed with the rulesets. *)
Theorem fpspin_init_succeeds `{MmioRam hw ram} env n fd cpu handle host_data rodata l2_data vectors text daddr dsize rs num_rs c pages ctx (p : host_proc hw) :
  bar_ram (ram := ram) -> ctrl_ram (ram := ram) -> l_sysfs (hp_l p) = pspin_sysfs -> can_start c p -> buffer_ok p ->
  init_granted env n fd cpu handle host_data rodata l2_data vectors text daddr dsize ->
  16 <= pages < 2 ^ 19 -> Forall ruleset_wf rs -> num_rs <= 4 ->
  (forall i a, 0 <= i -> i <> c -> areas (hp_l p) !! Z.to_nat i = Some a -> area_matches (d_hw (l_drv (hp_l p))) i a) ->
  exists ctx' p' l0 l1, fpspin_init env c rs num_rs pages ctx p = Some (InitRet true, ctx', p') /\
    areas l0 = <[Z.to_nat c := area_held cpu handle (pages * PAGE_SIZE)]> (areas (hp_l p)) /\
    d_hw (l_drv l0) = d_hw (l_drv (hp_l p)) /\
    image_loaded (ie_elf env) rodata l2_data vectors text (image_areas (ie_elf env) daddr dsize) c handle (pages * PAGE_SIZE) true l0 l1 /\
    me_programmed rs num_rs l1 (hp_l p').
Proof.
  intros Hbar Hctrl Hsys Hs Hbuf [Go Gm Gi Gh Gma Gio Gf Gfit Gl2 [Gp Gn]] Hp Hrs Hnum Hoth.
  destruct (sys_open_ready fd p Hbuf ltac:(apply Hs)) as [buf Hbuf'].
  assert (can_start c (sys_open fd p)) as Hs' by (by apply sys_open_start).
  destruct (sys_mmap_ok env c pages (sys_open fd p) Hs' ltac:(lia) Gi) as (El & ok & p1 & Em & F1 & F2 & F3 & F4 & F5 & F6 & Hm).
  rewrite Gm in Hm. destruct Hm as (-> & Hmaps & Hareas).
  set (len := pages * PAGE_SIZE) in *. assert (0 <= len < 2 ^ 32) as Hlen by (unfold len, PAGE_SIZE; lia).
  destruct Hs as (Hc & Hl4 & _ & _). pose proof Hbuf' as (Ht & _).
  assert (areas (hp_l p1) !! Z.to_nat c = Some (area_held cpu handle len)) as Hac.
  { rewrite Hareas. apply list_lookup_insert_eq. unfold areas in *. cbn. lia. }
  destruct (query_held (ie_ioctl env) c p1 cpu handle len Hc ltac:(by rewrite F3) Gh ltac:(lia) Hac) as (ret & msg & Eq & Hq).
  rewrite Gio in Hq. destruct Hq as (-> & Hmsg1 & Hmsg2 & Hmsg3).
  destruct (load_run n (ie_elf env) rodata l2_data vectors text daddr dsize c handle len (hp_l p1)) as (lok & l1 & Eload & Hacc & Hil); try done.
  { split; [by rewrite F5|by rewrite F4]. }
  { rewrite F3. by exists buf. }
  { change (length (areas (hp_l p1)) = 4%nat). by rewrite Hareas, length_insert. }
  assert (lok = true) as ->.
  { apply Hacc. eapply held_accepted; [exact Hareas|done|done|]. rewrite F6. exact Hoth. }
  destruct (prog_me_result rs num_rs l1 Hctrl) as (l2 & Eprog & Hme); [apply Hil|done|done|].
  eexists _, (set_hp_l l2 p1), (hp_l p1), l1. split; [|by rewrite F6].
  unfold fpspin_init. fold len. rewrite Go, (proj2 (Z.eqb_neq pages 0)) by lia. cbv zeta. rewrite El, Em, Gma. cbn [negb].
  unfold init_query. cbn [fc_ctx_id]. rewrite Eq. assert (set_hp_l (set_l_drv (l_drv (hp_l p1)) (hp_l p1)) p1 = p1) as -> by (by destruct p1 as [[]]).
  rewrite Hmsg1, Hmsg2, Hmsg3, Gf. change (0 <? 0) with false. change (1 =? 0) with false. cbv iota.
  rewrite (sbind_ok _ _ _ _ _ Eload), Eprog. unfold init_host_flags. rewrite Gp, Gn. cbn [set_hp_l hp_maps]. rewrite Hmaps. cbn [fc_cpu_addr].
  unfold len. rewrite init_flags_ok by (apply Forall_forall; intros i Hi%elem_of_seq; unfold NUM_HPUS in Hi; lia). reflexivity.
Qed.

(** C26: [fpspin_exit] undoes [fpspin_init]. After an [fpspin_init] that
    returned true on a machine where the driver is bound, [fpspin_exit]
    always goes through: it closes the file, removes the mapping and makes the
    driver give back exactly the allocation it had made; other files, mappings
    and areas are as before [fpspin_init], which can be called again. *)
Theorem fpspin_exit_undoes_init `{MmioRam hw ram} env rs num_rs c pages ctx ctx' (p p' : host_proc hw) :
  ctrl_ram (ram := ram) -> l_sysfs (hp_l p) = pspin_sysfs ->
  can_start c p -> 16 <= pages < 2 ^ 19 -> iomap_ok (ie_mmap env) = true ->
  (forall cpu handle, dma_alloc (ie_mmap env) = Some (cpu, handle) -> 0 <= handle < 2 ^ 64) ->
  fpspin_init env c rs num_rs pages ctx p = Some (InitRet true, ctx', p') ->
  exists p'' cpu handle, fpspin_exit ctx' p' = Some (InitRet true, p'') /\ mmap_answers env = Some (cpu, handle) /\
    hp_fds p'' = hp_fds p /\ hp_maps p'' = hp_maps p /\
    hp_freed p'' = (pages * PAGE_SIZE, cpu, handle) :: hp_freed p /\
    areas (hp_l p'') = <[Z.to_nat c := area_released cpu handle (pages * PAGE_SIZE)]> (areas (hp_l p)) /\ can_start c p''.
Proof.
  intros Hram Hsys Hs Hp Hio Hh Ei. destruct (init_outcomes env rs num_rs c pages ctx p Hs Hp Hio Hh) as (e & ctx1 & p1 & Ei' & Hout).
  rewrite Ei in Ei'. injection Ei' as <- <- <-. destruct Hs as (Hc & Hlen & _ & _).
  destruct Hout as (fd & cpu & handle & l0 & a & Ho & Hm & Hnm & Hfds & Hmaps & Hfreed & Hareas & Hload & Hb & Hsf & Hty & ->).
  unfold fpspin_exit. cbn [fc_ctx_id fc_fd fc_cpu_addr fc_mmap_len].
  pose proof (keeps_unload c (hp_l p')) as Hk.
  destruct (unload_spec (ram := ram) c (hp_l p') Hram (conj Hb (eq_trans Hsf Hsys)) Hc) as (l & El & _). rewrite El in Hk |- *.
  cbn [snd] in Hk. injection Hk as Hk Hk1 Hk2 Hk3.
  destruct (sys_close_head fd (hp_fds p) (set_hp_l l p') Hfds) as (p1 & -> & H1 & H2 & H3 & H4).
  destruct (munmap_held (ie_addr env) c p1 (hp_maps p) cpu handle (pages * PAGE_SIZE) Hc) as (p2 & -> & H5 & H6 & H7 & H8 & H9).
  - by rewrite H2.
  - rewrite H4. cbn [set_hp_l hp_l]. rewrite Hk, Hareas. apply list_lookup_insert_eq. lia.
  - assert (areas (hp_l p2) = <[Z.to_nat c := area_released cpu handle (pages * PAGE_SIZE)]> (areas (hp_l p))) as Ha2.
    { rewrite H8, H4. cbn [set_hp_l hp_l]. by rewrite Hk, Hareas, list_insert_insert_eq. }
    exists p2, cpu, handle. split; [reflexivity|]. split; [done|]. rewrite H5, H1, H6, H7, H3. cbn [set_hp_l hp_freed]. rewrite Hfreed.
    split; [done|]. split; [done|]. split; [done|]. split; [done|]. split; [done|].
    rewrite H9, H4, Ha2, length_insert. cbn [set_hp_l hp_l]. rewrite Hk3. split_and!; try done.
    eexists. split; [apply list_lookup_insert_eq; lia|done].
Qed.

(** A process on [lsys0] and a kernel that grants everything. *)
Definition host0 : host_proc memory := mk_hp lsys0 [0; 1; 2] [] [].
Definition init_env0 : init_env :=
  mk_init_env (Some 3) 0x7f0000000000 (mk_mmap_env true (Some (0x1000, 0xfee00000)) true) true (mk_ioctl_env false false)
    (replicate 4 (mk_fops_env false false)) elf0 true (Some 0x1c0c0100) (fun _ => 7).
Definition fctx0 : fpspin_ctx := mk_fctx 0 0 0 0 [] 0.

Lemma host0_can_start : can_start 1 host0.
Proof. split_and!; try done. by eexists. Qed.

Lemma init0_returns :
  (fun r => r.1.1) <$> fpspin_init init_env0 1 [fpspin_ruleset_slmp] 1 16 fctx0 host0 = Some (InitRet true).
Proof. vm_compute. reflexivity. Qed.


Lemma fpspin_exit_undoes_init_witness :
  exists ctx' p' p'', fpspin_init init_env0 1 [fpspin_ruleset_slmp] 1 16 fctx0 host0 = Some (InitRet true, ctx', p') /\
    fpspin_exit ctx' p' = Some (InitRet true, p'') /\ hp_fds p'' = [0; 1; 2] /\ hp_maps p'' = [].
Proof.
  pose proof init0_returns as Hr.
  destruct (fpspin_init init_env0 1 [fpspin_ruleset_slmp] 1 16 fctx0 host0) as [[[e ctx'] p']|] eqn:E; [|discriminate Hr].
  injection Hr as Hr. cbn in Hr. subst e. exists ctx', p'.
  destruct (fpspin_exit_undoes_init (ram := fun _ => True) init_env0 [fpspin_ruleset_slmp] 1 1 16 fctx0 ctx' host0 p')
    as (p'' & cpu & handle & Hx & _ & Hfds & Hmaps & _).
  - intros ? ?. exact I.
  - reflexivity.
  - exact host0_can_start.
  - lia.
  - reflexivity.
  - intros cpu handle [= <- <-]. lia.
  - exact E.
  - exists p''. split; [reflexivity|]. split; [exact Hx|]. split; [exact Hfds|exact Hmaps].
Defined.

Lemma init_env0_granted :
  init_granted init_env0 2 3 0x1000 0xfee00000 0x1c0c0100 [1; 2; 3; 4] [1; 2; 3; 4] [1; 2; 3; 4] [1; 2; 3; 4] 0x1c0c0000 4.
Proof. split; try done. exact elf0_fits. Qed.

Lemma fpspin_init_succeeds_witness :
  exists ctx' p' (l0 l1 : lsys memory), fpspin_init init_env0 1 [fpspin_ruleset_slmp] 1 16 fctx0 host0 = Some (InitRet true, ctx', p') /\
    host_mem_size (d_hw (l_drv l1)) 1 = 65536 /\ me_programmed [fpspin_ruleset_slmp] 1 l1 (hp_l p') /\ areas l0 !! 1%nat <> None.
Proof.
  destruct (fpspin_init_succeeds (ram := fun _ => True) init_env0 2 3 0x1000 0xfee00000 0x1c0c0100 [1; 2; 3; 4] [1; 2; 3; 4] [1; 2; 3; 4] [1; 2; 3; 4]
              0x1c0c0000 4 [fpspin_ruleset_slmp] 1 1 16 fctx0 host0) as (ctx' & p' & l0 & l1 & E & Ha & _ & Hil & Hme).
  - intros ? ?. exact I.
  - intros ? ?. exact I.
  - reflexivity.
  - exact host0_can_start.
  - split; [reflexivity|]. intros buf Hb. destruct dev_mem0_ready as (_ & _ & Hb' & Hl & HB).
    change (block_buffer (l_cdev (hp_l host0))) with (block_buffer dev_mem0) in Hb. rewrite Hb' in Hb. injection Hb as <-. by split.
  - exact init_env0_granted.
  - lia.
  - by constructor.
  - lia.
  - intros i a _ _ Hi Hen. exfalso. change (areas (hp_l host0)) with (replicate 4 area0) in Hi.
    apply lookup_replicate in Hi as [-> _]. discriminate Hen.
  - exists ctx', p', l0, l1. split; [exact E|]. split; [|split; [exact Hme|rewrite Ha; discriminate]].
    etransitivity; [exact (il_regs _ _ _ _ _ _ _ _ _ _ _ _ Hil "her_meta/host_mem_size" 65536 ltac:(in_keys))|]. reflexivity.
Defined.
