(* ===== verification/MqnicRes.v ===== *)
(** * Register blocks and queue numbers of the NIC driver

    Model of [modules/mqnic/mqnic_res.c], the allocator of queue numbers, and
    of [modules/mqnic/mqnic_reg_block.c], which walks the linked list of
    register blocks in the device's BAR. *)

From S2P Require Import Prelude Mmio.

(** ** [struct mqnic_res] *)

Record mqnic_res := mk_res {
  r_count : nat;
  r_base : Z;
  r_stride : Z;
  r_bmap : option (list bool);      (* [None]: a NULL pointer *)
}.

(** The result is [inl] an [ERR_PTR]. The failure test after [bitmap_zalloc]
    reads [res], not [res->bmap]. *)
Definition mqnic_create_res (kzalloc_ok bitmap_ok : bool) (count : nat) (base stride : Z) : Z + mqnic_res :=
  if negb kzalloc_ok then inl (- ENOMEM)
  else inr (mk_res count base stride (if bitmap_ok then Some (replicate count false) else None)).

(** [bitmap_find_free_region] at order 0: take the first clear bit. *)
Fixpoint first_clear (bmap : list bool) : option nat :=
  match bmap with
  | [] => None
  | false :: _ => Some 0%nat
  | true :: l => S <$> first_clear l
  end.

(** [None]: a NULL dereference. *)
Definition mqnic_res_alloc (res : mqnic_res) : option (Z * mqnic_res) :=
  match r_bmap res with
  | None => None
  | Some bmap =>
      match first_clear bmap with
      | None => Some (- ENOMEM, res)
      | Some k => Some (Z.of_nat k, mk_res (r_count res) (r_base res) (r_stride res) (Some (<[k := true]> bmap)))
      end
  end.

Definition mqnic_res_free (index : Z) (res : mqnic_res) : option mqnic_res :=
  if (index <? 0) || (Z.of_nat (r_count res) <=? index) then Some res
  else match r_bmap res with
  | None => None
  | Some bmap => Some (mk_res (r_count res) (r_base res) (r_stride res) (Some (<[Z.to_nat index := false]> bmap)))
  end.

(** [None]: the function returns NULL. *)
Definition mqnic_res_get_addr (res : mqnic_res) (index : Z) : option Z :=
  if (index <? 0) || (Z.of_nat (r_count res) <=? index) then None
  else Some (r_base res + index * r_stride res).

Definition res_wf (res : mqnic_res) : Prop :=
  exists bmap, r_bmap res = Some bmap /\ length bmap = r_count res.

(** The indices handed out. *)
Definition in_use (res : mqnic_res) (k : nat) : Prop :=
  exists bmap, r_bmap res = Some bmap /\ bmap !! k = Some true.

Lemma first_clear_Some bmap k :
  first_clear bmap = Some k -> bmap !! k = Some false /\ (k < length bmap)%nat.
Proof.
  revert k; induction bmap as [|[] bmap IH]; intros k; cbn [first_clear]; [done|..].
  - intros (j & Hj & ->)%fmap_Some. destruct (IH j Hj). split; [done|]. simpl. lia.
  - intros [= <-]. simpl. split; [done|lia].
Qed.

Lemma first_clear_None bmap : first_clear bmap = None -> Forall (fun b => b = true) bmap.
Proof. induction bmap as [|[] bmap IH]; cbn [first_clear]; intros E; [done|..|done].
  apply fmap_None in E. constructor; auto. Qed.

Lemma mqnic_res_free_wf res index :
  res_wf res -> exists res', mqnic_res_free index res = Some res' /\ res_wf res' /\
    r_count res' = r_count res /\ r_base res' = r_base res /\ r_stride res' = r_stride res /\
    forall k, in_use res' k <-> in_use res k /\ index <> Z.of_nat k.
Proof.
  intros (bmap & Hb & Hl). unfold mqnic_res_free. destruct (_ || _) eqn:E.
  - exists res. split_and!; try done; [by exists bmap|]. intros k. split; [|tauto].
    intros Hk. split; [done|]. destruct Hk as (b & Hb' & Hk). simplify_eq.
    apply lookup_lt_Some in Hk. apply orb_true_iff in E as [E|E]; bool_to_prop; lia.
  - bool_to_prop. rewrite Hb. eexists. split; [done|]. split; [|split_and!; try done].
    { eexists. split; [done|]. by cbn; rewrite length_insert. }
    intros k. unfold in_use. cbn [r_bmap]. split.
    + intros (b & [= <-] & Hk). destruct (decide (k = Z.to_nat index)) as [->|Hne].
      * rewrite list_lookup_insert_eq in Hk by lia. done.
      * rewrite list_lookup_insert_ne in Hk by done. split; [by exists bmap|lia].
    + intros [(b & ? & Hk) Hne]. simplify_eq. eexists. split; [done|].
      by rewrite list_lookup_insert_ne by lia.
Qed.

Lemma mqnic_res_alloc_wf res :
  res_wf res -> exists index res', mqnic_res_alloc res = Some (index, res') /\ res_wf res' /\
    r_count res' = r_count res /\ r_base res' = r_base res /\ r_stride res' = r_stride res /\
    ((0 <= index < Z.of_nat (r_count res) /\ ~ in_use res (Z.to_nat index) /\
      forall k, in_use res' k <-> in_use res k \/ index = Z.of_nat k) \/
     (index = - ENOMEM /\ res' = res /\ forall k, (k < r_count res)%nat -> in_use res k)).
Proof.
  intros (bmap & Hb & Hl). unfold mqnic_res_alloc. rewrite Hb.
  destruct (first_clear bmap) as [j|] eqn:E.
  - apply first_clear_Some in E as [Hj Hlt]. do 2 eexists. split; [done|]. split; [|split_and!; try done].
    { eexists. split; [done|]. by cbn; rewrite length_insert. }
    left. split; [lia|]. unfold in_use. rewrite Nat2Z.id. split.
    { intros (b & ? & Hk). congruence. }
    intros k. cbn [r_bmap]. split.
    + intros (b & [= <-] & Hk). destruct (decide (k = j)) as [->|Hne]; [by right|].
      rewrite list_lookup_insert_ne in Hk by done. left. by exists bmap.
    + intros [(b & ? & Hk)|Hk]; eexists; (split; [done|]).
      * destruct (decide (k = j)) as [->|Hne]; [by rewrite list_lookup_insert_eq|].
        rewrite list_lookup_insert_ne by done. congruence.
      * replace k with j by lia. by rewrite list_lookup_insert_eq.
  - apply first_clear_None in E. do 2 eexists. split; [done|]. split; [by exists bmap|].
    split_and!; try done. right. split; [done|]. split; [done|]. intros k Hk. exists bmap. split; [done|].
    destruct (lookup_lt_is_Some_2 bmap k) as [b Hb']; [lia|]. rewrite Hb'.
    f_equal. by apply (Forall_lookup_1 _ _ _ _ E Hb').
Qed.



(** ** Register blocks *)

Definition MQNIC_RB_REG_TYPE : Z := 0x00.
Definition MQNIC_RB_REG_VER : Z := 0x04.
Definition MQNIC_RB_REG_NEXT_PTR : Z := 0x08.

Record mqnic_reg_block := mk_rb {
  rb_type : Z;
  rb_version : Z;
  rb_base : Z;
  rb_regs : Z;
}.

(** The outcomes: the list (without the terminating entry), NULL, or a write
    beyond the allocated entries. *)
Inductive enum_result :=
| EnumList (l : list mqnic_reg_block)
| EnumNull
| EnumOverrun.

Section RegBlocks.
Context {hw : Type} `{!Mmio hw}.

(** One turn of the loop per unit of fuel; [None] when the fuel is used up.
    [max] entries are allocated; entry [count] is cleared first. *)
Fixpoint enum_loop (fuel : nat) (krealloc_ok : nat -> bool) (base offset size : Z)
    (blocks : list mqnic_reg_block) (max : nat) (h : hw) : option (enum_result * hw) :=
  match fuel with
  | O => None
  | S fuel' =>
      let count := length blocks in
      if (max <=? count)%nat then Some (EnumOverrun, h)
      else if ((offset =? 0) && negb (count =? 0)%nat) || (size <=? offset) then Some (EnumList blocks, h)
      else
        let ptr := base + offset in
        if existsb (fun rb => ptr =? rb_regs rb) blocks then Some (EnumNull, h)
        else
          let '(ty, h) := ioread32 (ptr + MQNIC_RB_REG_TYPE) h in
          let '(ver, h) := ioread32 (ptr + MQNIC_RB_REG_VER) h in
          let '(next, h) := ioread32 (ptr + MQNIC_RB_REG_NEXT_PTR) h in
          let blocks := blocks ++ [mk_rb ty ver base ptr] in
          if (max <=? length blocks)%nat then
            if krealloc_ok (max + 4)%nat then enum_loop fuel' krealloc_ok base next size blocks (max + 4) h
            else Some (EnumNull, h)
          else enum_loop fuel' krealloc_ok base next size blocks max h
  end.

Definition mqnic_enumerate_reg_block_list (fuel : nat) (kzalloc_ok : bool) (krealloc_ok : nat -> bool)
    (base offset size : Z) (h : hw) : option (enum_result * hw) :=
  if negb kzalloc_ok then Some (EnumNull, h)
  else enum_loop fuel krealloc_ok base offset size [] 8 h.
End RegBlocks.

(** The list is followed by an entry with [regs == NULL], which ends the
    search. *)
Fixpoint mqnic_find_reg_block (list : list mqnic_reg_block) (type version index : Z) : option mqnic_reg_block :=
  match list with
  | [] => None
  | rb :: rest =>
      if rb_regs rb =? 0 then None
      else if (rb_type rb =? type) && ((version =? 0) || (rb_version rb =? version)) then
        if index >? 0 then mqnic_find_reg_block rest type version (index - 1)
        else Some rb
      else mqnic_find_reg_block rest type version index
  end.

(** *** Enumeration ends *)

(** The blocks found are different places inside the region. *)
Definition blocks_wf (base size : Z) (l : list mqnic_reg_block) : Prop :=
  NoDup (rb_regs <$> l) /\
  Forall (fun rb => rb_base rb = base /\ base <= rb_regs rb < base + size) l.

Lemma blocks_wf_snoc base size l rb :
  blocks_wf base size l -> rb_base rb = base -> base <= rb_regs rb < base + size ->
  existsb (fun x => rb_regs rb =? rb_regs x) l = false -> blocks_wf base size (l ++ [rb]).
Proof.
  intros [Hnd Hall] Hb Hr Hex. split.
  - rewrite fmap_app. apply NoDup_app. split_and!; [done| |apply NoDup_singleton].
    intros x Hx Hx'. cbn in Hx'. apply list_elem_of_singleton in Hx' as ->.
    apply list_elem_of_fmap in Hx as (y & Hy & Hin).
    assert (existsb (fun x => rb_regs rb =? rb_regs x) l = true); [|congruence].
    apply existsb_exists. exists y. split; [by apply list_elem_of_In|]. by apply Z.eqb_eq.
  - apply Forall_app. split; [done|]. by constructor; [split|constructor].
Qed.

(** Different places inside the region: at most [size] of them. *)
Lemma blocks_wf_length base size l : blocks_wf base size l -> (length l <= Z.to_nat size)%nat.
Proof.
  intros [Hnd Hall].
  assert ((rb_regs <$> l) ⊆+ ((fun k => base + Z.of_nat k) <$> seq 0 (Z.to_nat size))) as Hsub.
  { apply NoDup_submseteq; [done|]. intros x (rb & -> & Hin)%list_elem_of_fmap.
    pose proof (proj1 (Forall_forall _ _) Hall rb Hin) as [_ Hr].
    apply list_elem_of_fmap. exists (Z.to_nat (rb_regs rb - base)). split; [lia|].
    apply elem_of_seq. lia. }
  apply submseteq_length in Hsub. by rewrite !length_fmap, length_seq in Hsub.
Qed.

Definition enum_ok (base size : Z) (r : enum_result) : Prop :=
  match r with
  | EnumList l => blocks_wf base size l
  | EnumNull => True
  | EnumOverrun => False
  end.

(** A device never shows an offset below zero. *)
Class MmioU32 (hw : Type) `{!Mmio hw} :=
  ioread32_u32 a (h : hw) : 0 <= (ioread32 a h).1 < 2 ^ 32.

Lemma enum_loop_ends `{!Mmio hw, !MmioU32 hw} fuel krealloc_ok base offset size blocks max (h : hw) :
  0 <= offset -> blocks_wf base size blocks -> (length blocks < max)%nat ->
  (Z.to_nat size < fuel + length blocks)%nat ->
  exists r h', enum_loop fuel krealloc_ok base offset size blocks max h = Some (r, h') /\ enum_ok base size r.
Proof.
  revert offset blocks max h. induction fuel as [|fuel IH]; intros offset blocks max h Ho Hwf Hmax Hf.
  { pose proof (blocks_wf_length _ _ _ Hwf). lia. }
  cbn [enum_loop]. rewrite (proj2 (Nat.leb_gt _ _)) by done.
  destruct (_ || _) eqn:Eend; [by eexists _, _|]. apply orb_false_iff in Eend as [_ Esz]. bool_to_prop.
  destruct (existsb _ blocks) eqn:Eex; [by eexists _, _|].
  destruct (ioread32 _ h) as [ty h1]. destruct (ioread32 _ h1) as [ver h2].
  pose proof (ioread32_u32 (base + offset + MQNIC_RB_REG_NEXT_PTR) h2) as Hn.
  destruct (ioread32 _ h2) as [next h3]. cbn [fst] in Hn.
  pose proof (blocks_wf_snoc base size blocks (mk_rb ty ver base (base + offset)) Hwf eq_refl
                ltac:(cbn; lia) Eex) as Hwf'.
  assert (length (blocks ++ [mk_rb ty ver base (base + offset)]) = S (length blocks)) as Hl
    by (rewrite length_app; simpl; lia).
  destruct (Nat.leb_spec max (length (blocks ++ [mk_rb ty ver base (base + offset)]))).
  - destruct (krealloc_ok _); [|by eexists _, _]. apply IH; done || lia.
  - apply IH; done || lia.
Qed.

(** C31: walking the register blocks ends whatever the device contains. For
    every device the enumeration of a region of [size] bytes returns after at
    most [size + 1] turns of its loop, never writes beyond the allocated
    entries, and gives NULL or a list of blocks at pairwise different places
    inside the region. *)
Theorem mqnic_enumerate_reg_block_list_ends `{!Mmio hw, !MmioU32 hw} kzalloc_ok krealloc_ok base offset size (h : hw) :
  0 <= offset -> 0 <= size ->
  exists r h', mqnic_enumerate_reg_block_list (S (Z.to_nat size)) kzalloc_ok krealloc_ok base offset size h
               = Some (r, h') /\ enum_ok base size r.
Proof.
  intros Ho Hs. unfold mqnic_enumerate_reg_block_list. destruct kzalloc_ok; [|by eexists _, _].
  apply enum_loop_ends; [done| |simpl; lia|simpl; lia].
  split; [constructor|constructor].
Qed.

#[export] Instance memory_u32 : MmioU32 memory.
Proof.
  intros a h. cbn [ioread32 memory_mmio fst].
  assert (Forall is_byte (mem_byte h <$> [a; a + 1; a + 2; a + 3])) as HF
    by (repeat constructor; apply Z.mod_pos_bound; lia).
  apply le_combine_range in HF. simpl in HF. simpl. lia.
Defined.

(** Two blocks, at 0x0 and 0x20; the second one points back to 0. *)
Definition rb_mem : memory := write_all [(0xC000, 0x100); (1, 0x104); (0x20, 0x108); (0xC004, 0x120)] (∅ : memory).

Lemma mqnic_enumerate_reg_block_list_ends_witness :
  exists l h', mqnic_enumerate_reg_block_list (S (Z.to_nat 0x40)) true (fun _ => true) 0x100 0 0x40 rb_mem
               = Some (EnumList l, h') /\ NoDup (rb_regs <$> l) /\ length l = 2%nat.
Proof.
  destruct (mqnic_enumerate_reg_block_list_ends true (fun _ => true) 0x100 0 0x40 rb_mem)
    as (r & h' & E & Hr); [lia|lia|].
  destruct r as [l| |]; [|vm_compute in E; discriminate..].
  exists l, h'. split; [exact E|]. split; [exact (proj1 Hr)|]. vm_compute in E. by injection E as <-.
Defined.

(** *** Lookup *)

Definition rb_matches (type version : Z) (rb : mqnic_reg_block) : bool :=
  (rb_type rb =? type) && ((version =? 0) || (rb_version rb =? version)).

(** [mqnic_find_reg_block] returns the [index]-th block of the requested
    type and version (any version if 0), and NULL if there are not that many;
    a negative index gives the first. *)
Theorem mqnic_find_reg_block_spec l type version index :
  Forall (fun rb => rb_regs rb <> 0) l ->
  mqnic_find_reg_block l type version index
  = List.filter (rb_matches type version) l !! Z.to_nat index.
Proof.
  intros Hl. revert index. induction Hl as [|rb l Hrb Hl IH]; intros index; [by destruct (Z.to_nat index)|].
  cbn [mqnic_find_reg_block List.filter]. rewrite (proj2 (Z.eqb_neq _ _)) by done.
  fold (rb_matches type version rb). destruct (rb_matches type version rb); [|apply IH].
  rewrite Z.gtb_ltb. destruct (Z.ltb_spec 0 index) as [Hi|Hi].
  - rewrite IH. replace (Z.to_nat index) with (S (Z.to_nat (index - 1))) by lia. done.
  - by replace (Z.to_nat index) with 0%nat by lia.
Qed.

Lemma mqnic_find_reg_block_spec_witness :
  mqnic_find_reg_block [mk_rb 1 2 0x100 0x100; mk_rb 3 1 0x100 0x140; mk_rb 1 2 0x100 0x180] 1 0 1
  = Some (mk_rb 1 2 0x100 0x180).
Proof. rewrite mqnic_find_reg_block_spec; [reflexivity|]. repeat constructor; done. Defined.
