(* ===== verification/MqnicQueue.v ===== *)
(** * Event and completion queues of the NIC driver

    Model of [modules/mqnic/mqnic_eq.c] and [modules/mqnic/mqnic_cq.c], with
    the constants of [mqnic_hw.h]: opening and closing a queue (its number,
    its buffer, its interrupt, its place in the table of the event queue, its
    registers) and [mqnic_process_eq], which consumes the events the device
    has posted. The device marks a posted entry by the phase bit. *)

From S2P Require Import Prelude Mmio MqnicRes.

(** ** Queue geometry *)

Definition roundup_pow_of_two (n : Z) : Z := if n <=? 1 then 1 else 2 ^ Z.log2_up n.

Definition MQNIC_PTR_MASK : Z := 0xFFFF.
Definition MQNIC_CTRL_STATUS_REG : Z := 0x08.
Definition MQNIC_CQ_PTR_REG : Z := 0x0C.
Definition MQNIC_EVENT_SIZE : Z := 32.
Definition MQNIC_CPL_SIZE : Z := 32.
Definition MQNIC_EVENT_TYPE_CPL : Z := 0.

(** Commands of the queue managers; the same numbers for the three kinds. *)
Definition CMD_SET_SIZE : Z := 0x80020000.
Definition CMD_SET_TARGET : Z := 0xC0000000.       (* SET_EQN, SET_IRQN, SET_CQN *)
Definition CMD_SET_PROD_PTR : Z := 0x80800000.
Definition CMD_SET_CONS_PTR : Z := 0x80900000.
Definition CMD_SET_ENABLE : Z := 0x40000100.
Definition CMD_SET_ARM : Z := 0x40000200.

(** ** Rings with a phase bit

    Entry [c] of the stream (a pointer that only grows, kept at 32 bits by the
    driver) is at [c mod size]; it is there when its phase bit differs from
    bit [log2 size] of the pointer. *)

Definition phase_bit (phase : Z) : bool := negb (Z.land phase 0x80000000 =? 0).
Definition lap_bit (ptr size : Z) : bool := negb (Z.land ptr size =? 0).

Section Phase.
Context {E : Type} (phase_of : E -> Z).

Definition entry_ready (e : E) (ptr size : Z) : bool := negb (eqb (phase_bit (phase_of e)) (lap_bit ptr size)).

(** The device's view: of the entries [cons .. prod - 1] of the stream [ev] all
    are in the buffer, and the rest of the buffer is from the lap before. *)
Definition ring_view (n : Z) (buf : list E) (ev : nat -> E) (cons prod : nat) : Prop :=
  0 <= n < 32 /\ length buf = Z.to_nat (2 ^ n) /\ (cons <= prod)%nat /\ (prod <= cons + Z.to_nat (2 ^ n))%nat /\
  (forall k, (cons <= k < prod)%nat ->
     buf !! (k mod Z.to_nat (2 ^ n))%nat = Some (ev k) /\
     phase_bit (phase_of (ev k)) = negb (Z.testbit (Z.of_nat k) n)) /\
  (forall k, (prod <= k < cons + Z.to_nat (2 ^ n))%nat ->
     exists e, buf !! (k mod Z.to_nat (2 ^ n))%nat = Some e /\
               phase_bit (phase_of e) = Z.testbit (Z.of_nat k) n).

Lemma size_nat n : 0 <= n -> (0 < Z.to_nat (2 ^ n))%nat.
Proof. intros. assert (0 < 2 ^ n) by (apply Z.pow_pos_nonneg; lia). lia. Qed.

Lemma lap_bit_testbit p n : 0 <= n < 32 -> lap_bit (u32 p) (2 ^ n) = Z.testbit p n.
Proof.
  intros Hn. unfold lap_bit, u32. rewrite <- (Z.mod_pow2_bits_low p 32 n) by lia.
  set (q := p mod 2 ^ 32). assert (Z.land q (2 ^ n) = if Z.testbit q n then 2 ^ n else 0) as ->.
  { apply Z.bits_inj'. intros m Hm. rewrite Z.land_spec, Z.pow2_bits_eqb by lia.
    destruct (Z.eqb_spec n m) as [->|Hne].
    - rewrite andb_true_r. destruct (Z.testbit q m) eqn:E'; [by rewrite Z.pow2_bits_true by lia|].
      by rewrite Z.bits_0.
    - rewrite andb_false_r. destruct (Z.testbit q n); [by rewrite Z.pow2_bits_false by lia|by rewrite Z.bits_0]. }
  assert (2 ^ n <> 0) by (apply Z.pow_nonzero; lia).
  destruct (Z.testbit q n); [|done]. by rewrite (proj2 (Z.eqb_neq _ _)).
Qed.

(** Masking the pointer is taking it modulo the size. *)
Lemma ring_index k n :
  0 <= n < 32 -> Z.to_nat (Z.land (u32 (Z.of_nat k)) (2 ^ n - 1)) = (k mod Z.to_nat (2 ^ n))%nat.
Proof.
  intros Hn. pose proof (size_nat n ltac:(lia)). replace (2 ^ n - 1) with (Z.ones n) by (rewrite Z.ones_equiv; lia).
  rewrite Z.land_ones by lia. unfold u32.
  replace (2 ^ 32) with (2 ^ (32 - n) * 2 ^ n) by (rewrite <- Z.pow_add_r by lia; f_equal; lia).
  rewrite Z.mul_comm, Z.rem_mul_r by (try (assert (0 < 2 ^ (32 - n)) by (apply Z.pow_pos_nonneg; lia)); lia).
  rewrite (Z.mul_comm (2 ^ n)), Z.mod_add, Z.mod_mod by lia.
  apply Nat2Z.inj. rewrite Nat2Z.inj_mod, !Z2Nat.id; [done|lia|apply Z.mod_pos_bound; lia].
Qed.

Lemma testbit_next_lap k n : 0 <= n -> Z.testbit (Z.of_nat (k + Z.to_nat (2 ^ n))) n = negb (Z.testbit (Z.of_nat k) n).
Proof.
  intros Hn. rewrite Nat2Z.inj_add, Z2Nat.id by (apply Z.pow_nonneg; lia).
  rewrite !Z.testbit_odd, !Z.shiftr_div_pow2 by lia.
  rewrite <- (Z.mul_1_l (2 ^ n)) at 1. rewrite Z.div_add by (apply Z.pow_nonzero; lia).
  by rewrite Z.add_1_r, Z.odd_succ, <- Z.negb_odd.
Qed.

Lemma mod_add_size k s : (0 < s)%nat -> ((k + s) mod s = k mod s)%nat.
Proof. intros. rewrite <- (Nat.mul_1_l s) at 1. apply Nat.Div0.mod_add. Qed.

(** Within one lap, different pointers are different slots. *)
Lemma mod_inj_lap a b k s : (k <= a < k + s)%nat -> (k <= b < k + s)%nat -> (a mod s = b mod s)%nat -> a = b.
Proof.
  intros Ha Hb E'. pose proof (Nat.div_mod_eq a s). pose proof (Nat.div_mod_eq b s).
  rewrite E' in *. assert (a / s = b / s)%nat; nia.
Qed.

Lemma ring_view_entry n buf ev cons prod :
  ring_view n buf ev cons prod ->
  exists e, buf !! Z.to_nat (Z.land (u32 (Z.of_nat cons)) (2 ^ n - 1)) = Some e /\
    entry_ready e (u32 (Z.of_nat cons)) (2 ^ n) = bool_decide (cons < prod)%nat /\
    ((cons < prod)%nat -> e = ev cons).
Proof.
  intros (Hn & Hl & Hcp & Hps & Hin & Hout). rewrite ring_index by done. unfold entry_ready.
  rewrite lap_bit_testbit by done. pose proof (size_nat n ltac:(lia)).
  destruct (decide (cons < prod)%nat) as [Hlt|Hge].
  - destruct (Hin cons) as [Hb Hp]; [lia|]. exists (ev cons). split; [done|]. rewrite Hp.
    split; [|done]. rewrite bool_decide_eq_true_2 by done. by destruct (Z.testbit _ _).
  - destruct (Hout cons) as (e & Hb & Hp); [lia|]. exists e. split; [done|]. rewrite Hp.
    split; [|lia]. rewrite bool_decide_eq_false_2 by done. by destruct (Z.testbit _ _).
Qed.

(** Consuming an entry: its slot now counts as from the lap before. *)
Lemma ring_view_consume n buf ev cons prod :
  ring_view n buf ev cons prod -> (cons < prod)%nat -> ring_view n buf ev (S cons) prod.
Proof.
  intros (Hn & Hl & Hcp & Hps & Hin & Hout) Hlt. pose proof (size_nat n ltac:(lia)).
  split_and!; try done; try lia.
  - intros k Hk. apply Hin. lia.
  - intros k Hk. destruct (decide (k = cons + Z.to_nat (2 ^ n))%nat) as [->|Hne]; [|apply Hout; lia].
    destruct (Hin cons) as [Hb Hp]; [lia|]. exists (ev cons). rewrite mod_add_size by lia.
    split; [done|]. by rewrite testbit_next_lap by lia.
Qed.

Lemma ring_view_drain n buf ev cons prod : ring_view n buf ev cons prod -> ring_view n buf ev prod prod.
Proof.
  remember (prod - cons)%nat as d eqn:Hd. revert cons Hd. induction d as [|d IH]; intros cons Hd Hv.
  - pose proof (proj1 (proj2 (proj2 Hv))). by replace cons with prod in Hv by lia.
  - apply (IH (S cons)); [lia|]. apply ring_view_consume; [done|lia].
Qed.

(** The device posts entry [prod]. *)
Lemma ring_view_post n buf ev cons prod :
  ring_view n buf ev cons prod -> (prod < cons + Z.to_nat (2 ^ n))%nat ->
  phase_bit (phase_of (ev prod)) = negb (Z.testbit (Z.of_nat prod) n) ->
  ring_view n (<[(prod mod Z.to_nat (2 ^ n))%nat := ev prod]> buf) ev cons (S prod).
Proof.
  intros (Hn & Hl & Hcp & Hps & Hin & Hout) Hlt Hph. pose proof (size_nat n ltac:(lia)).
  assert (prod mod Z.to_nat (2 ^ n) < length buf)%nat by (rewrite Hl; apply Nat.mod_upper_bound; lia).
  split_and!; try done; try lia; [by rewrite length_insert|..].
  - intros k Hk. destruct (decide (k = prod)) as [->|Hne].
    + split; [by apply list_lookup_insert_eq|done].
    + rewrite list_lookup_insert_ne; [apply Hin; lia|]. intros E'. destruct Hne.
      symmetry. eapply (mod_inj_lap _ _ cons); [..|exact E']; lia.
  - intros k Hk. destruct (Hout k) as (e & Hb & Hp); [lia|]. exists e. split; [|done].
    rewrite list_lookup_insert_ne; [done|]. intros E'. assert (k = prod); [|lia].
    symmetry. eapply (mod_inj_lap _ _ cons); [..|exact E']; lia.
Qed.

(** A buffer whose phase bits are clear is an empty ring. *)
Lemma ring_view_init n buf ev :
  0 <= n < 32 -> length buf = Z.to_nat (2 ^ n) ->
  Forall (fun e => phase_bit (phase_of e) = false) buf -> ring_view n buf ev 0 0.
Proof.
  intros Hn Hl Hf. pose proof (size_nat n ltac:(lia)). split_and!; try done; try lia.
  intros k Hk. rewrite Nat.mod_small by lia.
    destruct (lookup_lt_is_Some_2 buf k) as [e He]; [lia|]. exists e. split; [done|].
    rewrite (Forall_lookup_1 _ _ _ _ Hf He). symmetry.
    destruct (decide (k = 0%nat)) as [->|]; [by rewrite Z.bits_0|].
    apply Z.bits_above_log2; [lia|]. apply Z.log2_lt_pow2; lia.
Qed.
End Phase.

(** ** The structs *)

(** The fields [struct mqnic_eq], [mqnic_cq] and [mqnic_ring] have in common. *)
Record queue := mk_queue {
  q_prod_ptr : Z;
  q_cons_ptr : Z;
  q_size : Z;
  q_size_mask : Z;
  q_stride : Z;
  q_buf_size : Z;
  q_buf : option Z;            (* CPU address *)
  q_buf_dma_addr : Z;
  q_index : Z;                 (* eqn, cqn, index *)
  q_enabled : bool;
  q_hw_addr : option Z;
}.

(** What the create functions set up ([kzalloc]: the rest is zero). *)
Definition queue_new : queue := mk_queue 0 0 0 0 0 0 None 0 (-1) false None.

Definition set_q_index (n : Z) (q : queue) : queue :=
  mk_queue (q_prod_ptr q) (q_cons_ptr q) (q_size q) (q_size_mask q) (q_stride q) (q_buf_size q)
    (q_buf q) (q_buf_dma_addr q) n (q_enabled q) (q_hw_addr q).
Definition set_q_enabled (b : bool) (q : queue) : queue :=
  mk_queue (q_prod_ptr q) (q_cons_ptr q) (q_size q) (q_size_mask q) (q_stride q) (q_buf_size q)
    (q_buf q) (q_buf_dma_addr q) (q_index q) b (q_hw_addr q).
Definition set_q_cons (c : Z) (q : queue) : queue :=
  mk_queue (q_prod_ptr q) c (q_size q) (q_size_mask q) (q_stride q) (q_buf_size q)
    (q_buf q) (q_buf_dma_addr q) (q_index q) (q_enabled q) (q_hw_addr q).
Definition set_q_prod (p : Z) (q : queue) : queue :=
  mk_queue p (q_cons_ptr q) (q_size q) (q_size_mask q) (q_stride q) (q_buf_size q)
    (q_buf q) (q_buf_dma_addr q) (q_index q) (q_enabled q) (q_hw_addr q).

(** Size, mask, stride and buffer length, before the buffer is there. *)
Definition queue_geometry (size stride : Z) (q : queue) : queue :=
  mk_queue (q_prod_ptr q) (q_cons_ptr q) (u32 size) (u32 (u32 size - 1)) (u32 stride)
    (u32 (u32 size * u32 stride)) (q_buf q) (q_buf_dma_addr q) (q_index q) (q_enabled q) (q_hw_addr q).

(** The buffer, the register window and the reset pointers. *)
Definition queue_attach (buf dma : Z) (hw_addr : option Z) (q : queue) : queue :=
  mk_queue 0 0 (q_size q) (q_size_mask q) (q_stride q) (q_buf_size q)
    (Some buf) dma (q_index q) (q_enabled q) hw_addr.

Definition queue_with_buf (buf dma : Z) (q : queue) : queue :=
  mk_queue (q_prod_ptr q) (q_cons_ptr q) (q_size q) (q_size_mask q) (q_stride q) (q_buf_size q)
    (Some buf) dma (q_index q) (q_enabled q) (q_hw_addr q).

(** [enabled || hw_addr || buf] *)
Definition queue_busy (q : queue) : bool :=
  q_enabled q || bool_decide (is_Some (q_hw_addr q)) || bool_decide (is_Some (q_buf q)).

(** Not open, and without a number. *)
Definition queue_closed (q : queue) : Prop := queue_busy q = false /\ q_index q < 0.

(** [struct mqnic_event], without its reserved words. *)
Record mqnic_event := mk_event {
  ev_type : Z;
  ev_source : Z;
  ev_phase : Z;
}.

(** After [memset(buf, 1, ..)]. *)
Definition event_ones : mqnic_event := mk_event 0x0101 0x0101 0x01010101.

(** Pointers to queues are numbers. *)
Record mqnic_eq := mk_eq {
  eq_q : queue;
  eq_events : list mqnic_event;         (* contents of [buf] *)
  eq_irq : option Z;                    (* the index of the interrupt *)
  eq_table : gmap Z nat;                (* [cq_table] *)
}.

Inductive cq_handler := mqnic_rx_irq | mqnic_tx_irq.

(** [struct mqnic_cpl], the fields the driver reads. *)
Record mqnic_cpl := mk_cpl {
  cpl_index : Z;
  cpl_len : Z;
  cpl_ts_ns : Z;
  cpl_ts_s : Z;
  cpl_rx_csum : Z;
  cpl_phase : Z;
}.

Definition cpl_ones : mqnic_cpl := mk_cpl 0x0101 0x0101 0x01010101 0x0101 0x0101 0x01010101.

Record mqnic_cq := mk_cq {
  cq_q : queue;
  cq_cpls : list mqnic_cpl;             (* contents of [buf] *)
  cq_eq : option nat;
  cq_src_ring : option nat;
  cq_hnd : option cq_handler;
}.

(** The interface and the kernel: the queue numbers, the coherent buffers
    allocated (size, CPU address, bus address), the event queues registered
    on the interrupts, the device. *)
Record qworld (hw : Type) := mk_qworld {
  w_hw : hw;
  w_eq_res : mqnic_res;
  w_cq_res : mqnic_res;
  w_txq_res : mqnic_res;
  w_rxq_res : mqnic_res;
  w_bufs : list (Z * Z * Z);
  w_chain : list nat;
}.
Arguments mk_qworld {hw}. Arguments w_hw {hw}. Arguments w_eq_res {hw}. Arguments w_cq_res {hw}.
Arguments w_txq_res {hw}. Arguments w_rxq_res {hw}. Arguments w_bufs {hw}. Arguments w_chain {hw}.

Section Lifecycle.
Context {hw : Type} `{!Mmio hw}.
Implicit Types w : qworld hw.

Definition set_w_hw (h : hw) w : qworld hw :=
  mk_qworld h (w_eq_res w) (w_cq_res w) (w_txq_res w) (w_rxq_res w) (w_bufs w) (w_chain w).
Definition set_eq_res (r : mqnic_res) w : qworld hw :=
  mk_qworld (w_hw w) r (w_cq_res w) (w_txq_res w) (w_rxq_res w) (w_bufs w) (w_chain w).
Definition set_cq_res (r : mqnic_res) w : qworld hw :=
  mk_qworld (w_hw w) (w_eq_res w) r (w_txq_res w) (w_rxq_res w) (w_bufs w) (w_chain w).
Definition set_txq_res (r : mqnic_res) w : qworld hw :=
  mk_qworld (w_hw w) (w_eq_res w) (w_cq_res w) r (w_rxq_res w) (w_bufs w) (w_chain w).
Definition set_rxq_res (r : mqnic_res) w : qworld hw :=
  mk_qworld (w_hw w) (w_eq_res w) (w_cq_res w) (w_txq_res w) r (w_bufs w) (w_chain w).
Definition set_bufs (l : list (Z * Z * Z)) w : qworld hw :=
  mk_qworld (w_hw w) (w_eq_res w) (w_cq_res w) (w_txq_res w) (w_rxq_res w) l (w_chain w).
Definition set_chain (l : list nat) w : qworld hw :=
  mk_qworld (w_hw w) (w_eq_res w) (w_cq_res w) (w_txq_res w) (w_rxq_res w) (w_bufs w) l.

(** The command sequence of the open functions, up to the pointers. *)
Definition setup_writes (a dma size_arg target prod cons : Z) : list (Z * Z) :=
  [ (Z.lor CMD_SET_ENABLE 0, a + MQNIC_CTRL_STATUS_REG);
    (Z.land dma 0xfffff000, a + 0);
    (Z.shiftr dma 32, a + 4);
    (Z.lor CMD_SET_SIZE size_arg, a + MQNIC_CTRL_STATUS_REG);
    (Z.lor CMD_SET_TARGET target, a + MQNIC_CTRL_STATUS_REG);
    (Z.lor CMD_SET_PROD_PTR (Z.land prod MQNIC_PTR_MASK), a + MQNIC_CTRL_STATUS_REG);
    (Z.lor CMD_SET_CONS_PTR (Z.land cons MQNIC_PTR_MASK), a + MQNIC_CTRL_STATUS_REG) ].

(** A write to the control register of a queue whose window may be gone. *)
Definition write_ctrl (hw_addr : option Z) (v : Z) w : qworld hw :=
  match hw_addr with
  | Some a => set_w_hw (iowrite32 v (a + MQNIC_CTRL_STATUS_REG) (w_hw w)) w
  | None => w
  end.

(** [dma_free_coherent] of the queue's buffer, if it has one; [None] if that
    is not a live buffer. *)
Definition free_buf (q : queue) w : option (queue * qworld hw) :=
  match q_buf q with
  | None => Some (q, w)
  | Some b =>
      match remove_one (q_buf_size q, b, q_buf_dma_addr q) (w_bufs w) with
      | None => None
      | Some l =>
          Some (mk_queue (q_prod_ptr q) (q_cons_ptr q) (q_size q) (q_size_mask q) (q_stride q) (q_buf_size q)
                  None 0 (q_index q) (q_enabled q) (q_hw_addr q), set_bufs l w)
      end
  end.

Definition clear_hw_addr (q : queue) : queue :=
  mk_queue (q_prod_ptr q) (q_cons_ptr q) (q_size q) (q_size_mask q) (q_stride q) (q_buf_size q)
    (q_buf q) (q_buf_dma_addr q) (q_index q) (q_enabled q) None.

(** ** Event queues *)

Definition mqnic_create_eq : mqnic_eq := mk_eq queue_new [] None ∅.

Definition mqnic_close_eq (me : nat) (eq : mqnic_eq) w : option (mqnic_eq * qworld hw) :=
  let w := write_ctrl (q_hw_addr (eq_q eq)) (Z.lor CMD_SET_ENABLE 0) w in
  let w := match eq_irq eq with
           | Some _ => set_chain (base.filter (fun x => x <> me) (w_chain w)) w
           | None => w
           end in
  match free_buf (clear_hw_addr (eq_q eq)) w with
  | None => None
  | Some (q, w) =>
      match mqnic_res_free (q_index q) (w_eq_res w) with
      | None => None
      | Some r => Some (mk_eq (set_q_enabled false (set_q_index (-1) q)) (eq_events eq) None (eq_table eq),
                        set_eq_res r w)
      end
  end.

(** [me] is the queue's pointer; [buf] what [dma_alloc_coherent] returns and
    [chain_ret] what [atomic_notifier_chain_register] returns. *)
Definition mqnic_open_eq (me : nat) (eq : mqnic_eq) (irq : option Z) (size : Z)
    (buf : option (Z * Z)) (chain_ret : Z) w : option (Z * mqnic_eq * qworld hw) :=
  match irq, queue_busy (eq_q eq) with
  | None, _ | _, true => Some (- EINVAL, eq, w)
  | Some irqn, false =>
      match mqnic_res_alloc (w_eq_res w) with
      | None => None
      | Some (n, r) =>
          let w := set_eq_res r w in
          let eq := mk_eq (set_q_index n (eq_q eq)) (eq_events eq) (eq_irq eq) (eq_table eq) in
          if n <? 0 then Some (- ENOMEM, eq, w)
          else
            let q := queue_geometry (roundup_pow_of_two size) (roundup_pow_of_two MQNIC_EVENT_SIZE) (eq_q eq) in
            let fail ret q w :=
              match mqnic_close_eq me (mk_eq q (eq_events eq) (eq_irq eq) (eq_table eq)) w with
              | None => None
              | Some (eq, w) => Some (ret, eq, w)
              end in
            match buf with
            | None => fail (- ENOMEM) q w
            | Some (b, dma) =>
                let q := queue_with_buf b dma q in
                let w := set_bufs ((q_buf_size q, b, dma) :: w_bufs w) w in
                if negb (chain_ret =? 0) then fail chain_ret q w
                else
                  let w := set_chain (me :: w_chain w) w in
                  match mqnic_res_get_addr (w_eq_res w) n with
                  | None => None
                  | Some a =>
                      let q := set_q_enabled true (queue_attach b dma (Some a) q) in
                      let writes :=
                        setup_writes a dma (Z.log2 (q_size q)) irqn 0 0
                        ++ [(Z.lor CMD_SET_ENABLE 1, a + MQNIC_CTRL_STATUS_REG)] in
                      Some (0, mk_eq q (replicate (Z.to_nat (q_size q)) event_ones) (Some irqn) (eq_table eq),
                            set_w_hw (write_all writes (w_hw w)) w)
                  end
            end
      end
  end.

(** [radix_tree_insert] may fail; it does not replace an entry. *)
Definition mqnic_eq_attach_cq (insert_ok : bool) (cqn : Z) (cq : nat) (eq : mqnic_eq) : mqnic_eq :=
  match insert_ok, eq_table eq !! cqn with
  | true, None => mk_eq (eq_q eq) (eq_events eq) (eq_irq eq) (<[cqn := cq]> (eq_table eq))
  | _, _ => eq
  end.

Definition mqnic_eq_detach_cq (cqn : Z) (eq : mqnic_eq) : mqnic_eq :=
  mk_eq (eq_q eq) (eq_events eq) (eq_irq eq) (delete cqn (eq_table eq)).

Definition mqnic_eq_read_prod_ptr (eq : mqnic_eq) w : option (mqnic_eq * qworld hw) :=
  match q_hw_addr (eq_q eq) with
  | None => None
  | Some a =>
      let '(v, h) := ioread32 (a + MQNIC_CQ_PTR_REG) (w_hw w) in
      let p := q_prod_ptr (eq_q eq) in
      let p := u32 (p + Z.land (u32 (Z.land v MQNIC_PTR_MASK - p)) MQNIC_PTR_MASK) in
      Some (mk_eq (set_q_prod p (eq_q eq)) (eq_events eq) (eq_irq eq) (eq_table eq), set_w_hw h w)
  end.

Definition mqnic_eq_write_cons_ptr (eq : mqnic_eq) w : qworld hw :=
  write_ctrl (q_hw_addr (eq_q eq)) (Z.lor CMD_SET_CONS_PTR (Z.land (q_cons_ptr (eq_q eq)) MQNIC_PTR_MASK)) w.

Definition mqnic_arm_eq (eq : mqnic_eq) w : qworld hw :=
  if negb (q_enabled (eq_q eq)) then w
  else write_ctrl (q_hw_addr (eq_q eq)) (Z.lor CMD_SET_ARM 1) w.

(** *** Processing events *)

Inductive eq_action :=
| CallHandler (cq : nat)
| UnknownSource (source : Z)
| UnknownType (type : Z).

Definition handle_event (eq : mqnic_eq) (e : mqnic_event) : eq_action :=
  if ev_type e =? MQNIC_EVENT_TYPE_CPL then
    match eq_table eq !! ev_source e with
    | Some cq => CallHandler cq
    | None => UnknownSource (ev_source e)
    end
  else UnknownType (ev_type e).

(** The loop; [None] when the fuel is used up or an access is out of the
    buffer. *)
Fixpoint eq_loop (fuel : nat) (eq : mqnic_eq) (eq_cons_ptr : Z) (acts : list eq_action) : option (Z * list eq_action) :=
  match fuel with
  | O => None
  | S fuel' =>
      match eq_events eq !! Z.to_nat (Z.land eq_cons_ptr (q_size_mask (eq_q eq))) with
      | None => None
      | Some event =>
          if eqb (phase_bit (ev_phase event)) (lap_bit eq_cons_ptr (q_size (eq_q eq))) then Some (eq_cons_ptr, acts)
          else eq_loop fuel' eq (u32 (eq_cons_ptr + 1)) (acts ++ [handle_event eq event])
      end
  end.

(** What was done, the queue and the device afterwards. *)
Definition mqnic_process_eq (eq : mqnic_eq) w : option (list eq_action * mqnic_eq * qworld hw) :=
  match eq_loop (S (Z.to_nat (q_size (eq_q eq)))) eq (q_cons_ptr (eq_q eq)) [] with
  | None => None
  | Some (c, acts) =>
      let eq := mk_eq (set_q_cons c (eq_q eq)) (eq_events eq) (eq_irq eq) (eq_table eq) in
      Some (acts, eq, mqnic_eq_write_cons_ptr eq w)
  end.

(** The interrupt handler. *)
Definition mqnic_eq_int (eq : mqnic_eq) w : option (list eq_action * mqnic_eq * qworld hw) :=
  match mqnic_process_eq eq w with
  | None => None
  | Some (acts, eq, w) => Some (acts, eq, mqnic_arm_eq eq w)
  end.

(** ** Completion queues *)

Definition mqnic_create_cq : mqnic_cq := mk_cq queue_new [] None None None.

(** The event queue of an open completion queue is the argument [eq]. *)
Definition mqnic_close_cq (cq : mqnic_cq) (eq : mqnic_eq) w : option (mqnic_cq * mqnic_eq * qworld hw) :=
  let w := write_ctrl (q_hw_addr (cq_q cq)) (Z.lor CMD_SET_ENABLE 0) w in
  let eq := match cq_eq cq with
            | Some _ => mqnic_eq_detach_cq (q_index (cq_q cq)) eq
            | None => eq
            end in
  match free_buf (clear_hw_addr (cq_q cq)) w with
  | None => None
  | Some (q, w) =>
      match mqnic_res_free (q_index q) (w_cq_res w) with
      | None => None
      | Some r => Some (mk_cq (set_q_enabled false (set_q_index (-1) q)) (cq_cpls cq) None (cq_src_ring cq) (cq_hnd cq),
                        eq, set_cq_res r w)
      end
  end.

Definition mqnic_open_cq (me : nat) (cq : mqnic_cq) (eq_ptr : option nat) (eq : mqnic_eq) (size : Z)
    (buf : option (Z * Z)) (insert_ok : bool) w : option (Z * mqnic_cq * mqnic_eq * qworld hw) :=
  match eq_ptr, queue_busy (cq_q cq) with
  | None, _ | _, true => Some (- EINVAL, cq, eq, w)
  | Some e, false =>
      match mqnic_res_alloc (w_cq_res w) with
      | None => None
      | Some (n, r) =>
          let w := set_cq_res r w in
          let cq := mk_cq (set_q_index n (cq_q cq)) (cq_cpls cq) (cq_eq cq) (cq_src_ring cq) (cq_hnd cq) in
          if n <? 0 then Some (- ENOMEM, cq, eq, w)
          else
            let q := queue_geometry (roundup_pow_of_two size) (roundup_pow_of_two MQNIC_CPL_SIZE) (cq_q cq) in
            match buf with
            | None =>
                (* fail: mqnic_close_eq(eq) *)
                match mqnic_close_eq e eq w with
                | None => None
                | Some (eq, w) => Some (- ENOMEM, mk_cq q (cq_cpls cq) (cq_eq cq) (cq_src_ring cq) (cq_hnd cq), eq, w)
                end
            | Some (b, dma) =>
                let w := set_bufs ((q_buf_size q, b, dma) :: w_bufs w) w in
                let eq := mqnic_eq_attach_cq insert_ok n me eq in
                match mqnic_res_get_addr (w_cq_res w) n with
                | None => None
                | Some a =>
                    let q := set_q_enabled true (queue_attach b dma (Some a) q) in
                    let writes :=
                      setup_writes a dma (Z.log2 (q_size q)) (q_index (eq_q eq)) 0 0
                      ++ [(Z.lor CMD_SET_ENABLE 1, a + MQNIC_CTRL_STATUS_REG)] in
                    Some (0, mk_cq q (replicate (Z.to_nat (q_size q)) cpl_ones) (Some e) (cq_src_ring cq) (cq_hnd cq),
                          eq, set_w_hw (write_all writes (w_hw w)) w)
                end
            end
      end
  end.

Definition mqnic_cq_read_prod_ptr (cq : mqnic_cq) w : option (mqnic_cq * qworld hw) :=
  match q_hw_addr (cq_q cq) with
  | None => None
  | Some a =>
      let '(v, h) := ioread32 (a + MQNIC_CQ_PTR_REG) (w_hw w) in
      let p := q_prod_ptr (cq_q cq) in
      let p := u32 (p + Z.land (u32 (Z.shiftr v 16 - p)) MQNIC_PTR_MASK) in
      Some (mk_cq (set_q_prod p (cq_q cq)) (cq_cpls cq) (cq_eq cq) (cq_src_ring cq) (cq_hnd cq), set_w_hw h w)
  end.

Definition mqnic_cq_write_cons_ptr (cq : mqnic_cq) w : qworld hw :=
  write_ctrl (q_hw_addr (cq_q cq)) (Z.lor CMD_SET_CONS_PTR (Z.land (q_cons_ptr (cq_q cq)) MQNIC_PTR_MASK)) w.

Definition mqnic_arm_cq (cq : mqnic_cq) w : qworld hw :=
  if negb (q_enabled (cq_q cq)) then w
  else write_ctrl (q_hw_addr (cq_q cq)) (Z.lor CMD_SET_ARM 1) w.
End Lifecycle.

(** ** Processing events is exact *)

Definition eq_geometry (n : Z) (eq : mqnic_eq) : Prop :=
  0 <= n < 32 /\ q_size (eq_q eq) = 2 ^ n /\ q_size_mask (eq_q eq) = 2 ^ n - 1.

Lemma u32_succ k : u32 (u32 (Z.of_nat k) + 1) = u32 (Z.of_nat (S k)).
Proof. unfold u32. rewrite Zplus_mod_idemp_l. f_equal. lia. Qed.

Lemma eq_loop_view n eq ev cons prod fuel acts :
  eq_geometry n eq -> ring_view ev_phase n (eq_events eq) ev cons prod -> (prod - cons < fuel)%nat ->
  eq_loop fuel eq (u32 (Z.of_nat cons)) acts
  = Some (u32 (Z.of_nat prod), acts ++ (handle_event eq <$> (ev <$> seq cons (prod - cons)))).
Proof.
  intros (Hn & Hs & Hm). remember (prod - cons)%nat as d eqn:Hd.
  revert cons fuel acts Hd. induction d as [|d IH]; intros cons fuel acts Hd Hv Hf;
    (destruct fuel as [|fuel]; [lia|]); cbn [eq_loop]; rewrite Hs, Hm;
    destruct (ring_view_entry ev_phase n _ _ _ _ Hv) as (e & -> & Hr & He);
    unfold entry_ready in Hr; pose proof (proj1 (proj2 (proj2 Hv))) as Hle.
  { rewrite bool_decide_eq_false_2 in Hr by lia. apply negb_false_iff in Hr. rewrite Hr, app_nil_r.
    by replace prod with cons by lia. }
  rewrite bool_decide_eq_true_2 in Hr by lia. apply negb_true_iff in Hr. rewrite Hr.
  rewrite u32_succ, IH; [|lia|apply ring_view_consume; [done|lia]|lia].
  rewrite He by lia. rewrite <- app_assoc. done.
Qed.

(** Whatever the buffer contains, a lap is as far as the loop gets. *)
Lemma eq_loop_stops eq k j fuel acts :
  (j < fuel)%nat ->
  (forall i, is_Some (eq_events eq !! Z.to_nat (Z.land (u32 (Z.of_nat i)) (q_size_mask (eq_q eq))))) ->
  (exists e, eq_events eq !! Z.to_nat (Z.land (u32 (Z.of_nat (k + j))) (q_size_mask (eq_q eq))) = Some e /\
     entry_ready ev_phase e (u32 (Z.of_nat (k + j))) (q_size (eq_q eq)) = false) ->
  is_Some (eq_loop fuel eq (u32 (Z.of_nat k)) acts).
Proof.
  revert k fuel acts. induction j as [|j IH]; intros k fuel acts Hf Hin (e & He & Hr);
    (destruct fuel as [|fuel]; [lia|]); cbn [eq_loop].
  - rewrite Nat.add_0_r in *. rewrite He. apply negb_false_iff in Hr. rewrite Hr. by eexists.
  - destruct (Hin k) as [e' ->]. destruct (eqb _ _); [by eexists|]. rewrite u32_succ.
    apply IH; [lia|done|]. exists e. by rewrite Nat.add_succ_comm.
Qed.

Lemma eq_loop_ends n eq k acts :
  eq_geometry n eq -> length (eq_events eq) = Z.to_nat (2 ^ n) ->
  is_Some (eq_loop (S (Z.to_nat (2 ^ n))) eq (u32 (Z.of_nat k)) acts).
Proof.
  intros (Hn & Hs & Hm) Hl. pose proof (size_nat n ltac:(lia)) as Hp.
  assert (forall i, is_Some (eq_events eq !! Z.to_nat (Z.land (u32 (Z.of_nat i)) (q_size_mask (eq_q eq))))) as Hin.
  { intros i. rewrite Hm, ring_index by done. apply lookup_lt_is_Some_2. rewrite Hl. apply Nat.mod_upper_bound. lia. }
  destruct (Hin k) as [e He]. destruct (entry_ready ev_phase e (u32 (Z.of_nat k)) (q_size (eq_q eq))) eqn:Hr.
  - apply (eq_loop_stops eq k (Z.to_nat (2 ^ n))); [lia|done|]. exists e. split.
    + rewrite Hm, ring_index, mod_add_size by (done || lia). by rewrite Hm, ring_index in He by done.
    + unfold entry_ready in *. rewrite Hs, lap_bit_testbit in * by done. rewrite testbit_next_lap by lia.
      by destruct (phase_bit _), (Z.testbit _ _).
  - apply (eq_loop_stops eq k 0); [lia|done|]. exists e. by rewrite Nat.add_0_r.
Qed.

(** *** The device and the driver together *)

(** What the device does: post an event if there is room, with the phase bit
    of its lap. *)
Definition dev_event (n : Z) (prod : nat) (type source : Z) : mqnic_event :=
  mk_event type source (if Z.testbit (Z.of_nat prod) n then 0 else 0x80000000).

Record eq_sys (hw : Type) := mk_eq_sys {
  es_eq : mqnic_eq;
  es_w : qworld hw;
  es_cons : nat;                        (* events consumed, from the start *)
  es_posted : list mqnic_event;         (* history *)
  es_done : list eq_action;             (* history *)
}.
Arguments mk_eq_sys {hw}. Arguments es_eq {hw}. Arguments es_w {hw}. Arguments es_cons {hw}.
Arguments es_posted {hw}. Arguments es_done {hw}.

Inductive eq_event := DevPosts (type source : Z) | Interrupt.

Definition es_exec {hw} `{!Mmio hw} (n : Z) (a : eq_event) (s : eq_sys hw) : option (eq_sys hw) :=
  match a with
  | DevPosts type source =>
      let prod := length (es_posted s) in
      if (es_cons s + Z.to_nat (2 ^ n) <=? prod)%nat then Some s
      else
        let e := dev_event n prod type source in
        let eq := es_eq s in
        Some (mk_eq_sys (mk_eq (eq_q eq) (<[(prod mod Z.to_nat (2 ^ n))%nat := e]> (eq_events eq)) (eq_irq eq) (eq_table eq))
                (es_w s) (es_cons s) (es_posted s ++ [e]) (es_done s))
  | Interrupt =>
      match mqnic_eq_int (es_eq s) (es_w s) with
      | None => None
      | Some (acts, eq, w) => Some (mk_eq_sys eq w (es_cons s + length acts) (es_posted s) (es_done s ++ acts))
      end
  end.

Fixpoint es_run {hw} `{!Mmio hw} (n : Z) (l : list eq_event) (s : eq_sys hw) : option (eq_sys hw) :=
  match l with
  | [] => Some s
  | a :: l' => es_exec n a s ≫= es_run n l'
  end.

(** Entry [k] of the stream. *)
Definition nth_event (l : list mqnic_event) (k : nat) : mqnic_event := nth k l event_ones.

Definition es_inv {hw} (n : Z) (table : gmap Z nat) (s : eq_sys hw) : Prop :=
  eq_geometry n (es_eq s) /\ eq_table (es_eq s) = table /\
  q_cons_ptr (eq_q (es_eq s)) = u32 (Z.of_nat (es_cons s)) /\
  ring_view ev_phase n (eq_events (es_eq s)) (nth_event (es_posted s)) (es_cons s) (length (es_posted s)) /\
  es_done s = handle_event (es_eq s) <$> take (es_cons s) (es_posted s).

Lemma ring_view_ext {E} (phase_of : E -> Z) n buf ev ev' cons prod :
  (forall k, (k < prod)%nat -> ev k = ev' k) ->
  ring_view phase_of n buf ev cons prod -> ring_view phase_of n buf ev' cons prod.
Proof.
  intros Hev (? & ? & ? & ? & Hin & ?). split_and!; try done.
  - lia.
  - lia.
  - intros k Hk. rewrite <- Hev by lia. by apply Hin.
Qed.

Lemma dev_event_phase n prod type source :
  phase_bit (ev_phase (dev_event n prod type source)) = negb (Z.testbit (Z.of_nat prod) n).
Proof. unfold dev_event. by destruct (Z.testbit _ _). Qed.

Lemma es_post_inv {hw} `{!Mmio hw} n table type source (s s' : eq_sys hw) :
  es_inv n table s -> es_exec n (DevPosts type source) s = Some s' -> es_inv n table s'.
Proof.
  intros (Hg & Ht & Hc & Hv & Hd) E. cbn [es_exec] in E.
  destruct (Nat.leb_spec (es_cons s + Z.to_nat (2 ^ n)) (length (es_posted s))); [by simplify_eq|].
  set (e := dev_event n (length (es_posted s)) type source) in *. simplify_eq.
  assert (forall k, (k < length (es_posted s))%nat ->
            nth_event (es_posted s) k = nth_event (es_posted s ++ [e]) k) as Hev.
  { intros k Hk. unfold nth_event. by rewrite app_nth1 by done. }
  assert (nth_event (es_posted s ++ [e]) (length (es_posted s)) = e) as He.
  { unfold nth_event. by rewrite app_nth2, Nat.sub_diag by lia. }
  split_and!; try done.
  - cbn [es_eq es_posted es_cons eq_events]. rewrite length_app, Nat.add_1_r. rewrite <- He at 1.
    apply ring_view_post; [by apply (ring_view_ext ev_phase n _ (nth_event (es_posted s)))|lia|].
    rewrite He. apply dev_event_phase.
  - cbn [es_done es_posted es_cons es_eq]. rewrite Hd, take_app_le; [done|]. destruct Hv as (_ & _ & ? & _). lia.
Qed.

Lemma nth_event_seq l c : nth_event l <$> seq c (length l - c) = drop c l.
Proof.
  apply list_eq. intros i. rewrite list_lookup_fmap, lookup_drop.
  destruct (decide (i < length l - c)%nat) as [Hi|Hi].
  - rewrite lookup_seq_lt by done. cbn. unfold nth_event. rewrite nth_lookup.
    by destruct (lookup_lt_is_Some_2 l (c + i)) as [x ->]; [lia|].
  - rewrite lookup_seq_ge by lia. symmetry. apply lookup_ge_None. lia.
Qed.

Lemma es_interrupt_spec {hw} `{!Mmio hw} n table (s : eq_sys hw) :
  es_inv n table s ->
  exists s', es_exec n Interrupt s = Some s' /\ es_inv n table s' /\
    es_posted s' = es_posted s /\ es_cons s' = length (es_posted s).
Proof.
  intros (Hg & Ht & Hc & Hv & Hd). pose proof Hv as (_ & Hl & Hcp & Hps & _).
  cbn [es_exec]. unfold mqnic_eq_int, mqnic_process_eq. rewrite Hc.
  rewrite (eq_loop_view n _ _ _ _ _ [] Hg Hv) by (destruct Hg as (_ & -> & _); lia).
  rewrite app_nil_l. eexists. split; [reflexivity|].
  cbn [es_cons es_posted]. rewrite !length_fmap, length_seq.
  replace (es_cons s + (length (es_posted s) - es_cons s))%nat with (length (es_posted s)) by lia.
  split; [|done]. split_and!; try done.
  - by eapply ring_view_drain.
  - cbn [es_done es_eq es_cons es_posted]. rewrite Hd, firstn_all.
    rewrite nth_event_seq, <- fmap_app, take_drop. done.
Qed.

(** C9: events are handled exactly once and in order. From a freshly opened
    event queue, whatever the sequence of events the device posts (it waits
    when the ring is full) and of interrupts, the driver's loop ends every
    time, its actions are those for the first [es_cons] events posted, in
    order, and an interrupt handles every event posted before it; the 32-bit
    pointers may wrap. *)
Theorem mqnic_process_eq_exactly_once {hw} `{!Mmio hw} n eq (w : qworld hw) l :
  eq_geometry n eq -> eq_events eq = replicate (Z.to_nat (2 ^ n)) event_ones -> q_cons_ptr (eq_q eq) = 0 ->
  exists s, es_run n l (mk_eq_sys eq w 0 [] []) = Some s /\
    (es_cons s <= length (es_posted s))%nat /\
    es_done s = handle_event eq <$> take (es_cons s) (es_posted s) /\
    exists s', es_exec n Interrupt s = Some s' /\ es_posted s' = es_posted s /\
      es_done s' = handle_event eq <$> es_posted s.
Proof.
  intros Hg Hev Hc.
  assert (es_inv n (eq_table eq) (mk_eq_sys eq w 0 [] [])) as Hinv.
  { split_and!; try done. cbn [es_eq es_cons es_posted]. rewrite Hev. pose proof Hg as (Hn & _).
    apply ring_view_init; [done|by rewrite length_replicate|]. by apply Forall_replicate. }
  revert Hinv. generalize (mk_eq_sys eq w 0 [] []). induction l as [|a l IH]; intros s Hinv; cbn [es_run].
  - exists s. split; [done|]. pose proof Hinv as (_ & Ht & _ & (_ & _ & Hle & _) & Hd). split; [done|].
    assert (forall x (k : list mqnic_event),
      handle_event x <$> k = handle_event (mk_eq (eq_q eq) [] None (eq_table x)) <$> k) as Hx by reflexivity.
    split; [by rewrite Hd, Hx, Ht|].
    destruct (es_interrupt_spec n _ s Hinv) as (s' & E & Hinv' & Hp & Hcons). exists s'. split; [done|].
    split; [done|]. destruct Hinv' as (_ & Ht' & _ & _ & Hd').
    by rewrite Hd', Hx, Ht', Hcons, Hp, firstn_all.
  - destruct a as [type source|].
    + destruct (es_exec n (DevPosts type source) s) as [s1|] eqn:E.
      * apply (es_post_inv n _ _ _ _ _ Hinv) in E. by apply IH.
      * cbn [es_exec] in E. by case_match.
    + destruct (es_interrupt_spec n _ s Hinv) as (s1 & -> & Hinv1 & _). by apply IH.
Qed.

Definition world0 : qworld memory :=
  mk_qworld (∅ : memory) (mk_res 2 0x1000 0x20 (Some [false; false])) (mk_res 2 0x2000 0x20 (Some [false; false]))
    (mk_res 2 0x3000 0x20 (Some [false; false])) (mk_res 2 0x4000 0x20 (Some [false; false])) [] [].

(** An open event queue of four entries with the completion queue 9 under
    number 5. *)
Definition eq4 : mqnic_eq :=
  mk_eq (mk_queue 0 0 4 3 32 128 (Some 0x8000) 0x9000 0 true (Some 0x1000)) (replicate 4 event_ones) (Some 1) {[5 := 9%nat]}.

Lemma mqnic_process_eq_exactly_once_witness :
  exists s, es_run 2 [DevPosts 0 5; DevPosts 0 7; Interrupt; DevPosts 3 0; DevPosts 0 5; DevPosts 0 5] (mk_eq_sys eq4 world0 0 [] []) = Some s /\
    es_done s = [CallHandler 9; UnknownSource 7] /\
    exists s', es_exec 2 Interrupt s = Some s' /\
      es_done s' = [CallHandler 9; UnknownSource 7; UnknownType 3; CallHandler 9; CallHandler 9].
Proof.
  destruct (mqnic_process_eq_exactly_once 2 eq4 world0
              [DevPosts 0 5; DevPosts 0 7; Interrupt; DevPosts 3 0; DevPosts 0 5; DevPosts 0 5])
    as (s & Hs & _ & Hd & s' & E & Hp & Hd'); [by repeat split|done|done|].
  assert ((fun x => (es_cons x, es_posted x)) <$> es_run 2 [DevPosts 0 5; DevPosts 0 7; Interrupt; DevPosts 3 0; DevPosts 0 5; DevPosts 0 5] (mk_eq_sys eq4 world0 0 [] [])
    = Some (2%nat, [mk_event 0 5 0x80000000; mk_event 0 7 0x80000000; mk_event 3 0 0x80000000; mk_event 0 5 0x80000000; mk_event 0 5 0]))
    as Hv by (vm_compute; reflexivity).
  rewrite Hs in Hv. cbn [fmap option_fmap option_map] in Hv. injection Hv as Hc Hpost.
  exists s. split; [exact Hs|]. split; [rewrite Hd, Hc, Hpost; reflexivity|].
  exists s'. split; [exact E|]. rewrite Hd', Hpost. reflexivity.
Defined.

(** [mqnic_process_eq] ends whatever the buffer contains: the phase bit
    that admits an entry in one lap rejects it in the next, so that after at
    most [size] events the loop stops, also on a buffer the device has filled
    with arbitrary data. *)
Theorem mqnic_process_eq_ends {hw} `{!Mmio hw} n eq (w : qworld hw) :
  eq_geometry n eq -> length (eq_events eq) = Z.to_nat (2 ^ n) -> 0 <= q_cons_ptr (eq_q eq) < 2 ^ 32 ->
  is_Some (mqnic_process_eq eq w).
Proof.
  intros Hg Hl Hc. unfold mqnic_process_eq.
  destruct (eq_loop_ends n eq (Z.to_nat (q_cons_ptr (eq_q eq))) [] Hg Hl) as [[c acts] E].
  rewrite Z2Nat.id, u32_id in E by lia. destruct Hg as (_ & -> & _). rewrite E. by eexists.
Qed.

Lemma mqnic_process_eq_ends_witness :
  is_Some (mqnic_process_eq (mk_eq (eq_q eq4) (replicate 4 (mk_event 0 5 0x80000000)) None (eq_table eq4)) world0).
Proof. apply (mqnic_process_eq_ends 2); [by repeat split|done|done]. Defined.

(** ** Opening and closing *)

Definition same_use (r r' : mqnic_res) : Prop := res_wf r' /\ r_count r' = r_count r /\ forall k, in_use r' k <-> in_use r k.

Lemma same_use_refl r : res_wf r -> same_use r r.
Proof. intros. by split_and!. Qed.

Lemma res_alloc_free r n r' :
  res_wf r -> mqnic_res_alloc r = Some (n, r') -> 0 <= n ->
  is_Some (mqnic_res_get_addr r' n) /\ ~ in_use r (Z.to_nat n) /\ in_use r' (Z.to_nat n) /\ res_wf r' /\
  exists r'', mqnic_res_free n r' = Some r'' /\ same_use r r''.
Proof.
  intros Hwf E Hn. destruct (mqnic_res_alloc_wf r Hwf) as (n' & r2 & E' & Hwf2 & Hc & _ & _ & H).
  rewrite E in E'. injection E' as <- <-. unfold ENOMEM in H. destruct H as [(Hi & Hnu & Hk)|(? & _)]; [|lia].
  split_and!; try done.
  - unfold mqnic_res_get_addr. rewrite Hc, (proj2 (Z.ltb_ge _ _)), (proj2 (Z.leb_gt _ _)) by lia. by eexists.
  - apply Hk. right. lia.
  - destruct (mqnic_res_free_wf r' n Hwf2) as (r'' & Ef & Hwf'' & Hc' & _ & _ & Hk'). exists r''.
    split; [done|]. split_and!; [done|congruence|]. intros k. rewrite Hk', Hk. split; [tauto|].
    intros Hu. split; [by left|]. intros ->. rewrite Nat2Z.id in Hnu. done.
Qed.

Lemma res_alloc_fails r n r' :
  res_wf r -> mqnic_res_alloc r = Some (n, r') -> n < 0 -> n = - ENOMEM /\ r' = r.
Proof.
  intros Hwf E Hn. destruct (mqnic_res_alloc_wf r Hwf) as (n' & r2 & E' & _ & _ & _ & _ & H).
  rewrite E in E'. injection E' as <- <-. destruct H as [(? & _)|(? & ? & _)]; [lia|done].
Qed.

Lemma res_free_noop r n : n < 0 -> mqnic_res_free n r = Some r.
Proof. intros. unfold mqnic_res_free. by rewrite (proj2 (Z.ltb_lt _ _)) by lia. Qed.

Lemma roundup_pow2 size : 0 < size <= 2 ^ 31 -> exists n, 0 <= n < 32 /\ roundup_pow_of_two size = 2 ^ n /\ size <= 2 ^ n.
Proof.
  intros Hs. unfold roundup_pow_of_two. destruct (Z.leb_spec size 1).
  - exists 0. simpl. lia.
  - exists (Z.log2_up size). pose proof (Z.log2_up_spec size). pose proof (Z.log2_up_nonneg size).
    assert (Z.log2_up size <= 31); [|lia]. apply Z.log2_up_le_pow2; lia.
Qed.

Lemma queue_geometry_size n q stride :
  0 <= n < 32 ->
  q_size (queue_geometry (2 ^ n) stride q) = 2 ^ n /\ q_size_mask (queue_geometry (2 ^ n) stride q) = 2 ^ n - 1.
Proof.
  intros Hn. cbn [queue_geometry q_size q_size_mask].
  assert (2 ^ n <= 2 ^ 31) by (apply Z.pow_le_mono_r; lia).
  assert (0 < 2 ^ n) by (apply Z.pow_pos_nonneg; lia).
  rewrite (u32_id (2 ^ n)), u32_id by lia. done.
Qed.

(** The resources of one world are those of another. *)
Definition same_resources {hw} (w w' : qworld hw) : Prop :=
  same_use (w_eq_res w) (w_eq_res w') /\ same_use (w_cq_res w) (w_cq_res w') /\
  same_use (w_txq_res w) (w_txq_res w') /\ same_use (w_rxq_res w) (w_rxq_res w') /\
  w_bufs w' = w_bufs w /\ w_chain w' = w_chain w.

Definition world_wf {hw} (w : qworld hw) : Prop :=
  res_wf (w_eq_res w) /\ res_wf (w_cq_res w) /\ res_wf (w_txq_res w) /\ res_wf (w_rxq_res w).

Lemma remove_one_head {A} `{EqDecision A} (x : A) l : remove_one x (x :: l) = Some l.
Proof. cbn. by rewrite decide_True. Qed.

Lemma filter_not_in (x : nat) (l : list nat) : x ∉ l -> base.filter (fun y => y <> x) l = l.
Proof.
  intros Hx. induction l as [|y l IH]; [done|]. apply not_elem_of_cons in Hx as [? ?].
  rewrite filter_cons_True by done. by rewrite IH.
Qed.

(** Closing an open event queue. *)
Lemma close_eq_opened {hw} `{!Mmio hw} me q ev irq table (w : qworld hw) r b r' :
  q_buf q = Some b -> remove_one (q_buf_size q, b, q_buf_dma_addr q) (w_bufs w) = Some r ->
  mqnic_res_free (q_index q) (w_eq_res w) = Some r' ->
  exists eq' w', mqnic_close_eq me (mk_eq q ev irq table) w = Some (eq', w') /\
    queue_closed (eq_q eq') /\ eq_irq eq' = None /\ eq_table eq' = table /\
    w_bufs w' = r /\ w_eq_res w' = r' /\ w_cq_res w' = w_cq_res w /\ w_txq_res w' = w_txq_res w /\
    w_rxq_res w' = w_rxq_res w /\
    w_chain w' = match irq with
                 | Some _ => base.filter (fun x => x <> me) (w_chain w)
                 | None => w_chain w
                 end.
Proof.
  intros Hb Hw Hf. unfold mqnic_close_eq. cbn [eq_q eq_irq].
  set (w1 := write_ctrl _ _ _).
  assert (w_bufs w1 = w_bufs w /\ w_eq_res w1 = w_eq_res w /\ w_cq_res w1 = w_cq_res w /\
          w_txq_res w1 = w_txq_res w /\ w_rxq_res w1 = w_rxq_res w /\ w_chain w1 = w_chain w)
    as (E1 & E2 & E3 & E4 & E5 & E6) by (unfold w1, write_ctrl; by case_match).
  unfold free_buf. cbn [clear_hw_addr q_buf q_buf_size q_buf_dma_addr].
  destruct irq; cbn [w_bufs set_chain]; rewrite Hb, E1, Hw; cbn [q_index clear_hw_addr set_bufs w_eq_res set_chain];
    rewrite E2, Hf; do 2 eexists; (split; [reflexivity|]); cbn; rewrite ?E3, ?E4, ?E5, ?E6; split_and!; done.
Qed.

(** The three ways an open fails, and what a successful one sets up. *)
Definition eq_opened {hw} (me : nat) (eq : mqnic_eq) (irqn size : Z) (w : qworld hw) (eq' : mqnic_eq) (w' : qworld hw) : Prop :=
  mqnic_res_alloc (w_eq_res w) = Some (q_index (eq_q eq'), w_eq_res w') /\ 0 <= q_index (eq_q eq') /\
  (exists b, q_buf (eq_q eq') = Some b /\ w_bufs w' = (q_buf_size (eq_q eq'), b, q_buf_dma_addr (eq_q eq')) :: w_bufs w) /\
  (w_cq_res w', w_txq_res w', w_rxq_res w', w_chain w') = (w_cq_res w, w_txq_res w, w_rxq_res w, me :: w_chain w) /\
  eq_irq eq' = Some irqn /\ eq_table eq' = eq_table eq /\ q_cons_ptr (eq_q eq') = 0 /\
  exists n, eq_geometry n eq' /\ size <= 2 ^ n /\ eq_events eq' = replicate (Z.to_nat (2 ^ n)) event_ones.

Lemma open_eq_ok {hw} `{!Mmio hw} me eq irqn size buf chain_ret (w : qworld hw) :
  res_wf (w_eq_res w) -> queue_busy (eq_q eq) = false -> eq_irq eq = None -> 0 < size <= 2 ^ 31 ->
  exists ret eq' w', mqnic_open_eq me eq (Some irqn) size buf chain_ret w = Some (ret, eq', w') /\
    (ret <> 0 -> queue_closed (eq_q eq') /\ eq_irq eq' = None /\ same_use (w_eq_res w) (w_eq_res w') /\
       (w_cq_res w', w_txq_res w', w_rxq_res w', w_bufs w', w_chain w') = (w_cq_res w, w_txq_res w, w_rxq_res w, w_bufs w, w_chain w)) /\
    (ret = 0 -> eq_opened me eq irqn size w eq' w').
Proof.
  intros Hw1 Hb Hirq Hsz. unfold mqnic_open_eq. rewrite Hb.
  destruct (mqnic_res_alloc_wf _ Hw1) as (i & r & Ei & _). rewrite Ei.
  destruct (Z.ltb_spec i 0) as [Hi|Hi].
  { destruct (res_alloc_fails _ _ _ Hw1 Ei Hi) as [-> ->]. do 3 eexists. split; [reflexivity|].
    split; [|done]. intros _. split_and!; done || by apply same_use_refl. }
  destruct (res_alloc_free _ _ _ Hw1 Ei Hi) as ([a Ha] & _ & _ & _ & r'' & Hf & Hsame).
  destruct (roundup_pow2 size Hsz) as (n & Hn & -> & Hle).
  set (q := queue_geometry _ _ _). cbn [eq_q eq_irq eq_table eq_events]. rewrite Hirq.
  apply orb_false_iff in Hb as [Hb Hb3]. apply orb_false_iff in Hb as [Hb1 Hb2]. apply bool_decide_eq_false in Hb2, Hb3.
  destruct buf as [[b dma]|].
  - cbn [w_eq_res set_bufs set_eq_res]. destruct (Z.eqb_spec chain_ret 0) as [->|Hc]; cbn [negb].
    + cbn [set_chain set_bufs set_eq_res w_eq_res]. rewrite Ha. do 3 eexists. split; [reflexivity|]. split; [done|]. intros _.
      destruct (queue_geometry_size n (set_q_index i (eq_q eq)) (roundup_pow_of_two MQNIC_EVENT_SIZE) Hn) as [Gs Gm].
      fold q in Gs, Gm. split; [exact Ei|]. split; [done|]. split; [by exists b|]. split; [done|]. split; [done|]. split; [done|]. split; [done|].
      exists n. split; [done|]. split; [lia|]. exact (f_equal (fun z => replicate (Z.to_nat z) event_ones) Gs).
    + match goal with
      | |- context [mqnic_close_eq ?me (mk_eq ?q ?e ?i ?t) ?wo] =>
          destruct (close_eq_opened me q e i t wo (w_bufs w) b r'' eq_refl (remove_one_head _ _) Hf)
            as (eq' & w' & Ec & H1 & H3 & H4 & H5 & H6 & H7 & H8 & H9 & H10)
      end.
      rewrite Ec. do 3 eexists. split; [reflexivity|]. split; [|done]. intros _. split_and!; try done; [by rewrite H6|].
      rewrite H5, H7, H8, H9, H10. reflexivity.
  - assert (q_buf (eq_q eq) = None) as Eb by (destruct (q_buf (eq_q eq)); [by destruct Hb3|done]).
    assert (q_hw_addr (eq_q eq) = None) as Eh by (destruct (q_hw_addr (eq_q eq)); [by destruct Hb2|done]).
    unfold mqnic_close_eq, free_buf. cbn [eq_q eq_irq].
    unfold q, clear_hw_addr, queue_geometry, set_q_index. cbn [eq_q q_buf q_hw_addr q_index].
    rewrite Eb, Eh. cbn [write_ctrl set_eq_res w_eq_res q_index]. rewrite Hf.
    do 3 eexists. split; [reflexivity|]. split; [|intros E0; exfalso; clear -E0; unfold ENOMEM in E0; lia]. intros _.
    split; [done|]. split; [done|]. split; [exact Hsame|reflexivity].
Qed.

(** Opening and closing an event queue is balanced. An open that fails, at
    any of its three failure points, leaves the queue numbers, the buffers
    and the interrupt chain as they were and the queue ready for another
    open; an open that succeeds sets up an empty ring of a power of two of
    entries, not fewer than asked for, and closing it gives everything back. *)
Theorem mqnic_eq_open_close {hw} `{!Mmio hw} me eq irqn size buf chain_ret (w : qworld hw) :
  world_wf w -> queue_busy (eq_q eq) = false -> eq_irq eq = None -> 0 < size <= 2 ^ 31 -> me ∉ w_chain w ->
  exists ret eq' w', mqnic_open_eq me eq (Some irqn) size buf chain_ret w = Some (ret, eq', w') /\
    (ret <> 0 -> same_resources w w' /\ queue_busy (eq_q eq') = false) /\
    (ret = 0 ->
     (exists n, eq_geometry n eq' /\ size <= 2 ^ n /\ eq_events eq' = replicate (Z.to_nat (2 ^ n)) event_ones) /\
     q_cons_ptr (eq_q eq') = 0 /\
     exists eq'' w'', mqnic_close_eq me eq' w' = Some (eq'', w'') /\ same_resources w w'' /\
       queue_busy (eq_q eq'') = false).
Proof.
  intros (Hw1 & Hw2 & Hw3 & Hw4) Hb Hirq Hsz Hme.
  destruct (open_eq_ok me eq irqn size buf chain_ret w Hw1 Hb Hirq Hsz) as (ret & eq' & w' & E & Hfail & Hok).
  exists ret, eq', w'. split; [exact E|]. split.
  - intros Hr. destruct (Hfail Hr) as ([Hc _] & _ & Hu & F). injection F as F1 F2 F3 F4 F5. split; [|done].
    split_and!; rewrite ?F1, ?F2, ?F3; try done; by apply same_use_refl.
  - intros Hr. destruct (Hok Hr) as (Ei & Hi & (b & Eb & Ew) & F & Ek & _ & Hc & Hg). injection F as F1 F2 F3 F4.
    split; [exact Hg|]. split; [exact Hc|].
    destruct (res_alloc_free _ _ _ Hw1 Ei Hi) as (_ & _ & _ & _ & r'' & Hf & Hsame). destruct eq' as [q ev irq t]. cbn [eq_q eq_irq] in *. subst irq.
    destruct (close_eq_opened me q ev (Some irqn) t w' (w_bufs w) b r'' Eb) as (eq'' & w'' & Ec & [H1 _] & _ & _ & H5 & H6 & H7 & H8 & H9 & H10);
      [by rewrite Ew; apply remove_one_head|exact Hf|].
    exists eq'', w''. split; [exact Ec|]. split; [|done]. rewrite <- H6 in Hsame.
    split_and!; rewrite ?H7, ?H8, ?H9, ?F1, ?F2, ?F3; try done; try by apply same_use_refl.
    rewrite H10, F4, filter_cons_False by (intros ?; congruence). by apply filter_not_in.
Qed.

Lemma mqnic_eq_open_close_witness :
  exists eq' w' eq'' w'',
    mqnic_open_eq 7 mqnic_create_eq (Some 3) 1000 (Some (0x8000, 0x9000)) 0 world0 = Some (0, eq', w') /\
    q_size (eq_q eq') = 1024 /\ mqnic_close_eq 7 eq' w' = Some (eq'', w'') /\ same_resources world0 w''.
Proof.
  destruct (mqnic_eq_open_close 7 mqnic_create_eq 3 1000 (Some (0x8000, 0x9000)) 0 world0)
    as (ret & eq' & w' & E & _ & H); [|done|done|lia|apply not_elem_of_nil|].
  { split_and!; by eexists. }
  assert ((fun x => (x.1.1, q_size (eq_q x.1.2)))
          <$> mqnic_open_eq 7 mqnic_create_eq (Some 3) 1000 (Some (0x8000, 0x9000)) 0 world0 = Some (0, 1024)) as Hv
    by (vm_compute; reflexivity).
  rewrite E in Hv. cbn [fmap option_fmap option_map fst snd] in Hv. injection Hv as -> Hsz.
  destruct (H eq_refl) as (_ & _ & eq'' & w'' & Ec & Hs & _).
  exists eq', w', eq'', w''. split; [exact E|]. split; [exact Hsz|]. split; [exact Ec|exact Hs].
Defined.

(** Closing a completion queue an open has just set up. *)
Lemma close_cq_opened {hw} `{!Mmio hw} cq eq (w : qworld hw) r b e r' :
  q_buf (cq_q cq) = Some b -> remove_one (q_buf_size (cq_q cq), b, q_buf_dma_addr (cq_q cq)) (w_bufs w) = Some r ->
  cq_eq cq = Some e -> mqnic_res_free (q_index (cq_q cq)) (w_cq_res w) = Some r' ->
  exists cq' w', mqnic_close_cq cq eq w = Some (cq', mqnic_eq_detach_cq (q_index (cq_q cq)) eq, w') /\
    queue_busy (cq_q cq') = false /\ q_index (cq_q cq') = -1 /\ cq_eq cq' = None /\
    w_bufs w' = r /\ w_cq_res w' = r' /\ w_eq_res w' = w_eq_res w /\ w_txq_res w' = w_txq_res w /\
    w_rxq_res w' = w_rxq_res w /\ w_chain w' = w_chain w.
Proof.
  intros Hb Hw He Hf. unfold mqnic_close_cq. rewrite He.
  set (w1 := write_ctrl _ _ _).
  assert (w_bufs w1 = w_bufs w /\ w_eq_res w1 = w_eq_res w /\ w_cq_res w1 = w_cq_res w /\
          w_txq_res w1 = w_txq_res w /\ w_rxq_res w1 = w_rxq_res w /\ w_chain w1 = w_chain w)
    as (E1 & E2 & E3 & E4 & E5 & E6) by (unfold w1, write_ctrl; by case_match).
  unfold free_buf. cbn [clear_hw_addr q_buf q_buf_size q_buf_dma_addr].
  rewrite Hb, E1, Hw. cbn [q_index clear_hw_addr set_bufs w_cq_res].
  rewrite E3, Hf. do 2 eexists. split; [reflexivity|]. cbn. rewrite ?E2, ?E3, ?E4, ?E5, ?E6. split_and!; done.
Qed.

(** Opening and closing a completion queue. An open that succeeds (given
    that the table of the event queue takes the entry) puts the queue into
    the table under its own number, and closing it gives the number and the
    buffer back and removes exactly that entry. When its buffer cannot be
    allocated, however, the open closes the EVENT queue it was given, with
    every other completion queue still attached to it, and keeps its own
    number. *)
Theorem mqnic_cq_open_close {hw} `{!Mmio hw} me cq e eq size buf (w : qworld hw) i r :
  world_wf w -> queue_busy (cq_q cq) = false -> mqnic_res_alloc (w_cq_res w) = Some (i, r) -> 0 <= i ->
  eq_table eq !! i = None ->
  match buf with
  | Some _ =>
      exists cq' eq' w' cq'' w'',
        mqnic_open_cq me cq (Some e) eq size buf true w = Some (0, cq', eq', w') /\
        eq_table eq' = <[i := me]> (eq_table eq) /\ eq_q eq' = eq_q eq /\
        mqnic_close_cq cq' eq' w' = Some (cq'', eq, w'') /\ same_resources w w'' /\ queue_busy (cq_q cq'') = false
  | None =>
      forall eq1 w1, mqnic_close_eq e eq (set_cq_res r w) = Some (eq1, w1) ->
      exists cq', mqnic_open_cq me cq (Some e) eq size buf true w = Some (- ENOMEM, cq', eq1, w1) /\
        q_enabled (eq_q eq1) = false /\ q_hw_addr (eq_q eq1) = None /\ eq_table eq1 = eq_table eq /\
        in_use (w_cq_res w1) (Z.to_nat i) /\ ~ in_use (w_cq_res w) (Z.to_nat i)
  end.
Proof.
  intros (Hw1 & Hw2 & Hw3 & Hw4) Hb Ei Hi Htab.
  destruct (res_alloc_free _ _ _ Hw2 Ei Hi) as ([a Ha] & Hnu & Hu & Hwr & r'' & Hf & Hsame).
  unfold mqnic_open_cq. rewrite Hb, Ei, (proj2 (Z.ltb_ge _ _)) by lia.
  destruct buf as [[b dma]|].
  - cbn [set_bufs w_cq_res set_cq_res]. rewrite Ha. unfold mqnic_eq_attach_cq. rewrite Htab.
    do 3 eexists.
    match goal with
    | |- context [Some (0, ?cq', ?eq', ?w')] =>
        destruct (close_cq_opened cq' eq' w' (w_bufs w) b e r'' eq_refl (remove_one_head _ _) eq_refl Hf)
          as (cq'' & w'' & Ec & H1 & H2 & H3 & H4 & H5 & H6 & H7 & H8 & H9)
    end.
    exists cq'', w''. split; [reflexivity|]. split; [done|]. split; [done|]. split.
    { rewrite Ec. do 3 f_equal. unfold mqnic_eq_detach_cq. cbn. destruct eq. cbn in *.
      by rewrite delete_insert_id. }
    split; [|done]. rewrite <- H5 in Hsame. split_and!; try done; rewrite ?H6, ?H7, ?H8; by apply same_use_refl.
  - intros eq1 w1 Hc. cbn [set_cq_res]. fold (set_cq_res r w). rewrite Hc. eexists. split; [reflexivity|].
    unfold mqnic_close_eq in Hc. repeat case_match; simplify_eq; try done.
    all: unfold free_buf in *; repeat case_match; simplify_eq.
    all: cbn; split_and!; try done.
    all: unfold write_ctrl; cbn; repeat case_match; done.
Qed.

(** [eq4] is open, number 0 and its buffer are taken. *)
Definition world4 : qworld memory :=
  mk_qworld (∅ : memory) (mk_res 2 0x1000 0x20 (Some [true; false])) (mk_res 8 0x2000 0x20 (Some [true; false; false; false; false; true; false; false]))
    (mk_res 2 0x3000 0x20 (Some [false; false])) (mk_res 2 0x4000 0x20 (Some [false; false])) [(128, 0x8000, 0x9000)] [7%nat].

Lemma mqnic_cq_open_close_witness :
  exists cq' eq1 w1,
    mqnic_open_cq 11 mqnic_create_cq (Some 7%nat) eq4 16 None true world4 = Some (- ENOMEM, cq', eq1, w1) /\
    q_enabled (eq_q eq1) = false /\ eq_table eq1 !! 5 = Some 9%nat.
Proof.
  destruct (mqnic_close_eq 7 eq4 (set_cq_res (mk_res 8 0x2000 0x20 (Some [true; true; false; false; false; true; false; false])) world4))
    as [[eq1 w1]|] eqn:E; [|by vm_compute in E].
  destruct (mqnic_cq_open_close 11 mqnic_create_cq 7 eq4 16 None world4 1 (mk_res 8 0x2000 0x20 (Some [true; true; false; false; false; true; false; false]))
              ltac:(split_and!; by eexists) eq_refl eq_refl ltac:(lia) ltac:(by vm_compute) eq1 w1 E)
    as (cq' & Ho & He & _ & Ht & _).
  exists cq', eq1, w1. split; [exact Ho|]. split; [exact He|]. rewrite Ht. reflexivity.
Defined.

(** ** The hardware pointers *)

(** Extending a 16-bit pointer: the next value not behind [p]. *)
Lemma ptr_extend p P v :
  0 <= p < 2 ^ 32 -> p <= P < p + 2 ^ 16 -> v mod 2 ^ 16 = P mod 2 ^ 16 ->
  u32 (p + Z.land (u32 (v - p)) MQNIC_PTR_MASK) = u32 P.
Proof.
  intros Hp HP Hv. change MQNIC_PTR_MASK with (Z.ones 16). rewrite Z.land_ones by lia.
  assert (u32 (v - p) mod 2 ^ 16 = P - p) as ->; [|f_equal; lia].
  unfold u32. change (2 ^ 32) with (2 ^ 16 * 2 ^ 16). rewrite Z.rem_mul_r by lia.
  rewrite (Z.mul_comm (2 ^ 16)), Z.mod_add, Z.mod_mod by lia.
  rewrite Zminus_mod, Hv, <- Zminus_mod. apply Z.mod_small. lia.
Qed.

(** Reading the pointer register of a queue manager, which holds the
    16-bit producer pointer in its low and the consumer pointer in its high
    half. [mqnic_eq_read_prod_ptr] extends the producer pointer to 32 bits
    correctly when fewer than [2^16] entries were produced since the last
    call; [mqnic_cq_read_prod_ptr] shifts the register first and so follows
    the CONSUMER pointer instead. *)
Theorem mqnic_read_prod_ptr_spec {hw} `{!Mmio hw} eq cq (w : qworld hw) a prod cons h P C :
  q_hw_addr (eq_q eq) = Some a -> q_hw_addr (cq_q cq) = Some a ->
  ioread32 (a + MQNIC_CQ_PTR_REG) (w_hw w) = (prod + 2 ^ 16 * cons, h) ->
  0 <= prod < 2 ^ 16 -> 0 <= cons < 2 ^ 16 ->
  0 <= q_prod_ptr (eq_q eq) < 2 ^ 32 -> 0 <= q_prod_ptr (cq_q cq) < 2 ^ 32 ->
  q_prod_ptr (eq_q eq) <= P < q_prod_ptr (eq_q eq) + 2 ^ 16 -> P mod 2 ^ 16 = prod ->
  q_prod_ptr (cq_q cq) <= C < q_prod_ptr (cq_q cq) + 2 ^ 16 -> C mod 2 ^ 16 = cons ->
  (exists eq' w', mqnic_eq_read_prod_ptr eq w = Some (eq', w') /\ q_prod_ptr (eq_q eq') = u32 P) /\
  (exists cq' w', mqnic_cq_read_prod_ptr cq w = Some (cq', w') /\ q_prod_ptr (cq_q cq') = u32 C).
Proof.
  intros Ha Ha' Hr Hp Hc Hep Hcp HP HPm HC HCm.
  unfold mqnic_eq_read_prod_ptr, mqnic_cq_read_prod_ptr. rewrite Ha, Ha', Hr.
  split; do 2 eexists; (split; [reflexivity|]); cbn [eq_q cq_q set_q_prod q_prod_ptr]; apply ptr_extend; try done.
  - change MQNIC_PTR_MASK with (Z.ones 16). rewrite Z.land_ones, Z.mod_mod, HPm by lia.
    rewrite Z.mul_comm, Z.mod_add by lia. apply Z.mod_small. lia.
  - rewrite Z.shiftr_div_pow2 by lia. rewrite HCm, Z.mul_comm, Z.div_add, Z.div_small by lia.
    apply Z.mod_small. lia.
Qed.

Lemma mqnic_read_prod_ptr_spec_witness :
  exists cq' w', mqnic_cq_read_prod_ptr (mk_cq (eq_q eq4) [] None None None)
    (set_w_hw (iowrite32 0x00020007 0x100C (∅ : memory)) world4) = Some (cq', w') /\ q_prod_ptr (cq_q cq') = 2.
Proof.
  destruct (mqnic_read_prod_ptr_spec eq4 (mk_cq (eq_q eq4) [] None None None)
              (set_w_hw (iowrite32 0x00020007 0x100C (∅ : memory)) world4) 0x1000 7 2
              (iowrite32 0x00020007 0x100C (∅ : memory)) 7 2) as [_ H];
    try reflexivity; try (cbn; lia).
  destruct H as (cq' & w' & E & Hp). exists cq', w'. split; [exact E|exact Hp].
Defined.
