(* ===== verification/MqnicRx.v ===== *)
(** * Receive rings of the NIC driver

    Model of [modules/mqnic/mqnic_rx.c] and of [mqnic_read_cpl_ts] from
    [mqnic_ptp.c]: opening and closing a ring, filling it with pages and
    handing the pages of completed descriptors to the network stack. The
    kernel's page allocator and DMA API are modelled by what is live: freeing
    a page or unmapping a region that is not live has no result. *)

From S2P Require Import Prelude Mmio MqnicRes MqnicQueue.

Definition PAGE_SIZE : Z := 4096.
Definition MQNIC_QUEUE_PTR_REG : Z := 0x10.
Definition MQNIC_DESC_SIZE : Z := 16.

(** ** Kernel resources *)

(** A packet handed to the stack. *)
Record sk_buff := mk_skb {
  skb_page : Z;
  skb_off : Z;
  skb_len : Z;
  skb_truesize : Z;              (* what [truesize] grows by *)
  skb_queue : Z;
  skb_csum : option Z;
  skb_hwtstamp : option Z;
}.

Record kmem := mk_kmem {
  k_pages : list (Z * Z);        (* pages of the driver, with their order *)
  k_maps : list (Z * Z);         (* DMA mappings (address, length) *)
  k_tick : nat;                  (* allocations asked for *)
  k_syncs : list Z;              (* addresses of [dma_sync_single_range_for_cpu] calls *)
  k_skbs : list sk_buff;         (* packets handed over *)
}.

(** The answers of the page allocator and of [dma_map_page]. *)
Inductive page_answer :=
| NoPage
| NoMap (page : Z)
| Mapped (page dma : Z).

Definition map_page (page order dma len : Z) (k : kmem) : kmem :=
  mk_kmem ((page, order) :: k_pages k) ((dma, len) :: k_maps k) (S (k_tick k)) (k_syncs k) (k_skbs k).
Definition tick (k : kmem) : kmem :=
  mk_kmem (k_pages k) (k_maps k) (S (k_tick k)) (k_syncs k) (k_skbs k).

Definition dma_unmap_page (dma len : Z) (k : kmem) : option kmem :=
  match remove_one (dma, len) (k_maps k) with
  | Some l => Some (mk_kmem (k_pages k) l (k_tick k) (k_syncs k) (k_skbs k))
  | None => None
  end.

Definition free_pages (page order : Z) (k : kmem) : option kmem :=
  match remove_one (page, order) (k_pages k) with
  | Some l => Some (mk_kmem l (k_maps k) (k_tick k) (k_syncs k) (k_skbs k))
  | None => None
  end.

Definition dma_sync (dma : Z) (k : kmem) : kmem :=
  mk_kmem (k_pages k) (k_maps k) (k_tick k) (k_syncs k ++ [dma]) (k_skbs k).

(** [napi_gro_frags]: the page is the stack's from now on. *)
Definition hand_over (order : Z) (skb : sk_buff) (k : kmem) : option kmem :=
  match remove_one (skb_page skb, order) (k_pages k) with
  | Some l => Some (mk_kmem l (k_maps k) (k_tick k) (k_syncs k) (k_skbs k ++ [skb]))
  | None => None
  end.

(** ** The ring *)

Record mqnic_rx_info := mk_rx_info {
  ri_page : option Z;
  ri_page_order : Z;
  ri_page_offset : Z;
  ri_dma_addr : Z;
  ri_len : Z;
}.

Definition rx_info_zero : mqnic_rx_info := mk_rx_info None 0 0 0 0.

Record rx_ring := mk_rx_ring {
  rx_q : queue;
  rx_info : list mqnic_rx_info;          (* empty: NULL *)
  rx_desc : list (Z * Z);                (* contents of [buf]: (len, addr) of each descriptor *)
  rx_page_order : Z;
  rx_log_desc_block_size : Z;
  rx_full_size : Z;
  rx_packets : Z;
  rx_bytes : Z;
  rx_ts_s : Z;
  rx_ts_valid : bool;
  rx_priv : bool;                        (* [priv != NULL] *)
  rx_cq : option nat;
}.

Definition set_rx_q (q : queue) (r : rx_ring) : rx_ring :=
  mk_rx_ring q (rx_info r) (rx_desc r) (rx_page_order r) (rx_log_desc_block_size r) (rx_full_size r)
    (rx_packets r) (rx_bytes r) (rx_ts_s r) (rx_ts_valid r) (rx_priv r) (rx_cq r).
Definition set_rx_slot (i : nat) (x : mqnic_rx_info) (r : rx_ring) : rx_ring :=
  mk_rx_ring (rx_q r) (<[i := x]> (rx_info r)) (rx_desc r) (rx_page_order r) (rx_log_desc_block_size r) (rx_full_size r)
    (rx_packets r) (rx_bytes r) (rx_ts_s r) (rx_ts_valid r) (rx_priv r) (rx_cq r).
Definition set_rx_desc (i : nat) (x : Z * Z) (r : rx_ring) : rx_ring :=
  mk_rx_ring (rx_q r) (rx_info r) (<[i := x]> (rx_desc r)) (rx_page_order r) (rx_log_desc_block_size r) (rx_full_size r)
    (rx_packets r) (rx_bytes r) (rx_ts_s r) (rx_ts_valid r) (rx_priv r) (rx_cq r).
Definition set_rx_ts (s : Z) (valid : bool) (r : rx_ring) : rx_ring :=
  mk_rx_ring (rx_q r) (rx_info r) (rx_desc r) (rx_page_order r) (rx_log_desc_block_size r) (rx_full_size r)
    (rx_packets r) (rx_bytes r) s valid (rx_priv r) (rx_cq r).
Definition count_rx (len : Z) (r : rx_ring) : rx_ring :=
  mk_rx_ring (rx_q r) (rx_info r) (rx_desc r) (rx_page_order r) (rx_log_desc_block_size r) (rx_full_size r)
    (u64 (rx_packets r + 1)) (u64 (rx_bytes r + len)) (rx_ts_s r) (rx_ts_valid r) (rx_priv r) (rx_cq r).

Definition mqnic_create_rx_ring : rx_ring := mk_rx_ring queue_new [] [] 0 0 0 0 0 0 false false None.

Definition mqnic_is_rx_ring_empty (r : rx_ring) : bool := q_prod_ptr (rx_q r) =? q_cons_ptr (rx_q r).
Definition mqnic_is_rx_ring_full (r : rx_ring) : bool :=
  q_size (rx_q r) <=? u32 (q_prod_ptr (rx_q r) - q_cons_ptr (rx_q r)).

(** ** Descriptors *)

Definition mqnic_free_rx_desc (index : nat) (r : rx_ring) (k : kmem) : option (rx_ring * kmem) :=
  match rx_info r !! index with
  | None => None
  | Some info =>
      match ri_page info with
      | None => Some (r, k)
      | Some page =>
          match dma_unmap_page (ri_dma_addr info) (ri_len info) k with
          | None => None
          | Some k =>
              match free_pages page (ri_page_order info) k with
              | None => None
              | Some k =>
                  Some (set_rx_slot index
                          (mk_rx_info None (ri_page_order info) (ri_page_offset info) 0 (ri_len info)) r, k)
              end
          end
      end
  end.

Fixpoint free_rx_loop (fuel : nat) (r : rx_ring) (k : kmem) (cnt : Z) : option (Z * rx_ring * kmem) :=
  match fuel with
  | O => None
  | S fuel' =>
      if mqnic_is_rx_ring_empty r then Some (cnt, r, k)
      else
        match mqnic_free_rx_desc (Z.to_nat (Z.land (q_cons_ptr (rx_q r)) (q_size_mask (rx_q r)))) r k with
        | None => None
        | Some (r, k) =>
            free_rx_loop fuel' (set_rx_q (set_q_cons (u32 (q_cons_ptr (rx_q r) + 1)) (rx_q r)) r) k (cnt + 1)
        end
  end.

Definition mqnic_free_rx_buf (r : rx_ring) (k : kmem) : option (Z * rx_ring * kmem) :=
  free_rx_loop (S (Z.to_nat (q_size (rx_q r)))) r k 0.

Definition mqnic_prepare_rx_desc (answer : nat -> page_answer) (index : nat) (r : rx_ring) (k : kmem)
    : option (Z * rx_ring * kmem) :=
  match rx_info r !! index with
  | None => None
  | Some info =>
      let order := rx_page_order r in
      let len := u32 (Z.shiftl PAGE_SIZE order) in
      match ri_page info with
      | Some _ => Some (-1, r, k)
      | None =>
          match answer (k_tick k) with
          | NoPage => Some (- ENOMEM, r, tick k)
          | NoMap page => Some (-1, r, tick k)
          | Mapped page dma =>
              Some (0, set_rx_slot index (mk_rx_info (Some page) order 0 dma len) (set_rx_desc index (len, dma) r),
                    map_page page order dma len k)
          end
      end
  end.

Fixpoint refill_loop (answer : nat -> page_answer) (missing : nat) (r : rx_ring) (k : kmem) : option (Z * rx_ring * kmem) :=
  match missing with
  | O => Some (0, r, k)
  | S missing' =>
      match mqnic_prepare_rx_desc answer (Z.to_nat (Z.land (q_prod_ptr (rx_q r)) (q_size_mask (rx_q r)))) r k with
      | None => None
      | Some (ret, r, k) =>
          if negb (ret =? 0) then Some (ret, r, k)
          else refill_loop answer missing' (set_rx_q (set_q_prod (u32 (q_prod_ptr (rx_q r) + 1)) (rx_q r)) r) k
      end
  end.

Section Rx.
Context {hw : Type} `{!Mmio hw}.
Implicit Types w : qworld hw.

Definition mqnic_rx_read_cons_ptr (r : rx_ring) w : option (rx_ring * qworld hw) :=
  match q_hw_addr (rx_q r) with
  | None => None
  | Some a =>
      let '(v, h) := ioread32 (a + MQNIC_QUEUE_PTR_REG) (w_hw w) in
      let c := q_cons_ptr (rx_q r) in
      let c := u32 (c + Z.land (u32 (Z.shiftr v 16 - c)) MQNIC_PTR_MASK) in
      Some (set_rx_q (set_q_cons c (rx_q r)) r, set_w_hw h w)
  end.

Definition mqnic_rx_write_prod_ptr (r : rx_ring) w : qworld hw :=
  write_ctrl (q_hw_addr (rx_q r)) (Z.lor CMD_SET_PROD_PTR (Z.land (q_prod_ptr (rx_q r)) MQNIC_PTR_MASK)) w.

Definition mqnic_refill_rx_buffers (answer : nat -> page_answer) (r : rx_ring) (k : kmem) w
    : option (Z * rx_ring * kmem * qworld hw) :=
  let missing := u32 (q_size (rx_q r) - u32 (q_prod_ptr (rx_q r) - q_cons_ptr (rx_q r))) in
  if missing <? 8 then Some (0, r, k, w)
  else match refill_loop answer (Z.to_nat missing) r k with
  | None => None
  | Some (ret, r, k) => Some (ret, r, k, mqnic_rx_write_prod_ptr r w)
  end.

Definition mqnic_enable_rx_ring (r : rx_ring) w : Z * rx_ring * qworld hw :=
  match q_hw_addr (rx_q r) with
  | None => (- EINVAL, r, w)
  | Some _ => (0, set_rx_q (set_q_enabled true (rx_q r)) r, write_ctrl (q_hw_addr (rx_q r)) (Z.lor CMD_SET_ENABLE 1) w)
  end.

Definition mqnic_disable_rx_ring (r : rx_ring) w : rx_ring * qworld hw :=
  (set_rx_q (set_q_enabled false (rx_q r)) r, write_ctrl (q_hw_addr (rx_q r)) (Z.lor CMD_SET_ENABLE 0) w).

(** The completion queue of the ring is the argument [cq]. *)
Definition cq_detach (ring_cq : option nat) (cq : mqnic_cq) : mqnic_cq :=
  match ring_cq with
  | Some _ => mk_cq (cq_q cq) (cq_cpls cq) (cq_eq cq) None None
  | None => cq
  end.

Definition mqnic_close_rx_ring (r : rx_ring) (cq : mqnic_cq) (k : kmem) w
    : option (rx_ring * mqnic_cq * kmem * qworld hw) :=
  let '(r, w) := mqnic_disable_rx_ring r w in
  let cq := cq_detach (rx_cq r) cq in
  let r := mk_rx_ring (clear_hw_addr (rx_q r)) (rx_info r) (rx_desc r) (rx_page_order r) (rx_log_desc_block_size r)
             (rx_full_size r) (rx_packets r) (rx_bytes r) (rx_ts_s r) (rx_ts_valid r) false None in
  let freed :=
    match q_buf (rx_q r) with
    | None => Some (r, k)
    | Some _ => match mqnic_free_rx_buf r k with Some (_, r, k) => Some (r, k) | None => None end
    end in
  match freed with
  | None => None
  | Some (r, k) =>
      match free_buf (rx_q r) w with
      | None => None
      | Some (q, w) =>
          match mqnic_res_free (q_index q) (w_rxq_res w) with
          | None => None
          | Some res =>
              Some (mk_rx_ring (set_q_index (-1) q) [] (rx_desc r) (rx_page_order r) (rx_log_desc_block_size r)
                      (rx_full_size r) (rx_packets r) (rx_bytes r) (rx_ts_s r) (rx_ts_valid r) false None,
                    cq, k, set_rxq_res res w)
          end
      end
  end.

(** [desc_block_size < 2 ? 0 : ilog2(desc_block_size - 1) + 1] *)
Definition log_block_size (desc_block_size : Z) : Z :=
  if desc_block_size <? 2 then 0 else Z.log2 (desc_block_size - 1) + 1.

Definition mqnic_open_rx_ring (me : nat) (r : rx_ring) (priv : bool) (cq_ptr : option nat) (cq : mqnic_cq)
    (size desc_block_size : Z) (info_ok : bool) (buf : option (Z * Z)) (answer : nat -> page_answer)
    (k : kmem) w : option (Z * rx_ring * mqnic_cq * kmem * qworld hw) :=
  match cq_ptr, queue_busy (rx_q r) || negb priv with
  | None, _ | _, true => Some (- EINVAL, r, cq, k, w)
  | Some c, false =>
      match mqnic_res_alloc (w_rxq_res w) with
      | None => None
      | Some (n, res) =>
          let w := set_rxq_res res w in
          let r := set_rx_q (set_q_index n (rx_q r)) r in
          if n <? 0 then Some (- ENOMEM, r, cq, k, w)
          else
            let log := log_block_size desc_block_size in
            let q := queue_geometry (roundup_pow_of_two size)
                       (roundup_pow_of_two (MQNIC_DESC_SIZE * Z.shiftl 1 log)) (rx_q r) in
            let ring q info desc priv cqp :=
              mk_rx_ring q info desc (rx_page_order r) log (Z.shiftr (q_size q) 1) (rx_packets r) (rx_bytes r)
                (rx_ts_s r) (rx_ts_valid r) priv cqp in
            let fail ret r cq k w :=
              match mqnic_close_rx_ring r cq k w with
              | None => None
              | Some (r, cq, k, w) => Some (ret, r, cq, k, w)
              end in
            if negb info_ok then fail (- ENOMEM) (ring q [] (rx_desc r) (rx_priv r) (rx_cq r)) cq k w
            else
              let info := replicate (Z.to_nat (q_size q)) rx_info_zero in
              match buf with
              | None => fail (- ENOMEM) (ring q info (rx_desc r) (rx_priv r) (rx_cq r)) cq k w
              | Some (b, dma) =>
                  let w := set_bufs ((q_buf_size q, b, dma) :: w_bufs w) w in
                  match mqnic_res_get_addr (w_rxq_res w) n with
                  | None => None
                  | Some a =>
                      let r := ring (queue_attach b dma (Some a) q) info (replicate (Z.to_nat (q_size q)) (0, 0)) true (Some c) in
                      let cqn := q_index (cq_q cq) in
                      let cq := mk_cq (cq_q cq) (cq_cpls cq) (cq_eq cq) (Some me) (Some mqnic_rx_irq) in
                      let writes := setup_writes a dma (Z.lor (Z.log2 (q_size q)) (Z.shiftl log 8)) cqn 0 0 in
                      let w := set_w_hw (write_all writes (w_hw w)) w in
                      match mqnic_refill_rx_buffers answer r k w with
                      | None => None
                      | Some (ret, r, k, w) =>
                          if negb (ret =? 0) then fail ret r cq k w else Some (0, r, cq, k, w)
                      end
                  end
              end
      end
  end.

(** ** Completions *)

Definition MQNIC_RB_PHC_REG_CUR_SEC_L : Z := 0x18.
Definition MQNIC_RB_PHC_REG_CUR_SEC_H : Z := 0x1C.

Definition KTIME_MAX : Z := 2 ^ 63 - 1.
Definition NSEC_PER_SEC : Z := 1000000000.
Definition ktime_set (secs nsecs : Z) : Z :=
  if KTIME_MAX / NSEC_PER_SEC <=? s64 secs then KTIME_MAX else s64 secs * NSEC_PER_SEC + nsecs.

(** [phc]: the registers of the clock, if the device has one; [ts_s] and
    [ts_valid] are the fields of the ring. *)
Definition mqnic_read_cpl_ts (phc : option Z) (ts_s : Z) (ts_valid : bool) (cpl : mqnic_cpl) w
    : Z * (Z * bool) * qworld hw :=
  let stale := negb ts_valid || negb (Z.land (Z.lxor ts_s (cpl_ts_s cpl)) 0xff00 =? 0) in
  let '(ts_s, ts_valid, w) :=
    match stale, phc with
    | true, Some regs =>
        let '(lo, h) := ioread32 (regs + MQNIC_RB_PHC_REG_CUR_SEC_L) (w_hw w) in
        let '(hi, h) := ioread32 (regs + MQNIC_RB_PHC_REG_CUR_SEC_H) h in
        (Z.lor lo (Z.shiftl hi 32), true, set_w_hw h w)
    | _, _ => (ts_s, ts_valid, w)
    end in
  (ktime_set (Z.lor (cpl_ts_s cpl) (Z.land ts_s 0xffffffffffffff00)) (cpl_ts_ns cpl), (ts_s, ts_valid), w).

Definition rx_read_cpl_ts (phc : option Z) (r : rx_ring) (cpl : mqnic_cpl) w : Z * rx_ring * qworld hw :=
  let '(t, (ts_s, ts_valid), w) := mqnic_read_cpl_ts phc (rx_ts_s r) (rx_ts_valid r) cpl w in
  (t, set_rx_ts ts_s ts_valid r, w).

(** The settings of the interface, and which calls of [napi_get_frags] give
    an skb. *)
Record rx_env := mk_rx_env {
  re_port_up : bool;
  re_ptp_ts : bool;
  re_phc : option Z;
  re_rxcsum : bool;
  re_skb_ok : nat -> bool;
}.

(** The loop over the completions: at most [budget] turns. Number of packets
    handed over, the consumer pointer, the states. *)
Fixpoint rx_cq_loop (env : rx_env) (budget : nat) (cq : mqnic_cq) (cq_cons_ptr : Z) (done : nat)
    (r : rx_ring) (k : kmem) w : option (nat * Z * rx_ring * kmem * qworld hw) :=
  match budget with
  | O => Some (done, cq_cons_ptr, r, k, w)
  | S budget' =>
      match cq_cpls cq !! Z.to_nat (Z.land cq_cons_ptr (q_size_mask (cq_q cq))) with
      | None => None
      | Some cpl =>
          if eqb (phase_bit (cpl_phase cpl)) (lap_bit cq_cons_ptr (q_size (cq_q cq))) then Some (done, cq_cons_ptr, r, k, w)
          else
            let ring_index := Z.to_nat (Z.land (cpl_index cpl) (q_size_mask (rx_q r))) in
            match rx_info r !! ring_index with
            | None => None
            | Some info =>
                match ri_page info with
                | None => Some (done, cq_cons_ptr, r, k, w)
                | Some page =>
                    if negb (re_skb_ok env done) then Some (done, cq_cons_ptr, r, k, w)
                    else
                      let '(ts, r, w) :=
                        if re_ptp_ts env then
                          let '(t, r, w) := rx_read_cpl_ts (re_phc env) r cpl w in (Some t, r, w)
                        else (None, r, w) in
                      match dma_unmap_page (ri_dma_addr info) (ri_len info) k with
                      | None => None
                      | Some k =>
                          let info := mk_rx_info (ri_page info) (ri_page_order info) (ri_page_offset info) 0 (ri_len info) in
                          let len := Z.min (cpl_len cpl) (ri_len info) in
                          let k := dma_sync (ri_dma_addr info) k in
                          let skb := mk_skb page (ri_page_offset info) len (ri_len info) (q_index (rx_q r))
                                       (if re_rxcsum env then Some (bswap16 (cpl_rx_csum cpl)) else None) ts in
                          match hand_over (ri_page_order info) skb k with
                          | None => None
                          | Some k =>
                              let info := mk_rx_info None (ri_page_order info) (ri_page_offset info) (ri_dma_addr info) (ri_len info) in
                              let r := count_rx (cpl_len cpl) (set_rx_slot ring_index info r) in
                              rx_cq_loop env budget' cq (u32 (cq_cons_ptr + 1)) (S done) r k w
                          end
                      end
                end
            end
      end
  end.

(** Skip the descriptors whose page is gone. *)
Fixpoint rx_ring_loop (fuel : nat) (r : rx_ring) (ring_cons_ptr : Z) : option Z :=
  match fuel with
  | O => None
  | S fuel' =>
      if ring_cons_ptr =? q_prod_ptr (rx_q r) then Some ring_cons_ptr
      else match rx_info r !! Z.to_nat (Z.land ring_cons_ptr (q_size_mask (rx_q r))) with
      | None => None
      | Some info =>
          match ri_page info with
          | Some _ => Some ring_cons_ptr
          | None => rx_ring_loop fuel' r (u32 (ring_cons_ptr + 1))
          end
      end
  end.

Definition mqnic_process_rx_cq (env : rx_env) (answer : nat -> page_answer) (cq : mqnic_cq) (budget : nat)
    (r : rx_ring) (k : kmem) w : option (nat * mqnic_cq * rx_ring * kmem * qworld hw) :=
  if negb (rx_priv r) || negb (re_port_up env) then Some (0%nat, cq, r, k, w)
  else match rx_cq_loop env budget cq (q_cons_ptr (cq_q cq)) 0 r k w with
  | None => None
  | Some (done, c, r, k, w) =>
      let cq := mk_cq (set_q_cons c (cq_q cq)) (cq_cpls cq) (cq_eq cq) (cq_src_ring cq) (cq_hnd cq) in
      let w := mqnic_cq_write_cons_ptr cq w in
      match rx_ring_loop (S (Z.to_nat (q_size (rx_q r)))) r (q_cons_ptr (rx_q r)) with
      | None => None
      | Some rc =>
          let r := set_rx_q (set_q_cons rc (rx_q r)) r in
          match mqnic_refill_rx_buffers answer r k w with
          | None => None
          | Some (_, r, k, w) => Some (done, cq, r, k, w)
          end
      end
  end.

(** The NAPI poll function; [true] when polling is over and the queue armed. *)
Definition mqnic_poll_rx_cq (env : rx_env) (answer : nat -> page_answer) (cq : mqnic_cq) (budget : nat)
    (r : rx_ring) (k : kmem) w : option (nat * bool * mqnic_cq * rx_ring * kmem * qworld hw) :=
  match mqnic_process_rx_cq env answer cq budget r k w with
  | None => None
  | Some (done, cq, r, k, w) =>
      if (done =? budget)%nat then Some (done, false, cq, r, k, w)
      else Some (done, true, cq, r, k, mqnic_arm_cq cq w)
  end.
End Rx.

(** ** Ownership *)

(** The page and the mapping a descriptor holds. *)
Definition info_page (i : mqnic_rx_info) : option (Z * Z) := (fun p => (p, ri_page_order i)) <$> ri_page i.
Definition info_map (i : mqnic_rx_info) : option (Z * Z) := (fun _ => (ri_dma_addr i, ri_len i)) <$> ri_page i.

(** [c] and [p] are the consumer and producer pointers without wrap-around,
    [P] and [M] the pages and mappings of the rest of the driver: a
    descriptor outside of [c .. p - 1] is empty, and the live pages and
    mappings are those of the descriptors and [P], [M], each once. *)
Definition rx_inv (n : Z) (P M : list (Z * Z)) (c p : nat) (r : rx_ring) (k : kmem) : Prop :=
  0 <= n < 32 /\ q_size (rx_q r) = 2 ^ n /\ q_size_mask (rx_q r) = 2 ^ n - 1 /\
  q_cons_ptr (rx_q r) = u32 (Z.of_nat c) /\ q_prod_ptr (rx_q r) = u32 (Z.of_nat p) /\
  (c <= p <= c + Z.to_nat (2 ^ n))%nat /\
  length (rx_info r) = Z.to_nat (2 ^ n) /\
  (forall j i, rx_info r !! j = Some i -> is_Some (ri_page i) ->
     exists x, (c <= x < p)%nat /\ j = (x mod Z.to_nat (2 ^ n))%nat) /\
  k_pages k ≡ₚ omap info_page (rx_info r) ++ P /\
  k_maps k ≡ₚ omap info_map (rx_info r) ++ M.

Lemma omap_insert {A B} (f : A -> option B) (l : list A) j x y :
  l !! j = Some y -> option_list (f y) ++ omap f (<[j := x]> l) ≡ₚ option_list (f x) ++ omap f l.
Proof.
  intros Hj. pose proof (lookup_lt_Some _ _ _ Hj).
  rewrite <- (take_drop_middle l j y Hj) at 2. rewrite insert_take_drop by done.
  rewrite !omap_app. cbn [omap list_omap].
  destruct (f x), (f y); simpl; solve_Permutation.
Qed.

Lemma remove_one_perm {A} `{EqDecision A} (x : A) l k :
  l ≡ₚ x :: k -> exists k', remove_one x l = Some k' /\ k' ≡ₚ k.
Proof.
  intros Hl. destruct (remove_one_elem x l) as [k' Hk]; [rewrite Hl; by left|].
  exists k'. split; [done|]. apply remove_one_Some in Hk. rewrite Hl in Hk. by apply Permutation_cons_inv in Hk.
Qed.

(** Emptying a descriptor. *)
Lemma info_taken (f : mqnic_rx_info -> option (Z * Z)) l j i i' v (live rest : list (Z * Z)) :
  l !! j = Some i -> f i = Some v -> f i' = None -> live ≡ₚ omap f l ++ rest ->
  exists live', remove_one v live = Some live' /\ live' ≡ₚ omap f (<[j := i']> l) ++ rest.
Proof.
  intros Hj Hv Hi Hp. apply remove_one_perm. rewrite Hp.
  pose proof (omap_insert f l j i' i Hj) as H. rewrite Hv, Hi in H. simpl in H.
  rewrite <- H. done.
Qed.

(** Filling an empty one. *)
Lemma info_filled (f : mqnic_rx_info -> option (Z * Z)) l j i i' v (live rest : list (Z * Z)) :
  l !! j = Some i -> f i = None -> f i' = Some v -> live ≡ₚ omap f l ++ rest ->
  v :: live ≡ₚ omap f (<[j := i']> l) ++ rest.
Proof.
  intros Hj Hv Hi Hp. rewrite Hp. pose proof (omap_insert f l j i' i Hj) as H. rewrite Hv, Hi in H. simpl in H.
  by rewrite H.
Qed.

(** The parts of the ring the invariant reads. *)
Lemma rx_inv_ext n P M c p r r' k k' :
  rx_q r' = rx_q r -> rx_info r' = rx_info r -> k_pages k' = k_pages k -> k_maps k' = k_maps k ->
  rx_inv n P M c p r k -> rx_inv n P M c p r' k'.
Proof. intros E1 E2 E3 E4. unfold rx_inv. by rewrite E1, E2, E3, E4. Qed.

(** The page of a slot leaves the ring. *)
Lemma rx_inv_take n P M c p r k j i order off dma len :
  rx_inv n P M c p r k -> rx_info r !! j = Some i -> is_Some (ri_page i) ->
  exists page pages maps, ri_page i = Some page /\
    remove_one (page, ri_page_order i) (k_pages k) = Some pages /\
    remove_one (ri_dma_addr i, ri_len i) (k_maps k) = Some maps /\
    rx_inv n P M c p (set_rx_slot j (mk_rx_info None order off dma len) r)
      (mk_kmem pages maps (k_tick k) (k_syncs k) (k_skbs k)).
Proof.
  intros (H1 & H2 & H3 & H4 & H5 & H6 & H7 & H8 & HP & HM) Hj [page Hpage].
  destruct (info_taken info_page (rx_info r) j i (mk_rx_info None order off dma len) (page, ri_page_order i) (k_pages k) P Hj)
    as (pages & Ep & Hp'); [by unfold info_page; rewrite Hpage|done|done|].
  destruct (info_taken info_map (rx_info r) j i (mk_rx_info None order off dma len) (ri_dma_addr i, ri_len i) (k_maps k) M Hj)
    as (maps & Em & Hm'); [by unfold info_map; rewrite Hpage|done|done|].
  exists page, pages, maps. unfold rx_inv. split_and!; try done; try lia.
  - cbn [rx_info rx_q set_rx_slot set_rx_desc set_rx_q map_page k_pages k_maps]. by rewrite length_insert.
  - cbn [rx_info rx_q set_rx_slot set_rx_desc set_rx_q map_page k_pages k_maps]. intros j' i' Hj' Hi'. destruct (decide (j' = j)) as [->|Hne].
    + rewrite list_lookup_insert_eq in Hj' by (by eapply lookup_lt_Some). simplify_eq. by destruct Hi'.
    + rewrite list_lookup_insert_ne in Hj' by done. by eapply H8.
Qed.

(** A page enters at the producer pointer. *)
Lemma rx_inv_put n P M c p r k page order dma len i :
  let j := (p mod Z.to_nat (2 ^ n))%nat in
  rx_inv n P M c p r k -> (p < c + Z.to_nat (2 ^ n))%nat -> rx_info r !! j = Some i -> ri_page i = None ->
  let r' := set_rx_slot j (mk_rx_info (Some page) order 0 dma len) (set_rx_desc j (len, dma) r) in
  rx_inv n P M c (S p) (set_rx_q (set_q_prod (u32 (Z.of_nat (S p))) (rx_q r')) r') (map_page page order dma len k).
Proof.
  intros j (H1 & H2 & H3 & H4 & H5 & H6 & H7 & H8 & HP & HM) Hlt Hj Hpage r'. subst r'.
  pose proof (size_nat n ltac:(lia)).
  unfold rx_inv. split_and!; try done; try lia.
  - cbn [rx_info rx_q set_rx_slot set_rx_desc set_rx_q map_page k_pages k_maps]. by rewrite length_insert.
  - cbn [rx_info rx_q set_rx_slot set_rx_desc set_rx_q map_page k_pages k_maps]. intros j' i' Hj' Hi'. destruct (decide (j' = j)) as [->|Hne]; [exists p; split; [lia|done]|].
    rewrite list_lookup_insert_ne in Hj' by done. destruct (H8 _ _ Hj' Hi') as (x & Hx & ->).
    exists x. split; [lia|done].
  - cbn [rx_info rx_q set_rx_slot set_rx_desc set_rx_q map_page k_pages k_maps]. eapply info_filled; try done. unfold info_page. by rewrite Hpage.
  - cbn [rx_info rx_q set_rx_slot set_rx_desc set_rx_q map_page k_pages k_maps]. eapply info_filled; try done. unfold info_map. by rewrite Hpage.
Qed.

(** The slot at the producer pointer of a ring that is not full is empty. *)
Lemma rx_inv_free_slot n P M c p r k :
  rx_inv n P M c p r k -> (p < c + Z.to_nat (2 ^ n))%nat ->
  exists i, rx_info r !! (p mod Z.to_nat (2 ^ n))%nat = Some i /\ ri_page i = None.
Proof.
  intros (H1 & H2 & H3 & H4 & H5 & H6 & H7 & H8 & _) Hlt. pose proof (size_nat n ltac:(lia)).
  destruct (lookup_lt_is_Some_2 (rx_info r) (p mod Z.to_nat (2 ^ n))) as [i Hi];
    [rewrite H7; apply Nat.mod_upper_bound; lia|].
  exists i. split; [done|]. destruct (ri_page i) eqn:E; [|done].
  destruct (H8 _ _ Hi) as (x & Hx & Ex); [by rewrite E|].
  assert (p = x); [|lia]. eapply (mod_inj_lap _ _ c); [..|exact Ex]; lia.
Qed.

Lemma rx_slot_index n P M c p r k :
  rx_inv n P M c p r k ->
  Z.to_nat (Z.land (q_prod_ptr (rx_q r)) (q_size_mask (rx_q r))) = (p mod Z.to_nat (2 ^ n))%nat /\
  Z.to_nat (Z.land (q_cons_ptr (rx_q r)) (q_size_mask (rx_q r))) = (c mod Z.to_nat (2 ^ n))%nat.
Proof.
  intros (H1 & H2 & H3 & H4 & H5 & _). rewrite H3, H4, H5. split; by apply ring_index.
Qed.

(** ** Refilling *)

Lemma prepare_inv n P M c p answer r k :
  rx_inv n P M c p r k -> (p < c + Z.to_nat (2 ^ n))%nat ->
  exists ret r' k', mqnic_prepare_rx_desc answer (p mod Z.to_nat (2 ^ n))%nat r k = Some (ret, r', k') /\
    (ret <> 0 -> r' = r /\ k' = tick k) /\
    (ret = 0 -> q_prod_ptr (rx_q r') = q_prod_ptr (rx_q r) /\
       rx_inv n P M c (S p) (set_rx_q (set_q_prod (u32 (Z.of_nat (S p))) (rx_q r')) r') k').
Proof.
  intros Hinv Hlt. destruct (rx_inv_free_slot _ _ _ _ _ _ _ Hinv Hlt) as (i & Hi & Hpage).
  unfold mqnic_prepare_rx_desc. rewrite Hi, Hpage. destruct (answer (k_tick k)) as [|page|page dma].
  - do 3 eexists. split; [reflexivity|]. split; [done|]. unfold ENOMEM. lia.
  - do 3 eexists. split; [reflexivity|]. split; [done|]. lia.
  - do 3 eexists. split; [reflexivity|]. split; [done|]. intros _. split; [done|].
    eapply rx_inv_put; done.
Qed.

(** What only opening and closing change. *)
Definition rx_fixed (r : rx_ring) :=
  (q_buf (rx_q r), q_buf_dma_addr (rx_q r), q_buf_size (rx_q r), q_index (rx_q r), q_hw_addr (rx_q r), rx_priv r, rx_cq r, q_enabled (rx_q r)).

Definition k_log (k : kmem) := (k_syncs k, k_skbs k).

Lemma prepare_frame answer j r k ret r' k' :
  mqnic_prepare_rx_desc answer j r k = Some (ret, r', k') -> rx_fixed r' = rx_fixed r /\ k_log k' = k_log k.
Proof. unfold mqnic_prepare_rx_desc. intros E. repeat case_match; simplify_eq; done. Qed.

Lemma refill_loop_inv n P M c answer missing p r k :
  rx_inv n P M c p r k -> (p + missing <= c + Z.to_nat (2 ^ n))%nat ->
  exists ret r' k' m, refill_loop answer missing r k = Some (ret, r', k') /\ (m <= missing)%nat /\
    rx_inv n P M c (p + m) r' k' /\ (ret = 0 -> m = missing) /\ rx_fixed r' = rx_fixed r /\ k_log k' = k_log k.
Proof.
  revert p r k. induction missing as [|missing IH]; intros p r k Hinv Hm; cbn [refill_loop].
  { exists 0, r, k, 0%nat. rewrite Nat.add_0_r. by split_and!. }
  rewrite (proj1 (rx_slot_index _ _ _ _ _ _ _ Hinv)).
  destruct (prepare_inv _ _ _ _ _ answer _ _ Hinv) as (ret & r1 & k1 & E & Hfail & Hok); [lia|]. rewrite E.
  destruct (prepare_frame _ _ _ _ _ _ _ E) as [Hf1 Hk1].
  destruct (Z.eqb_spec ret 0) as [->|Hne]; cbn [negb].
  - destruct (Hok eq_refl) as [Hp Hinv1].
    assert (u32 (q_prod_ptr (rx_q r1) + 1) = u32 (Z.of_nat (S p))) as ->.
    { rewrite Hp. destruct Hinv as (_ & _ & _ & _ & -> & _). apply u32_succ. }
    destruct (IH (S p) _ _ Hinv1) as (ret & r2 & k2 & m & E2 & Hle & Hinv2 & Hret & Hf & Hk); [lia|].
    exists ret, r2, k2, (S m). rewrite E2, <- Nat.add_succ_comm.
    split_and!; try done; [lia|intros Hz; rewrite Hret by done; done|by rewrite Hf, <- Hf1|by rewrite Hk].
  - destruct (Hfail Hne) as [-> ->]. exists ret, r, (tick k), 0%nat. rewrite Nat.add_0_r.
    split_and!; try done. lia.
Qed.

Lemma refill_inv {hw} `{!Mmio hw} n P M c p answer r k (w : qworld hw) :
  rx_inv n P M c p r k ->
  exists ret r' k' w' p', mqnic_refill_rx_buffers answer r k w = Some (ret, r', k', w') /\
    rx_inv n P M c p' r' k' /\ rx_fixed r' = rx_fixed r /\ k_log k' = k_log k /\
    (ret = 0 -> (c + Z.to_nat (2 ^ n) - p' < 8)%nat) /\
    (w' = w \/ w' = mqnic_rx_write_prod_ptr r' w).
Proof.
  intros Hinv. pose proof Hinv as (Hn & Hs & _ & Hc & Hp & Hcp & _).
  assert (u32 (q_size (rx_q r) - u32 (q_prod_ptr (rx_q r) - q_cons_ptr (rx_q r)))
          = Z.of_nat (c + Z.to_nat (2 ^ n) - p)) as Hmiss.
  { rewrite Hs, Hc, Hp. assert (2 ^ n <= 2 ^ 31) by (apply Z.pow_le_mono_r; lia).
    assert (0 < 2 ^ n) by (apply Z.pow_pos_nonneg; lia).
    assert (u32 (u32 (Z.of_nat p) - u32 (Z.of_nat c)) = Z.of_nat (p - c)) as ->.
    { unfold u32. rewrite <- Zminus_mod, Z.mod_small; lia. }
    rewrite u32_id; lia. }
  unfold mqnic_refill_rx_buffers. rewrite Hmiss.
  destruct (Z.ltb_spec (Z.of_nat (c + Z.to_nat (2 ^ n) - p)) 8).
  - exists 0, r, k, w, p. split_and!; try done; [lia|by left].
  - rewrite Nat2Z.id. destruct (refill_loop_inv _ _ _ _ answer (c + Z.to_nat (2 ^ n) - p) _ _ _ Hinv)
      as (ret & r' & k' & m & -> & Hle & Hinv' & Hret & Hf & Hk); [lia|].
    do 4 eexists. exists (p + m)%nat. split; [reflexivity|]. split_and!; try done; [|by right].
    intros Hz. rewrite Hret by done. lia.
Qed.

(** ** Freeing *)

(** Pointers less than a lap apart stay apart at 32 bits. *)
Lemma u32_ptr_neq n (c p : nat) :
  0 <= n < 32 -> (c < p <= c + Z.to_nat (2 ^ n))%nat -> u32 (Z.of_nat c) <> u32 (Z.of_nat p).
Proof.
  intros Hn Hcp E. assert (2 ^ n <= 2 ^ 31) by (apply Z.pow_le_mono_r; lia).
  assert ((Z.of_nat p - Z.of_nat c) mod 2 ^ 32 = 0) as H0
    by (unfold u32 in E; rewrite Zminus_mod, E, Z.sub_diag; done).
  rewrite Z.mod_small in H0; lia.
Qed.

Lemma rx_slot_some n P M c p r k x :
  rx_inv n P M c p r k -> is_Some (rx_info r !! (x mod Z.to_nat (2 ^ n))%nat).
Proof.
  intros (Hn & _ & _ & _ & _ & _ & Hl & _). pose proof (size_nat n ltac:(lia)).
  apply lookup_lt_is_Some_2. rewrite Hl. apply Nat.mod_upper_bound. lia.
Qed.

(** The consumer pointer passes an empty slot. *)
Lemma rx_inv_skip n P M c p r k i :
  rx_inv n P M c p r k -> (c < p)%nat -> rx_info r !! (c mod Z.to_nat (2 ^ n))%nat = Some i -> ri_page i = None ->
  rx_inv n P M (S c) p (set_rx_q (set_q_cons (u32 (Z.of_nat (S c))) (rx_q r)) r) k.
Proof.
  intros (H1 & H2 & H3 & H4 & H5 & H6 & H7 & H8 & HP & HM) Hlt Hi Hpage.
  unfold rx_inv. split_and!; try done; try lia.
  intros j i' Hj Hi'. cbn [rx_info set_rx_q] in Hj. destruct (H8 j i' Hj Hi') as (x & Hx & ->). exists x. split; [|done].
  assert (x <> c); [|lia]. intros ->. rewrite Hi in Hj. simplify_eq. rewrite Hpage in Hi'. by destruct Hi'.
Qed.

Lemma free_rx_desc_inv n P M c p r k j :
  rx_inv n P M c p r k -> is_Some (rx_info r !! j) ->
  exists r' k' i, mqnic_free_rx_desc j r k = Some (r', k') /\ rx_inv n P M c p r' k' /\
    rx_info r' !! j = Some i /\ ri_page i = None /\ rx_q r' = rx_q r /\ rx_fixed r' = rx_fixed r /\ k_log k' = k_log k.
Proof.
  intros Hinv [i Hi]. unfold mqnic_free_rx_desc. rewrite Hi.
  destruct (ri_page i) as [page|] eqn:Hp; [|exists r, k, i; by split_and!].
  destruct (rx_inv_take _ _ _ _ _ _ _ j i (ri_page_order i) (ri_page_offset i) 0 (ri_len i) Hinv Hi)
    as (page' & pages & maps & Hp' & Ep & Em & Hinv'); [by rewrite Hp|]. simplify_eq.
  unfold dma_unmap_page, free_pages. rewrite Em. cbn [k_pages k_maps]. rewrite Ep.
  do 3 eexists. split; [reflexivity|]. split; [exact Hinv'|].
  split; [apply list_lookup_insert_eq; by eapply lookup_lt_Some|]. done.
Qed.

Lemma free_rx_loop_inv n P M p fuel c r k cnt :
  rx_inv n P M c p r k -> (p - c < fuel)%nat ->
  exists r' k', free_rx_loop fuel r k cnt = Some (cnt + Z.of_nat (p - c), r', k') /\
    rx_inv n P M p p r' k' /\ rx_fixed r' = rx_fixed r /\ k_log k' = k_log k.
Proof.
  remember (p - c)%nat as d eqn:Hd. revert fuel c r k cnt Hd.
  induction d as [|d IH]; intros fuel c r k cnt Hd Hinv Hf; (destruct fuel as [|fuel]; [lia|]); cbn [free_rx_loop];
    pose proof Hinv as (Hn & Hs & _ & Hc & Hp & Hcp & _); unfold mqnic_is_rx_ring_empty; rewrite Hc, Hp.
  - assert (c = p) as -> by lia. rewrite Z.eqb_refl. exists r, k. rewrite Z.add_0_r. done.
  - rewrite (proj2 (Z.eqb_neq _ _)) by (apply not_eq_sym, (u32_ptr_neq n); lia).
    rewrite <- Hc, (proj2 (rx_slot_index _ _ _ _ _ _ _ Hinv)).
    destruct (free_rx_desc_inv _ _ _ _ _ _ _ (c mod Z.to_nat (2 ^ n)) Hinv (rx_slot_some _ _ _ _ _ _ _ c Hinv))
      as (r1 & k1 & i & -> & Hinv1 & Hi & Hpage & Hq & Hf1 & Hk1).
    pose proof (rx_inv_skip _ _ _ _ _ _ _ i Hinv1 ltac:(lia) Hi Hpage) as Hinv2.
    rewrite Hq, Hc, u32_succ. rewrite Hq in Hinv2.
    destruct (IH fuel (S c) _ k1 (cnt + 1) ltac:(lia) Hinv2 ltac:(lia)) as (r2 & k2 & -> & Hinv3 & Hf2 & Hk2).
    exists r2, k2. split; [do 3 f_equal; lia|]. split; [done|].
    split; [rewrite Hf2, <- Hf1; unfold rx_fixed; cbn; by rewrite Hq|by rewrite Hk2].
Qed.

Lemma rx_empty_pages n P M p r k :
  rx_inv n P M p p r k -> k_pages k ≡ₚ P /\ k_maps k ≡ₚ M.
Proof.
  intros (_ & _ & _ & _ & _ & _ & _ & Hslot & HP & HM).
  assert (forall i, i ∈ rx_info r -> ri_page i = None) as Hnone.
  { intros i (j & Hj)%list_elem_of_lookup. destruct (ri_page i) eqn:E; [|done].
    destruct (Hslot j i Hj) as (x & Hx & _); [by rewrite E|lia]. }
  assert (forall f : mqnic_rx_info -> option (Z * Z), (forall i, ri_page i = None -> f i = None) ->
            omap f (rx_info r) = []) as Hom.
  { intros f Hf. clear -Hnone Hf. induction (rx_info r) as [|i l IH]; [done|]. cbn [omap list_omap].
    rewrite Hf by (apply Hnone; by left). apply IH. intros; apply Hnone. by right. }
  rewrite !Hom in * by (unfold info_page, info_map; intros i ->; done). done.
Qed.

(** ** Processing completions *)

Lemma dma_free_steps k dma len page order pages maps skb :
  remove_one (dma, len) (k_maps k) = Some maps -> remove_one (page, order) (k_pages k) = Some pages ->
  skb_page skb = page ->
  exists k', dma_unmap_page dma len k = Some k' /\
    hand_over order skb (dma_sync 0 k')
    = Some (mk_kmem pages maps (k_tick k) (k_syncs k ++ [0]) (k_skbs k ++ [skb])).
Proof.
  intros Em Ep Hs. unfold dma_unmap_page. rewrite Em. eexists. split; [reflexivity|].
  unfold hand_over. cbn [dma_sync k_pages]. by rewrite Hs, Ep.
Qed.

Section Process.
Context {hw : Type} `{!Mmio hw}.

Lemma read_cpl_ts_frame phc r cpl (w : qworld hw) t r' w' :
  rx_read_cpl_ts phc r cpl w = (t, r', w') ->
  rx_q r' = rx_q r /\ rx_info r' = rx_info r /\ rx_fixed r' = rx_fixed r.
Proof.
  unfold rx_read_cpl_ts, mqnic_read_cpl_ts. intros E. repeat case_match; simplify_eq; done.
Qed.

(** The completion queue the driver reads: any contents, a power of two of
    entries. *)
Definition cq_geometry (m : Z) (cq : mqnic_cq) : Prop :=
  0 <= m < 32 /\ q_size (cq_q cq) = 2 ^ m /\ q_size_mask (cq_q cq) = 2 ^ m - 1 /\
  length (cq_cpls cq) = Z.to_nat (2 ^ m) /\ Forall (fun x => 0 <= cpl_index x) (cq_cpls cq).

Lemma cq_entry m cq x : cq_geometry m cq ->
  exists cpl, cq_cpls cq !! Z.to_nat (Z.land (u32 (Z.of_nat x)) (q_size_mask (cq_q cq))) = Some cpl /\ 0 <= cpl_index cpl.
Proof.
  intros (Hm & Hs & Hk & Hl & Hf). rewrite Hk, ring_index by done. pose proof (size_nat m ltac:(lia)).
  destruct (lookup_lt_is_Some_2 (cq_cpls cq) (x mod Z.to_nat (2 ^ m))) as [e He];
    [rewrite Hl; apply Nat.mod_upper_bound; lia|].
  exists e. split; [done|]. by apply (Forall_lookup_1 _ _ _ _ Hf He).
Qed.

(** A turn of the loop that hands a packet over. *)
Lemma rx_cq_step n P M env budget cq ptr c p done r k (w : qworld hw) cpl i page :
  rx_inv n P M c p r k ->
  cq_cpls cq !! Z.to_nat (Z.land ptr (q_size_mask (cq_q cq))) = Some cpl ->
  eqb (phase_bit (cpl_phase cpl)) (lap_bit ptr (q_size (cq_q cq))) = false ->
  let j := Z.to_nat (Z.land (cpl_index cpl) (q_size_mask (rx_q r))) in
  rx_info r !! j = Some i -> ri_page i = Some page -> re_skb_ok env done = true ->
  exists r' k' w' skb, rx_cq_loop env (S budget) cq ptr done r k w
    = rx_cq_loop env budget cq (u32 (ptr + 1)) (S done) r' k' w' /\
    rx_inv n P M c p r' k' /\ rx_fixed r' = rx_fixed r /\ q_size_mask (rx_q r') = q_size_mask (rx_q r) /\
    (exists i', rx_info r' = <[j := i']> (rx_info r)) /\
    k_skbs k' = k_skbs k ++ [skb] /\ k_syncs k' = k_syncs k ++ [0] /\
    (skb_page skb, skb_off skb, skb_len skb) = (page, ri_page_offset i, Z.min (cpl_len cpl) (ri_len i)).
Proof.
  intros Hinv Hcpl Hrdy j Hi Hpage Hskb. cbn [rx_cq_loop]. rewrite Hcpl, Hrdy. fold j. rewrite Hi, Hpage, Hskb.
  cbn [negb]. set (pre := if re_ptp_ts env then _ else _).
  assert (exists ts r1 w1, pre = (ts, r1, w1) /\ rx_q r1 = rx_q r /\ rx_info r1 = rx_info r /\ rx_fixed r1 = rx_fixed r)
    as (ts & r1 & w1 & -> & Hq1 & Hi1 & Hf1).
  { unfold pre. destruct (re_ptp_ts env); [|by do 3 eexists].
    destruct (rx_read_cpl_ts _ _ _ _) as [[t r1] w1] eqn:E. apply read_cpl_ts_frame in E. by do 3 eexists. }
  assert (rx_inv n P M c p r1 k) as Hinv1 by (by eapply rx_inv_ext).
  destruct (rx_inv_take _ _ _ _ _ _ _ j i (ri_page_order i) (ri_page_offset i) 0 (ri_len i) Hinv1)
    as (page' & pages & maps & Hp' & Ep & Em & Hinv2); [by rewrite Hi1|by rewrite Hpage|].
  rewrite Hpage in Hp'. injection Hp' as <-.
  cbn [ri_dma_addr ri_len ri_page_order ri_page_offset ri_page].
  set (skb := mk_skb _ _ _ _ _ _ _).
  destruct (dma_free_steps k _ _ _ _ pages maps skb Em Ep eq_refl) as (k1 & -> & ->).
  do 3 eexists. exists skb. split; [reflexivity|].
  split; [by eapply rx_inv_ext; [..|exact Hinv2]|]. split; [exact Hf1|].
  split; [cbn; by rewrite Hq1|]. split; [|done]. eexists. cbn [rx_info count_rx set_rx_slot]. by rewrite Hi1.
Qed.

Lemma rx_cq_loop_inv n m P M env budget cq x c p done r k (w : qworld hw) :
  cq_geometry m cq -> rx_inv n P M c p r k ->
  exists d r' k' w' skbs, rx_cq_loop env budget cq (u32 (Z.of_nat x)) done r k w
    = Some ((done + d)%nat, u32 (Z.of_nat (x + d)), r', k', w') /\ (d <= budget)%nat /\
    rx_inv n P M c p r' k' /\ rx_fixed r' = rx_fixed r /\
    k_skbs k' = k_skbs k ++ skbs /\ length skbs = d /\ k_syncs k' = k_syncs k ++ replicate d 0.
Proof.
  intros Hg. revert x done r k w. induction budget as [|budget IH]; intros x done r k w Hinv.
  { exists 0%nat, r, k, w, []. rewrite !Nat.add_0_r, !app_nil_r. by split_and!. }
  destruct (cq_entry m cq x Hg) as (cpl & Hcpl & Hidx).
  assert (exists d r' k' w' skbs, Some (done, u32 (Z.of_nat x), r, k, w)
    = Some ((done + d)%nat, u32 (Z.of_nat (x + d)), r', k', w') /\ (d <= S budget)%nat /\
    rx_inv n P M c p r' k' /\ rx_fixed r' = rx_fixed r /\
    k_skbs k' = k_skbs k ++ skbs /\ length skbs = d /\ k_syncs k' = k_syncs k ++ replicate d 0) as Hstop.
  { exists 0%nat, r, k, w, []. rewrite !Nat.add_0_r, !app_nil_r. split_and!; try done. lia. }
  destruct (eqb (phase_bit (cpl_phase cpl)) (lap_bit (u32 (Z.of_nat x)) (q_size (cq_q cq)))) eqn:Hrdy;
    [cbn [rx_cq_loop]; by rewrite Hcpl, Hrdy|].
  pose proof Hinv as (Hn & _ & Hmask & _ & _ & _ & Hl & _).
  destruct (lookup_lt_is_Some_2 (rx_info r) (Z.to_nat (Z.land (cpl_index cpl) (q_size_mask (rx_q r))))) as [i Hi].
  { rewrite Hl, Hmask. replace (2 ^ n - 1) with (Z.ones n) by (rewrite Z.ones_equiv; lia).
    rewrite Z.land_ones by lia. assert (0 < 2 ^ n) by (apply Z.pow_pos_nonneg; lia).
    pose proof (Z.mod_pos_bound (cpl_index cpl) (2 ^ n)). lia. }
  destruct (ri_page i) as [page|] eqn:Hpage; [|cbn [rx_cq_loop]; by rewrite Hcpl, Hrdy, Hi, Hpage].
  destruct (re_skb_ok env done) eqn:Hskb; [|cbn [rx_cq_loop]; by rewrite Hcpl, Hrdy, Hi, Hpage, Hskb].
  destruct (rx_cq_step n P M env budget cq _ c p done r k w cpl i page Hinv Hcpl Hrdy Hi Hpage Hskb)
    as (r2 & k2 & w1 & skb & -> & Hinv3 & Hf2 & _ & _ & Hk2 & Hs2 & _).
  rewrite u32_succ.
  destruct (IH (S x) (S done) r2 k2 w1 Hinv3) as (d & r' & k' & w' & skbs & E & Hd & Hinv' & Hf' & Hk' & Hls & Hsy).
  exists (S d), r', k', w', (skb :: skbs). rewrite E. split_and!; try done.
  - by rewrite <- !Nat.add_succ_comm.
  - lia.
  - by rewrite Hf'.
  - by rewrite Hk', Hk2, <- app_assoc.
  - simpl. lia.
  - by rewrite Hsy, Hs2, <- app_assoc.
Qed.

(** The consumer pointer stops at the first descriptor still in use. *)
Lemma rx_ring_loop_inv n P M fuel p c r k :
  rx_inv n P M c p r k -> (p - c < fuel)%nat ->
  exists c', rx_ring_loop fuel r (u32 (Z.of_nat c)) = Some (u32 (Z.of_nat c')) /\ (c <= c' <= p)%nat /\
    rx_inv n P M c' p (set_rx_q (set_q_cons (u32 (Z.of_nat c')) (rx_q r)) r) k /\
    (c' = p \/ exists i, rx_info r !! (c' mod Z.to_nat (2 ^ n))%nat = Some i /\ is_Some (ri_page i)).
Proof.
  remember (p - c)%nat as d eqn:Hd. revert fuel c r Hd.
  induction d as [|d IH]; intros fuel c r Hd Hinv Hf; (destruct fuel as [|fuel]; [lia|]); cbn [rx_ring_loop];
    pose proof Hinv as (Hn & Hs & Hm & Hc & Hp & Hcp & _); rewrite Hp.
  - assert (c = p) as -> by lia. rewrite Z.eqb_refl. exists p. split_and!; try done; [|by left].
    destruct r as [q]. cbn in Hc. rewrite <- Hc. by destruct q.
  - rewrite (proj2 (Z.eqb_neq _ _)) by (apply (u32_ptr_neq n); lia).
    rewrite Hm, ring_index by done.
    destruct (rx_slot_some _ _ _ _ _ _ _ c Hinv) as [i Hi]. rewrite Hi.
    destruct (ri_page i) as [page|] eqn:Hpage.
    + exists c. split; [done|]. split; [lia|]. split; [|right; exists i; by rewrite Hpage].
      destruct r as [q]. cbn in Hc. rewrite <- Hc. by destruct q.
    + pose proof (rx_inv_skip _ _ _ _ _ _ _ i Hinv ltac:(lia) Hi Hpage) as Hinv1. rewrite u32_succ.
      destruct (IH fuel (S c) _ ltac:(lia) Hinv1 ltac:(lia)) as (c' & E & Hle & Hinv2 & Hstop).
      exists c'. split; [|split; [lia|split; [exact Hinv2|exact Hstop]]].
      rewrite <- E. clear. generalize (u32 (Z.of_nat (S c))) at 1 3. revert c.
      induction fuel as [|fuel IH]; intros c z; [done|]. cbn [rx_ring_loop rx_q set_rx_q set_q_cons q_prod_ptr q_size_mask rx_info].
      destruct (z =? _); [done|]. destruct (rx_info r !! _) as [i|]; [|done]. destruct (ri_page i); [done|]. apply IH.
Qed.

Lemma mqnic_process_rx_cq_ok n m P M env answer cq x budget c p r k (w : qworld hw) :
  cq_geometry m cq -> q_cons_ptr (cq_q cq) = u32 (Z.of_nat x) -> rx_inv n P M c p r k ->
  exists d cq' r' k' w' c' p' skbs, mqnic_process_rx_cq env answer cq budget r k w = Some (d, cq', r', k', w') /\
    (d <= budget)%nat /\ cq_geometry m cq' /\ q_cons_ptr (cq_q cq') = u32 (Z.of_nat (x + d)) /\
    (c <= c')%nat /\ rx_inv n P M c' p' r' k' /\ rx_fixed r' = rx_fixed r /\
    k_skbs k' = k_skbs k ++ skbs /\ length skbs = d /\ k_syncs k' = k_syncs k ++ replicate d 0.
Proof.
  intros Hg Hx Hinv. unfold mqnic_process_rx_cq. destruct (_ || _).
  { exists 0%nat, cq, r, k, w, c, p, []. rewrite !Nat.add_0_r, !app_nil_r. split_and!; try done; lia. }
  rewrite Hx. destruct (rx_cq_loop_inv n m P M env budget cq x c p 0 r k w Hg Hinv)
    as (d & r1 & k1 & w1 & skbs & -> & Hd & Hinv1 & Hf1 & Hk1 & Hl & Hs1). cbn [Nat.add].
  pose proof Hinv1 as (Hn & Hsz & _ & Hc & _ & Hcp & _). rewrite Hc.
  destruct (rx_ring_loop_inv n P M (S (Z.to_nat (q_size (rx_q r1)))) p c r1 k1 Hinv1) as (c' & -> & Hle & Hinv2 & _);
    [rewrite Hsz; lia|].
  set (w2 := mqnic_cq_write_cons_ptr _ _).
  destruct (refill_inv _ _ _ _ _ answer _ _ w2 Hinv2)
    as (ret & r3 & k3 & w3 & p' & -> & Hinv3 & Hf3 & Hk3 & _).
  do 5 eexists. exists c', p', skbs. split; [reflexivity|].
  unfold k_log in Hk3. injection Hk3 as Hk3s Hk3k.
  split_and!; try done; try lia; try (destruct Hg as (?&?&?&?&?); done).
  - by rewrite Hf3, <- Hf1.
  - by rewrite Hk3k.
  - by rewrite Hk3s.
Qed.

(** *** Delivery in order *)

(** The packet for a completion, from the descriptor it names. *)
Definition skb_for (r : rx_ring) (cpl : mqnic_cpl) : option (Z * Z * Z) :=
  i ← rx_info r !! Z.to_nat (Z.land (cpl_index cpl) (q_size_mask (rx_q r)));
  page ← ri_page i;
  Some (page, ri_page_offset i, Z.min (cpl_len cpl) (ri_len i)).

Definition skb_triple (s : sk_buff) : Z * Z * Z := (skb_page s, skb_off s, skb_len s).

Definition cpl_slot (r : rx_ring) (cpl : mqnic_cpl) : nat :=
  Z.to_nat (Z.land (cpl_index cpl) (q_size_mask (rx_q r))).

Lemma skb_for_other r r' cpl j i' :
  q_size_mask (rx_q r') = q_size_mask (rx_q r) -> rx_info r' = <[j := i']> (rx_info r) -> cpl_slot r cpl <> j ->
  skb_for r' cpl = skb_for r cpl.
Proof.
  intros Hm Hi Hne. unfold skb_for. rewrite Hm, Hi. unfold cpl_slot in Hne. by rewrite list_lookup_insert_ne.
Qed.

Lemma rx_cq_loop_delivers n m P M env ev t y budget cq x c p done r k (w : qworld hw) :
  0 <= m < 32 -> q_size (cq_q cq) = 2 ^ m -> q_size_mask (cq_q cq) = 2 ^ m - 1 ->
  ring_view cpl_phase m (cq_cpls cq) ev x y -> rx_inv n P M c p r k ->
  (forall d, re_skb_ok env d = true) ->
  (forall z, (x <= z < y)%nat -> skb_for r (ev z) = Some (t z)) ->
  (forall z z', (x <= z < y)%nat -> (x <= z' < y)%nat -> cpl_slot r (ev z) = cpl_slot r (ev z') -> z = z') ->
  let d := min budget (y - x) in
  exists r' k' w' skbs, rx_cq_loop env budget cq (u32 (Z.of_nat x)) done r k w
    = Some ((done + d)%nat, u32 (Z.of_nat (x + d)), r', k', w') /\
    k_skbs k' = k_skbs k ++ skbs /\ skb_triple <$> skbs = t <$> seq x d.
Proof.
  intros Hm Hs Hk Hv. revert x done r k w Hv. induction budget as [|budget IH]; intros x done r k w Hv Hinv Hok Ht Hinj.
  { exists r, k, w, []. rewrite Nat.min_0_l, !Nat.add_0_r, app_nil_r. done. }
  destruct (ring_view_entry cpl_phase m _ _ _ _ Hv) as (cpl & Hcpl & Hrdy & Hev).
  unfold entry_ready in Hrdy. rewrite <- Hk, <- Hs in *. pose proof (proj1 (proj2 (proj2 Hv))) as Hxy.
  destruct (decide (x < y)%nat) as [Hlt|Hge].
  - rewrite bool_decide_eq_true_2 in Hrdy by done. apply negb_true_iff in Hrdy. specialize (Hev Hlt). subst cpl.
    pose proof (Ht x ltac:(lia)) as Htx. unfold skb_for in Htx.
    destruct (rx_info r !! _) as [i|] eqn:Hi; [|done]. cbn in Htx. destruct (ri_page i) as [page|] eqn:Hpage; [|done].
    cbn in Htx. injection Htx as Htx.
    destruct (rx_cq_step n P M env budget cq _ c p done r k w (ev x) i page Hinv Hcpl Hrdy Hi Hpage (Hok done))
      as (r2 & k2 & w1 & skb & -> & Hinv3 & _ & Hm2 & (i' & Hi2) & Hk2 & _ & Htr).
    rewrite u32_succ.
    destruct (IH (S x) (S done) r2 k2 w1) as (r' & k' & w' & skbs & E & Hk' & Hsk); try done.
    + by apply ring_view_consume.
    + intros z Hz. rewrite (skb_for_other r r2 (ev z) _ i' Hm2 Hi2); [apply Ht; lia|].
      intros Heq. assert (z = x); [|lia]. apply Hinj; [lia..|exact Heq].
    + intros z z' Hz Hz'. unfold cpl_slot. rewrite Hm2. intros Heq. apply Hinj; [lia..|exact Heq].
    + exists r', k', w', (skb :: skbs). replace (S budget `min` (y - x))%nat with (S (budget `min` (y - S x)))%nat by lia.
      rewrite E, !Nat.add_succ_comm. split; [done|]. split; [by rewrite Hk', Hk2, <- app_assoc|].
      cbn [fmap list_fmap seq]. f_equal; [|exact Hsk]. unfold skb_triple. by rewrite Htr, Htx.
  - rewrite bool_decide_eq_false_2 in Hrdy by done. apply negb_false_iff in Hrdy.
    cbn [rx_cq_loop]. rewrite Hcpl, Hrdy. replace (S budget `min` (y - x))%nat with 0%nat by lia.
    exists r, k, w, []. rewrite !Nat.add_0_r, app_nil_r. done.
Qed.
End Process.

(** ** Life of a ring *)

(** C6: the receive path neither loses nor reuses a page. Whatever the device
    writes into the completion queue, whatever the page allocator, the DMA
    API and the skb allocator answer, a call of [mqnic_process_rx_cq] ends,
    hands over at most [budget] packets, advances the consumer pointer of the
    completion queue by their number, and keeps the invariant: descriptors
    outside the window of the two pointers are empty, the live pages and DMA
    mappings are exactly those the descriptors hold, no page is freed or
    unmapped twice. Each packet's page is synchronised for the CPU at address
    0 only, because the descriptor's DMA address is cleared first. *)
Theorem mqnic_process_rx_cq_safe {hw} `{!Mmio hw} n m P M env answer cq x budget c p r k (w : qworld hw) :
  cq_geometry m cq -> q_cons_ptr (cq_q cq) = u32 (Z.of_nat x) -> rx_inv n P M c p r k ->
  exists d cq' r' k' w' c' p' skbs, mqnic_process_rx_cq env answer cq budget r k w = Some (d, cq', r', k', w') /\
    (d <= budget)%nat /\ q_cons_ptr (cq_q cq') = u32 (Z.of_nat (x + d)) /\
    (c <= c')%nat /\ rx_inv n P M c' p' r' k' /\
    k_skbs k' = k_skbs k ++ skbs /\ length skbs = d /\ k_syncs k' = k_syncs k ++ replicate d 0.
Proof.
  intros Hg Hx Hinv.
  destruct (mqnic_process_rx_cq_ok n m P M env answer cq x budget c p r k w Hg Hx Hinv)
    as (d & cq' & r' & k' & w' & c' & p' & skbs & E & H1 & _ & H2 & H3 & H4 & _ & H5 & H6 & H7).
  exists d, cq', r', k', w', c', p', skbs. by split_and!.
Qed.

(** Packets are delivered in order. When the device has completed
    descriptors [ev x .. ev (y - 1)] (each naming a different descriptor
    with a page) and skbs are available, one call hands over the first
    [min budget (y - x)] of them, in completion order, each with the page of
    its descriptor and the completed length, cut at the buffer's length. *)
Theorem mqnic_rx_delivers_in_order {hw} `{!Mmio hw} n m P M env answer ev t y budget cq x c p r k (w : qworld hw) :
  cq_geometry m cq -> q_cons_ptr (cq_q cq) = u32 (Z.of_nat x) -> rx_inv n P M c p r k ->
  rx_priv r = true -> re_port_up env = true -> (forall d, re_skb_ok env d = true) ->
  ring_view cpl_phase m (cq_cpls cq) ev x y ->
  (forall z, (x <= z < y)%nat -> skb_for r (ev z) = Some (t z)) ->
  (forall z z', (x <= z < y)%nat -> (x <= z' < y)%nat -> cpl_slot r (ev z) = cpl_slot r (ev z') -> z = z') ->
  let d := min budget (y - x) in
  exists cq' r' k' w' skbs, mqnic_process_rx_cq env answer cq budget r k w = Some (d, cq', r', k', w') /\
    k_skbs k' = k_skbs k ++ skbs /\ skb_triple <$> skbs = t <$> seq x d.
Proof.
  intros Hg Hx Hinv Hpriv Hup Hok Hv Ht Hinj d. pose proof Hg as (Hm & Hs & Hk & _).
  unfold mqnic_process_rx_cq. rewrite Hpriv, Hup, Hx. cbn [negb orb].
  destruct (rx_cq_loop_inv n m P M env budget cq x c p 0 r k w Hg Hinv)
    as (d0 & r1 & k1 & w1 & skbs0 & E0 & _ & Hinv1 & _).
  destruct (rx_cq_loop_delivers n m P M env ev t y budget cq x c p 0 r k w Hm Hs Hk Hv Hinv Hok Ht Hinj)
    as (r1' & k1' & w1' & skbs & E & Hk1 & Ht1).
  rewrite E0 in E. injection E as -> _ <- <- <-. rewrite E0. cbn [Nat.add].
  pose proof Hinv1 as (_ & Hsz & _ & Hc & _ & Hcp & _). rewrite Hc.
  destruct (rx_ring_loop_inv n P M (S (Z.to_nat (q_size (rx_q r1)))) p c r1 k1 Hinv1) as (c' & -> & _ & Hinv2 & _);
    [rewrite Hsz; lia|].
  set (w2 := mqnic_cq_write_cons_ptr _ _).
  destruct (refill_inv _ _ _ _ _ answer _ _ w2 Hinv2) as (ret & r3 & k3 & w3 & p' & -> & _ & _ & Hk3 & _).
  unfold k_log in Hk3. injection Hk3 as _ Hk3.
  do 4 eexists. exists skbs. split; [reflexivity|]. split; [by rewrite Hk3|done].
Qed.

(** *** Opening and closing *)

Lemma close_rx_opened {hw} `{!Mmio hw} n P M c p r cq k (w : qworld hw) rest b res :
  rx_inv n P M c p r k -> q_buf (rx_q r) = Some b ->
  remove_one (q_buf_size (rx_q r), b, q_buf_dma_addr (rx_q r)) (w_bufs w) = Some rest ->
  mqnic_res_free (q_index (rx_q r)) (w_rxq_res w) = Some res ->
  exists r' cq' k' w', mqnic_close_rx_ring r cq k w = Some (r', cq', k', w') /\
    queue_closed (rx_q r') /\ cq' = cq_detach (rx_cq r) cq /\ k_pages k' ≡ₚ P /\ k_maps k' ≡ₚ M /\ k_log k' = k_log k /\
    w_bufs w' = rest /\ w_rxq_res w' = res /\ w_eq_res w' = w_eq_res w /\ w_cq_res w' = w_cq_res w /\
    w_txq_res w' = w_txq_res w /\ w_chain w' = w_chain w.
Proof.
  intros Hinv Hb Hw Hres. unfold mqnic_close_rx_ring, mqnic_disable_rx_ring.
  set (w1 := write_ctrl _ _ _).
  assert (w_bufs w1 = w_bufs w /\ w_eq_res w1 = w_eq_res w /\ w_cq_res w1 = w_cq_res w /\
          w_txq_res w1 = w_txq_res w /\ w_rxq_res w1 = w_rxq_res w /\ w_chain w1 = w_chain w)
    as (E1 & E2 & E3 & E4 & E5 & E6) by (unfold w1, write_ctrl; by case_match).
  set (r1 := mk_rx_ring _ _ _ _ _ _ _ _ _ _ _ _).
  assert (rx_inv n P M c p r1 k) as Hinv1 by (destruct r as [[]]; exact Hinv).
  assert (q_buf (rx_q r1) = Some b) as Hb1 by (by destruct r as [[]]).
  rewrite Hb1. unfold mqnic_free_rx_buf. pose proof Hinv1 as (_ & Hsz & _ & _ & _ & Hcp & _).
  destruct (free_rx_loop_inv n P M p (S (Z.to_nat (q_size (rx_q r1)))) c r1 k 0 Hinv1) as (r2 & k2 & -> & Hinv2 & Hf2 & Hk2);
    [rewrite Hsz; lia|].
  destruct (rx_empty_pages _ _ _ _ _ _ Hinv2) as [HP HM].
  unfold rx_fixed in Hf2. injection Hf2 as F1 F2 F3 F4 F5 F6 F7 F8.
  cbn in F1, F2, F3, F4, F5, F8.
  unfold free_buf. rewrite F1, Hb, F2, F3, E1, Hw. cbn [q_index set_bufs w_rxq_res].
  rewrite E5, F4, Hres. do 4 eexists. split; [reflexivity|].
  unfold queue_closed, queue_busy. cbn. rewrite F5, F8, E2, E3, E4, E6. by split_and!.
Qed.

Lemma rx_inv_fresh n r k :
  0 <= n < 32 -> q_size (rx_q r) = 2 ^ n -> q_size_mask (rx_q r) = 2 ^ n - 1 ->
  q_cons_ptr (rx_q r) = 0 -> q_prod_ptr (rx_q r) = 0 -> rx_info r = replicate (Z.to_nat (2 ^ n)) rx_info_zero ->
  rx_inv n (k_pages k) (k_maps k) 0 0 r k.
Proof.
  intros Hn Hs Hm Hc Hp Hi. unfold rx_inv. rewrite Hi.
  assert (forall f : mqnic_rx_info -> option (Z * Z), f rx_info_zero = None ->
            omap f (replicate (Z.to_nat (2 ^ n)) rx_info_zero) = []) as Hom.
  { intros f Hf. clear -Hf. induction (Z.to_nat (2 ^ n)) as [|z IH]; [done|]. cbn. rewrite Hf. exact IH. }
  rewrite !Hom by done. split_and!; try done; try lia; [by rewrite length_replicate|].
  intros j i Hj Hsome. apply lookup_replicate in Hj as [-> _]. by destruct Hsome.
Qed.

(** The queue numbers, buffers and chain of a world, without the device. *)
Definition w_fixed {hw} (w : qworld hw) :=
  (w_eq_res w, w_cq_res w, w_txq_res w, w_rxq_res w, w_bufs w, w_chain w).

Lemma write_ctrl_fixed {hw} `{!Mmio hw} a v (w : qworld hw) : w_fixed (write_ctrl a v w) = w_fixed w.
Proof. by destruct a. Qed.

Lemma refill_fixed {hw} `{!Mmio hw} answer r k (w : qworld hw) ret r' k' w' :
  mqnic_refill_rx_buffers answer r k w = Some (ret, r', k', w') -> w_fixed w' = w_fixed w.
Proof.
  unfold mqnic_refill_rx_buffers. intros E. repeat case_match; simplify_eq; [done|]. apply write_ctrl_fixed.
Qed.

Lemma read_cpl_ts_fixed {hw} `{!Mmio hw} phc r cpl (w : qworld hw) t r' w' :
  rx_read_cpl_ts phc r cpl w = (t, r', w') -> w_fixed w' = w_fixed w.
Proof. unfold rx_read_cpl_ts, mqnic_read_cpl_ts. intros E. repeat case_match; simplify_eq; done. Qed.

Lemma rx_cq_loop_fixed {hw} `{!Mmio hw} env budget cq ptr done r k (w : qworld hw) d x r' k' w' :
  rx_cq_loop env budget cq ptr done r k w = Some (d, x, r', k', w') -> w_fixed w' = w_fixed w.
Proof.
  revert ptr done r k w. induction budget as [|budget IH]; intros ptr done r k w; cbn [rx_cq_loop];
    [intros E; by injection E as <- <- <- <- <-|].
  destruct (cq_cpls cq !! _) as [cpl|]; [|done]. destruct (eqb _ _); [intros E; by injection E as <- <- <- <- <-|].
  destruct (rx_info r !! _) as [i|]; [|done]. destruct (ri_page i); [|intros E; by injection E as <- <- <- <- <-].
  destruct (negb _); [intros E; by injection E as <- <- <- <- <-|].
  destruct (re_ptp_ts env).
  - destruct (rx_read_cpl_ts _ _ _ _) as [[t r1] w1] eqn:Ets. apply read_cpl_ts_fixed in Ets. rewrite <- Ets.
    destruct (dma_unmap_page _ _ _); [|done]. destruct (hand_over _ _ _); [|done]. apply IH.
  - destruct (dma_unmap_page _ _ _); [|done]. destruct (hand_over _ _ _); [|done]. apply IH.
Qed.

Lemma process_fixed {hw} `{!Mmio hw} env answer cq budget r k (w : qworld hw) d cq' r' k' w' :
  mqnic_process_rx_cq env answer cq budget r k w = Some (d, cq', r', k', w') -> w_fixed w' = w_fixed w.
Proof.
  unfold mqnic_process_rx_cq. intros E. destruct (_ || _); [by injection E as <- <- <- <- <-|].
  destruct (rx_cq_loop _ _ _ _ _ _ _ _) as [[[[[d1 x1] r1] k1] w1]|] eqn:E1; [|done].
  apply rx_cq_loop_fixed in E1. destruct (rx_ring_loop _ _ _); [|done].
  destruct (mqnic_refill_rx_buffers _ _ _ _) as [[[[ret r2] k2] w2]|] eqn:E2; [|done].
  apply refill_fixed in E2. injection E as <- <- <- <- <-. rewrite E2.
  unfold mqnic_cq_write_cons_ptr. by rewrite write_ctrl_fixed.
Qed.

(** The polls of an open ring: any completions, any answers. *)
Inductive rx_poll_step {hw} `{!Mmio hw} : relation (rx_ring * kmem * qworld hw) :=
| rx_poll_step_intro env answer cq m x budget d over cq' r k w r' k' w' :
    cq_geometry m cq -> q_cons_ptr (cq_q cq) = u32 (Z.of_nat x) ->
    mqnic_poll_rx_cq env answer cq budget r k w = Some (d, over, cq', r', k', w') ->
    rx_poll_step (r, k, w) (r', k', w').

Lemma rx_polls_inv {hw} `{!Mmio hw} n P M s s' :
  rtc (rx_poll_step (hw := hw)) s s' ->
  (exists c p, rx_inv n P M c p s.1.1 s.1.2) ->
  (exists c p, rx_inv n P M c p s'.1.1 s'.1.2) /\ rx_fixed s'.1.1 = rx_fixed s.1.1 /\ w_fixed s'.2 = w_fixed s.2.
Proof.
  intros Hr. induction Hr as [s|s s1 s' Hstep _ IH]; [done|]. intros (c & p & Hinv).
  destruct Hstep as [env answer cq m x budget d over cq' r k w r' k' w' Hg Hx E]. cbn [fst snd] in *.
  destruct (mqnic_process_rx_cq_ok n m P M env answer cq x budget c p r k w Hg Hx Hinv)
    as (d1 & cq1 & r1 & k1 & w1 & c1 & p1 & skbs & E1 & _ & _ & _ & _ & Hinv1 & Hf1 & _).
  pose proof (process_fixed _ _ _ _ _ _ _ _ _ _ _ _ E1) as Hw1.
  unfold mqnic_poll_rx_cq in E. rewrite E1 in E.
  assert (r' = r1 /\ k' = k1 /\ w_fixed w' = w_fixed w1) as (-> & -> & Hw').
  { destruct (d1 =? budget)%nat; injection E as <- <- <- <- <- <-; [done|].
    unfold mqnic_arm_cq. destruct (negb _); [done|]. by rewrite write_ctrl_fixed. }
  destruct IH as (Hi & Hf & Hw); [by eauto|]. split; [done|]. split; [by rewrite Hf|by rewrite Hw, Hw'].
Qed.

Lemma cq_detach_keeps ring_cq cq : cq_q (cq_detach ring_cq cq) = cq_q cq /\ cq_eq (cq_detach ring_cq cq) = cq_eq cq.
Proof. by destruct ring_cq. Qed.

(** Closing a ring whose buffer was never allocated. *)
Lemma close_rx_nobuf {hw} `{!Mmio hw} r cq k (w : qworld hw) res :
  q_buf (rx_q r) = None -> q_hw_addr (rx_q r) = None ->
  mqnic_res_free (q_index (rx_q r)) (w_rxq_res w) = Some res ->
  exists r', mqnic_close_rx_ring r cq k w = Some (r', cq_detach (rx_cq r) cq, k, set_rxq_res res w) /\ queue_closed (rx_q r').
Proof.
  intros Hb Hh Hres. unfold mqnic_close_rx_ring, mqnic_disable_rx_ring. rewrite Hh. cbn [write_ctrl].
  destruct r as [[]]; cbn in *. subst. cbn. rewrite Hres. eexists. split; [reflexivity|done].
Qed.

Lemma same_resources_rxq {hw} (w w' : qworld hw) :
  world_wf w -> w_bufs w' = w_bufs w -> w_chain w' = w_chain w -> w_eq_res w' = w_eq_res w ->
  w_cq_res w' = w_cq_res w -> w_txq_res w' = w_txq_res w -> same_use (w_rxq_res w) (w_rxq_res w') ->
  same_resources w w'.
Proof.
  intros (? & ? & ? & ?) Hb Hc He Hq Ht Hr. unfold same_resources. rewrite He, Hq, Ht.
  split_and!; try done; by apply same_use_refl.
Qed.

(** What closing needs of the world after an open. *)
Definition rx_opened {hw} (w : qworld hw) (r : rx_ring) (w' : qworld hw) : Prop :=
  exists buf, q_buf (rx_q r) = Some buf /\
    w_bufs w' = (q_buf_size (rx_q r), buf, q_buf_dma_addr (rx_q r)) :: w_bufs w /\
    mqnic_res_alloc (w_rxq_res w) = Some (q_index (rx_q r), w_rxq_res w') /\ 0 <= q_index (rx_q r) /\
    (w_eq_res w', w_cq_res w', w_txq_res w', w_chain w') = (w_eq_res w, w_cq_res w, w_txq_res w, w_chain w).

(** Closing a ring opened as [ring], at any later time. *)
Lemma rx_close_balanced {hw} `{!Mmio hw} n (w w2 : qworld hw) ring wo c p r cq k k2 :
  world_wf w -> rx_opened w ring wo -> rx_inv n (k_pages k) (k_maps k) c p r k2 -> rx_fixed r = rx_fixed ring -> w_fixed w2 = w_fixed wo ->
  exists r3 cq3 k3 w3, mqnic_close_rx_ring r cq k2 w2 = Some (r3, cq3, k3, w3) /\
    same_resources w w3 /\ k_pages k3 ≡ₚ k_pages k /\ k_maps k3 ≡ₚ k_maps k /\ queue_closed (rx_q r3) /\ cq3 = cq_detach (rx_cq r) cq.
Proof.
  intros Hwf (b & O1 & O2 & O3 & O4 & O5) Hinv Hf Hw. injection O5 as P1 P2 P3 P4.
  destruct (res_alloc_free _ _ _ ltac:(apply Hwf) O3 O4) as (_ & _ & _ & _ & res & O6 & O7).
  unfold rx_fixed in Hf. injection Hf as F1 F2 F3 F4 F5 F6 F7 F8. unfold w_fixed in Hw. injection Hw as W1 W2 W3 W4 W5 W6.
  destruct (close_rx_opened n (k_pages k) (k_maps k) c p r cq k2 w2 (w_bufs w) b res Hinv)
    as (r3 & cq3 & k3 & w3 & E3 & Hbusy & -> & HP & HM & _ & V1 & V2 & V3 & V4 & V5 & V6).
  - by rewrite F1.
  - rewrite W5, F2, F3, O2. apply remove_one_head.
  - by rewrite F4, W4.
  - eexists r3, _, k3, w3. split; [done|]. split; [|done]. apply same_resources_rxq; congruence.
Qed.

Lemma open_rx_ok {hw} `{!Mmio hw} me r c cq size block info_ok buf answer k (w : qworld hw) :
  world_wf w -> queue_busy (rx_q r) = false -> 0 < size <= 2 ^ 31 ->
  exists ret r' cq' k' w',
    mqnic_open_rx_ring me r true (Some c) cq size block info_ok buf answer k w = Some (ret, r', cq', k', w') /\
    (ret <> 0 -> same_resources w w' /\ k_pages k' ≡ₚ k_pages k /\ k_maps k' ≡ₚ k_maps k /\ queue_closed (rx_q r') /\
       cq_q cq' = cq_q cq /\ cq_eq cq' = cq_eq cq) /\
    (ret = 0 -> rx_opened w r' w' /\ rx_cq r' = Some c /\
       cq' = mk_cq (cq_q cq) (cq_cpls cq) (cq_eq cq) (Some me) (Some mqnic_rx_irq) /\
       exists n p, rx_inv n (k_pages k) (k_maps k) 0 p r' k').
Proof.
  intros Hwf Hb Hsz. pose proof Hwf as (Hw1 & Hw2 & Hw3 & Hw4). unfold mqnic_open_rx_ring. rewrite Hb. cbn [negb orb].
  destruct (mqnic_res_alloc_wf _ Hw4) as (i & res & Ei & _). rewrite Ei.
  apply orb_false_iff in Hb as [Hb Hb3]. apply orb_false_iff in Hb as [Hb1 Hb2].
  apply bool_decide_eq_false in Hb2, Hb3.
  assert (q_buf (rx_q r) = None) as Eb by (destruct (q_buf (rx_q r)); [by destruct Hb3|done]).
  assert (q_hw_addr (rx_q r) = None) as Eh by (destruct (q_hw_addr (rx_q r)); [by destruct Hb2|done]).
  destruct (Z.ltb_spec i 0) as [Hi|Hi].
  { destruct (res_alloc_fails _ _ _ Hw4 Ei Hi) as [-> ->]. do 5 eexists. split; [reflexivity|].
    split; [|done]. intros _. split; [by apply same_resources_rxq; try done; apply same_use_refl|].
    split; [done|]. split; [done|]. unfold queue_closed, queue_busy. cbn. by rewrite Hb1, Eb, Eh. }
  destruct (res_alloc_free _ _ _ Hw4 Ei Hi) as ([a Ha] & _ & _ & _ & res'' & Hf & Hsame).
  destruct (roundup_pow2 size Hsz) as (n & Hn & -> & Hle).
  set (q := queue_geometry _ _ _).
  destruct (queue_geometry_size n (rx_q (set_rx_q (set_q_index i (rx_q r)) r))
              (roundup_pow_of_two (MQNIC_DESC_SIZE * Z.shiftl 1 (log_block_size block))) Hn) as [Gs Gm].
  fold q in Gs, Gm.
  destruct info_ok; cbn [negb].
  2: { match goal with |- context [mqnic_close_rx_ring ?r1 ?c1 ?k1 ?w1] =>
         destruct (close_rx_nobuf r1 c1 k1 w1 res'' Eb Eh Hf) as (r' & -> & Hbusy) end.
       do 5 eexists. split; [reflexivity|]. split; [|done]. intros _.
       split; [by apply same_resources_rxq|]. do 3 (split; [done|]). apply cq_detach_keeps. }
  destruct buf as [[b dma]|].
  2: { match goal with |- context [mqnic_close_rx_ring ?r1 ?c1 ?k1 ?w1] =>
         destruct (close_rx_nobuf r1 c1 k1 w1 res'' Eb Eh Hf) as (r' & -> & Hbusy) end.
       do 5 eexists. split; [reflexivity|]. split; [|done]. intros _.
       split; [by apply same_resources_rxq|]. do 3 (split; [done|]). apply cq_detach_keeps. }
  cbn [set_bufs w_rxq_res set_rxq_res]. rewrite Ha.
  match goal with |- context [mqnic_refill_rx_buffers answer ?r1 k ?w1] => set (ring := r1); set (wo := w1) end.
  assert (rx_inv n (k_pages k) (k_maps k) 0 0 ring k) as Hinv0.
  { apply rx_inv_fresh; try done. cbn [ring rx_info]. by rewrite Gs. }
  destruct (refill_inv _ _ _ _ _ answer _ _ wo Hinv0) as (ret & r1 & k1 & w1 & p & E1 & Hinv1 & Hf1 & _).
  rewrite E1. apply refill_fixed in E1.
  assert (rx_opened w ring wo) as Hop by (exists b; by split_and!).
  destruct (Z.eqb_spec ret 0) as [->|Hne]; cbn [negb].
  - do 5 eexists. split; [reflexivity|]. split; [done|]. intros _. unfold rx_fixed in Hf1. injection Hf1 as F1 F2 F3 F4 F5 F6 F7 F8.
    unfold w_fixed in E1. injection E1 as W1 W2 W3 W4 W5 W6. unfold rx_opened in *. rewrite F1, F2, F3, F4, F7, W1, W2, W3, W4, W5, W6.
    split; [exact Hop|]. split; [done|]. split; [done|]. by eauto.
  - match goal with |- context [mqnic_close_rx_ring _ ?c1 _ _] =>
      destruct (rx_close_balanced n _ _ ring wo 0 p r1 c1 k k1 Hwf Hop Hinv1 Hf1 E1) as (r3 & cq3 & k3 & w3 & -> & H1 & H2 & H3 & H4 & ->) end.
    do 5 eexists. split; [reflexivity|]. split; [|done]. intros _. do 4 (split; [done|]).
    match goal with |- context [cq_detach ?a ?b] => exact (cq_detach_keeps a b) end.
Qed.

(** A receive ring gives everything back. If opening fails (no number, no
    memory for the descriptors, no buffer, or not enough pages for the first
    fill) every page, mapping, buffer and queue number is as before. If it
    succeeds, then after any sequence of polls, with any completions and any
    answers of the allocators, closing the ring frees all pages and mappings
    it holds, its buffer and its number. *)
Theorem mqnic_rx_ring_balanced {hw} `{!Mmio hw} me r c cq size block info_ok buf answer k (w : qworld hw) :
  world_wf w -> queue_busy (rx_q r) = false -> 0 < size <= 2 ^ 31 ->
  exists ret r' cq' k' w',
    mqnic_open_rx_ring me r true (Some c) cq size block info_ok buf answer k w = Some (ret, r', cq', k', w') /\
    (ret <> 0 -> same_resources w w' /\ k_pages k' ≡ₚ k_pages k /\ k_maps k' ≡ₚ k_maps k /\ queue_busy (rx_q r') = false) /\
    (ret = 0 -> forall r2 k2 w2 cq2, rtc rx_poll_step (r', k', w') (r2, k2, w2) ->
       exists r3 cq3 k3 w3, mqnic_close_rx_ring r2 cq2 k2 w2 = Some (r3, cq3, k3, w3) /\
         same_resources w w3 /\ k_pages k3 ≡ₚ k_pages k /\ k_maps k3 ≡ₚ k_maps k /\ queue_busy (rx_q r3) = false).
Proof.
  intros Hwf Hb Hsz. destruct (open_rx_ok me r c cq size block info_ok buf answer k w Hwf Hb Hsz)
    as (ret & r' & cq' & k' & w' & E & Hfail & Hok).
  do 5 eexists. split; [exact E|]. split.
  - intros Hret. destruct (Hfail Hret) as (H1 & H2 & H3 & [H4 _] & _). by split_and!.
  - intros Hret r2 k2 w2 cq2 Hpolls. destruct (Hok Hret) as (Hop & _ & _ & n & p & Hinv).
    destruct (rx_polls_inv n (k_pages k) (k_maps k) _ _ Hpolls) as ((c2 & p2 & Hinv2) & Hf2 & Hw2); [by eauto|].
    destruct (rx_close_balanced n w w2 r' w' c2 p2 r2 cq2 k k2 Hwf Hop Hinv2 Hf2 Hw2) as (r3 & cq3 & k3 & w3 & E3 & H1 & H2 & H3 & [H4 _] & _).
    exists r3, cq3, k3, w3. by split_and!.
Qed.

(** *** Examples *)

Definition cpl0 : mqnic_cpl := mk_cpl 0 100 0 0 0 0x80000000.

(** A ring of two descriptors, the first one filled; one completion for it. *)
Definition rx2 : rx_ring :=
  mk_rx_ring (mk_queue 1 0 2 1 16 32 (Some 0x8000) 0x7000 0 true (Some 0x4000))
    [mk_rx_info (Some 5) 0 0 0x9000 4096; rx_info_zero] [(4096, 0x9000); (0, 0)] 0 0 1 0 0 0 false true (Some 3%nat).
Definition k2 : kmem := mk_kmem [(5, 0)] [(0x9000, 4096)] 1 [] [].
Definition cq2 : mqnic_cq :=
  mk_cq (mk_queue 0 0 2 1 32 64 (Some 0xA000) 0xB000 0 true (Some 0x2000)) [cpl0; cpl_ones] (Some 1%nat) (Some 4%nat) (Some mqnic_rx_irq).
Definition rx_env0 : rx_env := mk_rx_env true false None true (fun _ => true).

Lemma rx2_inv : rx_inv 1 [] [] 0 1 rx2 k2.
Proof.
  unfold rx_inv. split_and!; try done; try (simpl; lia).
  intros [|[|j]] i Hj Hi; cbn in Hj; simplify_eq; [exists 0%nat; split; [lia|done]|by destruct Hi].
Qed.

Lemma cq2_geometry : cq_geometry 1 cq2.
Proof. unfold cq_geometry. split_and!; try done. repeat constructor; done. Qed.

Lemma mqnic_process_rx_cq_safe_witness :
  exists cq' r' k' w', mqnic_process_rx_cq rx_env0 (fun _ => NoPage) cq2 64 rx2 k2 world0 = Some (1%nat, cq', r', k', w') /\
    k_syncs k' = [0].
Proof.
  destruct (mqnic_process_rx_cq_safe 1 1 [] [] rx_env0 (fun _ => NoPage) cq2 0 64 0 1 rx2 k2 world0
              cq2_geometry eq_refl rx2_inv) as (d & cq' & r' & k' & w' & c' & p' & skbs & E & _ & _ & _ & _ & _ & _ & Hs).
  assert ((fun x => x.1.1.1.1) <$> mqnic_process_rx_cq rx_env0 (fun _ => NoPage) cq2 64 rx2 k2 world0 = Some 1%nat) as Hd
    by (vm_compute; reflexivity).
  rewrite E in Hd. cbn [fmap option_fmap option_map fst] in Hd. injection Hd as ->.
  exists cq', r', k', w'. split; [exact E|exact Hs].
Defined.

Lemma mqnic_rx_delivers_in_order_witness :
  exists cq' r' k' w' skbs, mqnic_process_rx_cq rx_env0 (fun _ => NoPage) cq2 64 rx2 k2 world0 = Some (1%nat, cq', r', k', w') /\
    k_skbs k' = skbs /\ skb_triple <$> skbs = [(5, 0, 100)].
Proof.
  refine (mqnic_rx_delivers_in_order 1 1 [] [] rx_env0 (fun _ => NoPage) (fun _ => cpl0) (fun _ => (5, 0, 100)) 1 64 cq2 0 0 1 rx2 k2 world0
    cq2_geometry eq_refl rx2_inv eq_refl eq_refl (fun _ => eq_refl) _ _ _).
  - change (Z.to_nat (2 ^ 1)) with 2%nat. split_and!; try done; try lia.
    + intros k Hk. assert (k = 0%nat) as -> by lia. done.
    + intros k Hk. change (Z.to_nat (2 ^ 1)) with 2%nat in *. assert (k = 1%nat) as -> by lia. by eexists.
  - intros z Hz. reflexivity.
  - intros z z' Hz Hz' _. lia.
Defined.

Lemma mqnic_rx_ring_balanced_witness :
  exists r' cq' k' w',
    mqnic_open_rx_ring 4 mqnic_create_rx_ring true (Some 3%nat) cq2 16 1 true (Some (0x8000, 0x7000))
      (fun t => if (t <? 5)%nat then Mapped (Z.of_nat t) (0x10000 + 4096 * Z.of_nat t) else NoPage)
      (mk_kmem [] [] 0 [] []) world0 = Some (- ENOMEM, r', cq', k', w') /\
    same_resources world0 w' /\ k_pages k' ≡ₚ [].
Proof.
  destruct (mqnic_rx_ring_balanced 4 mqnic_create_rx_ring 3 cq2 16 1 true (Some (0x8000, 0x7000))
      (fun t => if (t <? 5)%nat then Mapped (Z.of_nat t) (0x10000 + 4096 * Z.of_nat t) else NoPage)
      (mk_kmem [] [] 0 [] []) world0) as (ret & r' & cq' & k' & w' & E & Hfail & _);
    [split_and!; by eexists|done|lia|].
  match type of E with ?x = _ => assert ((fun y => y.1.1.1.1) <$> x = Some (- ENOMEM)) as Hv by (vm_compute; reflexivity) end.
  rewrite E in Hv. cbn [fmap option_fmap option_map fst] in Hv. injection Hv as ->.
  destruct Hfail as (H1 & H2 & _); [discriminate|].
  exists r', cq', k', w'. split; [exact E|]. split; [exact H1|exact H2].
Defined.
