(* ===== verification/MqnicTx.v ===== *)
(** * Transmit rings of the NIC driver

    Model of [modules/mqnic/mqnic_tx.c]: opening and closing a ring,
    [mqnic_start_xmit], which maps a packet and writes its block of
    descriptors, and [mqnic_process_tx_cq], which frees the packets the device
    has sent. The stack's packets and the DMA mappings are modelled by what is
    live: freeing or unmapping what is not live has no result. *)

From S2P Require Import Prelude Mmio MqnicRes MqnicQueue MqnicRx.

Definition MQNIC_MAX_FRAGS : nat := 8.

(** ** Packets and kernel resources *)

(** What the driver reads of an [sk_buff] given to it. *)
Record tx_skb := mk_tx_skb {
  ts_id : Z;                     (* the pointer *)
  ts_len : Z;
  ts_data_len : Z;               (* bytes in the fragments *)
  ts_frags : list Z;             (* lengths of the fragments *)
  ts_partial : option (Z * Z);   (* CHECKSUM_PARTIAL: start and offset *)
  ts_hw_tstamp : bool;           (* SKBTX_HW_TSTAMP *)
  ts_queue : Z;                  (* queue mapping *)
}.

Definition skb_headlen (s : tx_skb) : Z := u32 (ts_len s - ts_data_len s).

(** [skb_linearize], when it succeeds. *)
Definition linearized (s : tx_skb) : tx_skb :=
  mk_tx_skb (ts_id s) (ts_len s) 0 [] (ts_partial s) (ts_hw_tstamp s) (ts_queue s).

Record tmem := mk_tmem {
  t_skbs : list Z;               (* packets the driver holds *)
  t_maps : list (Z * Z);         (* [dma_map_single]: (address, length) *)
  t_frags : list (Z * Z);        (* [skb_frag_dma_map]: (address, length) *)
  t_tick : nat;                  (* mappings asked for *)
  t_sent : list Z;               (* packets freed after they were sent *)
  t_dropped : list Z;            (* packets dropped *)
  t_stamps : list (Z * Z);       (* [skb_tstamp_tx]: (packet, time) *)
}.

Definition t_tick_up (k : tmem) : tmem :=
  mk_tmem (t_skbs k) (t_maps k) (t_frags k) (S (t_tick k)) (t_sent k) (t_dropped k) (t_stamps k).
Definition dma_map_single (dma len : Z) (k : tmem) : tmem :=
  mk_tmem (t_skbs k) ((dma, len) :: t_maps k) (t_frags k) (S (t_tick k)) (t_sent k) (t_dropped k) (t_stamps k).
Definition skb_frag_dma_map (dma len : Z) (k : tmem) : tmem :=
  mk_tmem (t_skbs k) (t_maps k) ((dma, len) :: t_frags k) (S (t_tick k)) (t_sent k) (t_dropped k) (t_stamps k).

Definition dma_unmap_single (dma len : Z) (k : tmem) : option tmem :=
  l ← remove_one (dma, len) (t_maps k);
  Some (mk_tmem (t_skbs k) l (t_frags k) (t_tick k) (t_sent k) (t_dropped k) (t_stamps k)).

Definition dma_unmap_frag (dma len : Z) (k : tmem) : option tmem :=
  l ← remove_one (dma, len) (t_frags k);
  Some (mk_tmem (t_skbs k) (t_maps k) l (t_tick k) (t_sent k) (t_dropped k) (t_stamps k)).

(** Freeing [NULL] does nothing. *)
Definition napi_consume_skb (skb : option Z) (k : tmem) : option tmem :=
  match skb with
  | None => Some k
  | Some s =>
      l ← remove_one s (t_skbs k);
      Some (mk_tmem l (t_maps k) (t_frags k) (t_tick k) (t_sent k ++ [s]) (t_dropped k) (t_stamps k))
  end.

Definition dev_kfree_skb_any (s : Z) (k : tmem) : option tmem :=
  l ← remove_one s (t_skbs k);
  Some (mk_tmem l (t_maps k) (t_frags k) (t_tick k) (t_sent k) (t_dropped k ++ [s]) (t_stamps k)).

Definition skb_tstamp_tx (skb : option Z) (t : Z) (k : tmem) : tmem :=
  match skb with
  | None => k
  | Some s => mk_tmem (t_skbs k) (t_maps k) (t_frags k) (t_tick k) (t_sent k) (t_dropped k) (t_stamps k ++ [(s, t)])
  end.

(** ** The ring *)

Record mqnic_tx_info := mk_tx_info {
  ti_skb : option Z;
  ti_dma_addr : Z;
  ti_len : Z;
  ti_frag_count : nat;
  ti_frags : list (Z * Z);       (* [MQNIC_MAX_FRAGS - 1] entries *)
  ti_ts_requested : bool;
}.

Definition tx_info_zero : mqnic_tx_info :=
  mk_tx_info None 0 0 0 (replicate (MQNIC_MAX_FRAGS - 1) (0, 0)) false.

(** [struct mqnic_desc] *)
Record mqnic_desc := mk_desc {
  d_csum : Z;
  d_len : Z;
  d_addr : Z;
}.

Record tx_ring := mk_tx_ring {
  tx_q : queue;
  tx_info : list mqnic_tx_info;          (* empty: NULL *)
  tx_desc : list mqnic_desc;             (* contents of [buf] *)
  tx_log_desc_block_size : Z;
  tx_desc_block_size : Z;
  tx_full_size : Z;
  tx_packets : Z;
  tx_bytes : Z;
  tx_dropped_packets : Z;
  tx_ts_s : Z;
  tx_ts_valid : bool;
  tx_stopped : bool;                     (* state of [tx_queue] *)
  tx_priv : bool;                        (* [priv != NULL] *)
  tx_cq : option nat;
}.

(** The pointers, the slots and the buffer. *)
Definition upd_tx (q : queue) (info : list mqnic_tx_info) (desc : list mqnic_desc) (r : tx_ring) : tx_ring :=
  mk_tx_ring q info desc (tx_log_desc_block_size r) (tx_desc_block_size r) (tx_full_size r) (tx_packets r) (tx_bytes r)
    (tx_dropped_packets r) (tx_ts_s r) (tx_ts_valid r) (tx_stopped r) (tx_priv r) (tx_cq r).
Definition set_tx_q (q : queue) (r : tx_ring) : tx_ring := upd_tx q (tx_info r) (tx_desc r) r.
Definition set_tx_slot (i : nat) (x : mqnic_tx_info) (r : tx_ring) : tx_ring :=
  upd_tx (tx_q r) (<[i := x]> (tx_info r)) (tx_desc r) r.
Definition set_tx_stopped (b : bool) (r : tx_ring) : tx_ring :=
  mk_tx_ring (tx_q r) (tx_info r) (tx_desc r) (tx_log_desc_block_size r) (tx_desc_block_size r) (tx_full_size r) (tx_packets r)
    (tx_bytes r) (tx_dropped_packets r) (tx_ts_s r) (tx_ts_valid r) b (tx_priv r) (tx_cq r).
Definition set_tx_ts (s : Z) (valid : bool) (r : tx_ring) : tx_ring :=
  mk_tx_ring (tx_q r) (tx_info r) (tx_desc r) (tx_log_desc_block_size r) (tx_desc_block_size r) (tx_full_size r) (tx_packets r)
    (tx_bytes r) (tx_dropped_packets r) s valid (tx_stopped r) (tx_priv r) (tx_cq r).
Definition count_tx (len : Z) (r : tx_ring) : tx_ring :=
  mk_tx_ring (tx_q r) (tx_info r) (tx_desc r) (tx_log_desc_block_size r) (tx_desc_block_size r) (tx_full_size r)
    (u64 (tx_packets r + 1)) (u64 (tx_bytes r + len)) (tx_dropped_packets r) (tx_ts_s r) (tx_ts_valid r) (tx_stopped r)
    (tx_priv r) (tx_cq r).
Definition count_dropped (r : tx_ring) : tx_ring :=
  mk_tx_ring (tx_q r) (tx_info r) (tx_desc r) (tx_log_desc_block_size r) (tx_desc_block_size r) (tx_full_size r) (tx_packets r)
    (tx_bytes r) (u64 (tx_dropped_packets r + 1)) (tx_ts_s r) (tx_ts_valid r) (tx_stopped r) (tx_priv r) (tx_cq r).

Definition mqnic_create_tx_ring : tx_ring := mk_tx_ring queue_new [] [] 0 0 0 0 0 0 0 false false false None.

Definition mqnic_is_tx_ring_empty (r : tx_ring) : bool := q_prod_ptr (tx_q r) =? q_cons_ptr (tx_q r).
Definition mqnic_is_tx_ring_full (r : tx_ring) : bool :=
  tx_full_size r <=? u32 (q_prod_ptr (tx_q r) - q_cons_ptr (tx_q r)).

(** ** Freeing *)

(** The loops over the mapped fragments: [cnt] of them from [i]. *)
Fixpoint unmap_frags (cnt i : nat) (frags : list (Z * Z)) (k : tmem) : option tmem :=
  match cnt with
  | O => Some k
  | S cnt' =>
      '(dma, len) ← frags !! i;
      k ← dma_unmap_frag dma len k;
      unmap_frags cnt' (S i) frags k
  end.

Definition mqnic_free_tx_desc (index : nat) (r : tx_ring) (k : tmem) : option (tx_ring * tmem) :=
  info ← tx_info r !! index;
  k ← dma_unmap_single (ti_dma_addr info) (ti_len info) k;
  k ← unmap_frags (ti_frag_count info) 0 (ti_frags info) k;
  k ← napi_consume_skb (ti_skb info) k;
  Some (set_tx_slot index
          (mk_tx_info None 0 (ti_len info) (ti_frag_count info) (ti_frags info) (ti_ts_requested info)) r, k).

Fixpoint free_tx_loop (fuel : nat) (r : tx_ring) (k : tmem) (cnt : Z) : option (Z * tx_ring * tmem) :=
  match fuel with
  | O => None
  | S fuel' =>
      if mqnic_is_tx_ring_empty r then Some (cnt, r, k)
      else
        '(r, k) ← mqnic_free_tx_desc (Z.to_nat (Z.land (q_cons_ptr (tx_q r)) (q_size_mask (tx_q r)))) r k;
        free_tx_loop fuel' (set_tx_q (set_q_cons (u32 (q_cons_ptr (tx_q r) + 1)) (tx_q r)) r) k (cnt + 1)
  end.

Definition mqnic_free_tx_buf (r : tx_ring) (k : tmem) : option (Z * tx_ring * tmem) :=
  free_tx_loop (S (Z.to_nat (q_size (tx_q r)))) r k 0.

(** ** Mapping a packet *)

(** Length and address of a descriptor; [None] outside of the buffer. *)
Definition write_desc (i : nat) (len addr : Z) (desc : list mqnic_desc) : option (list mqnic_desc) :=
  d ← desc !! i;
  Some (<[i := mk_desc (d_csum d) len addr]> desc).

(** The loop over the fragments. [base] is the index of [tx_desc[0]], [dmas]
    the answers to the requests for mappings; [false]: a mapping failed. *)
Fixpoint map_frags (dmas : nat -> option Z) (base i : nat) (frags : list Z) (info : mqnic_tx_info)
    (desc : list mqnic_desc) (k : tmem) : option (bool * mqnic_tx_info * list mqnic_desc * tmem) :=
  match frags with
  | [] => Some (true, info, desc, k)
  | len :: frags' =>
      match dmas (t_tick k) with
      | None => Some (false, info, desc, t_tick_up k)
      | Some dma =>
          desc ← write_desc (base + (i + 1)) len dma desc;
          _ ← ti_frags info !! i;
          let info := mk_tx_info (ti_skb info) (ti_dma_addr info) (ti_len info) (i + 1) (<[i := (dma, len)]> (ti_frags info))
                        (ti_ts_requested info) in
          map_frags dmas base (S i) frags' info desc (skb_frag_dma_map dma len k)
      end
  end.

(** The rest of the block is cleared: [cnt] descriptors from [i + 1]. *)
Fixpoint clear_descs (base i cnt : nat) (desc : list mqnic_desc) : option (list mqnic_desc) :=
  match cnt with
  | O => Some desc
  | S cnt' => desc ← write_desc (base + (i + 1)) 0 0 desc; clear_descs base (S i) cnt' desc
  end.

(** [map_error] *)
Definition map_error (info : mqnic_tx_info) (desc : list mqnic_desc) (k : tmem)
    : option (bool * mqnic_tx_info * list mqnic_desc * tmem) :=
  k ← unmap_frags (ti_frag_count info) 0 (ti_frags info) k;
  Some (false, mk_tx_info None (ti_dma_addr info) (ti_len info) 0 (ti_frags info) (ti_ts_requested info), desc, k).

Definition mqnic_map_skb (dmas : nat -> option Z) (block : Z) (base : nat) (info : mqnic_tx_info) (desc : list mqnic_desc)
    (skb : tx_skb) (k : tmem) : option (bool * mqnic_tx_info * list mqnic_desc * tmem) :=
  let info := mk_tx_info (Some (ts_id skb)) (ti_dma_addr info) (ti_len info) 0 (ti_frags info) (ti_ts_requested info) in
  '(ok, info, desc, k) ← map_frags dmas base 0 (ts_frags skb) info desc k;
  if negb ok then map_error info desc k
  else
    desc ← clear_descs base (ti_frag_count info) (Z.to_nat (block - 1) - ti_frag_count info) desc;
    let len := skb_headlen skb in
    match dmas (t_tick k) with
    | None => map_error info desc (t_tick_up k)
    | Some dma =>
        desc ← write_desc base len dma desc;
        Some (true, mk_tx_info (ti_skb info) dma len (ti_frag_count info) (ti_frags info) (ti_ts_requested info), desc,
              dma_map_single dma len k)
    end.

Section Tx.
Context {hw : Type} `{!Mmio hw}.
Implicit Types w : qworld hw.

Definition mqnic_tx_read_cons_ptr (r : tx_ring) w : option (tx_ring * qworld hw) :=
  a ← q_hw_addr (tx_q r);
  let '(v, h) := ioread32 (a + MQNIC_QUEUE_PTR_REG) (w_hw w) in
  let c := q_cons_ptr (tx_q r) in
  let c := u32 (c + Z.land (u32 (Z.shiftr v 16 - c)) MQNIC_PTR_MASK) in
  Some (set_tx_q (set_q_cons c (tx_q r)) r, set_w_hw h w).

Definition mqnic_tx_write_prod_ptr (r : tx_ring) w : qworld hw :=
  write_ctrl (q_hw_addr (tx_q r)) (Z.lor CMD_SET_PROD_PTR (Z.land (q_prod_ptr (tx_q r)) MQNIC_PTR_MASK)) w.

Definition mqnic_enable_tx_ring (r : tx_ring) w : Z * tx_ring * qworld hw :=
  match q_hw_addr (tx_q r) with
  | None => (- EINVAL, r, w)
  | Some _ => (0, set_tx_q (set_q_enabled true (tx_q r)) r, write_ctrl (q_hw_addr (tx_q r)) (Z.lor CMD_SET_ENABLE 1) w)
  end.

Definition mqnic_disable_tx_ring (r : tx_ring) w : tx_ring * qworld hw :=
  (set_tx_q (set_q_enabled false (tx_q r)) r, write_ctrl (q_hw_addr (tx_q r)) (Z.lor CMD_SET_ENABLE 0) w).

(** [priv], [cq] and [hw_addr] are cleared. *)
Definition tx_detach (r : tx_ring) : tx_ring :=
  mk_tx_ring (clear_hw_addr (tx_q r)) (tx_info r) (tx_desc r) (tx_log_desc_block_size r) (tx_desc_block_size r) (tx_full_size r)
    (tx_packets r) (tx_bytes r) (tx_dropped_packets r) (tx_ts_s r) (tx_ts_valid r) (tx_stopped r) false None.

Definition mqnic_close_tx_ring (r : tx_ring) (cq : mqnic_cq) (k : tmem) w
    : option (tx_ring * mqnic_cq * tmem * qworld hw) :=
  let '(r, w) := mqnic_disable_tx_ring r w in
  let cq := cq_detach (tx_cq r) cq in
  let r := tx_detach r in
  '(r, k) ← match q_buf (tx_q r) with
            | None => Some (r, k)
            | Some _ => '(_, r, k) ← mqnic_free_tx_buf r k; Some (r, k)
            end;
  '(q, w) ← free_buf (tx_q r) w;
  res ← mqnic_res_free (q_index q) (w_txq_res w);
  Some (upd_tx (set_q_index (-1) q) [] (tx_desc r) r, cq, k, set_txq_res res w).

(** [me] is the ring's pointer, [cq_ptr] the completion queue's; [info_ok] and
    [buf] what the allocators answer. The coherent buffer is zeroed. *)
Definition mqnic_open_tx_ring (me : nat) (r : tx_ring) (priv : bool) (cq_ptr : option nat) (cq : mqnic_cq)
    (size desc_block_size : Z) (info_ok : bool) (buf : option (Z * Z)) (k : tmem) w
    : option (Z * tx_ring * mqnic_cq * tmem * qworld hw) :=
  match cq_ptr, queue_busy (tx_q r) || negb priv with
  | None, _ | _, true => Some (- EINVAL, r, cq, k, w)
  | Some c, false =>
      '(n, res) ← mqnic_res_alloc (w_txq_res w);
      let w := set_txq_res res w in
      let r := set_tx_q (set_q_index n (tx_q r)) r in
      if n <? 0 then Some (- ENOMEM, r, cq, k, w)
      else
        let log := log_block_size desc_block_size in
        let block := Z.shiftl 1 log in
        let q := queue_geometry (roundup_pow_of_two size) (roundup_pow_of_two (MQNIC_DESC_SIZE * block)) (tx_q r) in
        let ring q info desc priv cqp :=
          mk_tx_ring q info desc log block (Z.shiftr (q_size q) 1) (tx_packets r) (tx_bytes r) (tx_dropped_packets r)
            (tx_ts_s r) (tx_ts_valid r) (tx_stopped r) priv cqp in
        let fail ret r cq k w :=
          '(r, cq, k, w) ← mqnic_close_tx_ring r cq k w; Some (ret, r, cq, k, w) in
        if negb info_ok then fail (- ENOMEM) (ring q [] (tx_desc r) (tx_priv r) (tx_cq r)) cq k w
        else
          let info := replicate (Z.to_nat (q_size q)) tx_info_zero in
          match buf with
          | None => fail (- ENOMEM) (ring q info (tx_desc r) (tx_priv r) (tx_cq r)) cq k w
          | Some (b, dma) =>
              let w := set_bufs ((q_buf_size q, b, dma) :: w_bufs w) w in
              a ← mqnic_res_get_addr (w_txq_res w) n;
              let desc := replicate (Z.to_nat (q_buf_size q / MQNIC_DESC_SIZE)) (mk_desc 0 0 0) in
              let r := ring (queue_attach b dma (Some a) q) info desc true (Some c) in
              let cqn := q_index (cq_q cq) in
              let cq := mk_cq (cq_q cq) (cq_cpls cq) (cq_eq cq) (Some me) (Some mqnic_tx_irq) in
              let writes := setup_writes a dma (Z.lor (Z.log2 (q_size q)) (Z.shiftl log 8)) cqn 0 0 in
              Some (0, r, cq, k, set_w_hw (write_all writes (w_hw w)) w)
          end
  end.

(** ** Completions *)

(** The settings of the interface. *)
Record tx_env := mk_tx_env {
  te_port_up : bool;
  te_ptp_ts : bool;              (* [MQNIC_IF_FEATURE_PTP_TS] *)
  te_phc : option Z;
}.

Definition tx_read_cpl_ts (phc : option Z) (r : tx_ring) (cpl : mqnic_cpl) w : Z * tx_ring * qworld hw :=
  let '(t, (ts_s, ts_valid), w) := mqnic_read_cpl_ts phc (tx_ts_s r) (tx_ts_valid r) cpl w in
  (t, set_tx_ts ts_s ts_valid r, w).

(** The loop over the completions: at most [budget] turns. *)
Fixpoint tx_cq_loop (env : tx_env) (budget : nat) (cq : mqnic_cq) (cq_cons_ptr : Z) (done : nat)
    (r : tx_ring) (k : tmem) w : option (nat * Z * tx_ring * tmem * qworld hw) :=
  match budget with
  | O => Some (done, cq_cons_ptr, r, k, w)
  | S budget' =>
      cpl ← cq_cpls cq !! Z.to_nat (Z.land cq_cons_ptr (q_size_mask (cq_q cq)));
      if eqb (phase_bit (cpl_phase cpl)) (lap_bit cq_cons_ptr (q_size (cq_q cq))) then Some (done, cq_cons_ptr, r, k, w)
      else
        let ring_index := Z.to_nat (Z.land (cpl_index cpl) (q_size_mask (tx_q r))) in
        info ← tx_info r !! ring_index;
        let '(r, k, w) :=
          if ti_ts_requested info then
            let '(t, r, w) := tx_read_cpl_ts (te_phc env) r cpl w in (r, skb_tstamp_tx (ti_skb info) t k, w)
          else (r, k, w) in
        '(r, k) ← mqnic_free_tx_desc ring_index r k;
        tx_cq_loop env budget' cq (u32 (cq_cons_ptr + 1)) (S done) r k w
  end.

(** Skip the slots whose packet is gone. *)
Fixpoint tx_ring_loop (fuel : nat) (r : tx_ring) (ring_cons_ptr : Z) : option Z :=
  match fuel with
  | O => None
  | S fuel' =>
      if ring_cons_ptr =? q_prod_ptr (tx_q r) then Some ring_cons_ptr
      else
        info ← tx_info r !! Z.to_nat (Z.land ring_cons_ptr (q_size_mask (tx_q r)));
        match ti_skb info with
        | Some _ => Some ring_cons_ptr
        | None => tx_ring_loop fuel' r (u32 (ring_cons_ptr + 1))
        end
  end.

Definition mqnic_process_tx_cq (env : tx_env) (cq : mqnic_cq) (budget : nat) (r : tx_ring) (k : tmem) w
    : option (nat * mqnic_cq * tx_ring * tmem * qworld hw) :=
  if negb (tx_priv r) || negb (te_port_up env) then Some (0%nat, cq, r, k, w)
  else
    '(done, c, r, k, w) ← tx_cq_loop env budget cq (q_cons_ptr (cq_q cq)) 0 r k w;
    let cq := mk_cq (set_q_cons c (cq_q cq)) (cq_cpls cq) (cq_eq cq) (cq_src_ring cq) (cq_hnd cq) in
    let w := mqnic_cq_write_cons_ptr cq w in
    rc ← tx_ring_loop (S (Z.to_nat (q_size (tx_q r)))) r (q_cons_ptr (tx_q r));
    let r := set_tx_q (set_q_cons rc (tx_q r)) r in
    let r := if tx_stopped r && negb (mqnic_is_tx_ring_full r) then set_tx_stopped false r else r in
    Some (done, cq, r, k, w).

(** The NAPI poll function; [true] when polling is over and the queue armed. *)
Definition mqnic_poll_tx_cq (env : tx_env) (cq : mqnic_cq) (budget : nat) (r : tx_ring) (k : tmem) w
    : option (nat * bool * mqnic_cq * tx_ring * tmem * qworld hw) :=
  '(done, cq, r, k, w) ← mqnic_process_tx_cq env cq budget r k w;
  if (done =? budget)%nat then Some (done, false, cq, r, k, w)
  else Some (done, true, cq, r, k, mqnic_arm_cq cq w).

(** ** Transmitting *)

(** What the stack's helpers answer for one packet: the DMA addresses,
    whether [skb_checksum_help] and [skb_linearize] succeed, and
    [netdev_xmit_more]. *)
Record xmit_env := mk_xmit_env {
  xe_dmas : nat -> option Z;
  xe_csum_help : bool;
  xe_linearize : bool;
  xe_more : bool;
}.

(** The checksum command; [None] if software checksumming fails. *)
Definition csum_cmd (help : bool) (skb : tx_skb) : option Z :=
  match ts_partial skb with
  | Some (csum_start, csum_offset) =>
      if (csum_start >? 255) || (csum_offset >? 127) then (if help then Some 0 else None)
      else Some (u16 (Z.lor (Z.lor 0x8000 (Z.shiftl csum_offset 8)) csum_start))
  | None => Some 0
  end.

Definition needs_linearize (block : Z) (skb : tx_skb) : bool :=
  (Z.of_nat (length (ts_frags skb)) >? block - 1) || (negb (ts_data_len skb =? 0) && (ts_data_len skb <? 32)).

(** The part of [mqnic_start_xmit] after the mapping: count the packet,
    advance the pointer, stop the queue if the ring is full, tell the device. *)
Definition xmit_enqueue (more : bool) (len : Z) (r : tx_ring) w : tx_ring * qworld hw :=
  let r := count_tx len r in
  let r := set_tx_q (set_q_prod (u32 (q_prod_ptr (tx_q r) + 1)) (tx_q r)) r in
  let stop_queue := mqnic_is_tx_ring_full r in
  let r := if stop_queue then set_tx_stopped true r else r in
  let w := if negb more || stop_queue then mqnic_tx_write_prod_ptr r w else w in
  let r := if stop_queue && negb (mqnic_is_tx_ring_full r) then set_tx_stopped false r else r in
  (r, w).

(** The part after the ring is found, up to there. [drop] is
    [tx_drop_count]. *)
Definition xmit_ring (env : tx_env) (xe : xmit_env) (skb : tx_skb) (r : tx_ring) (k : tmem) w
    : option (tx_ring * tmem * qworld hw) :=
  let drop r k := k ← dev_kfree_skb_any (ts_id skb) k; Some (count_dropped r, k, w) in
  let index := Z.land (q_prod_ptr (tx_q r)) (q_size_mask (tx_q r)) in
  let i := Z.to_nat index in
  let base := Z.to_nat (u32 (index * q_stride (tx_q r)) / MQNIC_DESC_SIZE) in
  info ← tx_info r !! i;
  let info := mk_tx_info (ti_skb info) (ti_dma_addr info) (ti_len info) (ti_frag_count info) (ti_frags info)
                (te_ptp_ts env && ts_hw_tstamp skb) in
  let r := set_tx_slot i info r in
  match csum_cmd (xe_csum_help xe) skb with
  | None => drop r k
  | Some cmd =>
      d ← tx_desc r !! base;
      let r := upd_tx (tx_q r) (tx_info r) (<[base := mk_desc cmd (d_len d) (d_addr d)]> (tx_desc r)) r in
      let lin := needs_linearize (tx_desc_block_size r) skb in
      if lin && negb (xe_linearize xe) then drop r k
      else
        let skb' := if lin then linearized skb else skb in
        '(ok, info, desc, k) ← mqnic_map_skb (xe_dmas xe) (tx_desc_block_size r) base info (tx_desc r) skb' k;
        let r := upd_tx (tx_q r) (<[i := info]> (tx_info r)) desc r in
        if negb ok then drop r k
        else
          let '(r, w) := xmit_enqueue (xe_more xe) (ts_len skb) r w in Some (r, k, w)
  end.

(** [table] is [priv->txq_table]. The packet is the driver's from here on. *)
Definition mqnic_start_xmit (env : tx_env) (xe : xmit_env) (skb : tx_skb) (table : gmap Z tx_ring) (k : tmem) w
    : option (gmap Z tx_ring * tmem * qworld hw) :=
  let k := mk_tmem (ts_id skb :: t_skbs k) (t_maps k) (t_frags k) (t_tick k) (t_sent k) (t_dropped k) (t_stamps k) in
  let drop := k ← dev_kfree_skb_any (ts_id skb) k; Some (table, k, w) in
  if negb (te_port_up env) then drop
  else match table !! ts_queue skb with
  | None => drop
  | Some r => '(r, k, w) ← xmit_ring env xe skb r k w; Some (<[ts_queue skb := r]> table, k, w)
  end.
End Tx.

(** ** What a mapped packet looks like *)

Definition desc_seg (d : mqnic_desc) : Z * Z := (d_len d, d_addr d).
Definition mapped_frags (i : mqnic_tx_info) : list (Z * Z) := take (ti_frag_count i) (ti_frags i).

(** The packet as it is mapped. *)
Definition on_wire (b : nat) (s : tx_skb) : tx_skb := if needs_linearize (Z.of_nat b) s then linearized s else s.

(** The [b] descriptors from [base]: the linear part, the fragments, zeros. *)
Definition block_ok (b base : nat) (i : mqnic_tx_info) (desc : list mqnic_desc) : Prop :=
  (ti_frag_count i < b)%nat /\ desc_seg <$> desc !! base = Some (ti_len i, ti_dma_addr i) /\
  forall m, (m + 1 < b)%nat ->
    desc_seg <$> desc !! (base + (m + 1))%nat
    = Some (match mapped_frags i !! m with Some (dma, len) => (len, dma) | None => (0, 0) end).

(** Only the lengths and addresses of the block change. *)
Definition desc_frame (b base : nat) (desc desc' : list mqnic_desc) : Prop :=
  length desc' = length desc /\
  (forall j, d_csum <$> desc' !! j = d_csum <$> desc !! j) /\
  (forall j, (j < base \/ base + b <= j)%nat -> desc' !! j = desc !! j).

#[export] Instance desc_frame_preorder b base : PreOrder (desc_frame b base).
Proof.
  split; [done|]. intros d1 d2 d3 (L1 & C1 & F1) (L2 & C2 & F2). split_and!; [congruence|..].
  - intros j. by rewrite C2.
  - intros j Hj. by rewrite F2, F1.
Qed.

(** Everything but the fragments' mappings. *)
Definition t_rest (k : tmem) := (t_skbs k, t_maps k, t_sent k, t_dropped k, t_stamps k).

Lemma write_desc_ok b base j len addr desc :
  (j < b)%nat -> (base + b <= length desc)%nat ->
  exists desc', write_desc (base + j) len addr desc = Some desc' /\ desc_frame b base desc desc' /\
    desc_seg <$> desc' !! (base + j)%nat = Some (len, addr) /\
    forall j', j' <> (base + j)%nat -> desc' !! j' = desc !! j'.
Proof.
  intros Hj Hl. unfold write_desc. destruct (lookup_lt_is_Some_2 desc (base + j)) as [d Hd]; [lia|].
  rewrite Hd. cbn. eexists. split; [done|].
  assert (forall j', j' <> (base + j)%nat -> <[(base + j)%nat := mk_desc (d_csum d) len addr]> desc !! j' = desc !! j') as Hne
    by (intros; by apply list_lookup_insert_ne).
  split; [|split; [by rewrite list_lookup_insert_eq by lia|exact Hne]].
  unfold desc_frame. split_and!; [by rewrite length_insert|..].
  - intros j'. destruct (decide (j' = base + j)%nat) as [->|Hj']; [by rewrite list_lookup_insert_eq, Hd by lia|by rewrite Hne].
  - intros j' Hj'. apply Hne. lia.
Qed.

(** Fragments [0 .. i - 1] are mapped and described. *)
Definition frags_inv (base i : nat) (F : list (Z * Z)) (info : mqnic_tx_info) (desc : list mqnic_desc) (k : tmem) : Prop :=
  length (ti_frags info) = (MQNIC_MAX_FRAGS - 1)%nat /\ ti_frag_count info = i /\
  (forall m, (m < i)%nat -> exists dma len, ti_frags info !! m = Some (dma, len) /\
     desc_seg <$> desc !! (base + (m + 1))%nat = Some (len, dma)) /\
  t_frags k ≡ₚ take i (ti_frags info) ++ F.

Definition info_rest (i : mqnic_tx_info) := (ti_skb i, ti_dma_addr i, ti_len i, ti_ts_requested i).

Lemma map_frags_ok dmas b base F frags i info desc k :
  (i + length frags < b <= MQNIC_MAX_FRAGS)%nat -> (base + b <= length desc)%nat -> frags_inv base i F info desc k ->
  exists ok i' info' desc' k', map_frags dmas base i frags info desc k = Some (ok, info', desc', k') /\
    frags_inv base i' F info' desc' k' /\ desc_frame b base desc desc' /\ t_rest k' = t_rest k /\
    info_rest info' = info_rest info /\ (i' <= i + length frags)%nat /\
    (ok = true -> snd <$> take i' (ti_frags info') = (snd <$> take i (ti_frags info)) ++ frags).
Proof.
  revert i info desc k. induction frags as [|len frags IH]; intros i info desc k Hb Hl Hinv; cbn [map_frags].
  { do 5 eexists. split; [reflexivity|]. split; [exact Hinv|]. split_and!; try done.
    - lia.
    - intros _. by rewrite app_nil_r. }
  destruct (dmas (t_tick k)) as [dma|].
  2: { do 5 eexists. split; [reflexivity|]. split; [exact Hinv|]. split_and!; try done. lia. }
  cbn [length] in Hb. destruct Hinv as (HL & HC & HS & HF).
  destruct (write_desc_ok b base (i + 1) len dma desc) as (desc1 & -> & Hfr & Hseg & Hne); [lia..|].
  cbn [mbind option_bind].
  destruct (lookup_lt_is_Some_2 (ti_frags info) i) as [old Hold]; [unfold MQNIC_MAX_FRAGS in *; lia|].
  rewrite Hold. cbn [mbind option_bind].
  set (info1 := mk_tx_info _ _ _ _ _ _).
  destruct (IH (S i) info1 desc1 (skb_frag_dma_map dma len k)) as (ok & i' & info' & desc' & k' & E & Hinv' & Hfr' & Hr & Hi & Hle & Hok).
  - lia.
  - destruct Hfr as [-> _]. done.
  - assert (take (S i) (<[i := (dma, len)]> (ti_frags info)) = take i (ti_frags info) ++ [(dma, len)]) as Htk.
    { rewrite (take_S_r _ _ (dma, len)) by (apply list_lookup_insert_eq; by eapply lookup_lt_Some).
      by rewrite take_insert_ge by lia. }
    unfold frags_inv, info1. cbn [ti_frags ti_frag_count skb_frag_dma_map t_frags].
    split_and!; [by rewrite length_insert|lia|..].
    + intros m Hm. destruct (decide (m = i)) as [->|Hmi].
      * exists dma, len. split; [apply list_lookup_insert_eq; by eapply lookup_lt_Some|done].
      * rewrite list_lookup_insert_ne by done. rewrite Hne by lia. apply HS. lia.
    + rewrite Htk, HF. solve_Permutation.
  - exists ok, i', info', desc', k'. split; [exact E|]. split; [exact Hinv'|].
    split; [by etrans|]. split; [by rewrite Hr|]. split; [by rewrite Hi|]. split; [cbn [length]; lia|].
    intros Ht. rewrite (Hok Ht). unfold info1. cbn [ti_frags].
    rewrite (take_S_r _ _ (dma, len)) by (apply list_lookup_insert_eq; by eapply lookup_lt_Some).
    rewrite take_insert_ge by lia. by rewrite fmap_app, <- app_assoc.
Qed.

Lemma clear_descs_ok b base cnt i desc :
  (i + cnt < b)%nat -> (base + b <= length desc)%nat ->
  exists desc', clear_descs base i cnt desc = Some desc' /\ desc_frame b base desc desc' /\
    (forall j, (j < base + (i + 1))%nat -> desc' !! j = desc !! j) /\
    forall m, (i <= m < i + cnt)%nat -> desc_seg <$> desc' !! (base + (m + 1))%nat = Some (0, 0).
Proof.
  revert i desc. induction cnt as [|cnt IH]; intros i desc Hb Hl; cbn [clear_descs].
  { exists desc. split_and!; try done. lia. }
  destruct (write_desc_ok b base (i + 1) 0 0 desc) as (desc1 & -> & Hfr & Hseg & Hne); [lia..|]. cbn [mbind option_bind].
  destruct (IH (S i) desc1) as (desc' & E & Hfr' & Hlow & Hz); [lia|destruct Hfr as [-> _]; done|].
  exists desc'. split; [exact E|]. split; [by etrans|]. split.
  - intros j Hj. rewrite Hlow by lia. apply Hne. lia.
  - intros m Hm. destruct (decide (m = i)) as [->|]; [rewrite Hlow by lia; done|apply Hz; lia].
Qed.

Lemma unmap_frags_ok frags i cnt F k :
  (i + cnt <= length frags)%nat -> t_frags k ≡ₚ take cnt (drop i frags) ++ F ->
  exists k', unmap_frags cnt i frags k = Some k' /\ t_frags k' ≡ₚ F /\ t_rest k' = t_rest k.
Proof.
  revert i k. induction cnt as [|cnt IH]; intros i k Hl Hp; cbn [unmap_frags]; [by exists k|].
  destruct (lookup_lt_is_Some_2 frags i) as [[dma len] Hi]; [lia|]. rewrite Hi. cbn [mbind option_bind].
  rewrite (drop_S _ _ _ Hi) in Hp. cbn [take app] in Hp.
  destruct (remove_one_perm _ _ _ Hp) as (l & El & Hl'). unfold dma_unmap_frag. rewrite El. cbn [mbind option_bind].
  destruct (IH (S i) (mk_tmem (t_skbs k) (t_maps k) l (t_tick k) (t_sent k) (t_dropped k) (t_stamps k)))
    as (k' & E & Hf & Hr); [lia|done|].
  exists k'. split; [exact E|]. split; [exact Hf|exact Hr].
Qed.

(** [mqnic_map_skb]: all of the packet is mapped and described, or nothing. *)
Lemma map_error_ok base i F info desc k :
  frags_inv base i F info desc k ->
  exists info' k', map_error info desc k = Some (false, info', desc, k') /\
    ti_skb info' = None /\ ti_frags info' = ti_frags info /\ t_frags k' ≡ₚ F /\ t_rest k' = t_rest k.
Proof.
  intros (HL & HC & HS & HF). unfold map_error. rewrite HC.
  destruct (unmap_frags_ok (ti_frags info) 0 i F k) as (k' & -> & Hf & Hr).
  - destruct (decide (i = 0)%nat) as [->|]; [lia|].
    destruct (HS (i - 1)%nat) as (? & ? & Hlk & _); [lia|]. apply lookup_lt_Some in Hlk. lia.
  - by rewrite drop_0.
  - by do 2 eexists.
Qed.

Lemma map_skb_ok dmas b base info desc skb k :
  (length (ts_frags skb) < b <= MQNIC_MAX_FRAGS)%nat -> (base + b <= length desc)%nat ->
  length (ti_frags info) = (MQNIC_MAX_FRAGS - 1)%nat ->
  exists ok info' desc' k', mqnic_map_skb dmas (Z.of_nat b) base info desc skb k = Some (ok, info', desc', k') /\
    desc_frame b base desc desc' /\ length (ti_frags info') = (MQNIC_MAX_FRAGS - 1)%nat /\
    (t_skbs k', t_sent k', t_dropped k', t_stamps k') = (t_skbs k, t_sent k, t_dropped k, t_stamps k) /\
    if ok then
      ti_skb info' = Some (ts_id skb) /\ ti_len info' = skb_headlen skb /\ snd <$> mapped_frags info' = ts_frags skb /\
      block_ok b base info' desc' /\
      t_maps k' = (ti_dma_addr info', ti_len info') :: t_maps k /\ t_frags k' ≡ₚ mapped_frags info' ++ t_frags k
    else ti_skb info' = None /\ t_maps k' = t_maps k /\ t_frags k' ≡ₚ t_frags k.
Proof.
  intros Hb Hl HL. unfold mqnic_map_skb. set (info0 := mk_tx_info _ _ _ _ _ _).
  destruct (map_frags_ok dmas b base (t_frags k) (ts_frags skb) 0 info0 desc k) as
    (ok & i & info1 & desc1 & k1 & -> & Hinv & Hfr & Hr & Hi & Hle & Hok); [lia|done|by split_and!; try done; lia|].
  cbn [mbind option_bind]. unfold t_rest in Hr. injection Hr as R1 R2 R3 R4 R5.
  unfold info_rest, info0 in Hi. cbn in Hi. injection Hi as I1 I2 I3 I4.
  destruct ok; cbn [negb].
  2: { destruct (map_error_ok _ _ _ _ _ _ Hinv) as (info2 & k2 & -> & Hs & Hfrags & Hf2 & Hr2).
       injection Hr2 as Q1 Q2 Q3 Q4 Q5. do 4 eexists. split; [reflexivity|].
       rewrite Q1, Q2, Q3, Q4, Q5, R1, R2, R3, R4, R5, Hfrags. split_and!; try done. apply Hinv. }
  pose proof Hinv as (HL1 & HC1 & HS1 & HF1). rewrite HC1. specialize (Hok eq_refl). cbn [take fmap list_fmap app] in Hok.
  assert (Z.to_nat (Z.of_nat b - 1) = b - 1)%nat as -> by lia. cbn [length] in Hle.
  destruct (clear_descs_ok b base (b - 1 - i) i desc1) as (desc2 & -> & Hfr2 & Hlow & Hz);
    [lia|destruct Hfr as [-> _]; done|]. cbn [mbind option_bind].
  assert (frags_inv base i (t_frags k) info1 desc2 k1) as Hinv2.
  { split_and!; try done. intros m Hm. rewrite Hlow by lia. by apply HS1. }
  destruct (dmas (t_tick k1)) as [dma|].
  2: { destruct (map_error_ok base i (t_frags k) info1 desc2 (t_tick_up k1)) as (info2 & k2 & -> & Hs & Hfrags & Hf2 & Hr2); [done|].
       injection Hr2 as Q1 Q2 Q3 Q4 Q5. cbn in *. do 4 eexists. split; [reflexivity|].
       rewrite Q1, Q2, Q3, Q4, Q5, R1, R2, R3, R4, R5, Hfrags. split; [by etrans|]. by split_and!. }
  destruct (write_desc_ok b base 0 (skb_headlen skb) dma desc2) as (desc3 & E3 & Hfr3 & Hseg3 & Hne3);
    [lia|destruct Hfr2 as [-> _]; destruct Hfr as [-> _]; done|].
  rewrite Nat.add_0_r in E3, Hseg3, Hne3. rewrite E3. cbn [mbind option_bind].
  do 4 eexists. split; [reflexivity|]. split; [by do 2 (etrans; [eassumption|])|]. cbn.
  rewrite R1, R2, R3, R4, R5. unfold mapped_frags. cbn [ti_frag_count ti_frags].
  split_and!; try done.
  - split; [cbn [ti_frag_count]; lia|]. split; [done|]. intros m Hm. unfold mapped_frags. cbn [ti_frag_count ti_frags]. rewrite Hne3 by lia.
    destruct (decide (m < i)%nat) as [Hmi|Hmi].
    + destruct (proj1 (proj2 (proj2 Hinv2)) m Hmi) as (a & l & Hf & Hs). rewrite lookup_take_lt, Hf by lia. done.
    + rewrite lookup_take_ge by lia. apply Hz. lia.
Qed.

(** ** Ownership *)

Definition held_skb (i : mqnic_tx_info) : list Z := option_list (ti_skb i).
Definition held_map (i : mqnic_tx_info) : list (Z * Z) :=
  if ti_skb i is Some _ then [(ti_dma_addr i, ti_len i)] else [].
Definition held_frags (i : mqnic_tx_info) : list (Z * Z) := if ti_skb i is Some _ then mapped_frags i else [].

(** Sizes, which no operation on an open ring changes: [2^n] slots of [b]
    descriptors. *)
Definition tx_geometry (n : Z) (b : nat) (r : tx_ring) : Prop :=
  1 <= n <= 16 /\ (1 <= b <= MQNIC_MAX_FRAGS)%nat /\
  q_size (tx_q r) = 2 ^ n /\ q_size_mask (tx_q r) = 2 ^ n - 1 /\ q_stride (tx_q r) = MQNIC_DESC_SIZE * Z.of_nat b /\
  tx_desc_block_size r = Z.of_nat b /\ tx_full_size r = 2 ^ (n - 1) /\
  length (tx_info r) = Z.to_nat (2 ^ n) /\ length (tx_desc r) = (Z.to_nat (2 ^ n) * b)%nat /\
  Forall (fun i => length (ti_frags i) = (MQNIC_MAX_FRAGS - 1)%nat) (tx_info r).

(** Slot [j] is in flight with packet [s]: its fields, its block of
    descriptors and its checksum command are those of [s]. *)
Definition slot_ok (b : nat) (r : tx_ring) (j : nat) (s : tx_skb) : Prop :=
  exists i d, tx_info r !! j = Some i /\ ti_skb i = Some (ts_id s) /\ ti_len i = skb_headlen (on_wire b s) /\
    snd <$> mapped_frags i = ts_frags (on_wire b s) /\ block_ok b (j * b) i (tx_desc r) /\
    tx_desc r !! (j * b)%nat = Some d /\ csum_cmd true s = Some (d_csum d).

(** [sent] are the packets accepted so far, [gone] the numbers of those that
    were freed after completion, [c] the consumer pointer without
    wrap-around. *)
Definition tx_slots (n : Z) (b : nat) (sent : list tx_skb) (gone : list nat) (c : nat) (r : tx_ring) : Prop :=
  let p := length sent in let size := Z.to_nat (2 ^ n) in
  q_cons_ptr (tx_q r) = u32 (Z.of_nat c) /\ q_prod_ptr (tx_q r) = u32 (Z.of_nat p) /\
  (c <= p <= c + Z.to_nat (2 ^ (n - 1)))%nat /\
  (tx_stopped r = false -> (p < c + Z.to_nat (2 ^ (n - 1)))%nat) /\
  Forall (fun d => (d < p)%nat) gone /\
  (forall d s, sent !! d = Some s -> d ∉ gone -> (c <= d)%nat /\ slot_ok b r (d mod size) s) /\
  (forall j i, tx_info r !! j = Some i -> is_Some (ti_skb i) ->
     exists d, (c <= d < p)%nat /\ d ∉ gone /\ j = (d mod size)%nat).

(** The live packets and mappings are those of the slots, and [S], [M], [F]
    of the rest of the system. *)
Definition tx_owned (S : list Z) (M F : list (Z * Z)) (r : tx_ring) (k : tmem) : Prop :=
  t_skbs k ≡ₚ (tx_info r ≫= held_skb) ++ S /\
  t_maps k ≡ₚ (tx_info r ≫= held_map) ++ M /\
  t_frags k ≡ₚ (tx_info r ≫= held_frags) ++ F.

Lemma bind_insert {A B} (f : A -> list B) (l : list A) j x y :
  l !! j = Some y -> f y ++ (<[j := x]> l ≫= f) ≡ₚ f x ++ (l ≫= f).
Proof.
  intros Hj. pose proof (lookup_lt_Some _ _ _ Hj).
  rewrite <- (take_drop_middle l j y Hj) at 2. rewrite insert_take_drop by done.
  rewrite !bind_app. cbn [mbind list_bind]. solve_Permutation.
Qed.

(** A slot that holds nothing takes what [f] says [x] holds. *)
Lemma owned_put {B} (f : mqnic_tx_info -> list B) l j x y live rest :
  l !! j = Some y -> f y = [] -> live ≡ₚ (l ≫= f) ++ rest -> f x ++ live ≡ₚ (<[j := x]> l ≫= f) ++ rest.
Proof.
  intros Hj Hy Hp. pose proof (bind_insert f l j x y Hj) as H. rewrite Hy in H. cbn [app] in H.
  rewrite H, Hp. by rewrite app_assoc.
Qed.

(** A slot that is emptied gives it back. *)
Lemma owned_take {B} (f : mqnic_tx_info -> list B) l j x y live rest :
  l !! j = Some y -> f x = [] -> live ≡ₚ (l ≫= f) ++ rest -> live ≡ₚ f y ++ (<[j := x]> l ≫= f) ++ rest.
Proof.
  intros Hj Hx Hp. pose proof (bind_insert f l j x y Hj) as H. rewrite Hx in H. cbn [app] in H.
  rewrite Hp, <- H. by rewrite app_assoc.
Qed.

Lemma held_none i : ti_skb i = None -> held_skb i = [] /\ held_map i = [] /\ held_frags i = [].
Proof. intros H. unfold held_skb, held_map, held_frags. by rewrite H. Qed.

Lemma tx_geometry_size n b r : tx_geometry n b r ->
  (0 < Z.to_nat (2 ^ n))%nat /\ Z.to_nat (2 ^ n) = (2 * Z.to_nat (2 ^ (n - 1)))%nat /\ (0 < Z.to_nat (2 ^ (n - 1)))%nat /\
  2 ^ n <= 2 ^ 16.
Proof.
  intros (Hn & _). assert (0 < 2 ^ (n - 1)) by (apply Z.pow_pos_nonneg; lia).
  assert (2 ^ n = 2 * 2 ^ (n - 1)) by (rewrite <- Z.pow_succ_r by lia; f_equal; lia).
  split_and!; try lia. apply Z.pow_le_mono_r; lia.
Qed.

(** The slot and the block of a pointer. *)
Lemma tx_slot_index n b r x : tx_geometry n b r ->
  Z.to_nat (Z.land (u32 (Z.of_nat x)) (q_size_mask (tx_q r))) = (x mod Z.to_nat (2 ^ n))%nat /\
  Z.to_nat (u32 (Z.land (u32 (Z.of_nat x)) (q_size_mask (tx_q r)) * q_stride (tx_q r)) / MQNIC_DESC_SIZE)
  = (x mod Z.to_nat (2 ^ n) * b)%nat.
Proof.
  intros Hg. destruct (tx_geometry_size _ _ _ Hg) as (Hpos & _ & _ & Hle). destruct Hg as (Hn & Hb & _ & Hm & Hs & _).
  pose proof (ring_index x n ltac:(lia)) as Hi. rewrite Hm, Hs. split; [done|].
  set (z := Z.land _ _) in *. assert (0 <= z) by (apply Z.land_nonneg; left; apply u32_range).
  assert (z = Z.of_nat (x mod Z.to_nat (2 ^ n))) as -> by lia.
  pose proof (Nat.mod_upper_bound x (Z.to_nat (2 ^ n)) ltac:(lia)). unfold MQNIC_DESC_SIZE, MQNIC_MAX_FRAGS in *.
  rewrite u32_id by nia. replace (Z.of_nat (x mod Z.to_nat (2 ^ n)) * (16 * Z.of_nat b))
    with (Z.of_nat (x mod Z.to_nat (2 ^ n) * b) * 16) by nia.
  rewrite Z.div_mul by lia. lia.
Qed.

Lemma tx_slot_some n b r x : tx_geometry n b r ->
  exists i, tx_info r !! (x mod Z.to_nat (2 ^ n))%nat = Some i /\ length (ti_frags i) = (MQNIC_MAX_FRAGS - 1)%nat.
Proof.
  intros Hg. destruct (tx_geometry_size _ _ _ Hg) as (Hpos & _). destruct Hg as (_ & _ & _ & _ & _ & _ & _ & Hl & _ & Hf).
  destruct (lookup_lt_is_Some_2 (tx_info r) (x mod Z.to_nat (2 ^ n))) as [i Hi]; [rewrite Hl; apply Nat.mod_upper_bound; lia|].
  exists i. split; [done|]. by apply (Forall_lookup_1 _ _ _ _ Hf Hi).
Qed.

Lemma tx_block_in n b r x : tx_geometry n b r ->
  (x mod Z.to_nat (2 ^ n) * b + b <= length (tx_desc r))%nat.
Proof.
  intros Hg. destruct (tx_geometry_size _ _ _ Hg) as (Hpos & _). destruct Hg as (_ & Hb & _ & _ & _ & _ & _ & _ & -> & _).
  pose proof (Nat.mod_upper_bound x (Z.to_nat (2 ^ n)) ltac:(lia)). nia.
Qed.

(** The sizes survive changes of one slot and of the contents of the buffer. *)
Lemma tx_geometry_upd n b r r' j i :
  tx_geometry n b r ->
  tx_info r' = <[j := i]> (tx_info r) -> length (ti_frags i) = (MQNIC_MAX_FRAGS - 1)%nat ->
  length (tx_desc r') = length (tx_desc r) ->
  (q_size (tx_q r'), q_size_mask (tx_q r'), q_stride (tx_q r'), tx_desc_block_size r', tx_full_size r')
  = (q_size (tx_q r), q_size_mask (tx_q r), q_stride (tx_q r), tx_desc_block_size r, tx_full_size r) ->
  tx_geometry n b r'.
Proof.
  intros (H1 & H2 & H3 & H4 & H5 & H6 & H7 & H8 & H9 & H10) Hi Hl Hd E. injection E as E1 E2 E3 E4 E5.
  unfold tx_geometry. rewrite Hi, Hd, E1, E2, E3, E4, E5, length_insert. split_and!; try done; try lia.
  by apply Forall_insert.
Qed.

(** The block and the slot of [j] are all [slot_ok] reads. *)
Lemma slot_ok_ext b r r' j s :
  (1 <= b)%nat -> tx_info r' !! j = tx_info r !! j ->
  (forall m, (m < b)%nat -> tx_desc r' !! (j * b + m)%nat = tx_desc r !! (j * b + m)%nat) ->
  slot_ok b r j s -> slot_ok b r' j s.
Proof.
  intros Hb Hi Hd (i & d & H1 & H2 & H3 & H4 & (H0 & H5 & H6) & H7 & H8).
  assert (tx_desc r' !! (j * b)%nat = tx_desc r !! (j * b)%nat) as Hd0 by (rewrite <- (Nat.add_0_r (j * b)); apply Hd; lia).
  exists i, d. rewrite Hi, Hd0. split_and!; try done. split; [done|]. split; [by rewrite Hd0|].
  intros m Hm. rewrite Hd by lia. by apply H6.
Qed.

(** Descriptors less than a lap apart have their own blocks. *)
Lemma tx_slot_neq n c p d :
  1 <= n -> (c <= d < p)%nat -> (p < c + Z.to_nat (2 ^ n))%nat -> (d mod Z.to_nat (2 ^ n) <> p mod Z.to_nat (2 ^ n))%nat.
Proof. intros Hn Hd Hp E. assert (d = p); [|lia]. eapply (mod_inj_lap _ _ c); [..|exact E]; lia. Qed.

Lemma tx_room n b sent gone c r :
  tx_geometry n b r -> tx_slots n b sent gone c r -> (length sent < c + Z.to_nat (2 ^ n))%nat.
Proof. intros Hg (_ & _ & H & _). destruct (tx_geometry_size _ _ _ Hg) as (_ & ? & ? & _). lia. Qed.

(** Packets in flight are not touched by changes of the slot at the producer
    pointer. *)
Lemma slots_keep n b sent gone c r r' i' d s :
  let j := (length sent mod Z.to_nat (2 ^ n))%nat in
  tx_geometry n b r -> tx_slots n b sent gone c r ->
  tx_info r' = <[j := i']> (tx_info r) ->
  (forall x, (x < j * b \/ j * b + b <= x)%nat -> tx_desc r' !! x = tx_desc r !! x) ->
  sent !! d = Some s -> d ∉ gone -> (c <= d)%nat /\ slot_ok b r' (d mod Z.to_nat (2 ^ n)) s.
Proof.
  intros j Hg Hs Hi Hd Hds Hdg. pose proof (tx_room _ _ _ _ _ _ Hg Hs) as Hroom.
  destruct (proj1 (proj2 (proj2 (proj2 (proj2 (proj2 Hs))))) d s Hds Hdg) as [Hcd Hok]. split; [done|].
  pose proof (lookup_lt_Some _ _ _ Hds) as Hdp. destruct Hg as (Hn & Hb & _).
  assert (d mod Z.to_nat (2 ^ n) <> j)%nat as Hne by (apply (tx_slot_neq n c); lia).
  eapply slot_ok_ext; [lia|..|exact Hok].
  - rewrite Hi. by apply list_lookup_insert_ne.
  - intros m Hm. apply Hd. nia.
Qed.

Lemma slots_back n b sent gone c r j j' i i' :
  tx_slots n b sent gone c r -> <[j := i']> (tx_info r) !! j' = Some i -> is_Some (ti_skb i) -> j' <> j \/ ti_skb i' = None ->
  exists d, (c <= d < length sent)%nat /\ d ∉ gone /\ j' = (d mod Z.to_nat (2 ^ n))%nat.
Proof.
  intros Hs Hj Hi Hor. destruct (decide (j' = j)) as [->|Hne].
  - destruct (decide (j < length (tx_info r))%nat).
    + rewrite list_lookup_insert_eq in Hj by done. injection Hj as <-. destruct Hor as [?|E]; [done|].
      rewrite E in Hi. by destruct Hi.
    + rewrite list_insert_ge in Hj by lia. by eapply Hs.
  - rewrite list_lookup_insert_ne in Hj by done. by eapply Hs.
Qed.

(** A packet that was not accepted. *)
Lemma tx_slots_drop n b sent gone c r r' i' :
  let j := (length sent mod Z.to_nat (2 ^ n))%nat in
  tx_geometry n b r -> tx_slots n b sent gone c r ->
  tx_info r' = <[j := i']> (tx_info r) -> ti_skb i' = None ->
  (forall x, (x < j * b \/ j * b + b <= x)%nat -> tx_desc r' !! x = tx_desc r !! x) ->
  (q_cons_ptr (tx_q r'), q_prod_ptr (tx_q r'), tx_stopped r') = (q_cons_ptr (tx_q r), q_prod_ptr (tx_q r), tx_stopped r) ->
  tx_slots n b sent gone c r'.
Proof.
  intros j Hg Hs Hi Hnone Hd E. injection E as E1 E2 E3. pose proof Hs as (H1 & H2 & H3 & H4 & H5 & _).
  unfold tx_slots. rewrite E1, E2, E3. split_and!; try done; try lia.
  - intros d s Hds Hdg. by eapply slots_keep.
  - intros j' i Hj Hsome. rewrite Hi in Hj. eapply slots_back; eauto.
Qed.

(** One that was. *)
Lemma tx_slots_put n b sent gone c r r' i' s :
  let j := (length sent mod Z.to_nat (2 ^ n))%nat in
  tx_geometry n b r -> tx_slots n b sent gone c r ->
  tx_info r' = <[j := i']> (tx_info r) ->
  (forall x, (x < j * b \/ j * b + b <= x)%nat -> tx_desc r' !! x = tx_desc r !! x) ->
  q_cons_ptr (tx_q r') = q_cons_ptr (tx_q r) -> q_prod_ptr (tx_q r') = u32 (Z.of_nat (S (length sent))) ->
  (length sent < c + Z.to_nat (2 ^ (n - 1)))%nat ->
  (tx_stopped r' = false -> (S (length sent) < c + Z.to_nat (2 ^ (n - 1)))%nat) ->
  slot_ok b r' j s -> tx_slots n b (sent ++ [s]) gone c r'.
Proof.
  intros j Hg Hs Hi Hd E1 E2 Hlt Hst Hok. pose proof Hs as (H1 & H2 & H3 & H4 & H5 & _).
  assert (length (sent ++ [s]) = S (length sent)) as Hl by (rewrite length_app; cbn; lia).
  unfold tx_slots. rewrite E1, E2, Hl. split_and!; try done; try lia.
  - eapply Forall_impl; [exact H5|]. cbn. lia.
  - intros d s' Hds Hdg. apply lookup_snoc_Some in Hds as [[Hdl Hds]|[-> ->]]; [by eapply slots_keep|].
    split; [lia|done].
  - intros j' i Hj Hsome. rewrite Hi in Hj. destruct (decide (j' = j)) as [->|Hne].
    + exists (length sent). split; [lia|]. split; [|done]. intros Hin.
      rewrite Forall_forall in H5. apply H5 in Hin. lia.
    + destruct (slots_back n b sent gone c r j j' i i' Hs Hj Hsome (or_introl Hne)) as (d & Hcd & Hdg & ->).
      exists d. split; [lia|done].
Qed.

(** A packet in flight is freed. *)
Lemma tx_slots_free n b sent gone c r r' i' d :
  let j := (d mod Z.to_nat (2 ^ n))%nat in
  tx_geometry n b r -> tx_slots n b sent gone c r -> (c <= d < length sent)%nat -> d ∉ gone ->
  tx_info r' = <[j := i']> (tx_info r) -> ti_skb i' = None -> tx_desc r' = tx_desc r ->
  (q_cons_ptr (tx_q r'), q_prod_ptr (tx_q r'), tx_stopped r') = (q_cons_ptr (tx_q r), q_prod_ptr (tx_q r), tx_stopped r) ->
  tx_slots n b sent (gone ++ [d]) c r'.
Proof.
  intros j Hg Hs Hd Hdg Hi Hnone Hdesc E. injection E as E1 E2 E3.
  pose proof (tx_room _ _ _ _ _ _ Hg Hs) as Hroom. pose proof Hs as (H1 & H2 & H3 & H4 & H5 & H6 & H7).
  assert (forall d', (c <= d' < length sent)%nat -> d' <> d -> (d' mod Z.to_nat (2 ^ n))%nat <> j) as Hinj.
  { intros d' Hd' Hne E. apply Hne. eapply (mod_inj_lap _ _ c); [..|exact E]; lia. }
  unfold tx_slots. rewrite E1, E2, E3. split_and!; try done; try lia.
  - apply Forall_app_2; [done|]. constructor; [lia|constructor].
  - intros d' s Hds Hdg'. rewrite not_elem_of_app, not_elem_of_cons in Hdg'. destruct Hdg' as (Hg1 & Hne & _).
    destruct (H6 d' s Hds Hg1) as [Hcd Hok]. split; [done|]. apply lookup_lt_Some in Hds. destruct Hg as (_ & Hb & _).
    eapply slot_ok_ext; [lia|..|exact Hok]; [|by rewrite Hdesc].
    rewrite Hi. apply list_lookup_insert_ne. apply not_eq_sym, Hinj; [lia|done].
  - intros j' i Hj Hsome. rewrite Hi in Hj.
    destruct (slots_back n b sent gone c r j j' i i' Hs Hj Hsome (or_intror Hnone)) as (d' & Hcd & Hdg' & ->).
    exists d'. split; [done|]. split; [|done]. rewrite not_elem_of_app, not_elem_of_cons. split; [done|].
    split; [|apply not_elem_of_nil]. intros ->. fold j in Hj.
    assert (j < length (tx_info r))%nat as Hjl.
    { destruct Hg as (Hn & _ & _ & _ & _ & _ & _ & -> & _). apply Nat.mod_upper_bound.
      pose proof (size_nat n ltac:(lia)). lia. }
    rewrite list_lookup_insert_eq in Hj by done. injection Hj as <-. rewrite Hnone in Hsome. by destruct Hsome.
Qed.

(** The consumer pointer passes a free slot. *)
Lemma tx_slots_skip n b sent gone c r i :
  tx_geometry n b r -> tx_slots n b sent gone c r -> (c < length sent)%nat ->
  tx_info r !! (c mod Z.to_nat (2 ^ n))%nat = Some i -> ti_skb i = None ->
  tx_slots n b sent gone (S c) (set_tx_q (set_q_cons (u32 (Z.of_nat (S c))) (tx_q r)) r).
Proof.
  intros Hg Hs Hlt Hi Hnone. pose proof Hs as (H1 & H2 & H3 & H4 & H5 & H6 & H7).
  assert (c ∈ gone) as Hc.
  { destruct (decide (c ∈ gone)) as [|Hc]; [done|]. destruct (lookup_lt_is_Some_2 sent c Hlt) as [s Hs'].
    destruct (H6 c s Hs' Hc) as (_ & i' & d & Hi' & Hsk & _). rewrite Hi in Hi'. by simplify_eq. }
  unfold tx_slots. split_and!; try done; try lia.
  - intros d s Hds Hdg. destruct (H6 d s Hds Hdg) as [Hcd Hok]. split; [|exact Hok].
    assert (d <> c) by (by intros ->). lia.
  - intros j i' Hj Hsome. destruct (H7 j i' Hj Hsome) as (d & Hd & Hdg & ->). exists d. split; [|done].
    assert (d <> c) by (by intros ->). lia.
Qed.

(** ** The operations keep the invariant *)

Definition tx_inv (n : Z) (b : nat) (S : list Z) (M F : list (Z * Z)) (sent : list tx_skb) (gone : list nat) (c : nat)
    (r : tx_ring) (k : tmem) : Prop :=
  tx_geometry n b r /\ tx_slots n b sent gone c r /\ tx_owned S M F r k.

(** The packets the driver was ever given. *)
Definition all_skbs (k : tmem) : list Z := t_skbs k ++ t_sent k ++ t_dropped k.

(** What only opening and closing change. *)
Definition tx_fixed (r : tx_ring) :=
  (q_buf (tx_q r), q_buf_dma_addr (tx_q r), q_buf_size (tx_q r), q_index (tx_q r), q_hw_addr (tx_q r), q_enabled (tx_q r),
   tx_priv r, tx_cq r).

Lemma tx_owned_ext S M F r r' k k' :
  tx_info r' = tx_info r -> t_skbs k' = t_skbs k -> t_maps k' = t_maps k -> t_frags k' = t_frags k ->
  tx_owned S M F r k -> tx_owned S M F r' k'.
Proof. intros E1 E2 E3 E4. unfold tx_owned. by rewrite E1, E2, E3, E4. Qed.

Lemma tx_frags_length n b r j i :
  tx_geometry n b r -> tx_info r !! j = Some i -> length (ti_frags i) = (MQNIC_MAX_FRAGS - 1)%nat.
Proof. intros (_ & _ & _ & _ & _ & _ & _ & _ & _ & Hf) Hi. by apply (Forall_lookup_1 _ _ _ _ Hf Hi). Qed.

Lemma free_tx_desc_ok n b S M F sent gone c r k d s :
  tx_inv n b S M F sent gone c r k -> sent !! d = Some s -> d ∉ gone ->
  exists r' k', mqnic_free_tx_desc (d mod Z.to_nat (2 ^ n)) r k = Some (r', k') /\
    tx_inv n b S M F sent (gone ++ [d]) c r' k' /\
    t_sent k' = t_sent k ++ [ts_id s] /\ all_skbs k' ≡ₚ all_skbs k /\ tx_q r' = tx_q r /\ tx_fixed r' = tx_fixed r /\
    (exists i, tx_info r' !! (d mod Z.to_nat (2 ^ n))%nat = Some i /\ ti_skb i = None).
Proof.
  intros (Hg & Hs & HS & HM & HF) Hd Hdg. pose proof Hs as (_ & _ & _ & _ & _ & H6 & _).
  destruct (H6 d s Hd Hdg) as [Hcd (i & dd & Hi & Hsk & _ & Hfr & (Hcnt & _) & _)].
  set (j := (d mod Z.to_nat (2 ^ n))%nat) in *. pose proof (tx_frags_length _ _ _ _ _ Hg Hi) as Hlen.
  unfold mqnic_free_tx_desc. rewrite Hi. cbn [mbind option_bind].
  set (i' := mk_tx_info None 0 _ _ _ _). destruct (held_none i' eq_refl) as (N1 & N2 & N3).
  pose proof (owned_take held_skb _ _ i' _ _ _ Hi N1 HS) as HS'. pose proof (owned_take held_map _ _ i' _ _ _ Hi N2 HM) as HM'.
  pose proof (owned_take held_frags _ _ i' _ _ _ Hi N3 HF) as HF'.
  unfold held_skb at 1 in HS'. unfold held_map at 1 in HM'. unfold held_frags at 1 in HF'. rewrite Hsk in HS', HM', HF'.
  cbn [option_list app] in HS', HM'.
  destruct (remove_one_perm _ _ _ HM') as (lm & Em & Hlm). unfold dma_unmap_single. rewrite Em. cbn [mbind option_bind].
  match goal with |- context [unmap_frags _ 0 _ ?k1] =>
    destruct (unmap_frags_ok (ti_frags i) 0 (ti_frag_count i) ((<[j := i']> (tx_info r) ≫= held_frags) ++ F) k1)
      as (k2 & -> & Hf2 & Hr2) end.
  { destruct Hg as (_ & Hb & _). lia. }
  { rewrite drop_0. exact HF'. }
  unfold t_rest in Hr2. cbn [t_skbs t_maps t_sent t_dropped t_stamps] in Hr2. injection Hr2 as R1 R2 R3 R4 R5.
  cbn [mbind option_bind]. rewrite Hsk. unfold napi_consume_skb. rewrite R1.
  destruct (remove_one_perm _ _ _ HS') as (ls & Es & Hls). rewrite Es. cbn [mbind option_bind].
  do 2 eexists. split; [reflexivity|].
  pose proof (lookup_lt_Some _ _ _ Hd) as Hdl. pose proof (lookup_lt_Some _ _ _ Hi) as Hil.
  split_and!; try done.
  - split_and!.
    + eapply (tx_geometry_upd n b r _ j i'); try done.
    + eapply (tx_slots_free n b sent gone c r _ i' d); done.
    + unfold tx_owned. cbn [t_skbs t_maps t_frags set_tx_slot upd_tx tx_info]. rewrite R2. by split_and!.
  - cbn [t_sent]. by rewrite R3.
  - unfold all_skbs. cbn [t_skbs t_sent t_dropped]. rewrite R3, R4. apply remove_one_Some in Es. rewrite Es. solve_Permutation.
  - exists i'. split; [|done]. cbn [set_tx_slot upd_tx tx_info]. by apply list_lookup_insert_eq.
Qed.

(** *** Transmitting *)

Lemma tx_full_spec n b r (c p : nat) :
  tx_geometry n b r -> q_cons_ptr (tx_q r) = u32 (Z.of_nat c) -> q_prod_ptr (tx_q r) = u32 (Z.of_nat p) ->
  (c <= p <= c + Z.to_nat (2 ^ n))%nat ->
  mqnic_is_tx_ring_full r = bool_decide (c + Z.to_nat (2 ^ (n - 1)) <= p)%nat.
Proof.
  intros Hg Hc Hp Hcp. destruct (tx_geometry_size _ _ _ Hg) as (_ & _ & _ & Hle).
  destruct Hg as (Hn & _ & _ & _ & _ & _ & Hf & _). unfold mqnic_is_tx_ring_full. rewrite Hc, Hp, Hf.
  assert (u32 (u32 (Z.of_nat p) - u32 (Z.of_nat c)) = Z.of_nat (p - c)) as ->.
  { unfold u32. rewrite <- Zminus_mod, Z.mod_small; lia. }
  case_bool_decide as Hd; [apply Z.leb_le|apply Z.leb_gt]; lia.
Qed.

Lemma on_wire_frags b s : (1 <= b)%nat -> (length (ts_frags (on_wire b s)) < b)%nat.
Proof.
  intros Hb. unfold on_wire. destruct (needs_linearize _ s) eqn:E; [cbn; lia|].
  unfold needs_linearize in E. apply orb_false_iff in E as [E _]. rewrite Z.gtb_ltb in E. apply Z.ltb_ge in E. lia.
Qed.

Lemma on_wire_id b s : ts_id (on_wire b s) = ts_id s.
Proof. unfold on_wire. by destruct (needs_linearize _ _). Qed.

Lemma csum_cmd_help help s cmd : csum_cmd help s = Some cmd -> csum_cmd true s = Some cmd.
Proof. unfold csum_cmd. destruct (ts_partial s) as [[st off]|]; [|done]. destruct (_ || _); [|done]. by destruct help. Qed.

(** The slot at the producer pointer is empty. *)
Lemma tx_prod_slot n b S M F sent gone c r k :
  tx_inv n b S M F sent gone c r k ->
  exists i, tx_info r !! (length sent mod Z.to_nat (2 ^ n))%nat = Some i /\ ti_skb i = None.
Proof.
  intros (Hg & Hs & _). destruct (tx_slot_some n b r (length sent) Hg) as (i & Hi & _). exists i. split; [done|].
  destruct (ti_skb i) eqn:E; [|done]. pose proof (tx_room _ _ _ _ _ _ Hg Hs) as Hroom.
  destruct Hs as (_ & _ & _ & _ & _ & _ & H7). destruct (H7 _ _ Hi) as (d & Hd & _ & Hj); [by rewrite E|].
  destruct Hg as (Hn & _). by destruct (tx_slot_neq n c (length sent) d ltac:(lia) Hd Hroom).
Qed.

(** Dropping a packet after its slot was written to. *)
Lemma tx_drop_ok n b S M F sent gone c r k r' k' i' skb :
  let j := (length sent mod Z.to_nat (2 ^ n))%nat in
  tx_inv n b (ts_id skb :: S) M F sent gone c r k ->
  tx_info r' = <[j := i']> (tx_info r) -> ti_skb i' = None -> length (ti_frags i') = (MQNIC_MAX_FRAGS - 1)%nat ->
  length (tx_desc r') = length (tx_desc r) ->
  (forall x, (x < j * b \/ j * b + b <= x)%nat -> tx_desc r' !! x = tx_desc r !! x) ->
  (tx_q r', tx_stopped r', tx_desc_block_size r', tx_full_size r') = (tx_q r, tx_stopped r, tx_desc_block_size r, tx_full_size r) ->
  (t_skbs k', t_maps k', t_sent k', t_dropped k') = (t_skbs k, t_maps k, t_sent k, t_dropped k) -> t_frags k' ≡ₚ t_frags k ->
  exists k'', dev_kfree_skb_any (ts_id skb) k' = Some k'' /\ tx_inv n b S M F sent gone c (count_dropped r') k'' /\
    t_sent k'' = t_sent k /\ t_dropped k'' = t_dropped k ++ [ts_id skb] /\ all_skbs k'' ≡ₚ all_skbs k.
Proof.
  intros j Hinv Hi Hnone Hl Hdl Hd E Ek Hf. destruct (tx_prod_slot _ _ _ _ _ _ _ _ _ _ Hinv) as (i & Hji & Hin). fold j in Hji.
  destruct Hinv as (Hg & Hs & HS & HM & HF). injection E as E1 E2 E3 E4. injection Ek as K1 K2 K3 K4.
  destruct (held_none i Hin) as (N1 & N2 & N3). destruct (held_none i' Hnone) as (N1' & N2' & N3').
  pose proof (owned_put held_skb _ _ i' _ _ _ Hji N1 HS) as HS'. pose proof (owned_put held_map _ _ i' _ _ _ Hji N2 HM) as HM'.
  pose proof (owned_put held_frags _ _ i' _ _ _ Hji N3 HF) as HF'. rewrite N1' in HS'. rewrite N2' in HM'. rewrite N3' in HF'.
  cbn [app] in HS', HM', HF'. rewrite <- Hf in HF'. unfold dev_kfree_skb_any. rewrite K1.
  destruct (remove_one_perm (ts_id skb) (t_skbs k) ((<[j := i']> (tx_info r) ≫= held_skb) ++ S)) as (l & El & Hl');
    [rewrite HS'; solve_Permutation|]. rewrite El. cbn [mbind option_bind].
  eexists. split; [reflexivity|]. cbn [t_sent t_dropped all_skbs t_skbs]. rewrite K3, K4.
  split_and!; try done.
  - split_and!.
    + eapply (tx_geometry_upd n b r _ j i'); try done. cbn. by rewrite E1, E3, E4.
    + eapply (tx_slots_drop n b sent gone c r _ i'); try done. cbn. by rewrite E1, E2.
    + unfold tx_owned. cbn [t_skbs t_maps t_frags count_dropped tx_info]. rewrite Hi, K2. by split_and!.
  - unfold all_skbs. cbn [t_skbs t_sent t_dropped]. apply remove_one_Some in El. rewrite El. solve_Permutation.
Qed.

(** Accepting a packet: [r1] is the ring after the mapping, [r2] after the
    pointer was advanced. *)
Lemma tx_accept_ok n b S M F sent gone c r k r2 k' i' skb :
  let j := (length sent mod Z.to_nat (2 ^ n))%nat in
  tx_inv n b (ts_id skb :: S) M F sent gone c r k -> (length sent < c + Z.to_nat (2 ^ (n - 1)))%nat ->
  tx_info r2 = <[j := i']> (tx_info r) -> length (ti_frags i') = (MQNIC_MAX_FRAGS - 1)%nat -> ti_skb i' = Some (ts_id skb) ->
  length (tx_desc r2) = length (tx_desc r) ->
  (forall x, (x < j * b \/ j * b + b <= x)%nat -> tx_desc r2 !! x = tx_desc r !! x) ->
  tx_q r2 = set_q_prod (u32 (Z.of_nat (length sent + 1))) (tx_q r) ->
  (tx_desc_block_size r2, tx_full_size r2) = (tx_desc_block_size r, tx_full_size r) ->
  (tx_stopped r2 = false -> (length sent + 1 < c + Z.to_nat (2 ^ (n - 1)))%nat) ->
  slot_ok b r2 j skb -> t_skbs k' = t_skbs k -> t_maps k' = (ti_dma_addr i', ti_len i') :: t_maps k ->
  t_frags k' ≡ₚ mapped_frags i' ++ t_frags k ->
  tx_inv n b S M F (sent ++ [skb]) gone c r2 k'.
Proof.
  intros j Hinv Hlt Hi Hl Hsk Hdl Hd Hq E Hst Hok K1 K2 K3.
  destruct (tx_prod_slot _ _ _ _ _ _ _ _ _ _ Hinv) as (i & Hji & Hin). fold j in Hji.
  destruct Hinv as (Hg & Hs & HS & HM & HF). injection E as E1 E2. destruct (held_none i Hin) as (N1 & N2 & N3).
  split_and!.
  - eapply (tx_geometry_upd n b r _ j i'); try done. by rewrite Hq, E1, E2.
  - eapply (tx_slots_put n b sent gone c r _ i'); try done; try (by rewrite Hq); rewrite ?Nat.add_1_r in *; [|done].
    by rewrite Hq.
  - pose proof (owned_put held_skb _ _ i' _ _ _ Hji N1 HS) as HS'. pose proof (owned_put held_map _ _ i' _ _ _ Hji N2 HM) as HM'.
    pose proof (owned_put held_frags _ _ i' _ _ _ Hji N3 HF) as HF'.
    unfold held_skb at 1 in HS'. unfold held_map at 1 in HM'. unfold held_frags at 1 in HF'. rewrite Hsk in HS', HM', HF'.
    unfold tx_owned. rewrite Hi, K1, K2, K3. split_and!; try done.
    cbn [option_list app] in HS'. apply (Permutation_cons_inv (a := ts_id skb)). rewrite HS'. solve_Permutation.
Qed.

(** The outcome of a transmission: accepted, with a slot, or dropped. *)
Definition xmit_outcome (n : Z) (b : nat) (S : list Z) (M F : list (Z * Z)) (sent : list tx_skb) (gone : list nat) (c : nat)
    (r : tx_ring) (k : tmem) (skb : tx_skb) (r' : tx_ring) (k' : tmem) : Prop :=
  t_sent k' = t_sent k /\ all_skbs k' ≡ₚ all_skbs k /\
  ((q_prod_ptr (tx_q r') = u32 (Z.of_nat (length sent + 1)) /\ t_dropped k' = t_dropped k /\
    tx_inv n b S M F (sent ++ [skb]) gone c r' k') \/
   (q_prod_ptr (tx_q r') = q_prod_ptr (tx_q r) /\ t_dropped k' = t_dropped k ++ [ts_id skb] /\
    tx_inv n b S M F sent gone c r' k')).

Section Xmit.
Context {hw : Type} `{!Mmio hw}.

Lemma xmit_enqueue_ok n b more len (c p : nat) r (w : qworld hw) :
  tx_geometry n b r -> q_cons_ptr (tx_q r) = u32 (Z.of_nat c) -> q_prod_ptr (tx_q r) = u32 (Z.of_nat p) ->
  tx_stopped r = false -> (c <= p < c + Z.to_nat (2 ^ n))%nat ->
  exists r' w', xmit_enqueue more len r w = (r', w') /\ tx_q r' = set_q_prod (u32 (Z.of_nat (p + 1))) (tx_q r) /\
    tx_fixed r' = tx_fixed r /\
    (tx_desc_block_size r', tx_full_size r') = (tx_desc_block_size r, tx_full_size r) /\
    tx_info r' = tx_info r /\ tx_desc r' = tx_desc r /\
    (tx_stopped r' = false -> (p + 1 < c + Z.to_nat (2 ^ (n - 1)))%nat) /\ w_fixed w' = w_fixed w.
Proof.
  intros Hg Hc Hp Hst Hcp. unfold xmit_enqueue. set (r1 := set_tx_q _ _).
  assert (tx_q r1 = set_q_prod (u32 (Z.of_nat (p + 1))) (tx_q r)) as Hq1
    by (rewrite Nat.add_1_r, <- u32_succ, <- Hp; done).
  assert (forall bb, mqnic_is_tx_ring_full (if bb : bool then set_tx_stopped true r1 else r1) = mqnic_is_tx_ring_full r1) as Hsame
    by (by intros []).
  rewrite Hsame, (tx_full_spec n b r1 c (p + 1)); [|exact Hg|by rewrite Hq1|by rewrite Hq1|lia].
  case_bool_decide; cbn [andb negb]; do 2 eexists; (split; [reflexivity|]); (split; [exact Hq1|]);
    rewrite ?orb_true_r; split_and!; try done; try lia; [apply write_ctrl_fixed|].
  by destruct (_ || _); [apply write_ctrl_fixed|].
Qed.

Lemma xmit_ring_ok env xe n b S M F sent gone c r k (w : qworld hw) skb :
  tx_inv n b (ts_id skb :: S) M F sent gone c r k -> tx_stopped r = false ->
  exists r' k' w', xmit_ring env xe skb r k w = Some (r', k', w') /\
    tx_fixed r' = tx_fixed r /\ w_fixed w' = w_fixed w /\ xmit_outcome n b S M F sent gone c r k skb r' k'.
Proof.
  intros Hinv Hst. pose proof Hinv as (Hg & Hs & _). pose proof Hs as (_ & Hp & Hcp & Hroom & _). specialize (Hroom Hst).
  pose proof Hg as (Hn & Hb & _ & _ & _ & Hbs & _).
  destruct (tx_prod_slot _ _ _ _ _ _ _ _ _ _ Hinv) as (i0 & Hi0 & Hnone).
  pose proof (tx_frags_length _ _ _ _ _ Hg Hi0) as Hl0.
  destruct (tx_slot_index n b r (length sent) Hg) as [Eidx Ebase]. pose proof (tx_block_in n b r (length sent) Hg) as Hin.
  unfold xmit_ring. rewrite Hp, Eidx, Ebase. set (j := (length sent mod Z.to_nat (2 ^ n))%nat) in *.
  rewrite Hi0. cbn [mbind option_bind]. set (info0 := mk_tx_info _ _ _ _ _ _). set (r0 := set_tx_slot j info0 r).
  assert (tx_info r0 = <[j := info0]> (tx_info r)) as Er0 by done.
  destruct (csum_cmd (xe_csum_help xe) skb) as [cmd|] eqn:Ecmd.
  2: { destruct (tx_drop_ok n b S M F sent gone c r k r0 k info0 skb Hinv) as (k2 & -> & H1 & H2 & H3 & H4); try done.
       do 3 eexists. split; [reflexivity|]. do 2 (split; [done|]). split; [done|]. split; [done|]. by right. }
  destruct (lookup_lt_is_Some_2 (tx_desc r) (j * b)) as [d Hd]; [lia|].
  change (tx_desc r0) with (tx_desc r). rewrite Hd. cbn [mbind option_bind].
  set (desc1 := <[(j * b)%nat := _]> (tx_desc r)). set (r1 := upd_tx _ _ _ r0).
  assert (length desc1 = length (tx_desc r)) as Hld1 by apply length_insert.
  assert (forall x, (x < j * b \/ j * b + b <= x)%nat -> desc1 !! x = tx_desc r !! x) as Hd1
    by (intros x Hx; apply list_lookup_insert_ne; lia).
  change (tx_desc_block_size r1) with (tx_desc_block_size r). rewrite Hbs.
  destruct (needs_linearize (Z.of_nat b) skb && negb (xe_linearize xe)) eqn:Elin.
  { destruct (tx_drop_ok n b S M F sent gone c r k r1 k info0 skb Hinv) as (k2 & -> & H1 & H2 & H3 & H4); try done.
    do 3 eexists. split; [reflexivity|]. do 2 (split; [done|]). split; [done|]. split; [done|]. by right. }
  fold (on_wire b skb).
  destruct (map_skb_ok (xe_dmas xe) b (j * b) info0 desc1 (on_wire b skb) k) as
    (ok & info2 & desc2 & k2 & E2 & Hfr & Hl2 & Hk2 & Hok); [pose proof (on_wire_frags b skb); lia|lia|done|].
  change (tx_desc r1) with desc1. rewrite E2. cbn [mbind option_bind]. injection Hk2 as K1 K2 K3 K4.
  pose proof Hfr as (Hld2 & Hcs & Hout).
  assert (forall x, (x < j * b \/ j * b + b <= x)%nat -> desc2 !! x = tx_desc r !! x) as Hd2
    by (intros x Hx; rewrite Hout by done; by apply Hd1).
  change (tx_info r1) with (<[j := info0]> (tx_info r)). rewrite list_insert_insert_eq.
  destruct ok; cbn [negb].
  2: { destruct Hok as (Hn2 & HM2 & HF2). set (r2 := upd_tx _ _ _ r1).
       destruct (tx_drop_ok n b S M F sent gone c r k r2 k2 info2 skb Hinv) as (k3 & -> & H1 & H2 & H3 & H4); try done.
       - cbn. by rewrite Hld2.
       - cbn. by rewrite K1, K2, K3, HM2.
       - do 3 eexists. split; [reflexivity|]. do 2 (split; [done|]). split; [done|]. split; [done|]. by right. }
  destruct Hok as (Hsk & Hlen & Hfrs & Hblk & HM2 & HF2). rewrite on_wire_id in Hsk.
  set (r2 := upd_tx _ _ _ r1).
  destruct (xmit_enqueue_ok n b (xe_more xe) (ts_len skb) c (length sent) r2 w) as
    (r3 & w3 & -> & Hq3 & Hf3 & Hg3 & Hi3 & Hd3 & Hst3 & Hw3); [|apply Hs|done|done|destruct (tx_geometry_size _ _ _ Hg); lia|].
  { eapply (tx_geometry_upd n b r _ j info2); try done. cbn. lia. }
  do 3 eexists. split; [reflexivity|]. split; [by rewrite Hf3|]. split; [done|].
  unfold xmit_outcome, all_skbs. rewrite K1, K2, K3. split; [done|]. split; [done|]. left.
  split; [by rewrite Hq3|]. split; [done|].
  eapply (tx_accept_ok n b S M F sent gone c r k r3 k2 info2 skb); try done; fold j; rewrite ?Hd3; cbn [r2 upd_tx tx_desc]; try done.
  - lia.
  - destruct (lookup_lt_is_Some_2 desc2 (j * b)) as [d2 Hd2']; [lia|]. exists info2, d2.
    rewrite Hi3, Hd3. cbn [r2 upd_tx tx_desc tx_info]. split_and!; try done.
    + apply list_lookup_insert_eq. by eapply lookup_lt_Some.
    + specialize (Hcs (j * b)%nat). rewrite Hd2' in Hcs. unfold desc1 in Hcs.
      rewrite list_lookup_insert_eq in Hcs by lia. cbn in Hcs. injection Hcs as ->. by eapply csum_cmd_help.
Qed.
End Xmit.

(** *** Completions *)

(** The packets with numbers [l]. *)
Definition ids (sent : list tx_skb) (l : list nat) : list Z := omap (fun d => ts_id <$> sent !! d) l.

(** Completions [x .. y - 1] are in the queue, for the descriptors [D x ..
    D (y - 1)]: different ones, all in flight. *)
Definition cpls_pending (n m : Z) (sent : list tx_skb) (gone : list nat) (cq : mqnic_cq) (ev : nat -> mqnic_cpl) (D : nat -> nat)
    (x y : nat) : Prop :=
  q_size (cq_q cq) = 2 ^ m /\ q_size_mask (cq_q cq) = 2 ^ m - 1 /\
  ring_view cpl_phase m (cq_cpls cq) ev x y /\
  (forall z, (x <= z < y)%nat -> Z.to_nat (Z.land (cpl_index (ev z)) (2 ^ n - 1)) = (D z mod Z.to_nat (2 ^ n))%nat /\
     (D z < length sent)%nat /\ D z ∉ gone) /\
  (forall z z', (x <= z < y)%nat -> (x <= z' < y)%nat -> D z = D z' -> z = z').

Section Poll.
Context {hw : Type} `{!Mmio hw}.

Lemma tx_read_cpl_ts_frame phc r cpl (w : qworld hw) t r' w' :
  tx_read_cpl_ts phc r cpl w = (t, r', w') -> (exists s v, r' = set_tx_ts s v r) /\ w_fixed w' = w_fixed w.
Proof. unfold tx_read_cpl_ts, mqnic_read_cpl_ts. intros E. repeat case_match; simplify_eq; eauto. Qed.

Lemma tx_inv_stamp n b S M F sent gone c r k s v skb t :
  tx_inv n b S M F sent gone c r k -> tx_inv n b S M F sent gone c (set_tx_ts s v r) (skb_tstamp_tx skb t k).
Proof. by destruct skb. Qed.

(** A turn of the loop frees the packet of its completion. *)
Lemma tx_cq_step n m b S M F sent gone c env budget cq ev D x y done r k (w : qworld hw) :
  cpls_pending n m sent gone cq ev D x y -> (x < y)%nat -> tx_inv n b S M F sent gone c r k ->
  exists r' k' w', tx_cq_loop env (Datatypes.S budget) cq (u32 (Z.of_nat x)) done r k w
    = tx_cq_loop env budget cq (u32 (Z.of_nat (Datatypes.S x))) (Datatypes.S done) r' k' w' /\
    tx_inv n b S M F sent (gone ++ [D x]) c r' k' /\ t_sent k' = t_sent k ++ ids sent [D x] /\
    all_skbs k' ≡ₚ all_skbs k /\ tx_q r' = tx_q r /\ tx_fixed r' = tx_fixed r /\ w_fixed w' = w_fixed w.
Proof.
  intros (Hs & Hmk & Hv & HD & _) Hlt Hinv. cbn [tx_cq_loop]. rewrite Hmk, Hs.
  destruct (ring_view_entry cpl_phase m _ _ _ _ Hv) as (cpl & -> & Hrdy & Hev). cbn [mbind option_bind].
  rewrite bool_decide_eq_true_2 in Hrdy by done. unfold entry_ready in Hrdy. apply negb_true_iff in Hrdy. rewrite Hrdy, (Hev Hlt).
  destruct (HD x) as (Hidx & Hdl & Hdg); [lia|]. destruct (lookup_lt_is_Some_2 sent (D x) Hdl) as [s Hs'].
  pose proof Hinv as (Hg & _). destruct (tx_slot_some n b r (D x) Hg) as (i & Hi & _).
  pose proof Hg as (_ & _ & _ & -> & _). rewrite Hidx, Hi. cbn [mbind option_bind].
  set (pre := if ti_ts_requested i then _ else _).
  assert (exists r1 k1 w1, pre = (r1, k1, w1) /\ tx_inv n b S M F sent gone c r1 k1 /\ tx_q r1 = tx_q r /\ tx_fixed r1 = tx_fixed r /\
            t_sent k1 = t_sent k /\ all_skbs k1 = all_skbs k /\ w_fixed w1 = w_fixed w)
    as (r1 & k1 & w1 & -> & Hinv1 & Hq1 & Hf1 & Hs1 & Ha1 & Hw1).
  { unfold pre. destruct (ti_ts_requested i); [|by do 3 eexists].
    destruct (tx_read_cpl_ts _ _ _ _) as [[t r1] w1] eqn:E. apply tx_read_cpl_ts_frame in E as [(ss & v & ->) Hw].
    do 3 eexists. split; [reflexivity|]. split; [by apply tx_inv_stamp|]. by destruct (ti_skb i). }
  destruct (free_tx_desc_ok n b S M F sent gone c r1 k1 (D x) s Hinv1 Hs' Hdg) as (r2 & k2 & -> & Hinv2 & Hs2 & Ha2 & Hq2 & Hf2 & _).
  cbn [mbind option_bind]. rewrite u32_succ. exists r2, k2, w1. split; [reflexivity|].
  unfold ids. cbn [omap list_omap]. rewrite Hs'. cbn [fmap option_fmap option_map].
  rewrite Hs2, Hs1, Ha2, Ha1, Hq2, Hf2. by split_and!.
Qed.

Lemma cpls_pending_consume n m sent gone cq ev D x y :
  cpls_pending n m sent gone cq ev D x y -> (x < y)%nat -> cpls_pending n m sent (gone ++ [D x]) cq ev D (S x) y.
Proof.
  intros (Hs & Hmk & Hv & HD & Hinj) Hlt. split_and!; try done.
  - by apply ring_view_consume.
  - intros z Hz. destruct (HD z) as (H1 & H2 & H3); [lia|]. split_and!; try done.
    rewrite not_elem_of_app, not_elem_of_cons. split; [done|]. split; [|apply not_elem_of_nil].
    intros E. apply Hinj in E; lia.
  - intros z z' Hz Hz'. apply Hinj; lia.
Qed.

Lemma tx_cq_loop_ok n m b S M F sent c env budget cq ev D x y gone done r k (w : qworld hw) :
  cpls_pending n m sent gone cq ev D x y -> tx_inv n b S M F sent gone c r k ->
  let l := D <$> seq x (min budget (y - x)) in
  exists r' k' w', tx_cq_loop env budget cq (u32 (Z.of_nat x)) done r k w
    = Some ((done + length l)%nat, u32 (Z.of_nat (x + length l)), r', k', w') /\
    tx_inv n b S M F sent (gone ++ l) c r' k' /\ t_sent k' = t_sent k ++ ids sent l /\
    all_skbs k' ≡ₚ all_skbs k /\ tx_q r' = tx_q r /\ tx_fixed r' = tx_fixed r /\ w_fixed w' = w_fixed w.
Proof.
  revert x gone done r k w. induction budget as [|budget IH]; intros x gone done r k w Hp Hinv.
  { exists r, k, w. cbn. rewrite !Nat.add_0_r, !app_nil_r. by split_and!. }
  destruct (decide (x < y)%nat) as [Hlt|Hge].
  - destruct (tx_cq_step n m b S M F sent gone c env budget cq ev D x y done r k w Hp Hlt Hinv)
      as (r1 & k1 & w1 & -> & Hinv1 & Hs1 & Ha1 & Hq1 & Hf1 & Hw1).
    destruct (IH (Datatypes.S x) _ (Datatypes.S done) r1 k1 w1 (cpls_pending_consume _ _ _ _ _ _ _ _ _ Hp Hlt) Hinv1)
      as (r2 & k2 & w2 & E & Hinv2 & Hs2 & Ha2 & Hq2 & Hf2 & Hw2).
    replace (min (Datatypes.S budget) (y - x)) with (Datatypes.S (min budget (y - Datatypes.S x))) by lia.
    exists r2, k2, w2. cbn [seq fmap list_fmap length]. rewrite E, !Nat.add_succ_comm, Hs2, Hs1, Ha2, Ha1, Hq2, Hf2, Hw2.
    rewrite <- !app_assoc in *. cbn [app] in *. split_and!; try done. f_equal.
    unfold ids. cbn [omap list_omap]. by destruct (ts_id <$> _).
  - replace (min (Datatypes.S budget) (y - x)) with 0%nat by lia. cbn [seq fmap list_fmap length].
    destruct Hp as (Hs & Hmk & Hv & _). destruct (ring_view_entry cpl_phase m _ _ _ _ Hv) as (cpl & Hcpl & Hrdy & _).
    rewrite bool_decide_eq_false_2 in Hrdy by done. unfold entry_ready in Hrdy. apply negb_false_iff in Hrdy.
    cbn [tx_cq_loop]. rewrite Hmk, Hs, Hcpl. cbn [mbind option_bind]. rewrite Hrdy.
    exists r, k, w. rewrite !Nat.add_0_r, !app_nil_r. by split_and!.
Qed.
End Poll.

(** The consumer pointer stops at the first packet still in flight. *)
Definition tx_tight (sent : list tx_skb) (gone : list nat) (c : nat) : Prop := c = length sent \/ c ∉ gone.

Lemma tx_ring_loop_cons fuel r q z :
  q_prod_ptr q = q_prod_ptr (tx_q r) -> q_size_mask q = q_size_mask (tx_q r) ->
  tx_ring_loop fuel (set_tx_q q r) z = tx_ring_loop fuel r z.
Proof.
  intros E1 E2. revert z. induction fuel as [|fuel IH]; intros z; [done|].
  cbn [tx_ring_loop set_tx_q upd_tx tx_q tx_info]. rewrite E1, E2. destruct (z =? _); [done|].
  destruct (tx_info r !! _) as [i|]; [|done]. cbn [mbind option_bind]. destruct (ti_skb i); [done|]. apply IH.
Qed.

Lemma set_cons_id r c : q_cons_ptr (tx_q r) = c -> set_tx_q (set_q_cons c (tx_q r)) r = r.
Proof. intros <-. by destruct r as [[]]. Qed.

Lemma tx_ring_loop_ok n b sent gone fuel c r :
  tx_geometry n b r -> tx_slots n b sent gone c r -> (length sent - c < fuel)%nat ->
  exists c', tx_ring_loop fuel r (u32 (Z.of_nat c)) = Some (u32 (Z.of_nat c')) /\ (c <= c' <= length sent)%nat /\
    tx_slots n b sent gone c' (set_tx_q (set_q_cons (u32 (Z.of_nat c')) (tx_q r)) r) /\ tx_tight sent gone c'.
Proof.
  remember (length sent - c)%nat as d eqn:Hd. revert fuel c r Hd.
  induction d as [|d IH]; intros fuel c r Hd Hg Hs Hf; (destruct fuel as [|fuel]; [lia|]); cbn [tx_ring_loop];
    pose proof Hs as (Hc & Hp & Hcp & _); rewrite Hp.
  - assert (c = length sent) as -> by lia. rewrite Z.eqb_refl. exists (length sent).
    rewrite set_cons_id by done. split_and!; try done. by left.
  - destruct (tx_geometry_size _ _ _ Hg) as (? & ? & _). pose proof Hg as (Hn & _).
    rewrite (proj2 (Z.eqb_neq _ _)) by (apply (u32_ptr_neq n); lia).
    rewrite (proj1 (tx_slot_index n b r c Hg)). destruct (tx_slot_some n b r c Hg) as (i & Hi & _). rewrite Hi.
    cbn [mbind option_bind]. destruct (ti_skb i) as [id|] eqn:Hid.
    + exists c. rewrite set_cons_id by done. split_and!; try done; try lia. right.
      destruct Hs as (_ & _ & _ & _ & _ & _ & H7). destruct (H7 _ _ Hi) as (d' & Hd' & Hdg & Hj); [by rewrite Hid|].
      assert (c = d') as ->; [|done]. eapply (mod_inj_lap _ _ c); [..|exact Hj]; lia.
    + pose proof (tx_slots_skip n b sent gone c r i Hg Hs ltac:(lia) Hi Hid) as Hs1. rewrite u32_succ.
      destruct (IH fuel (S c) (set_tx_q (set_q_cons (u32 (Z.of_nat (S c))) (tx_q r)) r) ltac:(lia) Hg Hs1 ltac:(lia))
        as (c' & E & Hle & Hs2 & Ht).
      rewrite tx_ring_loop_cons in E by done. exists c'. split_and!; try done; lia.
Qed.

Lemma tx_process_ok {hw} `{!Mmio hw} n m b S M F sent gone c env budget cq ev D x y r k (w : qworld hw) :
  cpls_pending n m sent gone cq ev D x y -> q_cons_ptr (cq_q cq) = u32 (Z.of_nat x) ->
  tx_inv n b S M F sent gone c r k -> tx_tight sent gone c ->
  exists l c' cq' r' k' w', mqnic_process_tx_cq env cq budget r k w = Some (length l, cq', r', k', w') /\
    l = D <$> seq x (length l) /\
    length l = (if negb (tx_priv r) || negb (te_port_up env) then 0%nat else min budget (y - x)) /\
    (c <= c')%nat /\ tx_inv n b S M F sent (gone ++ l) c' r' k' /\ tx_tight sent (gone ++ l) c' /\
    cq_q cq' = set_q_cons (u32 (Z.of_nat (x + length l))) (cq_q cq) /\ cq_cpls cq' = cq_cpls cq /\
    t_sent k' = t_sent k ++ ids sent l /\ all_skbs k' ≡ₚ all_skbs k /\ tx_fixed r' = tx_fixed r /\ w_fixed w' = w_fixed w.
Proof.
  intros Hp Hx Hinv Ht. unfold mqnic_process_tx_cq. destruct (_ || _).
  { exists [], c, cq, r, k, w. cbn [length seq fmap list_fmap]. rewrite Nat.add_0_r, !app_nil_r, <- Hx. split_and!; try done.
    by destruct (cq_q cq). }
  rewrite Hx. destruct (tx_cq_loop_ok n m b S M F sent c env budget cq ev D x y gone 0 r k w Hp Hinv)
    as (r1 & k1 & w1 & -> & (Hg1 & Hs1 & Ho1) & Hse1 & Ha1 & Hq1 & Hf1 & Hw1).
  set (l := D <$> _) in *. cbn [mbind option_bind]. pose proof Hs1 as (Hc1 & Hp1 & Hcp & _).
  destruct (tx_geometry_size _ _ _ Hg1) as (_ & Hsz & _).
  destruct (tx_ring_loop_ok n b sent (gone ++ l) (Datatypes.S (Z.to_nat (q_size (tx_q r1)))) c r1 Hg1 Hs1) as (c' & E & Hle & Hs2 & Ht2).
  { pose proof Hg1 as (_ & _ & -> & _). lia. }
  rewrite Hc1, E. cbn [mbind option_bind Nat.add]. set (r2 := set_tx_q _ r1) in *.
  assert (tx_geometry n b r2) as Hg2 by exact Hg1.
  pose proof (tx_full_spec n b r2 c' (length sent) Hg2 eq_refl Hp1) as Hfull. rewrite Hfull by lia.
  assert (length l = min budget (y - x)) as Hll by (unfold l; by rewrite length_fmap, length_seq).
  exists l, c'. do 4 eexists. split; [reflexivity|].
  split; [by rewrite Hll|]. split; [done|]. split; [lia|]. split; [|split; [done|]].
  { split; [|split].
    - by destruct (_ && _).
    - destruct (tx_stopped r2 && _) eqn:Ew; [|exact Hs2]. apply andb_true_iff in Ew as [_ Ew]. case_bool_decide; [done|].
      destruct Hs2 as (A1 & A2 & A3 & A4 & A5 & A6 & A7). split_and!; try done; try lia.
    - destruct (_ && _); exact Ho1. }
  split_and!; try done.
  - destruct (_ && _); exact Hf1.
  - unfold mqnic_cq_write_cons_ptr. by rewrite write_ctrl_fixed.
Qed.

(** ** Mapping a packet *)

(** Mapping a packet is all or nothing. For a packet with fewer fragments
    than the block has descriptors, [mqnic_map_skb] either succeeds, with the
    linear part and each fragment mapped once and described, in order, in the
    block, the rest of which is cleared; or fails, with every mapping it made
    undone and the slot empty. No other block is written to, and the checksum
    commands stay. *)
Theorem mqnic_map_skb_all_or_nothing dmas b base info desc skb k :
  (length (ts_frags skb) < b <= MQNIC_MAX_FRAGS)%nat -> (base + b <= length desc)%nat ->
  length (ti_frags info) = (MQNIC_MAX_FRAGS - 1)%nat ->
  exists ok info' desc' k', mqnic_map_skb dmas (Z.of_nat b) base info desc skb k = Some (ok, info', desc', k') /\
    desc_frame b base desc desc' /\
    (ok = true -> ti_skb info' = Some (ts_id skb) /\ ti_len info' = skb_headlen skb /\
       snd <$> mapped_frags info' = ts_frags skb /\ block_ok b base info' desc' /\
       t_maps k' = (ti_dma_addr info', ti_len info') :: t_maps k /\ t_frags k' ≡ₚ mapped_frags info' ++ t_frags k) /\
    (ok = false -> ti_skb info' = None /\ t_maps k' = t_maps k /\ t_frags k' ≡ₚ t_frags k).
Proof.
  intros Hb Hl Hf. destruct (map_skb_ok dmas b base info desc skb k Hb Hl Hf) as (ok & info' & desc' & k' & E & Hfr & _ & _ & Hok).
  exists ok, info', desc', k'. split; [done|]. split; [done|]. by destruct ok.
Qed.

Definition tmem0 : tmem := mk_tmem [] [] [] 0 [] [] [].
Definition skb_a : tx_skb := mk_tx_skb 100 1500 1000 [600; 400] (Some (34, 16)) false 0.

Lemma mqnic_map_skb_all_or_nothing_witness :
  exists info' desc' k', mqnic_map_skb (fun t => if (t =? 1)%nat then None else Some 0x1000) 4 0 tx_info_zero (replicate 4 (mk_desc 7 0 0)) skb_a tmem0
      = Some (false, info', desc', k') /\ ti_skb info' = None /\ t_frags k' ≡ₚ [].
Proof.
  destruct (mqnic_map_skb_all_or_nothing (fun t => if (t =? 1)%nat then None else Some 0x1000) 4 0 tx_info_zero (replicate 4 (mk_desc 7 0 0)) skb_a tmem0)
    as (ok & info' & desc' & k' & E & _ & _ & Hf); [by vm_compute; lia|by vm_compute; lia|done|].
  assert ((fun x => x.1.1.1) <$> mqnic_map_skb (fun t => if (t =? 1)%nat then None else Some 0x1000) 4 0 tx_info_zero (replicate 4 (mk_desc 7 0 0)) skb_a tmem0
          = Some false) as Hv by (vm_compute; reflexivity).
  change (Z.of_nat 4) with 4 in E. rewrite E in Hv. cbn [fmap option_fmap option_map fst] in Hv. injection Hv as ->.
  exists info', desc', k'. split; [exact E|]. destruct (Hf eq_refl) as (H1 & _ & H2). split; [exact H1|exact H2].
Defined.
