(* ===== verification/MqnicTxSys.v ===== *)
(** * Transmit rings: the stack, the device and the driver together

    The transition system in which the network stack sends packets, the device
    completes them in any order and the driver polls, over the operations of
    [MqnicTx.v], and the theorems about whole runs: every packet is dropped,
    sent or held exactly once, and a ring gives everything back when it is
    closed. *)

From S2P Require Import Prelude Mmio MqnicRes MqnicQueue MqnicRx MqnicTx.

(** ** The stack, the device and the driver together *)

Record tx_sys (hw : Type) := mk_tx_sys {
  sy_r : tx_ring;
  sy_cq : mqnic_cq;
  sy_k : tmem;
  sy_w : qworld hw;
  sy_sent : list tx_skb;                 (* packets accepted, from the start *)
  sy_cpls : list (nat * mqnic_cpl);      (* completions posted: which packet, with what *)
  sy_cons : nat;                         (* completions consumed *)
  sy_given : list Z;                     (* packets given to the driver *)
}.
Arguments mk_tx_sys {hw}. Arguments sy_r {hw}. Arguments sy_cq {hw}. Arguments sy_k {hw}. Arguments sy_w {hw}.
Arguments sy_sent {hw}. Arguments sy_cpls {hw}. Arguments sy_cons {hw}. Arguments sy_given {hw}.

(** The stack calls the driver, the device completes packet [d], or the driver
    polls. *)
Inductive tx_event :=
| StackXmit (env : tx_env) (xe : xmit_env) (skb : tx_skb)
| DevCompletes (d : nat) (len ts_ns ts_s : Z)
| PollTx (env : tx_env) (budget : nat).

Definition sy_gone {hw} (s : tx_sys hw) : list nat := take (sy_cons s) (fst <$> sy_cpls s).

Definition dev_cpl (m : Z) (y d : nat) (len ts_ns ts_s : Z) : mqnic_cpl :=
  mk_cpl (u16 (Z.of_nat d)) len ts_ns ts_s 0 (if Z.testbit (Z.of_nat y) m then 0 else 0x80000000).

Section System.
Context {hw : Type} `{!Mmio hw}.

(** The stack does not call the driver while the queue is stopped; the device
    completes a packet it was given, once, in any order, when there is room
    in its queue of [2^m] entries. [qn] is the number of the queue. *)
Definition tx_exec (m qn : Z) (a : tx_event) (s : tx_sys hw) : option (tx_sys hw) :=
  match a with
  | StackXmit env xe skb =>
      if tx_stopped (sy_r s) then Some s
      else
        '(table, k, w) ← mqnic_start_xmit env xe skb {[qn := sy_r s]} (sy_k s) (sy_w s);
        r ← table !! qn;
        let sent := if q_prod_ptr (tx_q r) =? q_prod_ptr (tx_q (sy_r s)) then sy_sent s else sy_sent s ++ [skb] in
        Some (mk_tx_sys r (sy_cq s) k w sent (sy_cpls s) (sy_cons s) (sy_given s ++ [ts_id skb]))
  | DevCompletes d len ts_ns ts_s =>
      let y := length (sy_cpls s) in
      if bool_decide (d < length (sy_sent s))%nat && bool_decide (d ∉ (fst <$> sy_cpls s)) && bool_decide (y < sy_cons s + Z.to_nat (2 ^ m))%nat then
        let e := dev_cpl m y d len ts_ns ts_s in
        let cq := sy_cq s in
        Some (mk_tx_sys (sy_r s)
                (mk_cq (cq_q cq) (<[(y mod Z.to_nat (2 ^ m))%nat := e]> (cq_cpls cq)) (cq_eq cq) (cq_src_ring cq) (cq_hnd cq))
                (sy_k s) (sy_w s) (sy_sent s) (sy_cpls s ++ [(d, e)]) (sy_cons s) (sy_given s))
      else Some s
  | PollTx env budget =>
      '(done, _, cq, r, k, w) ← mqnic_poll_tx_cq env (sy_cq s) budget (sy_r s) (sy_k s) (sy_w s);
      Some (mk_tx_sys r cq k w (sy_sent s) (sy_cpls s) (sy_cons s + done) (sy_given s))
  end.

Fixpoint tx_run (m qn : Z) (l : list tx_event) (s : tx_sys hw) : option (tx_sys hw) :=
  match l with
  | [] => Some s
  | a :: l' => tx_exec m qn a s ≫= tx_run m qn l'
  end.

Definition sy_ev (s : tx_sys hw) (z : nat) : mqnic_cpl := nth z (snd <$> sy_cpls s) cpl_ones.
Definition sy_d (s : tx_sys hw) (z : nat) : nat := nth z (fst <$> sy_cpls s) 0%nat.

Definition tx_sys_inv (n m : Z) (b : nat) (S : list Z) (M F : list (Z * Z)) (s : tx_sys hw) : Prop :=
  (exists c, tx_inv n b S M F (sy_sent s) (sy_gone s) c (sy_r s) (sy_k s) /\ tx_tight (sy_sent s) (sy_gone s) c) /\
  q_size (cq_q (sy_cq s)) = 2 ^ m /\ q_size_mask (cq_q (sy_cq s)) = 2 ^ m - 1 /\
  q_cons_ptr (cq_q (sy_cq s)) = u32 (Z.of_nat (sy_cons s)) /\
  ring_view cpl_phase m (cq_cpls (sy_cq s)) (sy_ev s) (sy_cons s) (length (sy_cpls s)) /\
  NoDup (fst <$> sy_cpls s) /\
  Forall (fun x => (x.1 < length (sy_sent s))%nat /\ cpl_index x.2 = u16 (Z.of_nat x.1)) (sy_cpls s) /\
  t_sent (sy_k s) = ids (sy_sent s) (sy_gone s) /\ all_skbs (sy_k s) ≡ₚ sy_given s ++ S.

Lemma cpl_slot_index n d : 1 <= n <= 16 -> Z.to_nat (Z.land (u16 (Z.of_nat d)) (2 ^ n - 1)) = (d mod Z.to_nat (2 ^ n))%nat.
Proof.
  intros Hn. rewrite <- (ring_index d n) by lia. f_equal. replace (2 ^ n - 1) with (Z.ones n) by (rewrite Z.ones_equiv; lia).
  apply Z.bits_inj'. intros i Hi. rewrite !Z.land_spec. destruct (decide (i < n)).
  - unfold u16, u32. by rewrite !Z.mod_pow2_bits_low by lia.
  - by rewrite Z.ones_spec_high, !andb_false_r by lia.
Qed.

Lemma sys_pending n m b S M F s :
  tx_sys_inv n m b S M F s ->
  cpls_pending n m (sy_sent s) (sy_gone s) (sy_cq s) (sy_ev s) (sy_d s) (sy_cons s) (length (sy_cpls s)).
Proof.
  intros ((c & ((Hn & _) & _) & _) & H1 & H2 & _ & H3 & Hnd & Hall & _). split_and!; try done.
  - intros z Hz. destruct (lookup_lt_is_Some_2 (sy_cpls s) z) as [[d e] Hde]; [lia|].
    destruct (Forall_lookup_1 _ _ _ _ Hall Hde) as [Hd Hi]. cbn [fst snd] in *.
    assert (sy_d s z = d) as Ed by (unfold sy_d; apply nth_lookup_Some; by rewrite list_lookup_fmap, Hde).
    assert (sy_ev s z = e) as Ee by (unfold sy_ev; apply nth_lookup_Some; by rewrite list_lookup_fmap, Hde).
    rewrite Ed, Ee, Hi. split; [by apply cpl_slot_index|]. split; [done|].
    intros (i & Hi')%list_elem_of_lookup. unfold sy_gone in Hi'. apply lookup_take_Some in Hi' as [Hi' Hlt].
    assert (i = z); [|lia]. eapply (NoDup_lookup (fst <$> sy_cpls s)); [done|exact Hi'|by rewrite list_lookup_fmap, Hde].
  - intros z z' Hz Hz' E. unfold sy_d in E.
    destruct (lookup_lt_is_Some_2 (fst <$> sy_cpls s) z) as [d Hd]; [rewrite length_fmap; lia|].
    destruct (lookup_lt_is_Some_2 (fst <$> sy_cpls s) z') as [d' Hd']; [rewrite length_fmap; lia|].
    rewrite (nth_lookup_Some _ _ _ _ Hd), (nth_lookup_Some _ _ _ _ Hd') in E. subst. by eapply NoDup_lookup.
Qed.

Lemma seq_take {A} (l : list A) x d dflt :
  (x + d <= length l)%nat -> take x l ++ ((fun z => nth z l dflt) <$> seq x d) = take (x + d) l.
Proof.
  revert x. induction d as [|d IH]; intros x Hl; cbn [seq fmap list_fmap]; [by rewrite Nat.add_0_r, app_nil_r|].
  destruct (lookup_lt_is_Some_2 l x) as [a Ha]; [lia|]. rewrite (nth_lookup_Some _ _ _ _ Ha).
  rewrite <- Nat.add_succ_comm, <- IH by lia. rewrite (take_S_r _ _ _ Ha). by rewrite <- app_assoc.
Qed.

Lemma ids_app sent skb l : Forall (fun d => (d < length sent)%nat) l -> ids (sent ++ [skb]) l = ids sent l.
Proof.
  intros Hf. unfold ids. induction Hf as [|d l Hd _ IH]; [done|]. cbn [omap list_omap]. rewrite lookup_app_l by done. by rewrite IH.
Qed.
End System.

Section SystemSafe.
Context {hw : Type} `{!Mmio hw}.
Implicit Types s : tx_sys hw.

(** What the steps of the system leave alone. *)
Definition sys_fixed (s : tx_sys hw) := (tx_fixed (sy_r s), w_fixed (sy_w s)).

Lemma start_xmit_ok n b S M F sent gone c env xe skb qn r k (w : qworld hw) :
  tx_inv n b S M F sent gone c r k -> tx_stopped r = false ->
  exists r' k' w', mqnic_start_xmit env xe skb {[qn := r]} k w = Some ({[qn := r']}, k', w') /\
    tx_fixed r' = tx_fixed r /\ w_fixed w' = w_fixed w /\ t_sent k' = t_sent k /\
    all_skbs k' ≡ₚ ts_id skb :: all_skbs k /\
    ((q_prod_ptr (tx_q r') = u32 (Z.of_nat (length sent + 1)) /\ tx_inv n b S M F (sent ++ [skb]) gone c r' k') \/
     (q_prod_ptr (tx_q r') = q_prod_ptr (tx_q r) /\ tx_inv n b S M F sent gone c r' k')).
Proof.
  intros Hinv Hst. unfold mqnic_start_xmit. set (k1 := mk_tmem _ _ _ _ _ _ _).
  assert (exists k2, dev_kfree_skb_any (ts_id skb) k1 = Some k2 /\ t_sent k2 = t_sent k /\
            all_skbs k2 ≡ₚ ts_id skb :: all_skbs k /\ t_skbs k2 = t_skbs k /\ t_maps k2 = t_maps k /\ t_frags k2 = t_frags k) as Hdrop.
  { unfold dev_kfree_skb_any. cbn [k1 t_skbs]. rewrite remove_one_head. cbn [mbind option_bind]. eexists. split; [reflexivity|].
    unfold all_skbs. cbn [t_skbs t_sent t_dropped k1]. split_and!; try done. solve_Permutation. }
  destruct Hdrop as (k2 & Ek & D1 & D2 & D3 & D4 & D5).
  assert (tx_inv n b S M F sent gone c r k2) as Hinv2.
  { destruct Hinv as (H1 & H2 & H3). split; [done|]. split; [done|]. by eapply tx_owned_ext. }
  destruct (te_port_up env); cbn [negb].
  2: { rewrite Ek. cbn [mbind option_bind]. exists r, k2, w. by split_and!; try right. }
  destruct (decide (qn = ts_queue skb)) as [->|Hne].
  2: { rewrite lookup_singleton_ne by done. rewrite Ek. cbn [mbind option_bind]. exists r, k2, w. by split_and!; try right. }
  rewrite lookup_singleton_eq.
  destruct (xmit_ring_ok env xe n b S M F sent gone c r k1 w skb) as (r' & k' & w' & -> & Hf & Hw & Hs & Ha & Hout); [|done|].
  { destruct Hinv as (H1 & H2 & HS & HM & HF). split; [done|]. split; [done|]. split_and!; try done.
    cbn [k1 t_skbs]. rewrite HS. solve_Permutation. }
  cbn [mbind option_bind]. rewrite insert_singleton_eq. exists r', k', w'. split_and!; try done.
  destruct Hout as [(H1 & _ & H2)|(H1 & _ & H2)]; [left|right]; done.
Qed.

Lemma tx_exec_xmit n m b S M F qn env xe skb s :
  tx_sys_inv n m b S M F s ->
  exists s', tx_exec m qn (StackXmit env xe skb) s = Some s' /\ tx_sys_inv n m b S M F s' /\ sys_fixed s' = sys_fixed s.
Proof.
  intros Hinv. cbn [tx_exec]. destruct (tx_stopped (sy_r s)) eqn:Hst; [by exists s|].
  destruct Hinv as ((c & Hi & Ht) & H1 & H2 & H3 & H4 & H5 & H6 & H7 & H8).
  destruct (start_xmit_ok n b S M F (sy_sent s) (sy_gone s) c env xe skb qn (sy_r s) (sy_k s) (sy_w s) Hi Hst)
    as (r' & k' & w' & -> & Hf & Hw & Hs & Ha & Hout).
  cbn [mbind option_bind]. rewrite lookup_singleton_eq. cbn [mbind option_bind].
  eexists. split; [reflexivity|]. split; [|unfold sys_fixed; cbn [sy_r sy_w]; by rewrite Hf, Hw].
  assert (all_skbs k' ≡ₚ (sy_given s ++ [ts_id skb]) ++ S) as Hall by (rewrite Ha, H8; solve_Permutation).
  pose proof Hi as (Hg & (_ & Hp & Hcp & _ & Hgone & _) & _). destruct (tx_geometry_size _ _ _ Hg) as (_ & ? & _).
  destruct Hout as [[Hp' Hinv']|[Hp' Hinv']]; rewrite Hp'.
  - pose proof Hg as (Hn & _).
    rewrite (proj2 (Z.eqb_neq _ _)) by (rewrite Hp; apply not_eq_sym, (u32_ptr_neq n); lia).
    unfold tx_sys_inv, sy_gone. cbn [sy_r sy_cq sy_k sy_w sy_sent sy_cpls sy_cons sy_given]. split_and!; try done.
    + exists c. split; [done|]. unfold tx_tight. rewrite length_app. right. destruct Ht as [->|]; [|done].
      intros Hin. rewrite Forall_forall in Hgone. apply Hgone in Hin. lia.
    + eapply Forall_impl; [exact H6|]. intros x [? ?]. rewrite length_app. split; [lia|done].
    + rewrite Hs, H7. symmetry. by apply ids_app.
  - rewrite Z.eqb_refl. unfold tx_sys_inv, sy_gone. cbn [sy_r sy_cq sy_k sy_w sy_sent sy_cpls sy_cons sy_given]. split_and!; try done.
    + by exists c.
    + by rewrite Hs.
Qed.

Lemma tx_exec_complete n m b S M F qn d len ts_ns ts_s s :
  tx_sys_inv n m b S M F s ->
  exists s', tx_exec m qn (DevCompletes d len ts_ns ts_s) s = Some s' /\ tx_sys_inv n m b S M F s' /\ sys_fixed s' = sys_fixed s.
Proof.
  intros Hinv. cbn [tx_exec]. destruct (_ && _ && _) eqn:Hc; [|by exists s].
  apply andb_true_iff in Hc as [Hc Hc3]. apply andb_true_iff in Hc as [Hc1 Hc2].
  apply bool_decide_eq_true in Hc1, Hc2, Hc3. eexists. split; [reflexivity|]. split; [|done].
  destruct Hinv as ((c & Hi & Ht) & H1 & H2 & H3 & H4 & H5 & H6 & H7 & H8).
  set (e := dev_cpl _ _ _ _ _ _). set (s' := mk_tx_sys _ _ _ _ _ _ _ _).
  assert (sy_gone s' = sy_gone s) as Eg.
  { unfold sy_gone. cbn [s' sy_cons sy_cpls]. rewrite fmap_app, take_app_le; [done|].
    rewrite length_fmap. apply H4. }
  assert (length (sy_cpls s') = Datatypes.S (length (sy_cpls s))) as El by (cbn [s' sy_cpls]; rewrite length_app; cbn; lia).
  assert (sy_ev s' (length (sy_cpls s)) = e) as Ee.
  { unfold sy_ev. apply nth_lookup_Some. cbn [s' sy_cpls]. rewrite fmap_app, lookup_app_r by (by rewrite length_fmap).
    by rewrite length_fmap, Nat.sub_diag. }
  unfold tx_sys_inv. rewrite Eg, El. cbn [s' sy_r sy_cq sy_k sy_w sy_sent sy_cons sy_given cq_q cq_cpls].
  split; [by exists c|]. split_and!; try done.
  - fold s'. rewrite <- Ee. apply ring_view_post; [|done|by rewrite Ee; unfold e, dev_cpl; cbn [cpl_phase]; destruct (Z.testbit _ _)].
    eapply ring_view_ext; [|exact H4]. intros z Hz. unfold sy_ev. cbn [s' sy_cpls].
    rewrite fmap_app, app_nth1 by (rewrite length_fmap; lia). done.
  - cbn [s' sy_cpls]. rewrite fmap_app. apply NoDup_app. split_and!; [done| |apply NoDup_singleton].
    intros x Hx Hx'. apply list_elem_of_singleton in Hx'. cbn in Hx'. by subst.
  - cbn [s' sy_cpls]. apply Forall_app_2; [done|]. by constructor.
Qed.

Lemma tx_exec_poll n m b S M F qn env budget s :
  tx_sys_inv n m b S M F s ->
  exists s', tx_exec m qn (PollTx env budget) s = Some s' /\ tx_sys_inv n m b S M F s' /\ sys_fixed s' = sys_fixed s.
Proof.
  intros Hinv. pose proof (sys_pending _ _ _ _ _ _ _ Hinv) as Hp. cbn [tx_exec].
  destruct Hinv as ((c & Hi & Ht) & H1 & H2 & H3 & H4 & H5 & H6 & H7 & H8).
  destruct (tx_process_ok n m b S M F (sy_sent s) (sy_gone s) c env budget (sy_cq s) _ _ _ _ (sy_r s) (sy_k s) (sy_w s) Hp H3 Hi Ht)
    as (l & c' & cq' & r' & k' & w' & E & El & Hl & Hc & Hinv' & Ht' & Hq & Hcp & Hs & Ha & Hf & Hw).
  unfold mqnic_poll_tx_cq. rewrite E. cbn [mbind option_bind].
  assert (sy_cons s + length l <= length (sy_cpls s))%nat as Hle.
  { rewrite Hl. pose proof (proj1 (proj2 (proj2 H4))). destruct (_ || _); lia. }
  assert (sy_gone s ++ l = take (sy_cons s + length l) (fst <$> sy_cpls s)) as Eg.
  { unfold sy_gone. rewrite <- (seq_take _ _ _ 0%nat) by (rewrite length_fmap; lia). by rewrite El at 1. }
  rewrite Eg in *.
  assert (forall w1, w_fixed w1 = w_fixed w' ->
            tx_sys_inv n m b S M F (mk_tx_sys r' cq' k' w1 (sy_sent s) (sy_cpls s) (sy_cons s + length l) (sy_given s)) /\
            sys_fixed (mk_tx_sys r' cq' k' w1 (sy_sent s) (sy_cpls s) (sy_cons s + length l) (sy_given s)) = sys_fixed s) as Hdone.
  { intros w1 Hw1. split; [|unfold sys_fixed; cbn [sy_r sy_w]; by rewrite Hf, Hw1, Hw].
    unfold tx_sys_inv, sy_gone. cbn [sy_r sy_cq sy_k sy_w sy_sent sy_cpls sy_cons sy_given]. rewrite Hq, Hcp.
    split; [by exists c'|]. split_and!; try done; [|by rewrite Hs, H7; unfold ids; rewrite <- omap_app, Eg|by rewrite Ha].
    clear -H4 Hle. remember (length l) as d eqn:Hd. clear Hd.
    induction d as [|d IH]; [by rewrite Nat.add_0_r|]. rewrite Nat.add_succ_r. apply ring_view_consume; [apply IH|]; lia. }
  destruct (length l =? budget)%nat; eexists; (split; [reflexivity|]); apply Hdone; [done|].
  unfold mqnic_arm_cq. destruct (negb (q_enabled (cq_q cq'))); [done|]. apply write_ctrl_fixed.
Qed.

Lemma tx_run_ok n m b S M F qn l s :
  tx_sys_inv n m b S M F s ->
  exists s', tx_run m qn l s = Some s' /\ tx_sys_inv n m b S M F s' /\ sys_fixed s' = sys_fixed s.
Proof.
  revert s. induction l as [|a l IH]; intros s Hinv; [by exists s|]. cbn [tx_run].
  assert (exists s1, tx_exec m qn a s = Some s1 /\ tx_sys_inv n m b S M F s1 /\ sys_fixed s1 = sys_fixed s) as (s1 & -> & H1 & H2).
  { destruct a; [by apply tx_exec_xmit|by apply tx_exec_complete|by apply tx_exec_poll]. }
  cbn [mbind option_bind]. destruct (IH s1 H1) as (s' & E & H3 & H4). exists s'. by rewrite H4, H2.
Qed.
End SystemSafe.

(** ** Life of a ring *)

(** Packets [c ..] are all in flight. *)
Definition tx_dense (sent : list tx_skb) (gone : list nat) (c : nat) : Prop :=
  forall d, (c <= d < length sent)%nat -> d ∉ gone.

Lemma free_tx_loop_ok n b S M F sent fuel gone c r k cnt :
  tx_inv n b S M F sent gone c r k -> tx_dense sent gone c -> (length sent - c < fuel)%nat ->
  exists gone' r' k', free_tx_loop fuel r k cnt = Some (cnt + Z.of_nat (length sent - c), r', k') /\
    tx_inv n b S M F sent gone' (length sent) r' k' /\ tx_fixed r' = tx_fixed r.
Proof.
  remember (length sent - c)%nat as d eqn:Hd. revert fuel gone c r k cnt Hd.
  induction d as [|d IH]; intros fuel gone c r k cnt Hd Hinv Hdense Hf; (destruct fuel as [|fuel]; [lia|]); cbn [free_tx_loop];
    pose proof Hinv as (Hg & (Hc & Hp & Hcp & _) & _); unfold mqnic_is_tx_ring_empty; rewrite Hc, Hp.
  - assert (c = length sent) as -> by lia. rewrite Z.eqb_refl, Z.add_0_r. by exists gone, r, k.
  - destruct (tx_geometry_size _ _ _ Hg) as (? & ? & _). pose proof Hg as (Hn & _).
    rewrite (proj2 (Z.eqb_neq _ _)) by (apply not_eq_sym, (u32_ptr_neq n); lia).
    rewrite (proj1 (tx_slot_index n b r c Hg)).
    destruct (lookup_lt_is_Some_2 sent c) as [s Hs]; [lia|].
    destruct (free_tx_desc_ok n b S M F sent gone c r k c s Hinv Hs (Hdense c ltac:(lia)))
      as (r1 & k1 & -> & (Hg1 & Hs1 & Ho1) & _ & _ & Hq1 & Hf1 & i & Hi & Hnone).
    cbn [mbind option_bind]. rewrite Hq1, Hc, u32_succ.
    pose proof (tx_slots_skip n b sent _ c r1 i Hg1 Hs1 ltac:(lia) Hi Hnone) as Hs2. rewrite Hq1 in Hs2.
    destruct (IH fuel (gone ++ [c]) (Datatypes.S c) (set_tx_q (set_q_cons (u32 (Z.of_nat (Datatypes.S c))) (tx_q r)) r1) k1 (cnt + 1))
      as (gone' & r2 & k2 & -> & Hinv2 & Hf2).
    + lia.
    + split; [by unfold tx_geometry in *; cbn; rewrite <- Hq1|]. done.
    + intros d' Hd'. rewrite not_elem_of_app, not_elem_of_cons. split; [apply Hdense; lia|]. split; [lia|apply not_elem_of_nil].
    + lia.
    + exists gone', r2, k2. split; [do 3 f_equal; lia|]. split; [done|]. rewrite Hf2, <- Hf1. unfold tx_fixed. cbn. by rewrite Hq1.
Qed.

Lemma tx_empty_owned n b S M F sent gone r k :
  tx_inv n b S M F sent gone (length sent) r k -> t_skbs k ≡ₚ S /\ t_maps k ≡ₚ M /\ t_frags k ≡ₚ F.
Proof.
  intros (_ & (_ & _ & _ & _ & _ & _ & H7) & HS & HM & HF).
  assert (forall i, i ∈ tx_info r -> ti_skb i = None) as Hnone.
  { intros i (j & Hj)%list_elem_of_lookup. destruct (ti_skb i) eqn:E; [|done].
    destruct (H7 j i Hj) as (d & Hd & _); [by rewrite E|lia]. }
  assert (forall A (f : mqnic_tx_info -> list A), (forall i, ti_skb i = None -> f i = []) -> tx_info r ≫= f = []) as Hom.
  { intros A f Hf. clear -Hnone Hf. induction (tx_info r) as [|i l IH]; [done|]. cbn [mbind list_bind].
    rewrite Hf by (apply Hnone; by left). apply IH. intros; apply Hnone. by right. }
  rewrite !Hom in * by (intros i Hi; by apply held_none). done.
Qed.

Lemma close_tx_opened {hw} `{!Mmio hw} n b S M F sent gone c r cq k (w : qworld hw) rest buf res :
  tx_inv n b S M F sent gone c r k -> tx_dense sent gone c -> q_buf (tx_q r) = Some buf ->
  remove_one (q_buf_size (tx_q r), buf, q_buf_dma_addr (tx_q r)) (w_bufs w) = Some rest ->
  mqnic_res_free (q_index (tx_q r)) (w_txq_res w) = Some res ->
  exists r' cq' k' w', mqnic_close_tx_ring r cq k w = Some (r', cq', k', w') /\
    queue_closed (tx_q r') /\ cq' = cq_detach (tx_cq r) cq /\ t_skbs k' ≡ₚ S /\ t_maps k' ≡ₚ M /\ t_frags k' ≡ₚ F /\
    w_fixed w' = (w_eq_res w, w_cq_res w, res, w_rxq_res w, rest, w_chain w).
Proof.
  intros Hinv Hdense Hb Hw Hres. unfold mqnic_close_tx_ring, mqnic_disable_tx_ring.
  set (w1 := write_ctrl _ _ _). pose proof (write_ctrl_fixed (q_hw_addr (tx_q r)) (Z.lor CMD_SET_ENABLE 0) w) as Ew.
  fold w1 in Ew. unfold w_fixed in Ew. injection Ew as E1 E2 E3 E4 E5 E6.
  set (r1 := tx_detach _).
  assert (tx_inv n b S M F sent gone c r1 k) as Hinv1 by (destruct r as [[]]; exact Hinv).
  assert (q_buf (tx_q r1) = Some buf) as Hb1 by (by destruct r as [[]]).
  rewrite Hb1. unfold mqnic_free_tx_buf. pose proof Hinv1 as (Hg & (_ & _ & Hcp & _) & _).
  destruct (tx_geometry_size _ _ _ Hg) as (_ & Hsz & _).
  destruct (free_tx_loop_ok n b S M F sent (Datatypes.S (Z.to_nat (q_size (tx_q r1)))) gone c r1 k 0 Hinv1 Hdense)
    as (gone' & r2 & k2 & -> & Hinv2 & Hf2).
  { pose proof Hg as (_ & _ & -> & _). lia. }
  destruct (tx_empty_owned _ _ _ _ _ _ _ _ _ Hinv2) as (HS & HM & HF).
  unfold tx_fixed in Hf2. injection Hf2 as F1 F2 F3 F4 F5 F6 F7 F8. cbn in F1, F2, F3, F4, F5, F6.
  cbn [mbind option_bind]. unfold free_buf. rewrite F1, Hb, F2, F3, E5, Hw. cbn [mbind option_bind].
  cbn [q_index set_bufs w_txq_res]. rewrite E3, F4, Hres. cbn [mbind option_bind].
  do 4 eexists. split; [reflexivity|]. unfold queue_closed, queue_busy, w_fixed. cbn. rewrite F5, F6, E1, E2, E4, E6. by split_and!.
Qed.

(** What [tx_close_balanced] needs of the world after an open. *)
Definition tx_opened {hw} (w : qworld hw) (r : tx_ring) (w' : qworld hw) : Prop :=
  exists buf, q_buf (tx_q r) = Some buf /\
    w_bufs w' = (q_buf_size (tx_q r), buf, q_buf_dma_addr (tx_q r)) :: w_bufs w /\
    mqnic_res_alloc (w_txq_res w) = Some (q_index (tx_q r), w_txq_res w') /\ 0 <= q_index (tx_q r) /\
    (w_eq_res w', w_cq_res w', w_rxq_res w', w_chain w') = (w_eq_res w, w_cq_res w, w_rxq_res w, w_chain w).

Lemma block_size_cases block : 1 <= block <= 8 ->
  exists b, (1 <= b <= MQNIC_MAX_FRAGS)%nat /\ Z.shiftl 1 (log_block_size block) = Z.of_nat b /\
    roundup_pow_of_two (MQNIC_DESC_SIZE * Z.of_nat b) = MQNIC_DESC_SIZE * Z.of_nat b.
Proof.
  intros Hb. assert (block = 1 \/ block = 2 \/ block = 3 \/ block = 4 \/ block = 5 \/ block = 6 \/ block = 7 \/ block = 8)
    as [->|[->|[->|[->|[->|[->|[->| ->]]]]]]] by lia;
    [exists 1%nat|exists 2%nat|exists 4%nat|exists 4%nat|exists 8%nat|exists 8%nat|exists 8%nat|exists 8%nat];
    (split; [unfold MQNIC_MAX_FRAGS; lia|]); by vm_compute.
Qed.

Lemma ring_size_cases size : 2 <= size <= 2 ^ 15 -> exists n, 1 <= n <= 15 /\ roundup_pow_of_two size = 2 ^ n.
Proof.
  intros Hs. unfold roundup_pow_of_two. rewrite (proj2 (Z.leb_gt _ _)) by lia. exists (Z.log2_up size). split; [|done].
  pose proof (Z.log2_up_pos size). assert (Z.log2_up size <= 15); [|lia]. apply Z.log2_up_le_pow2; lia.
Qed.

Lemma replicate_bind_nil {A B} (f : A -> list B) x n : f x = [] -> replicate n x ≫= f = [].
Proof. intros Hf. induction n as [|n IH]; [done|]. cbn [replicate mbind list_bind]. rewrite Hf. exact IH. Qed.

Lemma tx_inv_fresh n b r k :
  tx_geometry n b r -> tx_info r = replicate (Z.to_nat (2 ^ n)) tx_info_zero ->
  q_cons_ptr (tx_q r) = 0 -> q_prod_ptr (tx_q r) = 0 ->
  tx_inv n b (t_skbs k) (t_maps k) (t_frags k) [] [] 0 r k.
Proof.
  intros Hg Hi Hc Hp. split; [done|]. destruct (tx_geometry_size _ _ _ Hg) as (_ & _ & Hpos & _). split.
  - unfold tx_slots. cbn [length]. rewrite Hc, Hp. split_and!; try done; try lia.
    intros j i Hj Hs. rewrite Hi in Hj. apply lookup_replicate in Hj as [-> _]. by destruct Hs.
  - unfold tx_owned. rewrite Hi, !replicate_bind_nil by done. done.
Qed.

Section Life.
Context {hw : Type} `{!Mmio hw}.

(** Closing a ring whose buffer was never allocated. *)
Lemma close_tx_nobuf r cq k (w : qworld hw) res :
  q_buf (tx_q r) = None -> q_hw_addr (tx_q r) = None ->
  mqnic_res_free (q_index (tx_q r)) (w_txq_res w) = Some res ->
  exists r', mqnic_close_tx_ring r cq k w = Some (r', cq_detach (tx_cq r) cq, k, set_txq_res res w) /\ queue_closed (tx_q r').
Proof.
  intros Hb Hh Hres. unfold mqnic_close_tx_ring, mqnic_disable_tx_ring. rewrite Hh. cbn [write_ctrl].
  destruct r as [[]]; cbn in *. subst. cbn. rewrite Hres. eexists. split; [reflexivity|done].
Qed.

Lemma same_resources_txq (w w' : qworld hw) res :
  world_wf w -> same_use (w_txq_res w) res ->
  w_fixed w' = (w_eq_res w, w_cq_res w, res, w_rxq_res w, w_bufs w, w_chain w) -> same_resources w w'.
Proof.
  intros (? & ? & ? & ?) Hs E. unfold w_fixed in E. injection E as E1 E2 E3 E4 E5 E6.
  unfold same_resources. rewrite E1, E2, E3, E4. split_and!; try done; by apply same_use_refl.
Qed.

Lemma open_tx_ok me r c cq size block info_ok buf k (w : qworld hw) :
  world_wf w -> queue_busy (tx_q r) = false -> 2 <= size <= 2 ^ 15 -> 1 <= block <= 8 ->
  exists ret r' cq' w',
    mqnic_open_tx_ring me r true (Some c) cq size block info_ok buf k w = Some (ret, r', cq', k, w') /\
    (ret <> 0 -> same_resources w w' /\ queue_closed (tx_q r') /\ cq_q cq' = cq_q cq /\ cq_eq cq' = cq_eq cq) /\
    (ret = 0 -> tx_opened w r' w' /\ tx_cq r' = Some c /\
       cq' = mk_cq (cq_q cq) (cq_cpls cq) (cq_eq cq) (Some me) (Some mqnic_tx_irq) /\
       exists n b, q_size (tx_q r') = 2 ^ n /\ tx_desc_block_size r' = Z.of_nat b /\
         tx_inv n b (t_skbs k) (t_maps k) (t_frags k) [] [] 0 r' k).
Proof.
  intros Hwf Hb Hsz Hbl. pose proof Hwf as (Hw1 & Hw2 & Hw3 & Hw4). unfold mqnic_open_tx_ring. rewrite Hb. cbn [negb orb].
  destruct (mqnic_res_alloc_wf _ Hw3) as (i & res & Ei & _). rewrite Ei. cbn [mbind option_bind].
  apply orb_false_iff in Hb as [Hb Hb3]. apply orb_false_iff in Hb as [Hb1 Hb2]. apply bool_decide_eq_false in Hb2, Hb3.
  assert (q_buf (tx_q r) = None) as Eb by (destruct (q_buf (tx_q r)); [by destruct Hb3|done]).
  assert (q_hw_addr (tx_q r) = None) as Eh by (destruct (q_hw_addr (tx_q r)); [by destruct Hb2|done]).
  destruct (Z.ltb_spec i 0) as [Hi|Hi].
  { destruct (res_alloc_fails _ _ _ Hw3 Ei Hi) as [-> ->]. do 4 eexists. split; [reflexivity|]. split; [|done]. intros _.
    split; [by eapply same_resources_txq; [done|by apply same_use_refl|]|]. unfold queue_closed, queue_busy. cbn. by rewrite Hb1, Eb, Eh. }
  destruct (res_alloc_free _ _ _ Hw3 Ei Hi) as ([a Ha] & _ & _ & _ & res'' & Hf & Hsame).
  destruct (ring_size_cases size Hsz) as (n & Hn & ->). destruct (block_size_cases block Hbl) as (b & Hbb & -> & ->).
  set (q := queue_geometry _ _ _).
  assert (forall r1 cq1, tx_q r1 = q ->
            exists r' cq', mqnic_close_tx_ring r1 cq1 k (set_txq_res res w) = Some (r', cq', k, set_txq_res res'' (set_txq_res res w)) /\
              same_resources w (set_txq_res res'' (set_txq_res res w)) /\ queue_closed (tx_q r') /\ cq_q cq' = cq_q cq1 /\ cq_eq cq' = cq_eq cq1)
    as Hfail.
  { intros r1 cq1 Eq. destruct (close_tx_nobuf r1 cq1 k (set_txq_res res w) res'') as (r' & E & Hbusy); try (by rewrite Eq).
    eexists r', _. split; [done|]. split; [by eapply same_resources_txq|]. split; [done|]. apply cq_detach_keeps. }
  destruct info_ok; cbn [negb].
  2: { match goal with |- context [mqnic_close_tx_ring ?r1 ?c1 _ _] => destruct (Hfail r1 c1 eq_refl) as (r' & cq' & -> & H1 & H2 & H3 & H4) end.
       cbn [mbind option_bind]. do 4 eexists. split; [reflexivity|]. split; [done|]. unfold ENOMEM. lia. }
  destruct buf as [[bf dma]|].
  2: { match goal with |- context [mqnic_close_tx_ring ?r1 ?c1 _ _] => destruct (Hfail r1 c1 eq_refl) as (r' & cq' & -> & H1 & H2 & H3 & H4) end.
       cbn [mbind option_bind]. do 4 eexists. split; [reflexivity|]. split; [done|]. unfold ENOMEM. lia. }
  cbn [set_bufs w_txq_res set_txq_res]. rewrite Ha. cbn [mbind option_bind].
  do 4 eexists. split; [reflexivity|]. split; [done|]. intros _.
  split; [exists bf; by split_and!|]. split; [done|]. split; [done|].
  destruct (queue_geometry_size n (tx_q (set_tx_q (set_q_index i (tx_q r)) r)) (MQNIC_DESC_SIZE * Z.of_nat b)) as [Gs Gm]; [lia|].
  fold q in Gs, Gm. assert (2 ^ n <= 2 ^ 15) by (apply Z.pow_le_mono_r; lia).
  assert (0 < 2 ^ n) by (apply Z.pow_pos_nonneg; lia). unfold MQNIC_MAX_FRAGS, MQNIC_DESC_SIZE in *.
  exists n, b. split; [exact Gs|]. split; [done|]. apply tx_inv_fresh; cbn [tx_info tx_q]; try done; [|by rewrite Gs].
  unfold tx_geometry. cbn [tx_q tx_info tx_desc tx_desc_block_size tx_full_size queue_attach q_size q_size_mask q_stride].
  assert (q_stride q = 16 * Z.of_nat b) as Gst by (unfold q; cbn [queue_geometry q_stride]; apply u32_id; lia).
  rewrite Gs, Gm, Gst. split_and!; try done; try (unfold MQNIC_MAX_FRAGS; lia).
  - rewrite Z.shiftr_div_pow2 by lia. replace (2 ^ n) with (2 ^ (n - 1) * 2 ^ 1) by (rewrite <- Z.pow_add_r by lia; f_equal; lia).
    by rewrite Z.div_mul by lia.
  - by rewrite length_replicate.
  - rewrite length_replicate. unfold q. cbn [queue_geometry q_buf_size]. rewrite (u32_id (2 ^ n)), (u32_id (16 * _)), u32_id by nia.
    replace (2 ^ n * (16 * Z.of_nat b)) with (2 ^ n * Z.of_nat b * 16) by ring. rewrite Z.div_mul by lia.
    rewrite Z2Nat.inj_mul by lia. by rewrite Nat2Z.id.
  - apply Forall_replicate. done.
Qed.
End Life.

(** A completion queue as [mqnic_open_cq] leaves it. *)
Definition cq_fresh (m : Z) (cq : mqnic_cq) : Prop :=
  0 <= m < 32 /\ q_size (cq_q cq) = 2 ^ m /\ q_size_mask (cq_q cq) = 2 ^ m - 1 /\ q_cons_ptr (cq_q cq) = 0 /\
  length (cq_cpls cq) = Z.to_nat (2 ^ m) /\ Forall (fun x => phase_bit (cpl_phase x) = false) (cq_cpls cq).

(** The system at the start, and the order of completions. *)
Definition tx_start {hw} (r : tx_ring) (cq : mqnic_cq) (k : tmem) (w : qworld hw) : tx_sys hw := mk_tx_sys r cq k w [] [] 0 [].
Definition in_order {hw} (s : tx_sys hw) : Prop := fst <$> sy_cpls s = seq 0 (length (sy_cpls s)).

Lemma tx_start_inv {hw} n m b r cq k (w : qworld hw) :
  cq_fresh m cq -> t_sent k = [] -> t_dropped k = [] ->
  tx_inv n b (t_skbs k) (t_maps k) (t_frags k) [] [] 0 r k ->
  tx_sys_inv n m b (t_skbs k) (t_maps k) (t_frags k) (tx_start r cq k w).
Proof.
  intros (Hm & H1 & H2 & H3 & H4 & H5) Hs Hd Hinv. unfold tx_sys_inv, tx_start, sy_gone.
  cbn [sy_r sy_cq sy_k sy_w sy_sent sy_cpls sy_cons sy_given fmap list_fmap take length].
  split; [exists 0%nat; split; [done|by left]|]. split_and!; try done.
  - by apply ring_view_init.
  - constructor.
  - unfold all_skbs. by rewrite Hs, Hd, !app_nil_r.
Qed.

(** C5: transmission is exact. From a freshly opened ring and completion queue,
    whatever packets the stack sends, whatever the DMA API, the checksum and
    the linearisation helpers answer, and in whatever order the device
    completes packets it was given, every call of [mqnic_start_xmit] and
    [mqnic_poll_tx_cq] goes through (nothing is unmapped or freed that is not
    live, no access leaves the ring). Every packet given to the driver is
    dropped, or sent, or still held, exactly once; the packets freed as sent
    are those of the completions consumed, in that order; and the slot of a
    packet in flight still holds that packet, its mappings and the block of
    descriptors that describes them: no slot is reused too early. *)
Theorem mqnic_tx_exactly_once {hw} `{!Mmio hw} me r c cq size block buf k (w : qworld hw) m r0 cq0 k0 w0 qn l :
  world_wf w -> queue_busy (tx_q r) = false -> 2 <= size <= 2 ^ 15 -> 1 <= block <= 8 ->
  cq_fresh m cq -> t_sent k = [] -> t_dropped k = [] ->
  mqnic_open_tx_ring me r true (Some c) cq size block true buf k w = Some (0, r0, cq0, k0, w0) ->
  exists s, tx_run m qn l (tx_start r0 cq0 k0 w0) = Some s /\
    t_skbs (sy_k s) ++ t_sent (sy_k s) ++ t_dropped (sy_k s) ≡ₚ sy_given s ++ t_skbs k /\
    NoDup (fst <$> sy_cpls s) /\ t_sent (sy_k s) = ids (sy_sent s) (sy_gone s) /\
    (forall d p, sy_sent s !! d = Some p -> d ∉ sy_gone s ->
       slot_ok (Z.to_nat (tx_desc_block_size r0)) (sy_r s) (d mod Z.to_nat (q_size (tx_q r0))) p).
Proof.
  intros Hwf Hb Hsz Hbl Hcq Hs Hd Ho.
  destruct (open_tx_ok me r c cq size block true buf k w Hwf Hb Hsz Hbl) as (ret & r1 & cq1 & w1 & E & _ & Hok).
  rewrite Ho in E. injection E as <- <- <- -> <-. destruct (Hok eq_refl) as (_ & _ & -> & n & b & Hn & Hbs & Hinv).
  assert (cq_fresh m (mk_cq (cq_q cq) (cq_cpls cq) (cq_eq cq) (Some me) (Some mqnic_tx_irq))) as Hcq0 by done.
  destruct (tx_run_ok n m b _ _ _ qn l _ (tx_start_inv n m b r0 _ k w0 Hcq0 Hs Hd Hinv)) as (s & E & Hinv' & _).
  exists s. split; [exact E|]. destruct Hinv' as ((cc & (_ & (_ & _ & _ & _ & _ & H6 & _) & _) & _) & _ & _ & _ & _ & Hnd & _ & Hse & Ha).
  split_and!; try done. intros d p Hp Hdg. rewrite Hbs, Hn, Nat2Z.id. by apply H6.
Qed.

(** C15: a transmit ring gives everything back. If opening it fails, every
    queue number and buffer is as before. If it succeeds, then after any run
    in which the device completes packets in the order they were sent,
    closing the ring frees every packet still held and all mappings, and
    gives back its buffer and its number. *)
Theorem mqnic_tx_ring_balanced {hw} `{!Mmio hw} me r c cq size block info_ok buf k (w : qworld hw) m :
  world_wf w -> queue_busy (tx_q r) = false -> 2 <= size <= 2 ^ 15 -> 1 <= block <= 8 ->
  cq_fresh m cq -> t_sent k = [] -> t_dropped k = [] ->
  exists ret r0 cq0 w0,
    mqnic_open_tx_ring me r true (Some c) cq size block info_ok buf k w = Some (ret, r0, cq0, k, w0) /\
    (ret <> 0 -> same_resources w w0 /\ queue_busy (tx_q r0) = false) /\
    (ret = 0 -> forall qn l s, tx_run m qn l (tx_start r0 cq0 k w0) = Some s -> in_order s ->
       exists r' cq' k' w', mqnic_close_tx_ring (sy_r s) (sy_cq s) (sy_k s) (sy_w s) = Some (r', cq', k', w') /\
         t_skbs k' ≡ₚ t_skbs k /\ t_maps k' ≡ₚ t_maps k /\ t_frags k' ≡ₚ t_frags k /\
         same_resources w w' /\ queue_busy (tx_q r') = false).
Proof.
  intros Hwf Hb Hsz Hbl Hcq Hs Hd.
  destruct (open_tx_ok me r c cq size block info_ok buf k w Hwf Hb Hsz Hbl) as (ret & r0 & cq0 & w0 & E & Hfail & Hok).
  exists ret, r0, cq0, w0. split; [exact E|]. split; [intros Hret; by destruct (Hfail Hret) as (H1 & [H2 _] & _)|].
  intros Hret qn l s Hrun Hord.
  destruct (Hok Hret) as ((bf & O1 & O2 & O3 & O4 & O5) & _ & -> & n & b & Hn & Hbs & Hinv).
  destruct (res_alloc_free _ _ _ (proj1 (proj2 (proj2 Hwf))) O3 O4) as (_ & _ & _ & _ & res & O6 & O7).
  assert (cq_fresh m (mk_cq (cq_q cq) (cq_cpls cq) (cq_eq cq) (Some me) (Some mqnic_tx_irq))) as Hcq0 by done.
  destruct (tx_run_ok n m b _ _ _ qn l _ (tx_start_inv n m b r0 _ k w0 Hcq0 Hs Hd Hinv)) as (s' & E' & Hinv' & Hfix).
  rewrite Hrun in E'. injection E' as <-. destruct Hinv' as ((cc & Hi & Ht) & _ & _ & _ & (_ & _ & Hle & _) & _).
  unfold sys_fixed, tx_fixed, w_fixed in Hfix. cbn [tx_start sy_r sy_w] in Hfix.
  injection Hfix as F1 F2 F3 F4 F5 F6 F7 F8 W1 W2 W3 W4 W5 W6.
  assert (tx_dense (sy_sent s) (sy_gone s) cc) as Hdense.
  { intros d Hdd. destruct Ht as [->|Ht]; [lia|]. unfold sy_gone in *. rewrite Hord, take_seq in *.
    rewrite elem_of_seq in *. lia. }
  destruct (close_tx_opened n b _ _ _ _ _ cc (sy_r s) (sy_cq s) (sy_k s) (sy_w s) (w_bufs w) bf res Hi Hdense)
    as (r' & cq' & k' & w' & Ec & [Hbusy _] & _ & K1 & K2 & K3 & Hw).
  - by rewrite F1.
  - rewrite W5, O2, F2, F3. apply remove_one_head.
  - by rewrite F4, W3.
  - exists r', cq', k', w'. split_and!; try done. injection O5 as P1 P2 P3 P4.
    eapply same_resources_txq; [done|exact O7|]. rewrite Hw. by rewrite W1, W2, W4, W6, P1, P2, P3, P4.
Qed.

(** *** Examples *)

Definition cq4 : mqnic_cq :=
  mk_cq (mk_queue 0 0 4 3 32 128 (Some 0xA000) 0xB000 0 true (Some 0x2000)) (replicate 4 cpl_ones) (Some 1%nat) None None.
Definition tx_env0 : tx_env := mk_tx_env true false None.
(** Mapping number [t] is at [0x1000 (t + 1)]; the sixth fails. *)
Definition xmit_env0 : xmit_env := mk_xmit_env (fun t => if (t =? 5)%nat then None else Some (0x1000 * (Z.of_nat t + 1))) true true false.
Definition skb_b : tx_skb := mk_tx_skb 200 60 0 [] None false 0.

Definition tx_opened4 : option (Z * tx_ring * mqnic_cq * tmem * qworld memory) :=
  mqnic_open_tx_ring 5 mqnic_create_tx_ring true (Some 3%nat) cq4 4 4 true (Some (0x8000, 0x9000)) tmem0 world0.

(** Two packets are sent, the device completes the second one first, then the
    first; a third packet is sent and a fourth cannot be mapped. *)
Definition tx_events : list tx_event :=
  [StackXmit tx_env0 xmit_env0 skb_a; StackXmit tx_env0 xmit_env0 skb_b; DevCompletes 1 60 0 0; PollTx tx_env0 64;
   DevCompletes 0 1500 0 0; PollTx tx_env0 64; StackXmit tx_env0 xmit_env0 skb_b; StackXmit tx_env0 xmit_env0 skb_a].

Lemma cq4_fresh : cq_fresh 2 cq4.
Proof. unfold cq_fresh. split_and!; try done. repeat constructor. Qed.

Lemma mqnic_tx_exactly_once_witness :
  exists s, (x ← tx_opened4; tx_run 2 0 tx_events (tx_start x.1.1.1.2 x.1.1.2 x.1.2 x.2)) = Some s /\
    t_sent (sy_k s) = [200; 100] /\ t_dropped (sy_k s) = [100] /\ t_skbs (sy_k s) ++ [200; 100; 100] ≡ₚ [100; 200; 200; 100].
Proof.
  destruct tx_opened4 as [[[[[ret r0] cq0] k0] w0]|] eqn:E; [|by vm_compute in E].
  assert ((fun x => x.1.1.1.1) <$> tx_opened4 = Some 0) as Hr by (vm_compute; reflexivity).
  rewrite E in Hr. cbn [fmap option_fmap option_map fst] in Hr. injection Hr as ->.
  destruct (mqnic_tx_exactly_once 5 mqnic_create_tx_ring 3 cq4 4 4 (Some (0x8000, 0x9000)) tmem0 world0 2 r0 cq0 k0 w0 0 tx_events
              ltac:(split_and!; by eexists) eq_refl ltac:(lia) ltac:(lia) cq4_fresh eq_refl eq_refl E)
    as (s & Hs & Hall & _ & _).
  assert ((fun s => (t_sent (sy_k s), t_dropped (sy_k s), sy_given s)) <$>
            (x ← tx_opened4; tx_run 2 0 tx_events (tx_start x.1.1.1.2 x.1.1.2 x.1.2 x.2)) = Some ([200; 100], [100], [100; 200; 200; 100])) as Hv
    by (vm_compute; reflexivity).
  rewrite E in Hv. cbn [mbind option_bind fst snd] in Hv |- *. rewrite Hs in Hv. cbn [fmap option_fmap option_map] in Hv.
  injection Hv as H1 H2 H3. rewrite H1, H2, H3 in Hall. exists s. split; [exact Hs|]. split; [exact H1|]. split; [exact H2|exact Hall].
Defined.

(** The first packet is completed, the second still in flight. *)
Definition tx_events_in_order : list tx_event :=
  [StackXmit tx_env0 xmit_env0 skb_a; StackXmit tx_env0 xmit_env0 skb_b; DevCompletes 0 1500 0 0; PollTx tx_env0 64].

Lemma mqnic_tx_ring_balanced_witness :
  exists s r' cq' k' w',
    (x ← tx_opened4; tx_run 2 0 tx_events_in_order (tx_start x.1.1.1.2 x.1.1.2 x.1.2 x.2)) = Some s /\ t_skbs (sy_k s) = [200] /\
    mqnic_close_tx_ring (sy_r s) (sy_cq s) (sy_k s) (sy_w s) = Some (r', cq', k', w') /\ t_skbs k' ≡ₚ [] /\ same_resources world0 w'.
Proof.
  destruct (mqnic_tx_ring_balanced 5 mqnic_create_tx_ring 3 cq4 4 4 true (Some (0x8000, 0x9000)) tmem0 world0 2
              ltac:(split_and!; by eexists) eq_refl ltac:(lia) ltac:(lia) cq4_fresh eq_refl eq_refl)
    as (ret & r0 & cq0 & w0 & E & _ & Hok).
  assert ((fun x => x.1.1.1.1) <$> tx_opened4 = Some 0) as Hr by (vm_compute; reflexivity).
  unfold tx_opened4 in *. rewrite E in Hr |- *. cbn [fmap option_fmap option_map fst] in Hr. injection Hr as ->.
  assert ((fun s => (t_skbs (sy_k s), fst <$> sy_cpls s, length (sy_cpls s))) <$>
            (x ← tx_opened4; tx_run 2 0 tx_events_in_order (tx_start x.1.1.1.2 x.1.1.2 x.1.2 x.2)) = Some ([200], [0%nat], 1%nat)) as Hv
    by (vm_compute; reflexivity).
  unfold tx_opened4 in Hv. rewrite E in Hv. cbn [mbind option_bind fst snd] in Hv |- *.
  destruct (tx_run 2 0 tx_events_in_order (tx_start r0 cq0 tmem0 w0)) as [s|] eqn:Hs; [|discriminate].
  cbn [fmap option_fmap option_map] in Hv. injection Hv as H1 H2 H3.
  destruct (Hok eq_refl 0 tx_events_in_order s Hs) as (r' & cq' & k' & w' & Ec & K1 & _ & _ & K4 & _).
  { unfold in_order. by rewrite H2, H3. }
  exists s, r', cq', k', w'. split; [reflexivity|]. split; [exact H1|]. split; [exact Ec|]. split; [exact K1|exact K4].
Defined.

(** [mqnic_free_tx_desc] does not check that the slot holds a packet, as
    [mqnic_free_rx_desc] does: closing a ring in which a packet was completed
    before an earlier one unmaps that packet's slot a second time. *)
Theorem tx_close_out_of_order :
  (x ← tx_opened4; s ← tx_run 2 0 (take 4 tx_events) (tx_start x.1.1.1.2 x.1.1.2 x.1.2 x.2);
   Some (mqnic_close_tx_ring (sy_r s) (sy_cq s) (sy_k s) (sy_w s))) = Some None.
Proof. vm_compute. reflexivity. Qed.
