(* ===== verification/MqnicSched.v ===== *)
(** * Schedulers, ports and the interface's registers

    Model of [modules/mqnic/mqnic_scheduler.c], [mqnic_sched_block.c] and
    [mqnic_port.c], and of the register accessors of [mqnic_if.c]. Pointers to
    register blocks are the blocks; [kfree] of the lists is not modelled. *)

From S2P Require Import Prelude Mmio MqnicRes.

Definition MQNIC_MAX_PORTS : nat := 8.

Definition MQNIC_RB_SCHED_BLOCK_REG_OFFSET : Z := 0x0C.
Definition MQNIC_RB_SCHED_RR_TYPE : Z := 0x0000C040.
Definition MQNIC_RB_SCHED_RR_VER : Z := 0x00000100.
Definition MQNIC_RB_SCHED_RR_REG_OFFSET : Z := 0x0C.
Definition MQNIC_RB_SCHED_RR_REG_CH_COUNT : Z := 0x10.
Definition MQNIC_RB_SCHED_RR_REG_CH_STRIDE : Z := 0x14.
Definition MQNIC_RB_SCHED_RR_REG_CTRL : Z := 0x18.
Definition MQNIC_RB_PORT_CTRL_TYPE : Z := 0x0000C003.
Definition MQNIC_RB_PORT_CTRL_VER : Z := 0x00000200.
Definition MQNIC_RB_PORT_CTRL_REG_FEATURES : Z := 0x0C.
Definition MQNIC_RB_PORT_CTRL_REG_TX_STATUS : Z := 0x10.
Definition MQNIC_RB_PORT_CTRL_REG_RX_STATUS : Z := 0x14.

Record mqnic_sched := mk_sched {
  sc_rb : mqnic_reg_block;
  sc_index : Z;
  sc_type : Z;
  sc_offset : Z;
  sc_channel_count : Z;
  sc_channel_stride : Z;
  sc_hw_addr : Z;
}.

(** [sched] is an array of [MQNIC_MAX_PORTS] pointers. *)
Record mqnic_sched_block := mk_sched_block {
  sb_index : Z;
  sb_rb_list : option (list mqnic_reg_block);
  sb_sched_count : nat;
  sb_sched : list (option mqnic_sched);
}.

Record mqnic_port := mk_port {
  po_index : Z;
  po_rb_list : option (list mqnic_reg_block);
  po_port_ctrl_rb : option mqnic_reg_block;
  po_port_features : Z;
}.

(** What the allocators answer while a list of register blocks is read. *)
Record rb_env := mk_rb_env {
  be_fuel : nat;
  be_kzalloc : bool;
  be_krealloc : nat -> bool;
}.

Section Sched.
Context {hw : Type} `{!Mmio hw}.
Implicit Types h : hw.

(** ** [mqnic_scheduler.c] *)

Definition mqnic_scheduler_disable (s : mqnic_sched) h : hw :=
  iowrite32 0 (rb_regs (sc_rb s) + MQNIC_RB_SCHED_RR_REG_CTRL) h.

(** [k * sched->channel_stride] is computed in 32 bits. *)
Definition enable_writes (s : mqnic_sched) : list (Z * Z) :=
  (1, rb_regs (sc_rb s) + MQNIC_RB_SCHED_RR_REG_CTRL)
  :: ((fun k => (3, sc_hw_addr s + u32 (Z.of_nat k * sc_channel_stride s))) <$> seq 0 (Z.to_nat (sc_channel_count s))).

Definition mqnic_scheduler_enable (s : mqnic_sched) h : hw := write_all (enable_writes s) h.

(** [if_hw_addr] is [block->interface->hw_addr]; [inl]: an [ERR_PTR]. *)
Definition mqnic_create_scheduler (kzalloc_ok : bool) (if_hw_addr index : Z) (rb : mqnic_reg_block) h : (Z + mqnic_sched) * hw :=
  if negb kzalloc_ok then (inl (- ENOMEM), h)
  else
    let '(offset, h) := ioread32 (rb_regs rb + MQNIC_RB_SCHED_RR_REG_OFFSET) h in
    let '(count, h) := ioread32 (rb_regs rb + MQNIC_RB_SCHED_RR_REG_CH_COUNT) h in
    let '(stride, h) := ioread32 (rb_regs rb + MQNIC_RB_SCHED_RR_REG_CH_STRIDE) h in
    let s := mk_sched rb index (rb_type rb) offset count stride (if_hw_addr + offset) in
    (inr s, mqnic_scheduler_disable s h).

Definition mqnic_destroy_scheduler (s : mqnic_sched) h : hw := mqnic_scheduler_disable s h.

(** ** [mqnic_sched_block.c] *)

(** For every pointer of the array that is not NULL. *)
Fixpoint each_sched (f : mqnic_sched -> hw -> hw) (l : list (option mqnic_sched)) h : hw :=
  match l with
  | [] => h
  | Some s :: l' => each_sched f l' (f s h)
  | None :: l' => each_sched f l' h
  end.

Definition mqnic_activate_sched_block (b : mqnic_sched_block) h : hw := each_sched mqnic_scheduler_enable (sb_sched b) h.
Definition mqnic_deactivate_sched_block (b : mqnic_sched_block) h : hw := each_sched mqnic_scheduler_disable (sb_sched b) h.

Definition mqnic_destroy_sched_block (b : mqnic_sched_block) h : hw :=
  each_sched mqnic_destroy_scheduler (sb_sched b) (mqnic_deactivate_sched_block b h).

(** The loop over the register blocks. [None]: a write beyond the array. *)
Fixpoint sched_loop (sched_ok : nat -> bool) (if_hw_addr : Z) (rbs : list mqnic_reg_block) (b : mqnic_sched_block) h
    : option (Z * mqnic_sched_block * hw) :=
  match rbs with
  | [] => Some (0, b, h)
  | rb :: rbs' =>
      if (rb_type rb =? MQNIC_RB_SCHED_RR_TYPE) && (rb_version rb =? MQNIC_RB_SCHED_RR_VER) then
        match mqnic_create_scheduler (sched_ok (sb_sched_count b)) if_hw_addr (Z.of_nat (sb_sched_count b)) rb h with
        | (inl err, h) => Some (err, b, h)
        | (inr s, h) =>
            if (sb_sched_count b <? length (sb_sched b))%nat then
              sched_loop sched_ok if_hw_addr rbs'
                (mk_sched_block (sb_index b) (sb_rb_list b) (S (sb_sched_count b)) (<[sb_sched_count b := Some s]> (sb_sched b))) h
            else None
        end
      else sched_loop sched_ok if_hw_addr rbs' b h
  end.

(** [size] is [interface->hw_regs_size], [offset] a 32-bit register, the
    difference 64 bits wide. *)
Definition mqnic_create_sched_block (kzalloc_ok : bool) (env : rb_env) (sched_ok : nat -> bool) (if_hw_addr hw_regs_size index : Z)
    (block_rb : mqnic_reg_block) h : option ((Z + mqnic_sched_block) * hw) :=
  if negb kzalloc_ok then Some (inl (- ENOMEM), h)
  else
    let b := mk_sched_block index None 0 (replicate MQNIC_MAX_PORTS None) in
    let '(offset, h) := ioread32 (rb_regs block_rb + MQNIC_RB_SCHED_BLOCK_REG_OFFSET) h in
    '(r, h) ← mqnic_enumerate_reg_block_list (be_fuel env) (be_kzalloc env) (be_krealloc env) if_hw_addr offset (u64 (hw_regs_size - offset)) h;
    match r with
    | EnumOverrun => None
    | EnumNull => Some (inl (- EIO), mqnic_destroy_sched_block b h)
    | EnumList l =>
        '(ret, b, h) ← sched_loop sched_ok if_hw_addr l (mk_sched_block index (Some l) 0 (sb_sched b)) h;
        if ret =? 0 then Some (inr b, mqnic_deactivate_sched_block b h)
        else Some (inl ret, mqnic_destroy_sched_block b h)
    end.

(** ** [mqnic_port.c] *)

(** [None]: [port_ctrl_rb] is NULL. *)
Definition mqnic_port_get_tx_status (p : mqnic_port) h : option (Z * hw) :=
  rb ← po_port_ctrl_rb p; Some (ioread32 (rb_regs rb + MQNIC_RB_PORT_CTRL_REG_TX_STATUS) h).
Definition mqnic_port_get_rx_status (p : mqnic_port) h : option (Z * hw) :=
  rb ← po_port_ctrl_rb p; Some (ioread32 (rb_regs rb + MQNIC_RB_PORT_CTRL_REG_RX_STATUS) h).

(** The two status reads at the end are for the log. *)
Definition mqnic_create_port (kzalloc_ok : bool) (env : rb_env) (if_hw_addr hw_regs_size index : Z) (port_rb : mqnic_reg_block) h
    : option ((Z + mqnic_port) * hw) :=
  if negb kzalloc_ok then Some (inl (- ENOMEM), h)
  else
    let '(offset, h) := ioread32 (rb_regs port_rb + MQNIC_RB_SCHED_BLOCK_REG_OFFSET) h in
    '(r, h) ← mqnic_enumerate_reg_block_list (be_fuel env) (be_kzalloc env) (be_krealloc env) if_hw_addr offset (u64 (hw_regs_size - offset)) h;
    match r with
    | EnumOverrun => None
    | EnumNull => Some (inl (- EIO), h)
    | EnumList l =>
        match mqnic_find_reg_block l MQNIC_RB_PORT_CTRL_TYPE MQNIC_RB_PORT_CTRL_VER 0 with
        | None => Some (inl (- EIO), h)
        | Some rb =>
            let '(features, h) := ioread32 (rb_regs rb + MQNIC_RB_PORT_CTRL_REG_FEATURES) h in
            let p := mk_port index (Some l) (Some rb) features in
            '(_, h) ← mqnic_port_get_tx_status p h;
            '(_, h) ← mqnic_port_get_rx_status p h;
            Some (inr p, h)
        end
    end.
End Sched.

(** ** What creating and switching schedulers does *)

Section SchedSpec.
Context {hw : Type} `{!Mmio hw}.
Implicit Types h : hw.

Definition is_sched_rb (rb : mqnic_reg_block) : bool :=
  (rb_type rb =? MQNIC_RB_SCHED_RR_TYPE) && (rb_version rb =? MQNIC_RB_SCHED_RR_VER).

(** The array holds one scheduler for each of the blocks [rbs], in order. *)
Definition scheds_of (rbs : list mqnic_reg_block) (b : mqnic_sched_block) : Prop :=
  exists l, sb_sched b = (Some <$> l) ++ replicate (MQNIC_MAX_PORTS - length l) None /\ sb_sched_count b = length l /\
    (length l <= MQNIC_MAX_PORTS)%nat /\ sc_rb <$> l = rbs.

Lemma sched_loop_ok sched_ok addr rbs b h done :
  scheds_of done b -> (forall k, sched_ok k = true) ->
  match sched_loop sched_ok addr rbs b h with
  | None => (MQNIC_MAX_PORTS < length (done ++ List.filter is_sched_rb rbs))%nat
  | Some (ret, b', _) => ret = 0 /\ scheds_of (done ++ List.filter is_sched_rb rbs) b' /\ sb_rb_list b' = sb_rb_list b /\ sb_index b' = sb_index b
  end.
Proof.
  intros Hd Hok. revert b h done Hd. induction rbs as [|rb rbs IH]; intros b h done Hd; cbn [sched_loop List.filter].
  { rewrite app_nil_r. done. }
  fold (is_sched_rb rb). destruct (is_sched_rb rb); [|by apply IH].
  unfold mqnic_create_scheduler. rewrite Hok. cbn [negb].
  destruct (ioread32 _ h) as [o h1]. destruct (ioread32 _ h1) as [c h2]. destruct (ioread32 _ h2) as [s h3].
  destruct Hd as (l & El & Hc & Hle & Hl). unfold MQNIC_MAX_PORTS in *.
  assert (length (sb_sched b) = 8%nat) as Hlen by (rewrite El, length_app, length_fmap, length_replicate; lia).
  rewrite Hlen, Hc. destruct (Nat.ltb_spec (length l) 8) as [Hlt|Hge].
  - rewrite (cons_middle rb done), app_assoc. match goal with |- context [sched_loop _ _ _ ?b1 ?h1] => specialize (IH b1 h1 (done ++ [rb])) end.
    apply IH. set (x := mk_sched _ _ _ _ _ _ _). exists (l ++ [x]). cbn [sb_sched sb_sched_count].
    rewrite length_app, fmap_app, fmap_app, Hl. cbn [length fmap list_fmap x sc_rb]. split_and!; try done; try (unfold MQNIC_MAX_PORTS; lia).
    rewrite El. replace (8 - length l)%nat with (S (8 - (length l + 1))) by lia. cbn [replicate].
    rewrite insert_app_r_alt by (rewrite length_fmap; lia). rewrite length_fmap, Nat.sub_diag. cbn. by rewrite <- app_assoc.
  - apply (f_equal length) in Hl. rewrite length_fmap in Hl. rewrite length_app. cbn. lia.
Qed.

(** The writes of the functions over the array. *)
Lemma each_sched_writes (f : mqnic_sched -> list (Z * Z)) l h :
  each_sched (fun s => write_all (f s)) ((Some <$> l) ++ replicate (MQNIC_MAX_PORTS - length l) None) h = write_all (l ≫= f) h.
Proof.
  revert h. generalize (MQNIC_MAX_PORTS - length l)%nat as m. intros m. induction l as [|s l IH]; intros h.
  - cbn. induction m; done.
  - cbn [fmap list_fmap app each_sched mbind list_bind]. rewrite IH. unfold write_all. by rewrite foldl_app.
Qed.

(** A scheduler block. If the allocations succeed, creating one gives a
    block with one scheduler for every register block of that type in the
    list, in their order, and all of them switched off; activating it switches
    on each scheduler and every channel of it, in order, and nothing else is
    written. Only the number of schedulers the device shows is not checked:
    with more than [MQNIC_MAX_PORTS] the driver writes beyond its array. *)
Theorem mqnic_create_sched_block_spec fuel sched_ok addr regs index rb h offset h1 l h2 :
  (forall k, sched_ok k = true) ->
  ioread32 (rb_regs rb + MQNIC_RB_SCHED_BLOCK_REG_OFFSET) h = (offset, h1) ->
  mqnic_enumerate_reg_block_list fuel true (fun _ => true) addr offset (u64 (regs - offset)) h1 = Some (EnumList l, h2) ->
  match mqnic_create_sched_block true (mk_rb_env fuel true (fun _ => true)) sched_ok addr regs index rb h with
  | None => (MQNIC_MAX_PORTS < length (List.filter is_sched_rb l))%nat
  | Some (inl _, _) => False
  | Some (inr b, h') =>
      exists ss h3, sc_rb <$> ss = List.filter is_sched_rb l /\ (length ss <= MQNIC_MAX_PORTS)%nat /\ sb_sched_count b = length ss /\
        h' = write_all ((fun s => (0, rb_regs (sc_rb s) + MQNIC_RB_SCHED_RR_REG_CTRL)) <$> ss) h3 /\
        forall h4, mqnic_activate_sched_block b h4 = write_all (ss ≫= enable_writes) h4
  end.
Proof.
  intros Hok Er Ee. unfold mqnic_create_sched_block. cbn [negb be_fuel be_kzalloc be_krealloc]. rewrite Er, Ee. cbn [mbind option_bind].
  match goal with |- context [sched_loop sched_ok addr l ?b h2] => pose proof (sched_loop_ok sched_ok addr l b h2 []) as H end.
  assert (scheds_of [] (mk_sched_block index (Some l) 0 (replicate MQNIC_MAX_PORTS None))) as H0
    by (exists []; split_and!; try done; unfold MQNIC_MAX_PORTS; cbn; lia).
  specialize (H H0 Hok). cbn [app] in H. destruct (sched_loop _ _ _ _ _) as [[[ret b] h3]|]; cbn [mbind option_bind]; [|done].
  destruct H as (-> & (ss & Es & Hc & Hle & Hss) & _ & _). cbn.
  exists ss, h3. do 3 (split; [done|]). split.
  - unfold mqnic_deactivate_sched_block. rewrite Es.
    change mqnic_scheduler_disable with (fun s => write_all [(0, rb_regs (sc_rb s) + MQNIC_RB_SCHED_RR_REG_CTRL)]).
    rewrite each_sched_writes. f_equal.
  - intros h4. unfold mqnic_activate_sched_block. rewrite Es. apply each_sched_writes.
Qed.

(** The size handed to the enumeration is what is left behind [offset], but
    offsets are compared with it from the start of the region: a port or a
    scheduler block in its upper half is not found. *)
Theorem upper_half_not_found fuel sched_ok addr regs index rb h offset h1 :
  ioread32 (rb_regs rb + MQNIC_RB_SCHED_BLOCK_REG_OFFSET) h = (offset, h1) ->
  0 < offset -> offset <= regs < 2 ^ 64 -> regs <= 2 * offset ->
  mqnic_create_port true (mk_rb_env (S fuel) true (fun _ => true)) addr regs index rb h = Some (inl (- EIO), h1) /\
  mqnic_create_sched_block true (mk_rb_env (S fuel) true (fun _ => true)) sched_ok addr regs index rb h
  = Some (inr (mk_sched_block index (Some []) 0 (replicate MQNIC_MAX_PORTS None)), h1).
Proof.
  intros Er H0 H1 H2. unfold mqnic_create_port, mqnic_create_sched_block. cbn [negb be_fuel be_kzalloc be_krealloc]. rewrite Er.
  unfold mqnic_enumerate_reg_block_list. cbn [negb enum_loop length Nat.leb]. rewrite (u64_id (regs - offset)) by lia.
  rewrite (proj2 (Z.leb_le (regs - offset) offset)) by lia. rewrite orb_true_r. split; reflexivity.
Qed.
End SchedSpec.

(** A scheduler block at 0x220 whose list at 0x380 holds another block and a
    scheduler of two channels. *)
Definition sched_regs : memory :=
  write_all [(0x380, 0x22C); (0xC000, 0x380); (0x3A0, 0x388); (0xC040, 0x3A0); (0x100, 0x3A4); (0x6000, 0x3AC); (2, 0x3B0); (4, 0x3B4)] (∅ : memory).
Definition block_rb0 : mqnic_reg_block := mk_rb 0xC004 0x300 0 0x220.

Lemma mqnic_create_sched_block_spec_witness :
  exists b h s, mqnic_create_sched_block true (mk_rb_env 8 true (fun _ => true)) (fun _ => true) 0 0x10000 0 block_rb0 sched_regs = Some (inr b, h) /\
    sb_sched_count b = 1%nat /\ mqnic_activate_sched_block b (∅ : memory) = write_all (enable_writes s) (∅ : memory) /\ rb_regs (sc_rb s) = 0x3A0.
Proof.
  destruct (mqnic_enumerate_reg_block_list 8 true (fun _ => true) 0 0x380 (u64 (0x10000 - 0x380)) sched_regs) as [[r h2]|] eqn:E;
    [|apply (f_equal (fun x => match x with Some _ => true | None => false end)) in E; vm_compute in E; discriminate E].
  assert (fst <$> mqnic_enumerate_reg_block_list 8 true (fun _ => true) 0 0x380 (u64 (0x10000 - 0x380)) sched_regs
          = Some (EnumList [mk_rb 0xC000 0 0 0x380; mk_rb 0xC040 0x100 0 0x3A0])) as Hv by (vm_compute; reflexivity).
  rewrite E in Hv. cbn [fmap option_fmap option_map fst] in Hv. injection Hv as ->.
  pose proof (mqnic_create_sched_block_spec 8 (fun _ => true) 0 0x10000 0 block_rb0 sched_regs 0x380 sched_regs _ h2 ltac:(done) ltac:(vm_compute; reflexivity) E) as H.
  destruct (mqnic_create_sched_block _ _ _ _ _ _ _ _) as [[[e|b] h]|]; [destruct H| |vm_compute in H; lia].
  destruct H as (ss & h3 & Hss & _ & Hc & _ & Hact). cbn in Hss. destruct ss as [|s [|s' ss]]; [discriminate Hss| |discriminate Hss].
  injection Hss as Hs. exists b, h, s. split; [reflexivity|]. split; [exact Hc|]. split; [|rewrite Hs; reflexivity].
  rewrite Hact. cbn [mbind list_bind]. by rewrite app_nil_r.
Defined.
