(* ===== verification/MqnicLedger.v ===== *)
(** * Who holds what in the NIC driver

    The rings and completion queues of one interface share the queue numbers,
    the coherent buffers, the pages and the DMA mappings. A [ledger] lists what
    an open object holds; [holds] says that the interface holds what it held at
    the start and the ledger, each item once. Opening an object adds its
    ledger, closing it takes the ledger away again, in any order; polling and
    sending only change the ledger of their own ring. *)

From S2P Require Import Prelude Mmio MqnicRes MqnicQueue MqnicRx MqnicTx MqnicTxSys.

(** ** Numbers *)

(** [r] has handed out the numbers [L] in addition to those of [r0]. *)
Definition res_holds (r0 r : mqnic_res) (L : list nat) : Prop :=
  res_wf r /\ r_count r = r_count r0 /\ NoDup L /\ Forall (fun k => ~ in_use r0 k) L /\
  forall k, in_use r k <-> in_use r0 k \/ k ∈ L.

#[export] Instance res_holds_proper r0 r : Proper ((≡ₚ) ==> iff) (res_holds r0 r).
Proof. intros L L' HL. unfold res_holds. setoid_rewrite HL. done. Qed.

Lemma res_holds_nil r : res_wf r -> res_holds r r [].
Proof. intros Hr. split_and!; try done; [constructor|]. intros k. rewrite elem_of_nil. tauto. Qed.

Lemma res_holds_alloc r0 r L n r' :
  res_holds r0 r L -> mqnic_res_alloc r = Some (n, r') -> 0 <= n -> res_holds r0 r' (Z.to_nat n :: L).
Proof.
  intros (Hwf & Hc & Hnd & Hf & Hk) E Hn. destruct (mqnic_res_alloc_wf r Hwf) as (n' & r2 & E' & Hwf2 & Hc2 & _ & _ & H).
  rewrite E in E'. injection E' as <- <-. unfold ENOMEM in H. destruct H as [(Hi & Hnu & Hk2)|(? & _)]; [|lia].
  rewrite Hk in Hnu. split_and!; try done; try congruence.
  - constructor; [tauto|done].
  - constructor; [tauto|done].
  - intros k. rewrite Hk2, Hk, elem_of_cons. assert (n = Z.of_nat k <-> k = Z.to_nat n) by lia. tauto.
Qed.

Lemma res_holds_free r0 r L n :
  res_holds r0 r (Z.to_nat n :: L) -> 0 <= n -> exists r', mqnic_res_free n r = Some r' /\ res_holds r0 r' L.
Proof.
  intros (Hwf & Hc & Hnd & Hf & Hk) Hn. destruct (mqnic_res_free_wf r n Hwf) as (r' & E & Hwf' & Hc' & _ & _ & Hk').
  apply NoDup_cons in Hnd as [Hnin Hnd]. apply Forall_cons in Hf as [Hf1 Hf].
  exists r'. split; [done|]. split_and!; try done; try congruence. intros k. rewrite Hk', Hk, elem_of_cons.
  assert (n = Z.of_nat k <-> k = Z.to_nat n) by lia. destruct (decide (k = Z.to_nat n)) as [->|]; tauto.
Qed.

Lemma res_holds_same r0 r r' L : res_holds r0 r L -> same_use r r' -> res_holds r0 r' L.
Proof. intros (Hwf & Hc & Hnd & Hf & Hk) (Hwf' & Hc' & Hk'). split_and!; try done; [congruence|]. intros k. by rewrite Hk', Hk. Qed.

Lemma res_holds_back r0 r : res_holds r0 r [] -> same_use r0 r.
Proof. intros (Hwf & Hc & _ & _ & Hk). split_and!; try done. intros k. rewrite Hk, elem_of_nil. tauto. Qed.

(** ** Ledgers *)

Record ledger := mk_ledger {
  lg_cqn : list nat;
  lg_rxn : list nat;
  lg_txn : list nat;
  lg_bufs : list (Z * Z * Z);
  lg_pages : list (Z * Z);
  lg_maps : list (Z * Z);
  lg_skbs : list Z;
  lg_tmaps : list (Z * Z);
  lg_frags : list (Z * Z);
}.

(** Two ledgers are the same when they list the same items. *)
#[export] Instance ledger_equiv : Equiv ledger := fun a b =>
  lg_cqn a ≡ₚ lg_cqn b /\ lg_rxn a ≡ₚ lg_rxn b /\ lg_txn a ≡ₚ lg_txn b /\ lg_bufs a ≡ₚ lg_bufs b /\ lg_pages a ≡ₚ lg_pages b /\
  lg_maps a ≡ₚ lg_maps b /\ lg_skbs a ≡ₚ lg_skbs b /\ lg_tmaps a ≡ₚ lg_tmaps b /\ lg_frags a ≡ₚ lg_frags b.

#[export] Instance ledger_equivalence : Equivalence (≡@{ledger}).
Proof.
  split.
  - by intros a.
  - intros a b (H1 & H2 & H3 & H4 & H5 & H6 & H7 & H8 & H9). by split_and!.
  - intros a b c (H1 & H2 & H3 & H4 & H5 & H6 & H7 & H8 & H9) (G1 & G2 & G3 & G4 & G5 & G6 & G7 & G8 & G9).
    split_and!; by etransitivity.
Qed.

#[export] Instance ledger_empty : Empty ledger := mk_ledger [] [] [] [] [] [] [] [] [].
#[export] Instance ledger_union : DisjUnion ledger := fun a b =>
  mk_ledger (lg_cqn a ++ lg_cqn b) (lg_rxn a ++ lg_rxn b) (lg_txn a ++ lg_txn b) (lg_bufs a ++ lg_bufs b) (lg_pages a ++ lg_pages b)
    (lg_maps a ++ lg_maps b) (lg_skbs a ++ lg_skbs b) (lg_tmaps a ++ lg_tmaps b) (lg_frags a ++ lg_frags b).

#[export] Instance ledger_union_proper : Proper ((≡) ==> (≡) ==> (≡@{ledger})) (⊎).
Proof.
  intros a a' (H1 & H2 & H3 & H4 & H5 & H6 & H7 & H8 & H9) b b' (G1 & G2 & G3 & G4 & G5 & G6 & G7 & G8 & G9).
  split_and!; cbn; by apply Permutation_app.
Qed.

Lemma ledger_comm (a b : ledger) : a ⊎ b ≡ b ⊎ a.
Proof. split_and!; apply Permutation_app_comm. Qed.
Lemma ledger_assoc (a b c : ledger) : a ⊎ (b ⊎ c) ≡ (a ⊎ b) ⊎ c.
Proof. split_and!; cbn; by rewrite (assoc_L (++)). Qed.
(** The ledger of a ring to the front. *)
Lemma ledger_pull_rx (a b x c d : ledger) : a ⊎ (b ⊎ ((x ⊎ c) ⊎ d)) ≡ x ⊎ (a ⊎ (b ⊎ (c ⊎ d))).
Proof. split_and!; cbn; solve_Permutation. Qed.
Lemma ledger_pull_tx (a b c x d : ledger) : a ⊎ (b ⊎ (c ⊎ (x ⊎ d))) ≡ x ⊎ (a ⊎ (b ⊎ (c ⊎ d))).
Proof. split_and!; cbn; solve_Permutation. Qed.
Lemma ledger_empty_l (a : ledger) : ∅ ⊎ a = a.
Proof. by destruct a. Qed.

(** What a queue or an open ring holds. *)
Definition q_bufs (q : queue) : list (Z * Z * Z) :=
  (fun b => (q_buf_size q, b, q_buf_dma_addr q)) <$> option_list (q_buf q).
Definition cq_ledger (cq : mqnic_cq) : ledger :=
  mk_ledger (if q_index (cq_q cq) <? 0 then [] else [Z.to_nat (q_index (cq_q cq))]) [] [] (q_bufs (cq_q cq)) [] [] [] [] [].
Definition rx_ledger (r : rx_ring) : ledger :=
  mk_ledger [] [Z.to_nat (q_index (rx_q r))] [] (q_bufs (rx_q r)) (omap info_page (rx_info r)) (omap info_map (rx_info r)) [] [] [].
Definition tx_ledger (r : tx_ring) : ledger :=
  mk_ledger [] [] [Z.to_nat (q_index (tx_q r))] (q_bufs (tx_q r)) [] [] (tx_info r ≫= held_skb) (tx_info r ≫= held_map) (tx_info r ≫= held_frags).

Fixpoint lg_all {A} (f : A -> ledger) (l : list A) : ledger :=
  match l with [] => ∅ | x :: l' => f x ⊎ lg_all f l' end.

Lemma lg_all_app {A} (f : A -> ledger) l1 l2 : lg_all f (l1 ++ l2) ≡ lg_all f l1 ⊎ lg_all f l2.
Proof. induction l1 as [|x l1 IH]; cbn [lg_all app]; [by rewrite ledger_empty_l|]. by rewrite IH, ledger_assoc. Qed.

Lemma lg_all_ext {A B} (f : A -> ledger) (g : B -> ledger) l l' : Forall2 (fun x y => f x = g y) l l' -> lg_all f l = lg_all g l'.
Proof. induction 1 as [|x y l l' H _ IH]; [done|]. cbn [lg_all]. by rewrite H, IH. Qed.

(** The ledger of one element, and the rest. *)
Lemma lg_all_middle {A} (f : A -> ledger) l1 x l2 : lg_all f (l1 ++ x :: l2) ≡ f x ⊎ lg_all f (l1 ++ l2).
Proof.
  rewrite !lg_all_app. cbn [lg_all]. by rewrite !ledger_assoc, (ledger_comm (lg_all f l1)).
Qed.

(** ** What the interface holds *)

Section Holds.
Context {hw : Type} `{!Mmio hw}.
Implicit Types w : qworld hw.

(** A world with the memories of the two directions. *)
Definition store : Type := qworld hw * kmem * tmem.
Implicit Types s : store.

Definition holds (s0 s : store) (L : ledger) : Prop :=
  let '(w0, k0, t0) := s0 in let '(w, k, t) := s in
  same_use (w_eq_res w0) (w_eq_res w) /\ w_chain w = w_chain w0 /\
  res_holds (w_cq_res w0) (w_cq_res w) (lg_cqn L) /\ res_holds (w_rxq_res w0) (w_rxq_res w) (lg_rxn L) /\
  res_holds (w_txq_res w0) (w_txq_res w) (lg_txn L) /\ w_bufs w ≡ₚ lg_bufs L ++ w_bufs w0 /\
  k_pages k ≡ₚ lg_pages L ++ k_pages k0 /\ k_maps k ≡ₚ lg_maps L ++ k_maps k0 /\
  t_skbs t ≡ₚ lg_skbs L ++ t_skbs t0 /\ t_maps t ≡ₚ lg_tmaps L ++ t_maps t0 /\ t_frags t ≡ₚ lg_frags L ++ t_frags t0.

#[export] Instance holds_proper s0 s : Proper ((≡) ==> iff) (holds s0 s).
Proof.
  intros L L' (H1 & H2 & H3 & H4 & H5 & H6 & H7 & H8 & H9). destruct s0 as [[w0 k0] t0], s as [[w k] t]. unfold holds.
  by rewrite H1, H2, H3, H4, H5, H6, H7, H8, H9.
Qed.

Lemma holds_start w k t : world_wf w -> holds (w, k, t) (w, k, t) ∅.
Proof. intros (H1 & H2 & H3 & H4). split_and!; try done; try by apply res_holds_nil. Qed.

Lemma holds_wf s0 w k t L : holds s0 (w, k, t) L -> world_wf w.
Proof. destruct s0 as [[w0 k0] t0]. intros ((? & _) & _ & (? & _) & (? & _) & (? & _) & _). by split_and!. Qed.

(** Nothing but the device changes. *)
Lemma holds_fixed s0 w w' k t L : w_fixed w' = w_fixed w -> holds s0 (w, k, t) L -> holds s0 (w', k, t) L.
Proof.
  destruct s0 as [[w0 k0] t0]. intros E. unfold w_fixed in E. injection E as E1 E2 E3 E4 E5 E6. unfold holds. by rewrite E1, E2, E3, E4, E5, E6.
Qed.

(** A failed open gives back what it took. *)
Lemma holds_same s0 w w' k k' t L :
  same_resources w w' -> k_pages k' ≡ₚ k_pages k -> k_maps k' ≡ₚ k_maps k -> holds s0 (w, k, t) L -> holds s0 (w', k', t) L.
Proof.
  destruct s0 as [[w0 k0] t0]. intros (S1 & S2 & S3 & S4 & S5 & S6) Hp Hm (H1 & H2 & H3 & H4 & H5 & H6 & H7 & H8 & H9 & H10 & H11).
  split_and!; try (by eapply res_holds_same); rewrite ?S5, ?S6, ?Hp, ?Hm; try done.
  destruct S1 as (A1 & A2 & A3), H1 as (B1 & B2 & B3). split_and!; try done; [congruence|]. intros x. by rewrite A3, B3.
Qed.

(** ** Completion queues *)

Definition cq_live (n_eqs : nat) (cq : mqnic_cq) : Prop :=
  is_Some (q_buf (cq_q cq)) /\ 0 <= q_index (cq_q cq) /\ exists e, cq_eq cq = Some e /\ (e < n_eqs)%nat.

Lemma holds_cq_add s0 w k t L n res x w' :
  holds s0 (w, k, t) L -> mqnic_res_alloc (w_cq_res w) = Some (n, res) -> 0 <= n ->
  w_fixed w' = (w_eq_res w, res, w_txq_res w, w_rxq_res w, x :: w_bufs w, w_chain w) ->
  holds s0 (w', k, t) (mk_ledger [Z.to_nat n] [] [] [x] [] [] [] [] [] ⊎ L).
Proof.
  destruct s0 as [[w0 k0] t0]. intros (H1 & H2 & H3 & H4 & H5 & H6 & H) Ha Hn E. unfold w_fixed in E. injection E as E1 E2 E3 E4 E5 E6.
  unfold holds. rewrite E1, E2, E3, E4, E5, E6. split_and!; try apply H; try done; cbn.
  - by eapply res_holds_alloc.
  - by rewrite H6.
Qed.

Lemma cq_ledger_open cq b :
  q_buf (cq_q cq) = Some b -> 0 <= q_index (cq_q cq) ->
  cq_ledger cq = mk_ledger [Z.to_nat (q_index (cq_q cq))] [] [] [(q_buf_size (cq_q cq), b, q_buf_dma_addr (cq_q cq))] [] [] [] [] [].
Proof. intros Hb Hi. unfold cq_ledger, q_bufs. by rewrite Hb, (proj2 (Z.ltb_ge _ _)) by done. Qed.

Lemma cq_ledger_closed cq : queue_closed (cq_q cq) -> cq_ledger cq = ∅.
Proof.
  intros [Hb Hi]. apply orb_false_iff in Hb as [_ Hb]. apply bool_decide_eq_false in Hb. unfold cq_ledger, q_bufs.
  rewrite (proj2 (Z.ltb_lt _ _)) by done. destruct (q_buf (cq_q cq)); [by destruct Hb|done].
Qed.

(** The number of a live queue was free at the start. *)
Lemma holds_cq_unused s0 s L cq :
  holds s0 s (cq_ledger cq ⊎ L) -> is_Some (q_buf (cq_q cq)) -> 0 <= q_index (cq_q cq) -> ~ in_use (w_cq_res s0.1.1) (Z.to_nat (q_index (cq_q cq))).
Proof.
  destruct s0 as [[w0 k0] t0], s as [[w k] t]. intros (_ & _ & (_ & _ & _ & Hf & _) & _) [b Hb] Hi. rewrite (cq_ledger_open _ b) in Hf by done.
  by apply Forall_cons in Hf as [Hf _].
Qed.

(** A queue just created is opened, or the numbers have run out. *)
Lemma open_cq_holds s0 w k t L me e eq size b dma att :
  holds s0 (w, k, t) L -> 0 < size <= 2 ^ 31 ->
  exists ret cq eq' w', mqnic_open_cq me mqnic_create_cq (Some e) eq size (Some (b, dma)) att w = Some (ret, cq, eq', w') /\
    (ret <> 0 -> eq' = eq /\ w' = w /\ queue_closed (cq_q cq) /\ cq_eq cq = None) /\
    (ret = 0 -> holds s0 (w', k, t) (cq_ledger cq ⊎ L) /\ is_Some (q_buf (cq_q cq)) /\ 0 <= q_index (cq_q cq) /\ cq_eq cq = Some e /\
       ~ in_use (w_cq_res s0.1.1) (Z.to_nat (q_index (cq_q cq))) /\ (exists m, cq_fresh m cq /\ cq_geometry m cq) /\
       eq' = mqnic_eq_attach_cq att (q_index (cq_q cq)) me eq).
Proof.
  intros Hh Hsz. pose proof (holds_wf _ _ _ _ _ Hh) as (_ & Hwf & _).
  destruct (mqnic_res_alloc_wf _ Hwf) as (i & res & Ei & _). unfold mqnic_open_cq. cbn [cq_q mqnic_create_cq]. rewrite Ei.
  destruct (Z.ltb_spec i 0) as [Hi|Hi].
  - destruct (res_alloc_fails _ _ _ Hwf Ei Hi) as [-> ->]. do 4 eexists. split; [reflexivity|]. split; [|done]. intros _. by destruct w.
  - destruct (res_alloc_free _ _ _ Hwf Ei Hi) as ([a Ha] & _). cbn [set_bufs w_cq_res set_cq_res]. rewrite Ha.
    destruct (roundup_pow2 size Hsz) as (m & Hm & -> & _).
    do 4 eexists. split; [reflexivity|]. split; [done|]. intros _.
    match goal with |- holds _ (?w1, _, _) (cq_ledger ?c ⊎ _) /\ _ =>
      assert (holds s0 (w1, k, t) (cq_ledger c ⊎ L)) as Hh' by (rewrite (cq_ledger_open c b) by done; by eapply (holds_cq_add _ _ _ _ _ i res)) end.
    split; [exact Hh'|]. split; [by eexists|]. split; [done|]. split; [done|]. split; [|split; [|done]].
    + eapply holds_cq_unused; [exact Hh'|by eexists|done].
    + exists m. destruct (queue_geometry_size m (set_q_index i queue_new) (roundup_pow_of_two MQNIC_CPL_SIZE) Hm) as [Gs Gm].
      unfold cq_fresh, cq_geometry. cbn [cq_q cq_cpls set_q_enabled queue_attach q_size q_size_mask q_cons_ptr]. rewrite Gs, Gm, length_replicate.
      split_and!; try done; try lia; by apply Forall_replicate.
Qed.

Lemma holds_cq_remove s0 w k t L cq e eq :
  holds s0 (w, k, t) (cq_ledger cq ⊎ L) -> is_Some (q_buf (cq_q cq)) -> 0 <= q_index (cq_q cq) -> cq_eq cq = Some e ->
  exists cq' w', mqnic_close_cq cq eq w = Some (cq', mqnic_eq_detach_cq (q_index (cq_q cq)) eq, w') /\
    holds s0 (w', k, t) L /\ queue_closed (cq_q cq') /\ cq_eq cq' = None.
Proof.
  destruct s0 as [[w0 k0] t0]. intros Hh [b Hb] Hi He. rewrite (cq_ledger_open cq b Hb Hi) in Hh. destruct Hh as (H1 & H2 & H3 & H4 & H5 & H6 & H).
  cbn in H3, H6. destruct (res_holds_free _ _ _ _ H3 Hi) as (res & Ef & Hres). destruct (remove_one_perm _ _ _ H6) as (rest & Er & Hrest).
  destruct (close_cq_opened cq eq w rest b e res Hb Er He Ef) as (cq' & w' & E & G1 & G2 & G3 & G4 & G5 & G6 & G7 & G8 & G9).
  exists cq', w'. split; [exact E|]. split; [|by split; [split; [|lia]|]].
  unfold holds. rewrite G4, G5, G6, G7, G8, G9. by split_and!; try apply H.
Qed.

(** Closing it once more does nothing. *)
Lemma close_cq_closed cq eq w :
  queue_closed (cq_q cq) -> cq_eq cq = None ->
  exists cq', mqnic_close_cq cq eq w = Some (cq', eq, w) /\ queue_closed (cq_q cq') /\ cq_eq cq' = None.
Proof.
  intros [Hb Hi] He. unfold mqnic_close_cq. rewrite He. apply orb_false_iff in Hb as [Hb Hb3]. apply orb_false_iff in Hb as [Hb1 Hb2].
  apply bool_decide_eq_false in Hb2, Hb3. destruct cq as [[? ? ? ? ? ? qb ? qi ? qh] ? ? ? ?]; cbn in *.
  destruct qh; [by destruct Hb2|]. destruct qb; [by destruct Hb3|]. cbn. rewrite res_free_noop by done.
  eexists. split; [by destruct w|]. by split; [split|].
Qed.

(** ** Receive rings *)

(** The part of [rx_inv] that is about the ring alone. *)
Definition rx_shape (n : Z) (c p : nat) (r : rx_ring) : Prop :=
  0 <= n < 32 /\ q_size (rx_q r) = 2 ^ n /\ q_size_mask (rx_q r) = 2 ^ n - 1 /\
  q_cons_ptr (rx_q r) = u32 (Z.of_nat c) /\ q_prod_ptr (rx_q r) = u32 (Z.of_nat p) /\
  (c <= p <= c + Z.to_nat (2 ^ n))%nat /\
  length (rx_info r) = Z.to_nat (2 ^ n) /\
  (forall j i, rx_info r !! j = Some i -> is_Some (ri_page i) ->
     exists x, (c <= x < p)%nat /\ j = (x mod Z.to_nat (2 ^ n))%nat).

(** A ring open on completion queue [cq]. *)
Definition rx_live (cq : nat) (r : rx_ring) : Prop :=
  is_Some (q_buf (rx_q r)) /\ 0 <= q_index (rx_q r) /\ rx_cq r = Some cq /\ exists n c p, rx_shape n c p r.

Lemma rx_inv_shape n P M c p r k :
  rx_inv n P M c p r k <->
  rx_shape n c p r /\ k_pages k ≡ₚ omap info_page (rx_info r) ++ P /\ k_maps k ≡ₚ omap info_map (rx_info r) ++ M.
Proof. unfold rx_inv, rx_shape. tauto. Qed.

(** Only the descriptors of the ring and their pages change. *)
Lemma holds_rx_change s0 w w' k k' t L r r' n P M c p :
  holds s0 (w, k, t) (rx_ledger r ⊎ L) -> rx_inv n P M c p r' k' -> rx_fixed r' = rx_fixed r -> w_fixed w' = w_fixed w ->
  P = lg_pages L ++ k_pages s0.1.2 -> M = lg_maps L ++ k_maps s0.1.2 ->
  holds s0 (w', k', t) (rx_ledger r' ⊎ L).
Proof.
  destruct s0 as [[w0 k0] t0]. intros (H1 & H2 & H3 & H4 & H5 & H6 & H7 & H8 & H) Hi Hf Hw -> ->.
  apply rx_inv_shape in Hi as (_ & Hp & Hm). unfold rx_fixed in Hf. injection Hf as F1 F2 F3 F4 F5 F6 F7 F8.
  unfold w_fixed in Hw. injection Hw as W1 W2 W3 W4 W5 W6. cbn in *. unfold holds, rx_ledger, q_bufs in *. cbn.
  rewrite W1, W2, W3, W4, W5, W6, F1, F2, F3, F4, <- !app_assoc. split_and!; try apply H; try done. by rewrite app_assoc.
Qed.

(** The pages and mappings of the rest, when the ring is [r]. *)
Lemma holds_rx_inv s0 w k t L r n c p :
  holds s0 (w, k, t) (rx_ledger r ⊎ L) -> rx_shape n c p r ->
  rx_inv n (lg_pages L ++ k_pages s0.1.2) (lg_maps L ++ k_maps s0.1.2) c p r k.
Proof.
  destruct s0 as [[w0 k0] t0]. intros (_ & _ & _ & _ & _ & _ & H7 & H8 & _) Hs. apply rx_inv_shape.
  cbn in *. by rewrite <- !app_assoc in *.
Qed.

Lemma open_rx_holds s0 w k t L me r c cq size block info_ok buf answer :
  holds s0 (w, k, t) L -> queue_busy (rx_q r) = false -> 0 < size <= 2 ^ 31 ->
  exists ret r' cq' k' w',
    mqnic_open_rx_ring me r true (Some c) cq size block info_ok buf answer k w = Some (ret, r', cq', k', w') /\
    (ret <> 0 -> holds s0 (w', k', t) L /\ queue_closed (rx_q r') /\ cq_q cq' = cq_q cq /\ cq_eq cq' = cq_eq cq) /\
    (ret = 0 -> holds s0 (w', k', t) (rx_ledger r' ⊎ L) /\ rx_live c r' /\
       cq' = mk_cq (cq_q cq) (cq_cpls cq) (cq_eq cq) (Some me) (Some mqnic_rx_irq)).
Proof.
  intros Hh Hb Hs. destruct (open_rx_ok me r c cq size block info_ok buf answer k w (holds_wf _ _ _ _ _ Hh) Hb Hs)
    as (ret & r' & cq' & k' & w' & E & Hfail & Hok).
  do 5 eexists. split; [exact E|]. split.
  - intros Hr. destruct (Hfail Hr) as (H1 & H2 & H3 & H4 & H5 & H6). split; [by eapply holds_same|done].
  - intros Hr. destruct (Hok Hr) as ((b & O1 & O2 & O3 & O4 & O5) & O6 & O7 & n & p & Hi).
    injection O5 as P1 P2 P3 P4. apply rx_inv_shape in Hi as (Hsh & Hp & Hm).
    split; [|split; [|done]]; [|split; [by eexists|]; split; [done|]; split; [done|]; by eauto].
    destruct s0 as [[w0 k0] t0]. destruct Hh as (H1 & H2 & H3 & H4 & H5 & H6 & H7 & H8 & H).
    unfold holds, rx_ledger, q_bufs. cbn. rewrite P1, P2, P3, P4, O2, O1, Hp, Hm, <- !app_assoc, H6, H7, H8.
    split_and!; try apply H; try done. by eapply res_holds_alloc.
Qed.

Lemma close_rx_holds s0 w k t L r c cq :
  holds s0 (w, k, t) (rx_ledger r ⊎ L) -> rx_live c r ->
  exists r' k' w', mqnic_close_rx_ring r cq k w = Some (r', cq_detach (Some c) cq, k', w') /\
    holds s0 (w', k', t) L /\ queue_closed (rx_q r').
Proof.
  intros Hh ([b Hb] & Hi & Hc & n & x & p & Hs). pose proof (holds_rx_inv _ _ _ _ _ _ _ _ _ Hh Hs) as Hinv.
  destruct s0 as [[w0 k0] t0]. destruct Hh as (H1 & H2 & H3 & H4 & H5 & H6 & H7 & H8 & H). cbn in H4, H6.
  destruct (res_holds_free _ _ _ _ H4 Hi) as (res & Ef & Hres). unfold q_bufs in H6. rewrite Hb in H6. cbn in H6.
  destruct (remove_one_perm _ _ _ H6) as (rest & Er & Hrest).
  destruct (close_rx_opened _ _ _ _ _ _ cq _ w rest b res Hinv Hb Er Ef)
    as (r' & cq' & k' & w' & E & Hcl & -> & K1 & K2 & K3 & V1 & V2 & V3 & V4 & V5 & V6).
  rewrite Hc in E. exists r', k', w'. split; [exact E|]. split; [|done]. cbn in K1, K2.
  unfold holds. rewrite V1, V2, V3, V4, V5, V6, K1, K2, Hrest. by split_and!; try apply H.
Qed.

(** Closing a closed ring once more does nothing. *)
Lemma close_rx_closed r cq k w :
  queue_closed (rx_q r) -> exists r', mqnic_close_rx_ring r cq k w = Some (r', cq_detach (rx_cq r) cq, k, w) /\ queue_closed (rx_q r').
Proof.
  intros [Hb Hi]. apply orb_false_iff in Hb as [Hb Hb3]. apply orb_false_iff in Hb as [Hb1 Hb2]. apply bool_decide_eq_false in Hb2, Hb3.
  destruct (close_rx_nobuf r cq k w (w_rxq_res w)) as (r' & E & H).
  - destruct (q_buf (rx_q r)); [by destruct Hb3|done].
  - destruct (q_hw_addr (rx_q r)); [by destruct Hb2|done].
  - by apply res_free_noop.
  - exists r'. split; [|done]. rewrite E. by destruct w.
Qed.

(** ** Transmit rings *)

(** A ring open on completion queue [cq] that closing can empty. *)
Definition tx_live (cq : nat) (r : tx_ring) : Prop :=
  is_Some (q_buf (tx_q r)) /\ 0 <= q_index (tx_q r) /\ tx_cq r = Some cq /\
  exists n b sent gone c, tx_geometry n b r /\ tx_slots n b sent gone c r /\ tx_dense sent gone c.

Lemma holds_tx_inv s0 w k t L r n b sent gone c :
  holds s0 (w, k, t) (tx_ledger r ⊎ L) -> tx_geometry n b r -> tx_slots n b sent gone c r ->
  tx_inv n b (lg_skbs L ++ t_skbs s0.2) (lg_tmaps L ++ t_maps s0.2) (lg_frags L ++ t_frags s0.2) sent gone c r t.
Proof.
  destruct s0 as [[w0 k0] t0]. intros (_ & _ & _ & _ & _ & _ & _ & _ & H1 & H2 & H3) Hg Hs. split; [done|]. split; [done|].
  unfold tx_owned. cbn in *. by rewrite <- !app_assoc in *.
Qed.

(** Only the slots of the ring and what they hold change. *)
Lemma holds_tx_change s0 w w' k t t' L r r' S M F :
  holds s0 (w, k, t) (tx_ledger r ⊎ L) -> tx_owned S M F r' t' -> tx_fixed r' = tx_fixed r -> w_fixed w' = w_fixed w ->
  S = lg_skbs L ++ t_skbs s0.2 -> M = lg_tmaps L ++ t_maps s0.2 -> F = lg_frags L ++ t_frags s0.2 ->
  holds s0 (w', k, t') (tx_ledger r' ⊎ L).
Proof.
  destruct s0 as [[w0 k0] t0]. intros (H1 & H2 & H3 & H4 & H5 & H6 & H7 & H8 & _) (G1 & G2 & G3) Hf Hw -> -> ->.
  unfold tx_fixed in Hf. injection Hf as F1 F2 F3 F4 F5 F6 F7 F8.
  unfold w_fixed in Hw. injection Hw as W1 W2 W3 W4 W5 W6. cbn in *. unfold holds, tx_ledger, q_bufs in *. cbn.
  rewrite W1, W2, W3, W4, W5, W6, F1, F2, F3, F4, <- !app_assoc. split_and!; try done. by rewrite H6, <- app_assoc.
Qed.

Lemma open_tx_holds s0 w k t L me r c cq size block info_ok buf :
  holds s0 (w, k, t) L -> queue_busy (tx_q r) = false -> 2 <= size <= 2 ^ 15 -> 1 <= block <= 8 ->
  exists ret r' cq' w',
    mqnic_open_tx_ring me r true (Some c) cq size block info_ok buf t w = Some (ret, r', cq', t, w') /\
    (ret <> 0 -> holds s0 (w', k, t) L /\ queue_closed (tx_q r') /\ cq_q cq' = cq_q cq /\ cq_eq cq' = cq_eq cq) /\
    (ret = 0 -> holds s0 (w', k, t) (tx_ledger r' ⊎ L) /\ tx_live c r' /\
       cq' = mk_cq (cq_q cq) (cq_cpls cq) (cq_eq cq) (Some me) (Some mqnic_tx_irq) /\
       exists n b, tx_geometry n b r' /\ tx_slots n b [] [] 0 r').
Proof.
  intros Hh Hb Hs Hbl. destruct (open_tx_ok me r c cq size block info_ok buf t w (holds_wf _ _ _ _ _ Hh) Hb Hs Hbl)
    as (ret & r' & cq' & w' & E & Hfail & Hok).
  do 4 eexists. split; [exact E|]. split.
  - intros Hr. destruct (Hfail Hr) as (H1 & H2 & H3). split; [by eapply (holds_same _ w w' k k)|done].
  - intros Hr. destruct (Hok Hr) as ((bf & O1 & O2 & O3 & O4 & O5) & O6 & O7 & n & b & _ & _ & Hg & Hsl & Ho).
    injection O5 as P1 P2 P3 P4. destruct Ho as (T1 & T2 & T3).
    split; [|split; [|split; [done|by eauto]]].
    + destruct s0 as [[w0 k0] t0]. destruct Hh as (H1 & H2 & H3 & H4 & H5 & H6 & H7 & H8 & H9 & H10 & H11).
      unfold holds, tx_ledger, q_bufs. cbn. rewrite P1, P2, P3, P4, O2, O1, T1, T2, T3, <- !app_assoc, H6, H7, H8, H9, H10, H11.
      split_and!; try done. by eapply res_holds_alloc.
    + split; [by eexists|]. split; [done|]. split; [done|]. exists n, b, [], [], 0%nat. split; [done|]. split; [done|]. intros d ?. cbn in *. lia.
Qed.

Lemma close_tx_holds s0 w k t L r c cq :
  holds s0 (w, k, t) (tx_ledger r ⊎ L) -> tx_live c r ->
  exists r' t' w', mqnic_close_tx_ring r cq t w = Some (r', cq_detach (Some c) cq, t', w') /\
    holds s0 (w', k, t') L /\ queue_closed (tx_q r').
Proof.
  intros Hh ([bf Hb] & Hi & Hc & n & b & sent & gone & x & Hg & Hs & Hd).
  pose proof (holds_tx_inv _ _ _ _ _ _ _ _ _ _ _ Hh Hg Hs) as Hinv.
  destruct s0 as [[w0 k0] t0]. destruct Hh as (H1 & H2 & H3 & H4 & H5 & H6 & H7 & H8 & _). cbn in H5, H6.
  destruct (res_holds_free _ _ _ _ H5 Hi) as (res & Ef & Hres). unfold q_bufs in H6. rewrite Hb in H6. cbn in H6.
  destruct (remove_one_perm _ _ _ H6) as (rest & Er & Hrest).
  destruct (close_tx_opened _ _ _ _ _ _ _ _ _ cq _ w rest bf res Hinv Hd Hb Er Ef)
    as (r' & cq' & t' & w' & E & Hcl & -> & K1 & K2 & K3 & V).
  rewrite Hc in E. exists r', t', w'. split; [exact E|]. split; [|done]. cbn in K1, K2, K3.
  unfold w_fixed in V. injection V as V1 V2 V3 V4 V5 V6. unfold holds. rewrite V1, V2, V3, V4, V5, V6, K1, K2, K3, Hrest. by split_and!.
Qed.

Lemma close_tx_closed r cq t w :
  queue_closed (tx_q r) -> exists r', mqnic_close_tx_ring r cq t w = Some (r', cq_detach (tx_cq r) cq, t, w) /\ queue_closed (tx_q r').
Proof.
  intros [Hb Hi]. apply orb_false_iff in Hb as [Hb Hb3]. apply orb_false_iff in Hb as [Hb1 Hb2]. apply bool_decide_eq_false in Hb2, Hb3.
  destruct (close_tx_nobuf r cq t w (w_txq_res w)) as (r' & E & H).
  - destruct (q_buf (tx_q r)); [by destruct Hb3|done].
  - destruct (q_hw_addr (tx_q r)); [by destruct Hb2|done].
  - by apply res_free_noop.
  - exists r'. split; [|done]. rewrite E. by destruct w.
Qed.
End Holds.

#[global] Arguments holds {hw} _ _ _ : simpl never.
