(* ===== verification/MqnicNetdev.v ===== *)
(** * The network device of an interface

    Model of [modules/mqnic/mqnic_netdev.c]: starting and stopping the port
    with its completion queues, NAPI contexts, rings and schedulers, the
    indirection table, the statistics, the MTU, time stamping and the link
    state.

    The completion queues the port allocates are a heap, [p_cqs], so that a
    pointer to a freed one is visible: every function returns [None] when it
    touches one, and when it divides by zero, follows a NULL pointer or frees
    what is not live. A ring is named by its index in its table. The radix
    trees are maps, walked in ascending order. Locks are not modelled: each
    function runs under [state_lock] or the semaphore of the table. *)

From stdpp Require Import sorting.
From S2P Require Import Prelude Mmio MqnicRes MqnicQueue MqnicRx MqnicTx MqnicSched.

Definition ETH_HLEN : Z := 14.
Definition EEXIST : Z := 17.
Definition ERANGE : Z := 34.
Definition EOPNOTSUPP : Z := 95.
Definition MQNIC_RB_IF_CTRL_REG_TX_MTU : Z := 0x28.
Definition MQNIC_RB_IF_CTRL_REG_RX_MTU : Z := 0x2C.
Definition MQNIC_RB_RX_QUEUE_MAP_CH_OFFSET : Z := 0x10.
Definition MQNIC_RB_RX_QUEUE_MAP_CH_STRIDE : Z := 0x10.
Definition MQNIC_RB_RX_QUEUE_MAP_CH_REG_RSS_MASK : Z := 0x04.
Definition MQNIC_RB_RX_QUEUE_MAP_CH_REG_APP_MASK : Z := 0x08.

(** ** State *)

(** What [struct mqnic_priv] and the interface fix for the port. *)
Record port_cfg := mk_cfg {
  cf_rxq_count : nat;
  cf_txq_count : nat;
  cf_rx_ring_size : Z;
  cf_tx_ring_size : Z;
  cf_max_desc_block_size : Z;
  cf_if_ctrl : Z;                          (* [if_ctrl_rb->regs] *)
  cf_queue_map : Z;                        (* [rx_queue_map_rb->regs] *)
  cf_indir_regs : Z;                       (* the interface's [rx_queue_map_indir_table[0]] *)
  cf_indir : list Z;                       (* the netdev's [rx_queue_map_indir_table] *)
  cf_sched_blocks : list mqnic_sched_block;
  cf_ports : list mqnic_port;
  cf_link_status_poll : Z;
  cf_min_mtu : Z;
  cf_max_mtu : Z;
}.

Record net_stats := mk_stats {
  st_rx_packets : Z;
  st_rx_bytes : Z;
  st_rx_dropped : Z;
  st_tx_packets : Z;
  st_tx_bytes : Z;
  st_tx_dropped : Z;
}.

Record hwtstamp_config := mk_hwts { hw_flags : Z; hw_tx_type : Z; hw_rx_filter : Z }.

Record ndev := mk_ndev {
  nd_mtu : Z;
  nd_port_up : bool;
  nd_stats : net_stats;
  nd_carrier : bool;
  nd_link_status : bool;
  nd_timer : bool;                         (* the link status timer is pending *)
  nd_hwts : hwtstamp_config;
}.

Definition set_port_up (b : bool) (d : ndev) : ndev :=
  mk_ndev (nd_mtu d) b (nd_stats d) (nd_carrier d) (nd_link_status d) (nd_timer d) (nd_hwts d).
Definition set_stats (s : net_stats) (d : ndev) : ndev :=
  mk_ndev (nd_mtu d) (nd_port_up d) s (nd_carrier d) (nd_link_status d) (nd_timer d) (nd_hwts d).
Definition set_link (carrier status timer : bool) (d : ndev) : ndev :=
  mk_ndev (nd_mtu d) (nd_port_up d) (nd_stats d) carrier status timer (nd_hwts d).
Definition set_mtu (mtu : Z) (d : ndev) : ndev :=
  mk_ndev mtu (nd_port_up d) (nd_stats d) (nd_carrier d) (nd_link_status d) (nd_timer d) (nd_hwts d).
Definition set_hwts (c : hwtstamp_config) (d : ndev) : ndev :=
  mk_ndev (nd_mtu d) (nd_port_up d) (nd_stats d) (nd_carrier d) (nd_link_status d) (nd_timer d) c.

Record port (hw : Type) := mk_netport {
  p_w : qworld hw;
  p_k : kmem;
  p_t : tmem;
  p_eqs : list mqnic_eq;                   (* [iface->eq], [eq_count] of them *)
  p_cqs : gmap nat mqnic_cq;
  p_next : nat;                            (* the next address of a completion queue *)
  p_napi : gmap nat bool;                  (* the device's NAPI contexts; [true]: enabled *)
  p_rxq : gmap Z rx_ring;                  (* [rxq_table] *)
  p_txq : gmap Z tx_ring;                  (* [txq_table] *)
  p_dev : ndev;
}.
Arguments mk_netport {hw}. Arguments p_w {hw}. Arguments p_k {hw}. Arguments p_t {hw}. Arguments p_eqs {hw}. Arguments p_cqs {hw}.
Arguments p_next {hw}. Arguments p_napi {hw}. Arguments p_rxq {hw}. Arguments p_txq {hw}. Arguments p_dev {hw}.

(** The answers of the allocators while one queue is set up. *)
Record queue_env := mk_qenv {
  qe_cq : bool;                            (* [kzalloc] of the completion queue *)
  qe_cq_buf : option (Z * Z);
  qe_attach : bool;                        (* room in the table of the event queue *)
  qe_ring : bool;                          (* [kzalloc] of the ring *)
  qe_info : bool;
  qe_buf : option (Z * Z);
  qe_pages : nat -> page_answer;
  qe_insert : bool;                        (* room in the table of the port *)
}.

(** The indices of a table, ascending. *)
Definition sorted_keys {A} (t : gmap Z A) : list Z := merge_sort Z.le (fst <$> map_to_list t).

Section Netdev.
Context {hw : Type} `{!Mmio hw}.
Implicit Types p : port hw.

Definition set_mem (w : qworld hw) (k : kmem) (t : tmem) p : port hw :=
  mk_netport w k t (p_eqs p) (p_cqs p) (p_next p) (p_napi p) (p_rxq p) (p_txq p) (p_dev p).
Definition set_w (w : qworld hw) p : port hw := set_mem w (p_k p) (p_t p) p.
Definition set_hw (h : hw) p : port hw := set_w (set_w_hw h (p_w p)) p.
Definition set_eqs (l : list mqnic_eq) p : port hw :=
  mk_netport (p_w p) (p_k p) (p_t p) l (p_cqs p) (p_next p) (p_napi p) (p_rxq p) (p_txq p) (p_dev p).
Definition set_cqs (m : gmap nat mqnic_cq) p : port hw :=
  mk_netport (p_w p) (p_k p) (p_t p) (p_eqs p) m (p_next p) (p_napi p) (p_rxq p) (p_txq p) (p_dev p).
Definition put_cq (c : nat) (cq : mqnic_cq) p : port hw := set_cqs (<[c := cq]> (p_cqs p)) p.
Definition set_napi (m : gmap nat bool) p : port hw :=
  mk_netport (p_w p) (p_k p) (p_t p) (p_eqs p) (p_cqs p) (p_next p) m (p_rxq p) (p_txq p) (p_dev p).
Definition set_rxq (m : gmap Z rx_ring) p : port hw :=
  mk_netport (p_w p) (p_k p) (p_t p) (p_eqs p) (p_cqs p) (p_next p) (p_napi p) m (p_txq p) (p_dev p).
Definition set_txq (m : gmap Z tx_ring) p : port hw :=
  mk_netport (p_w p) (p_k p) (p_t p) (p_eqs p) (p_cqs p) (p_next p) (p_napi p) (p_rxq p) m (p_dev p).
Definition set_dev (d : ndev) p : port hw :=
  mk_netport (p_w p) (p_k p) (p_t p) (p_eqs p) (p_cqs p) (p_next p) (p_napi p) (p_rxq p) (p_txq p) d.

(** ** Completion queues and NAPI *)

Definition port_create_cq p : nat * port hw :=
  (p_next p,
   mk_netport (p_w p) (p_k p) (p_t p) (p_eqs p) (<[p_next p := mqnic_create_cq]> (p_cqs p)) (S (p_next p)) (p_napi p)
     (p_rxq p) (p_txq p) (p_dev p)).

Definition port_open_cq (c e : nat) (size : Z) (buf : option (Z * Z)) (attach : bool) p : option (Z * port hw) :=
  cq ← p_cqs p !! c;
  eq ← p_eqs p !! e;
  '(ret, cq, eq, w) ← mqnic_open_cq c cq (Some e) eq size buf attach (p_w p);
  Some (ret, put_cq c cq (set_eqs (<[e := eq]> (p_eqs p)) (set_w w p))).

(** An event queue is touched only if the queue is attached to one. *)
Definition port_close_cq (c : nat) p : option (port hw) :=
  cq ← p_cqs p !! c;
  match cq_eq cq with
  | Some e =>
      eq ← p_eqs p !! e;
      '(cq, eq, w) ← mqnic_close_cq cq eq (p_w p);
      Some (put_cq c cq (set_eqs (<[e := eq]> (p_eqs p)) (set_w w p)))
  | None =>
      '(cq, _, w) ← mqnic_close_cq cq mqnic_create_eq (p_w p);
      Some (put_cq c cq (set_w w p))
  end.

Definition mqnic_destroy_cq (c : nat) p : option (port hw) :=
  p ← port_close_cq c p;
  Some (set_cqs (delete c (p_cqs p)) p).

Definition netif_napi_add (c : nat) p : port hw := set_napi (<[c := false]> (p_napi p)) p.
Definition napi_enable (c : nat) p : port hw := set_napi (<[c := true]> (p_napi p)) p.
(** It waits for ever on a context that is not enabled. *)
Definition napi_disable (c : nat) p : option (port hw) :=
  match p_napi p !! c with
  | Some true => Some (set_napi (<[c := false]> (p_napi p)) p)
  | _ => None
  end.
Definition netif_napi_del (c : nat) p : port hw := set_napi (delete c (p_napi p)) p.

(** [mqnic_arm_cq] *)
Definition port_arm_cq (c : nat) p : option (port hw) :=
  cq ← p_cqs p !! c; Some (set_w (mqnic_arm_cq cq (p_w p)) p).

(** ** Rings *)

(** The completion queue of the ring, if it has one. *)
Definition port_close_rx (r : rx_ring) p : option (rx_ring * port hw) :=
  match rx_cq r with
  | Some c =>
      cq ← p_cqs p !! c;
      '(r, cq, k, w) ← mqnic_close_rx_ring r cq (p_k p) (p_w p);
      Some (r, put_cq c cq (set_mem w k (p_t p) p))
  | None =>
      '(r, _, k, w) ← mqnic_close_rx_ring r mqnic_create_cq (p_k p) (p_w p);
      Some (r, set_mem w k (p_t p) p)
  end.
Definition mqnic_destroy_rx_ring (r : rx_ring) p : option (port hw) := '(_, p) ← port_close_rx r p; Some p.

Definition port_close_tx (r : tx_ring) p : option (tx_ring * port hw) :=
  match tx_cq r with
  | Some c =>
      cq ← p_cqs p !! c;
      '(r, cq, t, w) ← mqnic_close_tx_ring r cq (p_t p) (p_w p);
      Some (r, put_cq c cq (set_mem w (p_k p) t p))
  | None =>
      '(r, _, t, w) ← mqnic_close_tx_ring r mqnic_create_cq (p_t p) (p_w p);
      Some (r, set_mem w (p_k p) t p)
  end.
Definition mqnic_destroy_tx_ring (r : tx_ring) p : option (port hw) := '(_, p) ← port_close_tx r p; Some p.

(** [radix_tree_insert]: 0, or an error and no change. *)
Definition table_insert {A} (room : bool) (key : Z) (x : A) (t : gmap Z A) : Z * gmap Z A :=
  match t !! key with
  | Some _ => (- EEXIST, t)
  | None => if room then (0, <[key := x]> t) else (- ENOMEM, t)
  end.

(** The order of the pages of a ring: [ilog2((mtu + ETH_HLEN + PAGE_SIZE - 1) / PAGE_SIZE - 1) + 1] *)
Definition page_order (mtu : Z) : Z :=
  if mtu + ETH_HLEN <=? PAGE_SIZE then 0 else Z.log2 ((mtu + ETH_HLEN + PAGE_SIZE - 1) / PAGE_SIZE - 1) + 1.

Definition set_page_order (o : Z) (r : rx_ring) : rx_ring :=
  mk_rx_ring (rx_q r) (rx_info r) (rx_desc r) o (rx_log_desc_block_size r) (rx_full_size r)
    (rx_packets r) (rx_bytes r) (rx_ts_s r) (rx_ts_valid r) (rx_priv r) (rx_cq r).

(** ** Starting *)

(** The first part of both loops: a completion queue on the event queue
    [k % eq_count], with its NAPI context. *)
Definition start_cq (env : queue_env) (k : nat) (size : Z) p : option (Z * nat * port hw) :=
  if negb (qe_cq env) then Some (- ENOMEM, 0%nat, p)
  else if (length (p_eqs p) =? 0)%nat then None
  else
    let '(c, p) := port_create_cq p in
    '(ret, p) ← port_open_cq c (k mod length (p_eqs p)) size (qe_cq_buf env) (qe_attach env) p;
    if negb (ret =? 0) then p ← mqnic_destroy_cq c p; Some (ret, c, p)
    else
      let p := napi_enable c (netif_napi_add c p) in
      p ← port_arm_cq c p;
      Some (0, c, p).

(** One turn of the loop over the receive queues. *)
Definition start_rx_queue (cfg : port_cfg) (env : queue_env) (k : nat) p : option (Z * port hw) :=
  '(ret, c, p) ← start_cq env k (cf_rx_ring_size cfg) p;
  if negb (ret =? 0) then Some (ret, p)
  else if negb (qe_ring env) then p ← mqnic_destroy_cq c p; Some (- ENOMEM, p)
  else
    let r := set_page_order (page_order (nd_mtu (p_dev p))) mqnic_create_rx_ring in
    cq ← p_cqs p !! c;
    '(ret, r, cq, km, w) ← mqnic_open_rx_ring k r true (Some c) cq (cf_rx_ring_size cfg) 1 (qe_info env) (qe_buf env) (qe_pages env) (p_k p) (p_w p);
    let p := put_cq c cq (set_mem w km (p_t p) p) in
    if negb (ret =? 0) then p ← mqnic_destroy_rx_ring r p; p ← mqnic_destroy_cq c p; Some (ret, p)
    else
      let '(ret, t) := table_insert (qe_insert env) (Z.of_nat k) r (p_rxq p) in
      if negb (ret =? 0) then p ← mqnic_destroy_rx_ring r p; p ← mqnic_destroy_cq c p; Some (ret, p)
      else Some (0, set_rxq t p).

(** The stopped bit of [q->tx_queue] is cleared by [netif_tx_start_all_queues]
    before the first packet. *)
Definition start_tx_queue (cfg : port_cfg) (env : queue_env) (k : nat) p : option (Z * port hw) :=
  let desc_block_size := Z.min (cf_max_desc_block_size cfg) 4 in
  '(ret, c, p) ← start_cq env k (cf_tx_ring_size cfg) p;
  if negb (ret =? 0) then Some (ret, p)
  else if negb (qe_ring env) then p ← mqnic_destroy_cq c p; Some (- ENOMEM, p)
  else
    cq ← p_cqs p !! c;
    '(ret, r, cq, tm, w) ← mqnic_open_tx_ring k mqnic_create_tx_ring true (Some c) cq (cf_tx_ring_size cfg) desc_block_size
                             (qe_info env) (qe_buf env) (p_t p) (p_w p);
    let p := put_cq c cq (set_mem w (p_k p) tm p) in
    if negb (ret =? 0) then p ← mqnic_destroy_tx_ring r p; p ← mqnic_destroy_cq c p; Some (ret, p)
    else
      let '(ret, t) := table_insert (qe_insert env) (Z.of_nat k) r (p_txq p) in
      if negb (ret =? 0) then p ← mqnic_destroy_tx_ring r p; p ← mqnic_destroy_cq c p; Some (ret, p)
      else Some (0, set_txq t p).

(** [n] turns from [k] on, until one fails. *)
Fixpoint start_queues (start : queue_env -> nat -> port hw -> option (Z * port hw)) (envs : nat -> queue_env) (n k : nat) p
    : option (Z * port hw) :=
  match n with
  | O => Some (0, p)
  | S n' =>
      '(ret, p) ← start (envs k) k p;
      if negb (ret =? 0) then Some (ret, p) else start_queues start envs n' (S k) p
  end.

(** ** Registers of the interface, port 0 *)

Definition mqnic_interface_set_tx_mtu (cfg : port_cfg) (mtu : Z) (h : hw) : hw := iowrite32 mtu (cf_if_ctrl cfg + MQNIC_RB_IF_CTRL_REG_TX_MTU) h.
Definition mqnic_interface_set_rx_mtu (cfg : port_cfg) (mtu : Z) (h : hw) : hw := iowrite32 mtu (cf_if_ctrl cfg + MQNIC_RB_IF_CTRL_REG_RX_MTU) h.

Definition ch_reg (cfg : port_cfg) (n reg : Z) : Z :=
  cf_queue_map cfg + MQNIC_RB_RX_QUEUE_MAP_CH_OFFSET + MQNIC_RB_RX_QUEUE_MAP_CH_STRIDE * n + reg.
Definition mqnic_interface_set_rx_queue_map_rss_mask (cfg : port_cfg) (n val : Z) (h : hw) : hw :=
  iowrite32 val (ch_reg cfg n MQNIC_RB_RX_QUEUE_MAP_CH_REG_RSS_MASK) h.
Definition mqnic_interface_set_rx_queue_map_app_mask (cfg : port_cfg) (n val : Z) (h : hw) : hw :=
  iowrite32 val (ch_reg cfg n MQNIC_RB_RX_QUEUE_MAP_CH_REG_APP_MASK) h.

(** The entries written: those whose queue is in the table. *)
Definition indir_writes (cfg : port_cfg) (t : gmap Z rx_ring) : list (Z * Z) :=
  omap (fun '(k, key) => (fun r => (q_index (rx_q r), cf_indir_regs cfg + Z.of_nat k * 4)) <$> t !! key) (imap pair (cf_indir cfg)).

Definition mqnic_update_indir_table (cfg : port_cfg) p : port hw :=
  let h := mqnic_interface_set_rx_queue_map_rss_mask cfg 0 0xffffffff (w_hw (p_w p)) in
  let h := mqnic_interface_set_rx_queue_map_app_mask cfg 0 0 h in
  set_hw (write_all (indir_writes cfg (p_rxq p)) h) p.

(** ** Statistics *)

Definition sum64 (l : list Z) : Z := foldl (fun a x => u64 (a + x)) 0 l.

(** [dropped_packets] of a receive ring stays 0. *)
Definition mqnic_update_stats p : port hw :=
  if negb (nd_port_up (p_dev p)) then p
  else
    let rx := (fun key => default mqnic_create_rx_ring (p_rxq p !! key)) <$> sorted_keys (p_rxq p) in
    let tx := (fun key => default mqnic_create_tx_ring (p_txq p !! key)) <$> sorted_keys (p_txq p) in
    set_dev (set_stats (mk_stats (sum64 (rx_packets <$> rx)) (sum64 (rx_bytes <$> rx)) 0
                          (sum64 (tx_packets <$> tx)) (sum64 (tx_bytes <$> tx)) (sum64 (tx_dropped_packets <$> tx))) (p_dev p)) p.

(** The statistics handed to the stack, and the port. *)
Definition mqnic_get_stats64 p : net_stats * port hw :=
  let p := mqnic_update_stats p in (nd_stats (p_dev p), p).

(** ** Walks over the tables *)

Fixpoint each_rx (f : rx_ring -> qworld hw -> rx_ring * qworld hw) (keys : list Z) p : option (port hw) :=
  match keys with
  | [] => Some p
  | key :: keys' =>
      r ← p_rxq p !! key;
      let '(r, w) := f r (p_w p) in
      each_rx f keys' (set_rxq (<[key := r]> (p_rxq p)) (set_w w p))
  end.

Fixpoint each_tx (f : tx_ring -> qworld hw -> tx_ring * qworld hw) (keys : list Z) p : option (port hw) :=
  match keys with
  | [] => Some p
  | key :: keys' =>
      r ← p_txq p !! key;
      let '(r, w) := f r (p_w p) in
      each_tx f keys' (set_txq (<[key := r]> (p_txq p)) (set_w w p))
  end.

Definition netif_tx_all_queues (stopped : bool) p : port hw := set_txq (set_tx_stopped stopped <$> p_txq p) p.

(** ** Stopping *)

Definition stop_tx_queue (key : Z) p : option (port hw) :=
  r ← p_txq p !! key;
  c ← tx_cq r;
  p ← napi_disable c p;
  let p := netif_napi_del c p in
  '(r, p) ← port_close_tx r p;
  p ← mqnic_destroy_tx_ring r p;
  let p := set_txq (delete key (p_txq p)) p in
  p ← port_close_cq c p;
  mqnic_destroy_cq c p.

Definition stop_rx_queue (key : Z) p : option (port hw) :=
  r ← p_rxq p !! key;
  c ← rx_cq r;
  p ← napi_disable c p;
  let p := netif_napi_del c p in
  '(r, p) ← port_close_rx r p;
  p ← mqnic_destroy_rx_ring r p;
  let p := set_rxq (delete key (p_rxq p)) p in
  p ← port_close_cq c p;
  mqnic_destroy_cq c p.

Fixpoint stop_queues (stop : Z -> port hw -> option (port hw)) (keys : list Z) p : option (port hw) :=
  match keys with
  | [] => Some p
  | key :: keys' => p ← stop key p; stop_queues stop keys' p
  end.

Definition mqnic_stop_port (cfg : port_cfg) p : option (port hw) :=
  let d := p_dev p in
  let p := set_dev (set_link false (nd_link_status d) (if cf_link_status_poll cfg =? 0 then nd_timer d else false) d) p in
  let p := netif_tx_all_queues true p in
  let p := mqnic_update_stats p in
  let p := set_hw (foldl (fun h b => mqnic_deactivate_sched_block b h) (w_hw (p_w p)) (cf_sched_blocks cfg)) p in
  p ← each_tx mqnic_disable_tx_ring (sorted_keys (p_txq p)) p;
  p ← each_rx mqnic_disable_rx_ring (sorted_keys (p_rxq p)) p;
  let p := set_dev (set_port_up false (p_dev p)) p in
  p ← stop_queues stop_tx_queue (sorted_keys (p_txq p)) p;
  stop_queues stop_rx_queue (sorted_keys (p_rxq p)) p.

(** ** The whole start *)

(** After the queues; [sched_block[0]] is followed without a check. *)
Definition start_finish (cfg : port_cfg) p : option (port hw) :=
  let mtu := u32 (nd_mtu (p_dev p) + ETH_HLEN) in
  let p := set_hw (mqnic_interface_set_rx_mtu cfg mtu (mqnic_interface_set_tx_mtu cfg mtu (w_hw (p_w p)))) p in
  let p := mqnic_update_indir_table cfg p in
  let p := set_dev (set_port_up true (p_dev p)) p in
  p ← each_tx (fun r w => let '(_, r, w) := mqnic_enable_tx_ring r w in (r, w)) (sorted_keys (p_txq p)) p;
  p ← each_rx (fun r w => let '(_, r, w) := mqnic_enable_rx_ring r w in (r, w)) (sorted_keys (p_rxq p)) p;
  b ← head (cf_sched_blocks cfg);
  let p := set_hw (mqnic_activate_sched_block b (w_hw (p_w p))) p in
  let p := netif_tx_all_queues false p in
  let d := p_dev p in
  Some (set_dev (if cf_link_status_poll cfg =? 0 then set_link true (nd_link_status d) (nd_timer d) d
                 else set_link (nd_carrier d) false true d) p).

Definition mqnic_start_port (cfg : port_cfg) (rx_envs tx_envs : nat -> queue_env) p : option (Z * port hw) :=
  '(ret, p) ← start_queues (start_rx_queue cfg) rx_envs (cf_rxq_count cfg) 0 p;
  if negb (ret =? 0) then p ← mqnic_stop_port cfg p; Some (ret, p)
  else
    '(ret, p) ← start_queues (start_tx_queue cfg) tx_envs (cf_txq_count cfg) 0 p;
    if negb (ret =? 0) then p ← mqnic_stop_port cfg p; Some (ret, p)
    else p ← start_finish cfg p; Some (0, p).

Definition mqnic_open := mqnic_start_port.
Definition mqnic_close (cfg : port_cfg) p : option (Z * port hw) := p ← mqnic_stop_port cfg p; Some (0, p).

(** ** MTU *)

(** [running]: [netif_running]. The result of the restart is not used. *)
Definition mqnic_change_mtu (cfg : port_cfg) (rx_envs tx_envs : nat -> queue_env) (running : bool) (new_mtu : Z) p : option (Z * port hw) :=
  if (new_mtu <? cf_min_mtu cfg) || (cf_max_mtu cfg <? new_mtu) then Some (- EPERM, p)
  else
    let p := set_dev (set_mtu new_mtu (p_dev p)) p in
    if running then
      p ← mqnic_stop_port cfg p;
      '(_, p) ← mqnic_start_port cfg rx_envs tx_envs p;
      Some (0, p)
    else Some (0, p).

(** ** Time stamping *)

Definition HWTSTAMP_TX_OFF : Z := 0.
Definition HWTSTAMP_TX_ON : Z := 1.
Definition HWTSTAMP_FILTER_NONE : Z := 0.
Definition HWTSTAMP_FILTER_ALL : Z := 1.
Definition HWTSTAMP_FILTER_NTP_ALL : Z := 15.
Definition SIOCSHWTSTAMP : Z := 0x89b0.
Definition SIOCGHWTSTAMP : Z := 0x89b1.

(** [from] is what [copy_from_user] gives ([None]: it fails), [to_ok] whether
    [copy_to_user] works. Result, user's copy, state. The accepted filters
    are the constants 1 (ALL) to 15 (NTP_ALL) of [linux/net_tstamp.h]. *)
Definition mqnic_hwtstamp_set (from : option hwtstamp_config) (to_ok : bool) (d : ndev) : Z * option hwtstamp_config * ndev :=
  match from with
  | None => (- EFAULT, None, d)
  | Some c =>
      if negb (hw_flags c =? 0) then (- EINVAL, None, d)
      else if negb ((hw_tx_type c =? HWTSTAMP_TX_OFF) || (hw_tx_type c =? HWTSTAMP_TX_ON)) then (- ERANGE, None, d)
      else
        let done f :=
          let c := mk_hwts (hw_flags c) (hw_tx_type c) f in
          if to_ok then (0, Some c, set_hwts c d) else (- EFAULT, None, set_hwts c d) in
        if hw_rx_filter c =? HWTSTAMP_FILTER_NONE then done HWTSTAMP_FILTER_NONE
        else if (HWTSTAMP_FILTER_ALL <=? hw_rx_filter c) && (hw_rx_filter c <=? HWTSTAMP_FILTER_NTP_ALL) then done HWTSTAMP_FILTER_ALL
        else (- ERANGE, None, d)
  end.

Definition mqnic_hwtstamp_get (to_ok : bool) (d : ndev) : Z * option hwtstamp_config :=
  if to_ok then (0, Some (nd_hwts d)) else (- EFAULT, None).

Definition mqnic_ioctl (cmd : Z) (from : option hwtstamp_config) (to_ok : bool) (d : ndev) : Z * option hwtstamp_config * ndev :=
  if cmd =? SIOCSHWTSTAMP then mqnic_hwtstamp_set from to_ok d
  else if cmd =? SIOCGHWTSTAMP then (mqnic_hwtstamp_get to_ok d, d)
  else (- EOPNOTSUPP, None, d).

(** ** Link state *)

(** The loop over the ports: how many are up. *)
Fixpoint ports_up (l : list mqnic_port) (up : nat) (h : hw) : option (nat * hw) :=
  match l with
  | [] => Some (up, h)
  | po :: l' =>
      '(tx, h) ← mqnic_port_get_tx_status po h;
      if Z.land tx 1 =? 0 then ports_up l' up h
      else
        '(rx, h) ← mqnic_port_get_rx_status po h;
        if Z.land rx 1 =? 0 then ports_up l' up h else ports_up l' (S up) h
  end.

Definition mqnic_link_status_timeout (cfg : port_cfg) p : option (port hw) :=
  '(up, h) ← ports_up (cf_ports cfg) 0 (w_hw (p_w p));
  let d := p_dev p in
  let p := set_hw h p in
  Some (set_dev
    (if (up <? length (cf_ports cfg))%nat then
       if nd_link_status d then set_link false false true d else set_link (nd_carrier d) false true d
     else if nd_link_status d then set_link (nd_carrier d) true true d else set_link true true true d) p).
End Netdev.

(** ** Creating the device *)

Definition MQNIC_MIN_TX_RING_SZ : Z := 4096 / 16.
Definition MQNIC_MAX_TX_RING_SZ : Z := 32768.
Definition MQNIC_MIN_RX_RING_SZ : Z := 4096 / 16.
Definition MQNIC_MAX_RX_RING_SZ : Z := 32768.
Definition MQNIC_IF_FEATURE_TX_CSUM : Z := 256.         (* bit 8 *)
Definition MQNIC_IF_FEATURE_RX_CSUM : Z := 512.         (* bit 9 *)
Definition ETH_MIN_MTU : Z := 68.

Definition clamp (x lo hi : Z) : Z := Z.min (Z.max x lo) hi.

(** The feature flags the driver sets. *)
Record nd_features := mk_features { nf_sg : bool; nf_rxcsum : bool; nf_hw_csum : bool; nf_highdma : bool }.

(** What the interface and the module parameters say; [if_macs] is
    [mdev->mac_list], as far as [mac_count]. *)
Record netdev_in := mk_netdev_in {
  ni_txq_count : Z;
  ni_rxq_count : Z;
  ni_online_cpus : Z;
  ni_num_txq_entries : Z;
  ni_num_rxq_entries : Z;
  ni_if_features : Z;
  ni_indir_table_size : nat;
  ni_max_tx_mtu : Z;
  ni_max_rx_mtu : Z;
  ni_macs : list (list Z);
}.

Record new_netdev := mk_new_netdev {
  nn_txq_count : Z;
  nn_rxq_count : Z;
  nn_tx_ring_size : Z;
  nn_rx_ring_size : Z;
  nn_indir : list Z;
  nn_mac : option (list Z);                (* [None]: a random one *)
  nn_hw_features : nd_features;
  nn_features : nd_features;
  nn_min_mtu : Z;
  nn_max_mtu : Z;
  nn_dev : ndev;
}.

(** Neither a group address nor zero. *)
Definition is_valid_ether_addr (mac : list Z) : bool :=
  match mac with
  | b :: _ => (Z.land b 1 =? 0) && negb (forallb (fun x => x =? 0) mac)
  | [] => false
  end.

(** [k % priv->rxq_count] with a count of 0 is a division by zero: [None].
    [alloc_ok], [kzalloc_ok] and [register_ret] are the kernel's answers. *)
Definition mqnic_create_netdev (alloc_ok kzalloc_ok : bool) (register_ret : Z) (dev_port : nat) (x : netdev_in) : option (Z + new_netdev) :=
  if negb alloc_ok then Some (inl (- ENOMEM))
  else
    let txq := Z.min (ni_txq_count x) 256 in
    let rxq := Z.min (ni_rxq_count x) (ni_online_cpus x) in
    let tx_ring := roundup_pow_of_two (clamp (ni_num_txq_entries x) MQNIC_MIN_TX_RING_SZ MQNIC_MAX_TX_RING_SZ) in
    let rx_ring := roundup_pow_of_two (clamp (ni_num_rxq_entries x) MQNIC_MIN_RX_RING_SZ MQNIC_MAX_RX_RING_SZ) in
    let mac :=
      match ni_macs x !! dev_port with
      | None => None
      | Some m => if is_valid_ether_addr m then Some m else None
      end in
    if negb kzalloc_ok then Some (inl (- ENOMEM))
    else if (rxq =? 0) && negb (ni_indir_table_size x =? 0)%nat then None
    else
      let indir := (fun k => Z.of_nat k mod rxq) <$> seq 0 (ni_indir_table_size x) in
      let rxcsum := negb (Z.land (ni_if_features x) MQNIC_IF_FEATURE_RX_CSUM =? 0) in
      let hwcsum := negb (Z.land (ni_if_features x) MQNIC_IF_FEATURE_TX_CSUM =? 0) in
      let max_mtu :=
        if negb (ni_max_tx_mtu x =? 0) && negb (ni_max_rx_mtu x =? 0)
        then u32 (Z.min (ni_max_tx_mtu x) (ni_max_rx_mtu x) - ETH_HLEN) else 1500 in
      if negb (register_ret =? 0) then Some (inl register_ret)
      else Some (inr (mk_new_netdev txq rxq tx_ring rx_ring indir mac
                        (mk_features true rxcsum hwcsum false) (mk_features true rxcsum hwcsum true) ETH_MIN_MTU max_mtu
                        (mk_ndev 1500 false (mk_stats 0 0 0 0 0 0) false false false (mk_hwts 0 HWTSTAMP_TX_OFF HWTSTAMP_FILTER_NONE)))).

(** ** Properties *)

(** The order of the pages of a receive ring is the smallest that holds a
    frame of the MTU with its header. *)
Theorem page_order_smallest mtu :
  0 <= mtu ->
  0 <= page_order mtu /\ mtu + ETH_HLEN <= PAGE_SIZE * 2 ^ page_order mtu /\
  forall o, 0 <= o -> mtu + ETH_HLEN <= PAGE_SIZE * 2 ^ o -> page_order mtu <= o.
Proof.
  intros Hm. unfold page_order, ETH_HLEN, PAGE_SIZE. destruct (Z.leb_spec (mtu + 14) 4096) as [Hle|Hgt]; [split_and!; lia|].
  set (n := (mtu + 14 + 4096 - 1) / 4096). assert (2 <= n) as Hn by (apply Z.div_le_lower_bound; lia).
  assert (mtu + 14 <= 4096 * n < mtu + 14 + 4096) as Hb by (unfold n; pose proof (Z.div_mod (mtu + 14 + 4096 - 1) 4096); pose proof (Z.mod_pos_bound (mtu + 14 + 4096 - 1) 4096); lia).
  pose proof (Z.log2_nonneg (n - 1)). pose proof (Z.log2_spec (n - 1) ltac:(lia)) as Hl. rewrite Z.pow_succ_r in Hl by lia.
  split; [lia|]. split; [rewrite Z.pow_add_r, Z.pow_1_r by lia; lia|].
  intros o Ho Hfit. assert (n <= 2 ^ o) by lia. assert (Z.log2 (n - 1) < o); [|lia]. apply Z.log2_lt_pow2; lia.
Qed.

Lemma page_order_smallest_witness : page_order 9000 = 2 /\ 9000 + ETH_HLEN <= PAGE_SIZE * 2 ^ page_order 9000.
Proof. split; [reflexivity|]. apply (page_order_smallest 9000). lia. Defined.

Section NetdevSpec.
Context {hw : Type} `{!Mmio hw}.
Implicit Types p : port hw.

Lemma clamp_range x lo hi : lo <= hi -> lo <= clamp x lo hi <= hi.
Proof. unfold clamp. lia. Qed.

Lemma ring_size_range x : exists n, 8 <= n <= 15 /\ roundup_pow_of_two (clamp x (4096 / 16) 32768) = 2 ^ n.
Proof.
  change (4096 / 16) with 256. pose proof (clamp_range x 256 32768 ltac:(lia)) as H. unfold roundup_pow_of_two.
  rewrite (proj2 (Z.leb_gt _ _)) by lia. eexists. split; [|reflexivity]. split.
  - change 8 with (Z.log2_up 256). apply Z.log2_up_le_mono. lia.
  - change 15 with (Z.log2_up 32768). apply Z.log2_up_le_mono. lia.
Qed.

(** C38: a new device. Creating one on an interface with at least one receive
    queue gives rings of a power of two between 256 and 32768 entries
    whatever the module parameters are, at most 256 transmit queues, and an
    indirection table every entry of which names one of the device's receive
    queues; an address from the list only if it is a proper one. Without a
    receive queue the driver divides by zero. *)
Theorem mqnic_create_netdev_spec register_ret dev_port x :
  0 <= ni_txq_count x -> 0 <= ni_rxq_count x -> 0 < ni_online_cpus x -> (0 < ni_indir_table_size x)%nat ->
  match mqnic_create_netdev true true register_ret dev_port x with
  | None => ni_rxq_count x = 0
  | Some (inl e) => e = register_ret /\ e <> 0
  | Some (inr d) =>
      (exists n, 8 <= n <= 15 /\ nn_tx_ring_size d = 2 ^ n) /\ (exists n, 8 <= n <= 15 /\ nn_rx_ring_size d = 2 ^ n) /\
      0 <= nn_txq_count d <= 256 /\ 0 < nn_rxq_count d <= ni_rxq_count x /\ length (nn_indir d) = ni_indir_table_size x /\
      Forall (fun key => 0 <= key < nn_rxq_count d) (nn_indir d) /\
      (forall m, nn_mac d = Some m -> ni_macs x !! dev_port = Some m /\ is_valid_ether_addr m = true)
  end.
Proof.
  intros Ht Hr Hc Hi. unfold mqnic_create_netdev. cbn [negb]. rewrite (proj2 (Nat.eqb_neq _ _)) by lia. cbn [negb]. rewrite andb_true_r.
  destruct (Z.eqb_spec (Z.min (ni_rxq_count x) (ni_online_cpus x)) 0) as [H0|H0]; [lia|].
  destruct (Z.eqb_spec register_ret 0) as [->|Hret]; cbn [negb]; [|done].
  split; [apply ring_size_range|]. split; [apply ring_size_range|]. cbn [nn_txq_count nn_rxq_count nn_indir nn_mac]. split; [lia|]. split; [lia|].
  split; [by rewrite length_fmap, length_seq|]. split.
  - apply Forall_forall. intros key (k & -> & _)%list_elem_of_fmap. apply Z.mod_pos_bound. lia.
  - intros m Hm. destruct (ni_macs x !! dev_port) as [m'|]; [|done]. destruct (is_valid_ether_addr m') eqn:E; [|done]. by injection Hm as <-.
Qed.

(** The indirection table of the receive side. When there is a ring for
    every queue and the entries name queues of the device, every entry of the
    hardware's table is written, in order, with the hardware's number of the
    ring it names. *)
Theorem mqnic_indir_table_complete cfg p count :
  (forall key, 0 <= key < count -> is_Some (p_rxq p !! key)) -> Forall (fun key => 0 <= key < count) (cf_indir cfg) ->
  mqnic_update_indir_table cfg p
  = set_hw (write_all ((0xffffffff, ch_reg cfg 0 MQNIC_RB_RX_QUEUE_MAP_CH_REG_RSS_MASK) :: (0, ch_reg cfg 0 MQNIC_RB_RX_QUEUE_MAP_CH_REG_APP_MASK)
              :: imap (fun k key => (q_index (rx_q (default mqnic_create_rx_ring (p_rxq p !! key))), cf_indir_regs cfg + Z.of_nat k * 4)) (cf_indir cfg))
              (w_hw (p_w p))) p.
Proof.
  intros Hk Hf. unfold mqnic_update_indir_table. f_equal.
  assert (indir_writes cfg (p_rxq p)
    = imap (fun k key => (q_index (rx_q (default mqnic_create_rx_ring (p_rxq p !! key))), cf_indir_regs cfg + Z.of_nat k * 4)) (cf_indir cfg)) as ->; [|done].
  unfold indir_writes. generalize (cf_indir_regs cfg) as a. intros a.
  assert (forall (l : list Z) (f : nat -> nat), Forall (fun key => 0 <= key < count) l ->
    omap (fun '(k, key) => (fun r => (q_index (rx_q r), a + Z.of_nat k * 4)) <$> p_rxq p !! key) (imap (fun k key => (f k, key)) l)
    = imap (fun k key => (q_index (rx_q (default mqnic_create_rx_ring (p_rxq p !! key))), a + Z.of_nat (f k) * 4)) l) as H.
  { intros l. induction l as [|key l IH]; intros f Hl; [done|]. apply Forall_cons in Hl as [H1 Hl]. destruct (Hk key H1) as [r Hr].
    rewrite !imap_cons. cbn [omap list_omap]. rewrite Hr. cbn. f_equal. apply (IH (f ∘ S) Hl). }
  apply (H (cf_indir cfg) (fun k => k) Hf).
Qed.

(** The link state. When all ports have their control block, the timer's
    function reports the carrier exactly when the transmit and receive status
    of every port is up, if the carrier matched the recorded state before,
    and arms the timer again. *)
Theorem mqnic_link_status_tracks cfg p :
  Forall (fun po => is_Some (po_port_ctrl_rb po)) (cf_ports cfg) -> nd_carrier (p_dev p) = nd_link_status (p_dev p) ->
  exists p' up h, ports_up (cf_ports cfg) 0 (w_hw (p_w p)) = Some (up, h) /\ mqnic_link_status_timeout cfg p = Some p' /\
    nd_link_status (p_dev p') = negb (up <? length (cf_ports cfg))%nat /\ nd_carrier (p_dev p') = nd_link_status (p_dev p') /\ nd_timer (p_dev p') = true.
Proof.
  intros Hp Hc. assert (forall l up h, Forall (fun po => is_Some (po_port_ctrl_rb po)) l -> is_Some (ports_up l up h)) as Hup.
  { induction l as [|po l IH]; intros up h Hl; [by eexists|]. apply Forall_cons in Hl as [[rb Hrb] Hl]. cbn [ports_up].
    unfold mqnic_port_get_tx_status, mqnic_port_get_rx_status. rewrite Hrb. cbn [mbind option_bind]. destruct (ioread32 _ h) as [tx h1].
    destruct (Z.land tx 1 =? 0); [by apply IH|]. destruct (ioread32 _ h1) as [rx h2]. destruct (Z.land rx 1 =? 0); by apply IH. }
  destruct (Hup (cf_ports cfg) 0%nat (w_hw (p_w p)) Hp) as [[up h] E]. unfold mqnic_link_status_timeout. rewrite E. cbn [mbind option_bind].
  eexists _, up, h. split; [done|]. split; [reflexivity|]. cbn [p_dev set_dev].
  destruct (up <? length (cf_ports cfg))%nat, (nd_link_status (p_dev p)) eqn:El; cbn; by rewrite ?Hc.
Qed.
End NetdevSpec.

(** Time stamping. A request with flags, an unknown transmit type or an
    unknown filter is refused and changes nothing; otherwise any filter but
    NONE is widened to ALL, and reading the configuration back gives what the
    request was answered with. *)
Theorem mqnic_hwtstamp_set_get c d :
  match mqnic_ioctl SIOCSHWTSTAMP (Some c) true d with
  | (0, Some c', d') =>
      hw_flags c = 0 /\ hw_tx_type c' = hw_tx_type c /\ (hw_rx_filter c' = HWTSTAMP_FILTER_NONE <-> hw_rx_filter c = HWTSTAMP_FILTER_NONE) /\
      mqnic_ioctl SIOCGHWTSTAMP None true d' = (0, Some c', d')
  | (ret, None, d') => ret < 0 /\ d' = d
  | _ => False
  end.
Proof.
  cbn [mqnic_ioctl Z.eqb SIOCSHWTSTAMP SIOCGHWTSTAMP Pos.eqb]. unfold mqnic_hwtstamp_set.
  destruct (Z.eqb_spec (hw_flags c) 0) as [Hf|Hf]; cbn [negb]; [|done]. destruct (_ || _) eqn:Et; cbn [negb]; [|done].
  destruct (Z.eqb_spec (hw_rx_filter c) HWTSTAMP_FILTER_NONE) as [E|E]; [by rewrite E|].
  destruct (_ && _); [|done]. split; [done|]. split; [done|]. split; [|done]. cbn. unfold HWTSTAMP_FILTER_ALL, HWTSTAMP_FILTER_NONE in *. split; [done|lia].
Qed.

Lemma mqnic_create_netdev_spec_witness :
  exists d, mqnic_create_netdev true true 0 1 (mk_netdev_in 300 8 4 1000 100000 0 16 0 0 [[2; 0; 0; 0; 0; 1]; [2; 0; 0; 0; 0; 2]]) = Some (inr d) /\
    nn_rx_ring_size d = 32768 /\ Forall (fun key => 0 <= key < nn_rxq_count d) (nn_indir d).
Proof.
  eexists. split; [vm_compute; reflexivity|]. split; [reflexivity|].
  exact (proj1 (proj2 (proj2 (proj2 (proj2 (proj2
    (mqnic_create_netdev_spec 0 1 (mk_netdev_in 300 8 4 1000 100000 0 16 0 0 [[2; 0; 0; 0; 0; 1]; [2; 0; 0; 0; 0; 2]]) ltac:(done) ltac:(done) ltac:(done) ltac:(cbn; lia)))))))).
Defined.

(** Two rings with the numbers 5 and 7, and a table of three entries. *)
Definition rx_numbered (n : Z) : rx_ring := set_rx_q (set_q_index n (rx_q mqnic_create_rx_ring)) mqnic_create_rx_ring.
Definition port_rss : port memory :=
  mk_netport (mk_qworld (∅ : memory) (mk_res 0 0 0 None) (mk_res 0 0 0 None) (mk_res 0 0 0 None) (mk_res 0 0 0 None) [] []) (mk_kmem [] [] 0 [] []) (mk_tmem [] [] [] 0 [] [] [])
    [] ∅ 0 ∅ {[0 := rx_numbered 5; 1 := rx_numbered 7]} ∅ (mk_ndev 1500 true (mk_stats 0 0 0 0 0 0) false false false (mk_hwts 0 0 0)).
Definition cfg_rss : port_cfg := mk_cfg 2 0 8 4 8 0x5000 0x5100 0x5200 [0; 1; 0] [] [] 0 68 9000.

Lemma mqnic_indir_table_complete_witness :
  w_hw (p_w (mqnic_update_indir_table cfg_rss port_rss)) = write_all [(0xffffffff, 0x5114); (0, 0x5118); (5, 0x5200); (7, 0x5204); (5, 0x5208)] (∅ : memory).
Proof.
  rewrite (mqnic_indir_table_complete cfg_rss port_rss 2).
  - reflexivity.
  - intros key Hk. assert (key = 0 \/ key = 1) as [->| ->] by lia; by eexists.
  - repeat constructor; cbn; lia.
Defined.

Lemma mqnic_link_status_tracks_witness :
  exists p', mqnic_link_status_timeout cfg_rss port_rss = Some p' /\ nd_carrier (p_dev p') = true.
Proof.
  destruct (mqnic_link_status_tracks cfg_rss port_rss) as (p' & up & h & E & Ep & El & Ec & _); [constructor|reflexivity|].
  exists p'. split; [exact Ep|]. rewrite Ec, El. by injection E as <- _.
Defined.
