(* ===== verification/MqnicPort.v ===== *)
(** * A port gives back what it takes

    The theorems about [mqnic_start_port] and [mqnic_stop_port]: an invariant
    of the port that says which completion queue belongs to which ring and
    that the port holds exactly what its queues and rings list in the ledger,
    and the proofs that every step of starting, running and stopping keeps
    it. *)

From stdpp Require Import sorting.
From S2P Require Import Prelude Mmio MqnicRes MqnicQueue MqnicRx MqnicTx MqnicTxSys MqnicSched MqnicLedger MqnicNetdev.

(** ** Ledgers of maps *)

Lemma lg_all_perm {A} (f : A -> ledger) l l' : l ≡ₚ l' -> lg_all f l ≡ lg_all f l'.
Proof.
  induction 1 as [|x l l' _ IH|x y l|l1 l2 l3 _ IH1 _ IH2]; cbn [lg_all]; [done| | |by etransitivity].
  - by rewrite IH.
  - by rewrite !ledger_assoc, (ledger_comm (f x)).
Qed.

Definition lg_map `{Countable K} {A} (f : A -> ledger) (m : gmap K A) : ledger := lg_all f (snd <$> map_to_list m).

Lemma lg_map_insert `{Countable K} {A} (f : A -> ledger) (m : gmap K A) i x :
  m !! i = None -> lg_map f (<[i := x]> m) ≡ f x ⊎ lg_map f m.
Proof. intros Hi. unfold lg_map. by rewrite (lg_all_perm f _ _ (fmap_Permutation snd _ _ (map_to_list_insert m i x Hi))). Qed.

Lemma lg_map_delete `{Countable K} {A} (f : A -> ledger) (m : gmap K A) i x :
  m !! i = Some x -> lg_map f m ≡ f x ⊎ lg_map f (delete i m).
Proof. intros Hi. rewrite <- (lg_map_insert f (delete i m) i x) by apply lookup_delete_eq. by rewrite insert_delete_id. Qed.

Lemma lg_map_replace `{Countable K} {A} (f : A -> ledger) (m : gmap K A) i x :
  is_Some (m !! i) -> lg_map f (<[i := x]> m) ≡ f x ⊎ lg_map f (delete i m).
Proof.
  intros _. rewrite <- (lg_map_insert f (delete i m) i x) by apply lookup_delete_eq. by rewrite insert_delete_eq.
Qed.

Lemma lg_map_same `{Countable K} {A} (f : A -> ledger) (m : gmap K A) i x y :
  m !! i = Some x -> f y = f x -> lg_map f (<[i := y]> m) ≡ lg_map f m.
Proof. intros Hi Hf. rewrite lg_map_replace by done. by rewrite Hf, <- lg_map_delete. Qed.

Lemma lg_map_fmap `{Countable K} {A} (f : A -> ledger) (g : A -> A) (m : gmap K A) :
  (forall i x, m !! i = Some x -> f (g x) = f x) -> lg_map f (g <$> m) ≡ lg_map f m.
Proof.
  intros Hg. unfold lg_map. rewrite map_to_list_fmap, <- list_fmap_compose.
  assert (forall l : list (K * A), (forall ix, ix ∈ l -> f (g ix.2) = f ix.2) -> lg_all f ((snd ∘ prod_map id g) <$> l) ≡ lg_all f (snd <$> l)) as H1.
  { induction l as [|[i x] l IH]; intros Hl; [done|]. cbn.
    pose proof (Hl (i, x) ltac:(by left)) as Hx. cbn in Hx. rewrite Hx, IH; [done|]. intros ix Hix. apply Hl. by right. }
  apply H1. intros [i x] Hix. apply (Hg i). by apply elem_of_map_to_list.
Qed.

(** ** The invariant *)

Section Port.
Context {hw : Type} `{!Mmio hw}.
Implicit Types p : port hw.

Definition port_store p : store := (p_w p, p_k p, p_t p).
Definition port_ledger (cqs : gmap nat mqnic_cq) (rxq : gmap Z rx_ring) (txq : gmap Z tx_ring) : ledger :=
  lg_map cq_ledger cqs ⊎ (lg_map rx_ledger rxq ⊎ lg_map tx_ledger txq).

(** Open on an event queue of the interface, or closed. *)
Definition cq_closed (cq : mqnic_cq) : Prop := queue_closed (cq_q cq) /\ cq_eq cq = None.

(** A receive ring with its completion queue, which can be polled. *)
Definition rx_pair (c : nat) (r : rx_ring) (cq : mqnic_cq) : Prop :=
  rx_live c r /\ exists m x, cq_geometry m cq /\ q_cons_ptr (cq_q cq) = u32 (Z.of_nat x).

(** The port at the start, and what is known of a transmit ring and its
    completion queue. *)
Variable p0 : port hw.
Variable TX : Z -> nat -> tx_ring -> mqnic_cq -> Prop.

(** Completion queue [c] serves a ring: each points to the other. *)
Definition linked (rxq : gmap Z rx_ring) (txq : gmap Z tx_ring) (c : nat) (cq : mqnic_cq) : Prop :=
  cq_live (length (p_eqs p0)) cq /\
  exists i, cq_src_ring cq = Some i /\
    match cq_hnd cq with
    | Some mqnic_rx_irq => exists r, rxq !! Z.of_nat i = Some r /\ rx_pair c r cq
    | Some mqnic_tx_irq => exists r, txq !! Z.of_nat i = Some r /\ TX (Z.of_nat i) c r cq
    | None => False
    end.

(** [X]: a completion queue that does not serve a ring yet, or no more. *)
Definition links_ok (X : option nat) (next : nat) (cqs : gmap nat mqnic_cq) (rxq : gmap Z rx_ring) (txq : gmap Z tx_ring) : Prop :=
  (forall c cq, cqs !! c = Some cq -> (c < next)%nat /\ (X <> Some c -> linked rxq txq c cq)) /\
  (forall key r, rxq !! key = Some r -> exists c cq, rx_cq r = Some c /\ cqs !! c = Some cq /\ X <> Some c /\
     cq_src_ring cq = Some (Z.to_nat key) /\ 0 <= key /\ cq_hnd cq = Some mqnic_rx_irq) /\
  (forall key r, txq !! key = Some r -> exists c cq, tx_cq r = Some c /\ cqs !! c = Some cq /\ X <> Some c /\
     cq_src_ring cq = Some (Z.to_nat key) /\ 0 <= key /\ cq_hnd cq = Some mqnic_tx_irq).

(** The tables of the event queues: as at the start, and entries that lead to
    live completion queues of the port. *)
Definition eq_ok (cqs : gmap nat mqnic_cq) (e : nat) (eq : mqnic_eq) : Prop :=
  exists eq0, p_eqs p0 !! e = Some eq0 /\
    (eq_q eq, eq_events eq, eq_irq eq) = (eq_q eq0, eq_events eq0, eq_irq eq0) /\
    forall n, eq_table eq !! n = eq_table eq0 !! n \/
      (~ in_use (w_cq_res (p_w p0)) (Z.to_nat n) /\ exists c cq, eq_table eq !! n = Some c /\ cqs !! c = Some cq /\
         q_index (cq_q cq) = n /\ cq_eq cq = Some e).
Definition eqs_ok (cqs : gmap nat mqnic_cq) (eqs : list mqnic_eq) : Prop :=
  length eqs = length (p_eqs p0) /\ forall e eq, eqs !! e = Some eq -> eq_ok cqs e eq.

(** The contexts of the port's completion queues are there and enabled; [D]
    are the others. *)
Definition napi_ok (X : option nat) (D : gmap nat bool) (next : nat) (cqs : gmap nat mqnic_cq) (napi : gmap nat bool) : Prop :=
  (forall c, X <> Some c -> napi !! c = match cqs !! c with Some _ => Some true | None => D !! c end) /\
  (forall c, is_Some (D !! c) -> (c < next)%nat /\ cqs !! c = None).

(** [L] is held by an object outside of the tables. *)
Definition port_inv (X : option nat) (D : gmap nat bool) (L : ledger) p : Prop :=
  holds (port_store p0) (port_store p) (L ⊎ port_ledger (p_cqs p) (p_rxq p) (p_txq p)) /\
  links_ok X (p_next p) (p_cqs p) (p_rxq p) (p_txq p) /\
  eqs_ok (p_cqs p) (p_eqs p) /\
  napi_ok X D (p_next p) (p_cqs p) (p_napi p).

(** At the start no number outside of those in use has an entry. *)
Definition tables_ok : Prop :=
  forall e eq n c, p_eqs p0 !! e = Some eq -> eq_table eq !! n = Some c -> 0 <= n /\ in_use (w_cq_res (p_w p0)) (Z.to_nat n).
Context (Htab : tables_ok) (HTX : forall key c r cq, TX key c r cq -> tx_live c r).

(** ** Completion queues *)


Lemma linked_mono rxq txq rxq' txq' c cq :
  (forall i r, rxq !! i = Some r -> rx_cq r = Some c -> rxq' !! i = Some r) ->
  (forall i r, txq !! i = Some r -> tx_cq r = Some c -> txq' !! i = Some r) -> linked rxq txq c cq -> linked rxq' txq' c cq.
Proof.
  intros Hr Ht [Hl (i & Hi & Hh)]. split; [done|]. exists i. split; [done|].
  destruct (cq_hnd cq) as [[]|] eqn:Eh; [| |done]; destruct Hh as (r & Hir & Hp); exists r; (split; [|done]).
  - apply Hr; [done|]. by destruct Hp as ((_ & _ & ? & _) & _).
  - apply Ht; [done|]. apply HTX in Hp. by destruct Hp as (_ & _ & ? & _).
Qed.

Lemma eq_ok_mono cqs cqs' e eq :
  eq_ok cqs e eq ->
  (forall c cq, cqs !! c = Some cq -> cq_eq cq = Some e ->
     exists cq', cqs' !! c = Some cq' /\ q_index (cq_q cq') = q_index (cq_q cq) /\ cq_eq cq' = cq_eq cq) ->
  eq_ok cqs' e eq.
Proof.
  intros (eq0 & H0 & Hr & Hn) Hc. exists eq0. split; [done|].
  split; [done|]. intros n. destruct (Hn n) as [?|(Hu & c & cq & H1 & H2 & H3 & H4)]; [by left|right]. split; [done|].
  destruct (Hc c cq H2 H4) as (cq' & G1 & G2 & G3). exists c, cq'. split_and!; congruence.
Qed.

Lemma eqs_ok_mono cqs cqs' eqs :
  eqs_ok cqs eqs ->
  (forall c cq, cqs !! c = Some cq -> is_Some (cq_eq cq) ->
     exists cq', cqs' !! c = Some cq' /\ q_index (cq_q cq') = q_index (cq_q cq) /\ cq_eq cq' = cq_eq cq) ->
  eqs_ok cqs' eqs.
Proof.
  intros [Hl He] Hc. split; [done|]. intros e eq Heq. eapply eq_ok_mono; [by apply He|]. intros c cq H1 H2. apply Hc; [done|]. by rewrite H2.
Qed.

Lemma inv_links_put X next cqs rxq txq c cq' :
  links_ok X next cqs rxq txq -> X = Some c -> is_Some (cqs !! c) -> links_ok X next (<[c := cq']> cqs) rxq txq.
Proof.
  intros (HC & HR & HT) -> [cq Hc]. split_and!.
  - intros c1 cq1 H1. apply lookup_insert_Some in H1 as [[<- <-]|[Hne H1]]; [|by apply HC]. split; [by eapply HC|done].
  - intros key r Hr. destruct (HR key r Hr) as (c1 & cq1 & G1 & G2 & G3 & G4). exists c1, cq1. by rewrite lookup_insert_ne by congruence.
  - intros key r Hr. destruct (HT key r Hr) as (c1 & cq1 & G1 & G2 & G3 & G4). exists c1, cq1. by rewrite lookup_insert_ne by congruence.
Qed.

Lemma inv_napi_put X D next cqs napi c cq' :
  napi_ok X D next cqs napi -> X = Some c -> is_Some (cqs !! c) -> napi_ok X D next (<[c := cq']> cqs) napi.
Proof.
  intros [HN1 HN2] -> [cq Hc]. split.
  - intros c1 H1. rewrite lookup_insert_ne by congruence. by apply HN1.
  - intros c1 H1. destruct (HN2 c1 H1) as [? ?]. split; [done|]. by rewrite lookup_insert_ne by congruence.
Qed.

(** Replacing the queue [c] outside of the tables by one with the same ledger. *)
Lemma inv_put_cq D L p c cq cq' :
  port_inv (Some c) D L p -> p_cqs p !! c = Some cq -> cq_q cq' = cq_q cq -> cq_eq cq' = cq_eq cq ->
  port_inv (Some c) D L (put_cq c cq' p).
Proof.
  intros (Hh & Hl & He & HN) Hc Hq Hce. split; [|split; [|split]].
  - unfold port_ledger, port_store in *. cbn. rewrite (lg_map_same cq_ledger _ c cq); [exact Hh|done|]. unfold cq_ledger. by rewrite Hq.
  - by apply inv_links_put.
  - eapply eqs_ok_mono; [exact He|]. intros c1 cq1 H1 _. destruct (decide (c = c1)) as [<-|Hne].
    + exists cq'. cbn. rewrite lookup_insert_eq. split_and!; congruence.
    + exists cq1. cbn. by rewrite lookup_insert_ne.
  - by apply inv_napi_put.
Qed.

Lemma inv_create_cq D L p :
  port_inv None D L p ->
  exists p', port_create_cq p = (p_next p, p') /\ port_inv (Some (p_next p)) D L p' /\ p_cqs p' !! p_next p = Some mqnic_create_cq /\
    p_napi p' !! p_next p = None /\ D !! p_next p = None /\ p_eqs p' = p_eqs p /\ p_dev p' = p_dev p /\
    p_rxq p' = p_rxq p /\ p_txq p' = p_txq p /\ p_next p' = S (p_next p).
Proof.
  intros (Hh & (HC & HR & HT) & He & (HN1 & HN2)). eexists. split; [reflexivity|].
  assert (p_cqs p !! p_next p = None) as Hn.
  { destruct (p_cqs p !! p_next p) eqn:E; [|done]. destruct (HC _ _ E) as [? _]. lia. }
  assert (D !! p_next p = None) as HD. { destruct (D !! p_next p) eqn:E; [|done]. destruct (HN2 (p_next p)) as [? _]; [by rewrite E|lia]. }
  split; [|cbn; rewrite lookup_insert_eq; split_and!; try done; by rewrite HN1, Hn]. split; [|split; [|split]]; cbn.
  - unfold port_store, port_ledger in *. cbn. rewrite lg_map_insert by done. by rewrite cq_ledger_closed by done.
  - split_and!.
    + intros c1 cq1 H1. apply lookup_insert_Some in H1 as [[<- <-]|[Hne H1]]; [split; [lia|done]|]. destruct (HC _ _ H1) as [? Hl].
      split; [lia|]. intros _. by apply Hl.
    + intros key r Hr. destruct (HR key r Hr) as (c1 & cq1 & G1 & G2 & G3 & G4). exists c1, cq1. rewrite lookup_insert_ne by congruence.
      split_and!; try apply G4; try done. intros [= E]. rewrite E in Hn. congruence.
    + intros key r Hr. destruct (HT key r Hr) as (c1 & cq1 & G1 & G2 & G3 & G4). exists c1, cq1. rewrite lookup_insert_ne by congruence.
      split_and!; try apply G4; try done. intros [= E]. rewrite E in Hn. congruence.
  - eapply eqs_ok_mono; [exact He|]. intros c1 cq1 H1 _. exists cq1. by rewrite lookup_insert_ne by congruence.
  - split.
    + intros c1 H1. rewrite lookup_insert_ne by congruence. by apply HN1.
    + intros c1 H1. destruct (HN2 c1 H1). split; [lia|]. rewrite lookup_insert_ne; [done|]. intros <-. rewrite HD in H1. by destruct H1.
Qed.

(** What opening and closing a queue outside of the tables leaves alone. *)
Definition same_tables p p' : Prop :=
  (p_napi p', p_next p', p_rxq p', p_txq p', p_dev p', length (p_eqs p')) = (p_napi p, p_next p, p_rxq p, p_txq p, p_dev p, length (p_eqs p)).

Lemma port_ledger_put cqs rxq txq c cq' L s :
  is_Some (cqs !! c) ->
  holds (port_store p0) s (cq_ledger cq' ⊎ (L ⊎ port_ledger (delete c cqs) rxq txq)) ->
  holds (port_store p0) s (L ⊎ port_ledger (<[c := cq']> cqs) rxq txq).
Proof.
  intros Hc Hh. unfold port_ledger in *. rewrite lg_map_replace by done. revert Hh. apply holds_proper.
  by rewrite !ledger_assoc, (ledger_comm (cq_ledger cq') L).
Qed.

Lemma port_ledger_get cqs rxq txq c cq L s :
  cqs !! c = Some cq -> holds (port_store p0) s (L ⊎ port_ledger cqs rxq txq) ->
  holds (port_store p0) s (cq_ledger cq ⊎ (L ⊎ port_ledger (delete c cqs) rxq txq)).
Proof.
  intros Hc Hh. unfold port_ledger in *. rewrite (lg_map_delete cq_ledger cqs c cq Hc) in Hh. revert Hh. apply holds_proper.
  by rewrite !ledger_assoc, (ledger_comm (cq_ledger cq) L).
Qed.

Lemma inv_open_cq D L p c e size b dma att :
  port_inv (Some c) D L p -> p_cqs p !! c = Some mqnic_create_cq -> (e < length (p_eqs p))%nat -> 0 < size <= 2 ^ 31 ->
  exists ret p' cq, port_open_cq c e size (Some (b, dma)) att p = Some (ret, p') /\ p_cqs p' !! c = Some cq /\
    port_inv (Some c) D L p' /\ same_tables p p' /\
    (ret <> 0 -> cq_closed cq) /\ (ret = 0 -> cq_live (length (p_eqs p0)) cq /\ exists m, cq_fresh m cq /\ cq_geometry m cq).
Proof.
  intros (Hh & Hl & He & HN) Hc Hlt Hsz. pose proof He as [Hlen He']. destruct (lookup_lt_is_Some_2 _ _ Hlt) as [eq Heq].
  assert (is_Some (p_cqs p !! c)) as Hsome by (by rewrite Hc).
  apply (port_ledger_get _ _ _ c _ _ _ Hc) in Hh. rewrite cq_ledger_closed, ledger_empty_l in Hh by done.
  destruct (open_cq_holds _ _ _ _ _ c e eq size b dma att Hh Hsz) as (ret & cq & eq' & w' & E & Hfail & Hok).
  unfold port_open_cq. rewrite Hc, Heq. cbn [mbind option_bind]. rewrite E. cbn [mbind option_bind].
  exists ret. eexists. exists cq. split; [reflexivity|]. split; [cbn; by rewrite lookup_insert_eq|].
  destruct (decide (ret = 0)) as [->|Hne].
  - destruct (Hok eq_refl) as (Hh' & Hb & Hi & Hce & Hu & Hm & ->). split; [|split; [unfold same_tables; cbn; by rewrite length_insert|]].
    2: { split; [done|]. intros _. split; [|done]. split; [done|]. split; [done|]. exists e. split; [done|]. lia. }
    split; [by apply port_ledger_put|]. split; [by apply inv_links_put|]. split; [|by apply inv_napi_put]. cbn.
    split; [by rewrite length_insert|]. intros e1 eq1 H1.
    assert (forall e2 eq2, p_eqs p !! e2 = Some eq2 -> eq_ok (<[c := cq]> (p_cqs p)) e2 eq2) as Hold.
    { intros e2 eq2 H2. eapply eq_ok_mono; [by apply He'|]. intros c2 cq2 K1 K2. exists cq2.
      rewrite lookup_insert_ne; [done|]. intros <-. rewrite Hc in K1. injection K1 as <-. done. }
    apply list_lookup_insert_Some in H1 as [(<- & <- & _)|[_ H1]]; [|by apply Hold].
    destruct (Hold e eq Heq) as (eq0 & G1 & G2 & G3). exists eq0. split; [done|]. unfold mqnic_eq_attach_cq.
    destruct att; [destruct (eq_table eq !! q_index (cq_q cq)) eqn:Et|]; [by split| |by split]. split; [done|]. intros n. cbn [eq_table].
    destruct (decide (n = q_index (cq_q cq))) as [->|Hn].
    + right. split; [done|]. exists c, cq. by rewrite !lookup_insert_eq.
    + rewrite lookup_insert_ne by done. apply G3.
  - destruct (Hfail Hne) as (-> & -> & Hq & Hce). split; [|split; [unfold same_tables; cbn; by rewrite length_insert|by split]].
    split; [|split; [by apply inv_links_put|]; split; [|by apply inv_napi_put]].
    + apply port_ledger_put; [done|]. rewrite cq_ledger_closed by done. by rewrite ledger_empty_l.
    + cbn. rewrite list_insert_id by done. eapply eqs_ok_mono; [exact He|]. intros c1 cq1 H1 Hs. exists cq1.
      rewrite lookup_insert_ne; [done|]. intros <-. rewrite Hc in H1. injection H1 as <-. by destruct Hs.
Qed.

Lemma inv_close_cq D L p c cq :
  port_inv (Some c) D L p -> p_cqs p !! c = Some cq -> cq_live (length (p_eqs p0)) cq \/ cq_closed cq ->
  exists p' cq', port_close_cq c p = Some p' /\ p_cqs p' = <[c := cq']> (p_cqs p) /\ cq_closed cq' /\
    port_inv (Some c) D L p' /\ same_tables p p'.
Proof.
  intros (Hh & Hl & He & HN) Hc Hcq. assert (is_Some (p_cqs p !! c)) as Hsome by (by rewrite Hc).
  apply (port_ledger_get _ _ _ c _ _ _ Hc) in Hh. unfold port_close_cq. rewrite Hc. cbn [mbind option_bind].
  destruct Hcq as [(Hb & Hi & e & Hce & Hlt)|[Hq Hce]].
  - pose proof He as [Hlen He']. rewrite Hce. destruct (lookup_lt_is_Some_2 (p_eqs p) e) as [eq Heq]; [lia|]. rewrite Heq. cbn [mbind option_bind].
    pose proof (holds_cq_unused _ _ _ _ Hh Hb Hi) as Hu.
    destruct (holds_cq_remove _ _ _ _ _ cq e eq Hh Hb Hi Hce) as (cq' & w' & -> & Hh' & Hq' & Hce'). cbn [mbind option_bind].
    do 2 eexists. split; [reflexivity|]. split; [reflexivity|]. split; [done|].
    split; [|unfold same_tables; cbn; by rewrite length_insert].
    split; [apply port_ledger_put; [done|]; by rewrite cq_ledger_closed, ledger_empty_l|].
    split; [by apply inv_links_put|]. split; [|by apply inv_napi_put].
    split; [cbn; by rewrite length_insert|]. cbn. intros e1 eq1 H1. apply list_lookup_insert_Some in H1 as [(<- & <- & _)|[Hne H1]].
    + destruct (He' e eq Heq) as (eq0 & G1 & G2 & G3). exists eq0. split; [done|]. split; [done|]. intros n. cbn [mqnic_eq_detach_cq eq_table].
      destruct (decide (n = q_index (cq_q cq))) as [->|Hn].
      * left. rewrite lookup_delete_eq. destruct (eq_table eq0 !! _) eqn:Et; [|done]. by destruct (Htab _ _ _ _ G1 Et).
      * rewrite lookup_delete_ne by done. destruct (G3 n) as [?|(? & c2 & cq2 & K1 & K2 & K3 & K4)]; [by left|right].
        split; [done|]. exists c2, cq2. rewrite lookup_insert_ne; [done|]. intros <-. congruence.
    + eapply eq_ok_mono; [by apply He'|]. intros c2 cq2 K1 K2. exists cq2. rewrite lookup_insert_ne; [done|]. intros <-. congruence.
  - rewrite Hce. destruct (close_cq_closed cq mqnic_create_eq (p_w p) Hq Hce) as (cq' & -> & Hq' & Hce'). cbn [mbind option_bind].
    do 2 eexists. split; [reflexivity|]. split; [reflexivity|]. split; [done|]. split; [|done].
    split; [apply port_ledger_put; [done|]; rewrite cq_ledger_closed in * by done; by rewrite ledger_empty_l in *|].
    split; [by apply inv_links_put|]. split; [|by apply inv_napi_put].
    eapply eqs_ok_mono; [exact He|]. intros c1 cq1 H1 Hs. exists cq1. cbn. rewrite lookup_insert_ne; [done|]. intros <-.
    rewrite Hc in H1. injection H1 as <-. rewrite Hce in Hs. by destruct Hs.
Qed.

Lemma partial_alter_none (D : gmap nat bool) c : D !! c = None -> partial_alter (fun _ => None) c D = D.
Proof.
  intros Hc. apply map_eq. intros i. destruct (decide (c = i)) as [<-|Hne]; [by rewrite lookup_partial_alter_eq|by rewrite lookup_partial_alter_ne].
Qed.

(** The contexts left behind when queue [c] goes. *)
Definition left_behind (c : nat) p (D : gmap nat bool) : gmap nat bool := partial_alter (fun _ => p_napi p !! c) c D.

Lemma inv_destroy_cq D L p c cq :
  port_inv (Some c) D L p -> p_cqs p !! c = Some cq -> cq_live (length (p_eqs p0)) cq \/ cq_closed cq ->
  exists p', mqnic_destroy_cq c p = Some p' /\ port_inv None (left_behind c p D) L p' /\ same_tables p p' /\
    p_cqs p' = delete c (p_cqs p).
Proof.
  intros Hinv Hc Hcq. destruct (inv_close_cq _ _ _ _ _ Hinv Hc Hcq) as (p1 & cq1 & E & Ec & [Hq1 He1] & (Hh & (HC & HR & HT) & He & (HN1 & HN2)) & Hsame).
  unfold mqnic_destroy_cq. rewrite E. cbn [mbind option_bind]. eexists. split; [reflexivity|].
  assert (p_cqs p1 !! c = Some cq1) as Hc1 by (rewrite Ec; by rewrite lookup_insert_eq).
  unfold same_tables in Hsame. injection Hsame as S1 S2 S3 S4 S5 S6.
  split; [|split; [unfold same_tables; cbn; by rewrite S1, S2, S3, S4, S5, S6|cbn; rewrite Ec; by rewrite delete_insert_eq]].
  split; [|split; [|split]].
  - cbn. apply (port_ledger_get _ _ _ c _ _ _ Hc1) in Hh. rewrite cq_ledger_closed in Hh by done. by rewrite ledger_empty_l in Hh.
  - cbn. split_and!.
    + intros c1 cq2 [Hne H1]%lookup_delete_Some. destruct (HC _ _ H1) as [? Hl]. split; [done|]. intros _. apply Hl. congruence.
    + intros key r Hr. destruct (HR key r Hr) as (c1 & cq2 & G1 & G2 & G3 & G4). exists c1, cq2. by rewrite lookup_delete_ne by congruence.
    + intros key r Hr. destruct (HT key r Hr) as (c1 & cq2 & G1 & G2 & G3 & G4). exists c1, cq2. by rewrite lookup_delete_ne by congruence.
  - eapply eqs_ok_mono; [exact He|]. intros c1 cq2 H1 Hs. exists cq2. cbn. rewrite lookup_delete_ne; [done|]. intros <-.
    rewrite Hc1 in H1. injection H1 as <-. rewrite He1 in Hs. by destruct Hs.
  - cbn. unfold left_behind. split.
    + intros c1 _. destruct (decide (c1 = c)) as [->|Hne].
      * rewrite lookup_delete_eq, lookup_partial_alter_eq. by rewrite S1.
      * rewrite lookup_delete_ne, lookup_partial_alter_ne by done. apply HN1. congruence.
    + intros c1 Hs. destruct (decide (c1 = c)) as [->|Hne].
      * rewrite lookup_delete_eq. split; [|done]. by destruct (HC _ _ Hc1).
      * rewrite lookup_delete_ne by done. rewrite lookup_partial_alter_ne in Hs by done. by apply HN2.
Qed.

Definition port_frame p := (p_dev p, length (p_eqs p)).

(** A new completion queue, with its context enabled. *)
Lemma inv_start_cq D L p env k size :
  port_inv None D L p -> is_Some (qe_cq_buf env) -> p_eqs p <> [] -> 0 < size <= 2 ^ 31 ->
  exists ret c p', start_cq env k size p = Some (ret, c, p') /\
    (p_rxq p', p_txq p', port_frame p') = (p_rxq p, p_txq p, port_frame p) /\ (p_next p <= p_next p')%nat /\
    (ret <> 0 -> port_inv None D L p') /\
    (ret = 0 -> port_inv (Some c) D L p' /\ c = p_next p /\ p_napi p' !! c = Some true /\ D !! c = None /\
       exists cq, p_cqs p' !! c = Some cq /\ cq_live (length (p_eqs p0)) cq /\ exists m, cq_fresh m cq /\ cq_geometry m cq).
Proof.
  intros Hinv [[b dma] Hbuf] Hne Hsz. unfold start_cq. destruct (qe_cq env); cbn [negb].
  2: { do 3 eexists. split; [reflexivity|]. split; [done|]. split; [done|]. by split. }
  rewrite (proj2 (Nat.eqb_neq _ _)) by (destruct (p_eqs p); [done|cbn; lia]).
  destruct (inv_create_cq _ _ _ Hinv) as (p1 & -> & Hinv1 & Hc1 & Hn1 & HD & E1 & E2 & E3 & E4 & E5). rewrite Hbuf.
  assert (0 < length (p_eqs p1))%nat as Hpos by (rewrite E1; destruct (p_eqs p); [done|cbn; lia]).
  destruct (inv_open_cq D L p1 (p_next p) (k mod length (p_eqs p1)) size b dma (qe_attach env) Hinv1 Hc1) as (ret & p2 & cq & -> & Hc2 & Hinv2 & Hs2 & Hfail & Hok);
    [by apply Nat.mod_upper_bound; lia|done|]. cbn [mbind option_bind].
  unfold same_tables in Hs2. injection Hs2 as T1 T2 T3 T4 T5 T6.
  destruct (Z.eqb_spec ret 0) as [->|Hret]; cbn [negb].
  - destruct (Hok eq_refl) as (Hlive & Hfresh). unfold port_arm_cq. cbn [napi_enable netif_napi_add set_napi p_cqs]. rewrite Hc2. cbn [mbind option_bind].
    do 3 eexists. split; [reflexivity|]. split; [unfold port_frame; cbn; by rewrite T3, T4, T5, T6, E1, E2, E3, E4|]. split; [cbn; rewrite T2, E5; lia|]. split; [done|]. intros _.
    split; [|split; [done|]; split; [cbn; by rewrite lookup_insert_eq|]; split; [done|]; by exists cq].
    destruct Hinv2 as (Hh & Hl & He & (HN1 & HN2)). split; [|split; [done|]; split; [done|]].
    + eapply holds_fixed; [|exact Hh]. cbn. unfold mqnic_arm_cq. destruct (negb _); [done|]. apply write_ctrl_fixed.
    + split; [|done]. intros c1 H1. cbn. rewrite !lookup_insert_ne by congruence. by apply HN1.
  - destruct (inv_destroy_cq _ _ _ _ _ Hinv2 Hc2) as (p3 & -> & Hinv3 & Hs3 & _); [right; by apply Hfail|]. cbn [mbind option_bind].
    unfold same_tables in Hs3. injection Hs3 as U1 U2 U3 U4 U5 U6.
    do 3 eexists. split; [reflexivity|]. split; [unfold port_frame; by rewrite U3, U4, U5, U6, T3, T4, T5, T6, E1, E2, E3, E4|]. split; [rewrite U2, T2, E5; lia|]. split; [|done]. intros _.
    unfold left_behind in Hinv3. rewrite T1, Hn1 in Hinv3.
    rewrite partial_alter_none in Hinv3 by done. done.
Qed.

(** ** Receive queues *)

Lemma close_rx_cq r cq k (w : qworld hw) r' cq' k' w' : mqnic_close_rx_ring r cq k w = Some (r', cq', k', w') -> rx_cq r' = None.
Proof. unfold mqnic_close_rx_ring. intros E. repeat case_match; simplify_eq; done. Qed.

Lemma open_rx_fails me r c cq size block info buf answer k (w : qworld hw) ret r' cq' k' w' :
  rx_cq r = None -> mqnic_open_rx_ring me r true (Some c) cq size block info buf answer k w = Some (ret, r', cq', k', w') -> ret <> 0 -> rx_cq r' = None.
Proof.
  intros Hr E Hret. unfold mqnic_open_rx_ring in E. repeat case_match; simplify_eq; try done; by eapply close_rx_cq.
Qed.

(** A ring outside of the tables, on queue [c]. *)
Lemma inv_close_rx D L p c r cq :
  port_inv (Some c) D (rx_ledger r ⊎ L) p -> rx_live c r -> p_cqs p !! c = Some cq ->
  exists r' p' cq', port_close_rx r p = Some (r', p') /\ port_inv (Some c) D L p' /\ same_tables p p' /\
    queue_closed (rx_q r') /\ rx_cq r' = None /\ p_cqs p' !! c = Some cq' /\ cq_q cq' = cq_q cq /\ cq_eq cq' = cq_eq cq.
Proof.
  intros (Hh & Hl & He & HN) Hlive Hc. unfold port_close_rx. pose proof Hlive as (_ & _ & -> & _). rewrite Hc. cbn [mbind option_bind].
  rewrite <- ledger_assoc in Hh. destruct (close_rx_holds _ _ _ _ _ r c cq Hh Hlive) as (r' & k' & w' & E & Hh' & Hcl).
  rewrite E. cbn [mbind option_bind]. do 2 eexists. exists (cq_detach (Some c) cq). split; [reflexivity|]. split; [|split; [done|]].
  - eapply inv_put_cq; [|exact Hc|done|done]. by split_and!.
  - split; [done|]. split; [by eapply close_rx_cq|]. cbn. by rewrite lookup_insert_eq.
Qed.

Lemma inv_destroy_closed_rx X D L p r :
  port_inv X D L p -> queue_closed (rx_q r) -> rx_cq r = None ->
  exists p', mqnic_destroy_rx_ring r p = Some p' /\ port_inv X D L p' /\ same_tables p p' /\ p_cqs p' = p_cqs p.
Proof.
  intros Hinv Hcl Hr. unfold mqnic_destroy_rx_ring, port_close_rx. rewrite Hr.
  destruct (close_rx_closed r mqnic_create_cq (p_k p) (p_w p) Hcl) as (r' & -> & _). cbn [mbind option_bind]. by eexists.
Qed.

(** A ring goes into the table, with its completion queue. *)
Lemma inv_insert_rx D L p c r k cq :
  port_inv (Some c) D (rx_ledger r ⊎ L) p -> p_rxq p !! Z.of_nat k = None -> p_cqs p !! c = Some cq -> p_napi p !! c = Some true ->
  cq_live (length (p_eqs p0)) cq -> rx_pair c r cq -> cq_src_ring cq = Some k -> cq_hnd cq = Some mqnic_rx_irq ->
  port_inv None D L (set_rxq (<[Z.of_nat k := r]> (p_rxq p)) p).
Proof.
  intros (Hh & (HC & HR & HT) & He & (HN1 & HN2)) Hk Hc Hn Hlive Hp Hsrc Hhnd. split; [|split; [|split; [done|]]].
  - revert Hh. apply holds_proper. unfold port_ledger. cbn. rewrite lg_map_insert by done.
    rewrite (ledger_comm (rx_ledger r) L), <- !ledger_assoc. f_equiv. rewrite !ledger_assoc. by rewrite (ledger_comm (lg_map cq_ledger _) (rx_ledger r)).
  - cbn. split_and!.
    + intros c1 cq1 H1. destruct (HC _ _ H1) as [Hlt Hl]. split; [done|]. intros _. destruct (decide (c1 = c)) as [->|Hne].
      * rewrite Hc in H1. injection H1 as <-. split; [done|]. exists k. split; [done|]. rewrite Hhnd. exists r. by rewrite lookup_insert_eq.
      * eapply linked_mono; [| |apply Hl; congruence]; [|done]. intros i r1 Hi _. rewrite lookup_insert_ne; [done|]. congruence.
    + intros key r1 [[<- <-]|[Hne Hr]]%lookup_insert_Some.
      * exists c, cq. destruct Hp as ((_ & _ & ? & _) & _). split_and!; try done; [by rewrite Nat2Z.id|lia].
      * destruct (HR key r1 Hr) as (c1 & cq1 & G1 & G2 & G3 & G4). exists c1, cq1. by split_and!; try apply G4.
    + intros key r1 Hr. destruct (HT key r1 Hr) as (c1 & cq1 & G1 & G2 & G3 & G4). exists c1, cq1. by split_and!; try apply G4.
  - split; [|done]. cbn. intros c1 _. destruct (decide (c1 = c)) as [->|Hne]; [by rewrite Hc, Hn|]. apply HN1. congruence.
Qed.

(** A NAPI context of a new queue may be left behind. *)
Definition leaked (next : nat) (D D' : gmap nat bool) : Prop :=
  D' = D \/ exists c, (next <= c)%nat /\ D !! c = None /\ D' = <[c := true]> D.

(** Giving up with an open ring, or a closed one. *)
Lemma inv_give_up_rx D L p c r cq :
  port_inv (Some c) D (rx_ledger r ⊎ L) p -> rx_live c r -> p_cqs p !! c = Some cq -> cq_live (length (p_eqs p0)) cq ->
  exists p1 p', mqnic_destroy_rx_ring r p = Some p1 /\ mqnic_destroy_cq c p1 = Some p' /\
    port_inv None (left_behind c p D) L p' /\ same_tables p p'.
Proof.
  intros Hinv Hr Hc Hlive. destruct (inv_close_rx _ _ _ _ _ _ Hinv Hr Hc) as (r' & p1 & cq' & E1 & Hinv1 & Hs1 & _ & _ & Hc1 & Hq & He).
  destruct (inv_destroy_cq _ _ _ _ _ Hinv1 Hc1) as (p' & E2 & Hinv2 & Hs2 & _); [left; unfold cq_live in *; by rewrite Hq, He|].
  unfold mqnic_destroy_rx_ring. rewrite E1. cbn [mbind option_bind]. do 2 eexists. split; [reflexivity|]. split; [exact E2|].
  unfold same_tables, left_behind in *. injection Hs1 as S1 S2 S3 S4 S5 S6. rewrite <- S1. split; [done|]. by rewrite Hs2, S1, S2, S3, S4, S5, S6.
Qed.

(** A queue could not be set up: all is as before, but for such a context. *)
Definition gave_up p (D : gmap nat bool) (L : ledger) p' : Prop :=
  (p_rxq p', p_txq p', port_frame p') = (p_rxq p, p_txq p, port_frame p) /\ (p_next p <= p_next p')%nat /\
  exists D', leaked (p_next p) D D' /\ port_inv None D' L p'.

Lemma gave_up_intro p D L c p1 p2 p3 :
  (p_rxq p1, p_txq p1, port_frame p1) = (p_rxq p, p_txq p, port_frame p) -> (p_next p <= p_next p1)%nat -> c = p_next p ->
  p_napi p1 !! c = Some true -> D !! c = None ->
  same_tables p1 p2 -> same_tables p2 p3 -> port_inv None (left_behind c p2 D) L p3 -> gave_up p D L p3.
Proof.
  unfold port_frame. intros F Hnx -> Hn HD Hs Hs' Hi. unfold same_tables, left_behind, gave_up, port_frame in *. injection F as F1 F2 F3 F4.
  injection Hs as S1 S2 S3 S4 S5 S6. injection Hs' as U1 U2 U3 U4 U5 U6.
  rewrite S1, Hn in Hi. rewrite U2, U3, U4, U5, U6, S2, S3, S4, S5, S6, F1, F2, F3, F4. split; [done|]. split; [done|].
  eexists. split; [|exact Hi]. right. by exists (p_next p).
Qed.

Lemma inv_start_rx_queue cfg env k D L p :
  port_inv None D L p -> is_Some (qe_cq_buf env) -> p_eqs p <> [] -> 0 < cf_rx_ring_size cfg <= 2 ^ 31 ->
  exists ret p', start_rx_queue cfg env k p = Some (ret, p') /\
    (ret = 0 -> port_inv None D L p' /\ (p_txq p', port_frame p') = (p_txq p, port_frame p) /\ (p_next p <= p_next p')%nat /\
       p_rxq p !! Z.of_nat k = None /\ exists r, p_rxq p' = <[Z.of_nat k := r]> (p_rxq p)) /\
    (ret <> 0 -> gave_up p D L p').
Proof.
  intros Hinv Hbuf Hne Hsz. unfold start_rx_queue.
  destruct (inv_start_cq D L p env k (cf_rx_ring_size cfg) Hinv Hbuf Hne Hsz) as (ret & c & p1 & -> & F & Hnx & Hfail & Hok). cbn [mbind option_bind].
  destruct (Z.eqb_spec ret 0) as [->|Hret]; cbn [negb].
  2: { do 2 eexists. split; [reflexivity|]. split; [done|]. intros _. split; [done|]. split; [done|]. exists D. split; [by left|by apply Hfail]. }
  destruct (Hok eq_refl) as (Hinv1 & Hcn & Hn1 & HD & cq & Hc1 & Hlive & m & Hfr & Hg).
  pose proof (fun p2 p3 => gave_up_intro p D L c p1 p2 p3 F Hnx Hcn Hn1 HD) as Hgive.
  destruct (qe_ring env); cbn [negb].
  2: { destruct (inv_destroy_cq _ _ _ _ _ Hinv1 Hc1) as (p2 & -> & Hi2 & Hs2 & _); [by left|]. cbn [mbind option_bind].
       do 2 eexists. split; [reflexivity|]. split; [done|]. intros _. by apply (Hgive p1 p2). }
  rewrite Hc1. cbn [mbind option_bind]. pose proof Hinv1 as (Hh & Hl & He & HN).
  set (r0 := set_page_order _ _). destruct (open_rx_holds _ _ _ _ _ k r0 c cq (cf_rx_ring_size cfg) 1 (qe_info env) (qe_buf env) (qe_pages env) Hh)
    as (ret & r & cq' & km & w & E & Hf & Ho); [done|done|]. rewrite E. cbn [mbind option_bind].
  set (p2 := put_cq c cq' (set_mem w km (p_t p1) p1)).
  destruct (Z.eqb_spec ret 0) as [->|Hret]; cbn [negb].
  - destruct (Ho eq_refl) as (Hh2 & Hrl & ->). rewrite ledger_assoc in Hh2.
    assert (port_inv (Some c) D (rx_ledger r ⊎ L) p2) as Hinv2 by (eapply inv_put_cq; [|exact Hc1|done|done]; by split_and!).
    assert (p_cqs p2 !! c = Some (mk_cq (cq_q cq) (cq_cpls cq) (cq_eq cq) (Some k) (Some mqnic_rx_irq))) as Hc2 by (cbn; by rewrite lookup_insert_eq).
    unfold table_insert. destruct (p_rxq p2 !! Z.of_nat k) as [r1|] eqn:Ek; [|destruct (qe_insert env)]; cbn [Z.eqb negb Z.opp EEXIST ENOMEM Pos.eqb].
    1, 3: destruct (inv_give_up_rx _ _ _ _ _ _ Hinv2 Hrl Hc2 Hlive) as (p3 & p4 & -> & E4 & Hi4 & Hs4); cbn [mbind option_bind]; rewrite E4; cbn [mbind option_bind];
      do 2 eexists; (split; [reflexivity|]); (split; [done|]); intros _; by apply (Hgive p2 p4).
    do 2 eexists. split; [reflexivity|]. split; [|done]. intros _. injection F as F1 F2 F3 F4. cbn in Ek. rewrite F1 in Ek.
    split; [|unfold port_frame; cbn; rewrite F1, F2, F3, F4; by split_and!; try exists r].
    eapply inv_insert_rx; try done; [cbn; by rewrite F1|]. split; [done|]. exists m, 0%nat. split; [done|]. by destruct Hfr as (_ & _ & _ & ? & _).
  - destruct (Hf Hret) as (Hh2 & Hcl & Hq & Hce).
    assert (port_inv (Some c) D L p2) as Hinv2 by (eapply inv_put_cq; [|exact Hc1|done|done]; by split_and!).
    destruct (inv_destroy_closed_rx _ _ _ _ r Hinv2 Hcl) as (p3 & -> & Hinv3 & Hs3 & Ec3); [by eapply (open_rx_fails k r0); [|exact E|done]|]. cbn [mbind option_bind].
    assert (p_cqs p3 !! c = Some cq') as Hc3 by (rewrite Ec3; cbn; by rewrite lookup_insert_eq).
    destruct (inv_destroy_cq _ _ _ _ _ Hinv3 Hc3) as (p4 & -> & Hi4 & Hs4 & _); [left; unfold cq_live in *; by rewrite Hq, Hce|]. cbn [mbind option_bind].
    do 2 eexists. split; [reflexivity|]. split; [done|]. intros _. by apply (Hgive p3 p4).
Qed.

(** ** Transmit queues *)

Lemma free_tx_loop_cq fuel r k cnt n r' k' : free_tx_loop fuel r k cnt = Some (n, r', k') -> tx_cq r' = tx_cq r.
Proof.
  revert r k cnt. induction fuel as [|fuel IH]; intros r k cnt; cbn [free_tx_loop]; [done|].
  destruct (mqnic_is_tx_ring_empty r); [intros E; by injection E as <- <- <-|].
  destruct (mqnic_free_tx_desc _ r k) as [[r1 k1]|] eqn:E1; [|done]. cbn [mbind option_bind]. intros E. rewrite (IH _ _ _ E). cbn.
  unfold mqnic_free_tx_desc in E1. destruct (tx_info r !! _); [|done]. cbn [mbind option_bind] in E1. destruct (dma_unmap_single _ _ _); [|done].
  cbn [mbind option_bind] in E1. destruct (unmap_frags _ _ _ _); [|done]. cbn [mbind option_bind] in E1. destruct (napi_consume_skb _ _); [|done].
  by injection E1 as <- <-.
Qed.

Lemma close_tx_cq r cq k (w : qworld hw) r' cq' k' w' : mqnic_close_tx_ring r cq k w = Some (r', cq', k', w') -> tx_cq r' = None.
Proof.
  unfold mqnic_close_tx_ring, mqnic_disable_tx_ring. set (r1 := tx_detach _). assert (tx_cq r1 = None) as H1 by done. intros E.
  assert (exists r2 k2, tx_cq r2 = None /\ ('(q, w) ← free_buf (tx_q r2) (write_ctrl (q_hw_addr (tx_q r)) (Z.lor CMD_SET_ENABLE 0) w);
            res ← mqnic_res_free (q_index q) (w_txq_res w);
            Some (upd_tx (set_q_index (-1) q) [] (tx_desc r2) r2, cq_detach (tx_cq (set_tx_q (set_q_enabled false (tx_q r)) r)) cq, k2, set_txq_res res w))
          = Some (r', cq', k', w')) as (r2 & k2 & H2 & E2).
  { destruct (q_buf (tx_q r1)); [|by exists r1, k]. destruct (mqnic_free_tx_buf r1 k) as [[[n r2] k2]|] eqn:Ef; [|done]. cbn [mbind option_bind] in E.
    exists r2, k2. split; [|done]. rewrite <- H1. by eapply free_tx_loop_cq. }
  destruct (free_buf _ _) as [[q w1]|]; [|done]. cbn [mbind option_bind] in E2. destruct (mqnic_res_free _ _); [|done]. cbn in E2. by injection E2 as <- <- <- <-.
Qed.

Lemma open_tx_fails me r c cq size block info buf k (w : qworld hw) ret r' cq' k' w' :
  tx_cq r = None -> mqnic_open_tx_ring me r true (Some c) cq size block info buf k w = Some (ret, r', cq', k', w') -> ret <> 0 -> tx_cq r' = None.
Proof.
  intros Hr E Hret. unfold mqnic_open_tx_ring in E. destruct (queue_busy _ || _); [by injection E as <- <- <- <- <-|].
  destruct (mqnic_res_alloc _) as [[n res]|]; [|done]. cbn [mbind option_bind] in E. destruct (n <? 0); [by injection E as <- <- <- <- <-|].
  destruct (negb info); [|destruct buf as [[b dma]|]].
  - destruct (mqnic_close_tx_ring _ _ _ _) as [[[[r1 cq1] k1] w1]|] eqn:E1; [|done]. cbn [mbind option_bind] in E. injection E as <- <- <- <- <-. by eapply close_tx_cq.
  - destruct (mqnic_res_get_addr _ _); [|done]. cbn [mbind option_bind] in E. by injection E as <- <- <- <- <-.
  - destruct (mqnic_close_tx_ring _ _ _ _) as [[[[r1 cq1] k1] w1]|] eqn:E1; [|done]. cbn [mbind option_bind] in E. injection E as <- <- <- <- <-. by eapply close_tx_cq.
Qed.

Lemma inv_close_tx D L p c r cq :
  port_inv (Some c) D (tx_ledger r ⊎ L) p -> tx_live c r -> p_cqs p !! c = Some cq ->
  exists r' p' cq', port_close_tx r p = Some (r', p') /\ port_inv (Some c) D L p' /\ same_tables p p' /\
    queue_closed (tx_q r') /\ tx_cq r' = None /\ p_cqs p' !! c = Some cq' /\ cq_q cq' = cq_q cq /\ cq_eq cq' = cq_eq cq.
Proof.
  intros (Hh & Hl & He & HN) Hlive Hc. unfold port_close_tx. pose proof Hlive as (_ & _ & -> & _). rewrite Hc. cbn [mbind option_bind].
  rewrite <- ledger_assoc in Hh. destruct (close_tx_holds _ _ _ _ _ r c cq Hh Hlive) as (r' & t' & w' & E & Hh' & Hcl).
  rewrite E. cbn [mbind option_bind]. do 2 eexists. exists (cq_detach (Some c) cq). split; [reflexivity|]. split; [|split; [done|]].
  - eapply inv_put_cq; [|exact Hc|done|done]. by split_and!.
  - split; [done|]. split; [by eapply close_tx_cq|]. cbn. by rewrite lookup_insert_eq.
Qed.

Lemma inv_destroy_closed_tx X D L p r :
  port_inv X D L p -> queue_closed (tx_q r) -> tx_cq r = None ->
  exists p', mqnic_destroy_tx_ring r p = Some p' /\ port_inv X D L p' /\ same_tables p p' /\ p_cqs p' = p_cqs p.
Proof.
  intros Hinv Hcl Hr. unfold mqnic_destroy_tx_ring, port_close_tx. rewrite Hr.
  destruct (close_tx_closed r mqnic_create_cq (p_t p) (p_w p) Hcl) as (r' & -> & _). cbn [mbind option_bind]. by eexists.
Qed.

Lemma inv_insert_tx D L p c r k cq :
  port_inv (Some c) D (tx_ledger r ⊎ L) p -> p_txq p !! Z.of_nat k = None -> p_cqs p !! c = Some cq -> p_napi p !! c = Some true ->
  cq_live (length (p_eqs p0)) cq -> TX (Z.of_nat k) c r cq -> cq_src_ring cq = Some k -> cq_hnd cq = Some mqnic_tx_irq ->
  port_inv None D L (set_txq (<[Z.of_nat k := r]> (p_txq p)) p).
Proof.
  intros (Hh & (HC & HR & HT) & He & (HN1 & HN2)) Hk Hc Hn Hlive Hp Hsrc Hhnd. split; [|split; [|split; [done|]]].
  - revert Hh. apply holds_proper. unfold port_ledger. cbn. rewrite lg_map_insert by done.
    rewrite (ledger_comm (tx_ledger r) L), <- !ledger_assoc. f_equiv. rewrite !ledger_assoc. rewrite (ledger_comm _ (tx_ledger r)). by rewrite !ledger_assoc.
  - cbn. split_and!.
    + intros c1 cq1 H1. destruct (HC _ _ H1) as [Hlt Hl]. split; [done|]. intros _. destruct (decide (c1 = c)) as [->|Hne].
      * rewrite Hc in H1. injection H1 as <-. split; [done|]. exists k. split; [done|]. rewrite Hhnd. exists r. by rewrite lookup_insert_eq.
      * eapply linked_mono; [| |apply Hl; congruence]; [done|]. intros i r1 Hi _. rewrite lookup_insert_ne; [done|]. congruence.
    + intros key r1 Hr. destruct (HR key r1 Hr) as (c1 & cq1 & G1 & G2 & G3 & G4). exists c1, cq1. by split_and!; try apply G4.
    + intros key r1 [[<- <-]|[Hne Hr]]%lookup_insert_Some.
      * exists c, cq. destruct (HTX _ _ _ _ Hp) as (_ & _ & ? & _). split_and!; try done; [by rewrite Nat2Z.id|lia].
      * destruct (HT key r1 Hr) as (c1 & cq1 & G1 & G2 & G3 & G4). exists c1, cq1. by split_and!; try apply G4.
  - split; [|done]. cbn. intros c1 _. destruct (decide (c1 = c)) as [->|Hne]; [by rewrite Hc, Hn|]. apply HN1. congruence.
Qed.

Lemma inv_give_up_tx D L p c r cq :
  port_inv (Some c) D (tx_ledger r ⊎ L) p -> tx_live c r -> p_cqs p !! c = Some cq -> cq_live (length (p_eqs p0)) cq ->
  exists p1 p', mqnic_destroy_tx_ring r p = Some p1 /\ mqnic_destroy_cq c p1 = Some p' /\
    port_inv None (left_behind c p D) L p' /\ same_tables p p'.
Proof.
  intros Hinv Hr Hc Hlive. destruct (inv_close_tx _ _ _ _ _ _ Hinv Hr Hc) as (r' & p1 & cq' & E1 & Hinv1 & Hs1 & _ & _ & Hc1 & Hq & He).
  destruct (inv_destroy_cq _ _ _ _ _ Hinv1 Hc1) as (p' & E2 & Hinv2 & Hs2 & _); [left; unfold cq_live in *; by rewrite Hq, He|].
  unfold mqnic_destroy_tx_ring. rewrite E1. cbn [mbind option_bind]. do 2 eexists. split; [reflexivity|]. split; [exact E2|].
  unfold same_tables, left_behind in *. injection Hs1 as S1 S2 S3 S4 S5 S6. rewrite <- S1. split; [done|]. by rewrite Hs2, S1, S2, S3, S4, S5, S6.
Qed.

Lemma inv_start_tx_queue cfg env k D L p :
  (forall c r cq m n b, tx_live c r -> tx_geometry n b r -> tx_slots n b [] [] 0 r -> cq_fresh m cq -> cq_geometry m cq -> TX (Z.of_nat k) c r cq) ->
  port_inv None D L p -> is_Some (qe_cq_buf env) -> p_eqs p <> [] -> 2 <= cf_tx_ring_size cfg <= 2 ^ 15 -> 1 <= cf_max_desc_block_size cfg ->
  exists ret p', start_tx_queue cfg env k p = Some (ret, p') /\
    (ret = 0 -> port_inv None D L p' /\ (p_rxq p', port_frame p') = (p_rxq p, port_frame p) /\ (p_next p <= p_next p')%nat /\
       p_txq p !! Z.of_nat k = None /\ exists r, p_txq p' = <[Z.of_nat k := r]> (p_txq p)) /\
    (ret <> 0 -> gave_up p D L p').
Proof.
  intros Hnew Hinv Hbuf Hne Hsz Hbl. unfold start_tx_queue.
  destruct (inv_start_cq D L p env k (cf_tx_ring_size cfg) Hinv Hbuf Hne) as (ret & c & p1 & -> & F & Hnx & Hfail & Hok); [lia|]. cbn [mbind option_bind].
  destruct (Z.eqb_spec ret 0) as [->|Hret]; cbn [negb].
  2: { do 2 eexists. split; [reflexivity|]. split; [done|]. intros _. split; [done|]. split; [done|]. exists D. split; [by left|by apply Hfail]. }
  destruct (Hok eq_refl) as (Hinv1 & Hcn & Hn1 & HD & cq & Hc1 & Hlive & m & Hfr & Hg).
  pose proof (fun p2 p3 => gave_up_intro p D L c p1 p2 p3 F Hnx Hcn Hn1 HD) as Hgive.
  destruct (qe_ring env); cbn [negb].
  2: { destruct (inv_destroy_cq _ _ _ _ _ Hinv1 Hc1) as (p2 & -> & Hi2 & Hs2 & _); [by left|]. cbn [mbind option_bind].
       do 2 eexists. split; [reflexivity|]. split; [done|]. intros _. by apply (Hgive p1 p2). }
  rewrite Hc1. cbn [mbind option_bind]. pose proof Hinv1 as (Hh & Hl & He & HN).
  destruct (open_tx_holds _ _ _ _ _ k mqnic_create_tx_ring c cq (cf_tx_ring_size cfg) (Z.min (cf_max_desc_block_size cfg) 4) (qe_info env) (qe_buf env) Hh)
    as (ret & r & cq' & w & E & Hf & Ho); [done|done|lia|]. rewrite E. cbn [mbind option_bind].
  set (p2 := put_cq c cq' (set_mem w (p_k p1) (p_t p1) p1)).
  destruct (Z.eqb_spec ret 0) as [->|Hret]; cbn [negb].
  - destruct (Ho eq_refl) as (Hh2 & Hrl & -> & n & b & Htg & Hts). rewrite ledger_assoc in Hh2.
    assert (port_inv (Some c) D (tx_ledger r ⊎ L) p2) as Hinv2 by (eapply inv_put_cq; [|exact Hc1|done|done]; by split_and!).
    assert (p_cqs p2 !! c = Some (mk_cq (cq_q cq) (cq_cpls cq) (cq_eq cq) (Some k) (Some mqnic_tx_irq))) as Hc2 by (cbn; by rewrite lookup_insert_eq).
    unfold table_insert. destruct (p_txq p2 !! Z.of_nat k) as [r1|] eqn:Ek; [|destruct (qe_insert env)]; cbn [Z.eqb negb Z.opp EEXIST ENOMEM Pos.eqb].
    1, 3: destruct (inv_give_up_tx _ _ _ _ _ _ Hinv2 Hrl Hc2 Hlive) as (p3 & p4 & -> & E4 & Hi4 & Hs4); cbn [mbind option_bind]; rewrite E4; cbn [mbind option_bind];
      do 2 eexists; (split; [reflexivity|]); (split; [done|]); intros _; by apply (Hgive p2 p4).
    do 2 eexists. split; [reflexivity|]. split; [|done]. intros _. injection F as F1 F2 F3 F4. cbn in Ek. rewrite F2 in Ek.
    split; [|unfold port_frame; cbn; rewrite F1, F2, F3, F4; by split_and!; try exists r].
    eapply inv_insert_tx; try done; [cbn; by rewrite F2|]. by eapply Hnew.
  - destruct (Hf Hret) as (Hh2 & Hcl & Hq & Hce).
    assert (port_inv (Some c) D L p2) as Hinv2 by (eapply inv_put_cq; [|exact Hc1|done|done]; by split_and!).
    destruct (inv_destroy_closed_tx _ _ _ _ r Hinv2 Hcl) as (p3 & -> & Hinv3 & Hs3 & Ec3); [by eapply (open_tx_fails k mqnic_create_tx_ring); [|exact E|done]|]. cbn [mbind option_bind].
    assert (p_cqs p3 !! c = Some cq') as Hc3 by (rewrite Ec3; cbn; by rewrite lookup_insert_eq).
    destruct (inv_destroy_cq _ _ _ _ _ Hinv3 Hc3) as (p4 & -> & Hi4 & Hs4 & _); [left; unfold cq_live in *; by rewrite Hq, Hce|]. cbn [mbind option_bind].
    do 2 eexists. split; [reflexivity|]. split; [done|]. intros _. by apply (Hgive p3 p4).
Qed.

(** ** The loops of [mqnic_start_port] *)

Lemma leaked_le n n' D D' : (n <= n')%nat -> leaked n' D D' -> leaked n D D'.
Proof. intros Hle [->|(c & Hc & H)]; [by left|right]. exists c. split; [lia|done]. Qed.

Lemma frame_eqs p p' : port_frame p' = port_frame p -> p_eqs p <> [] -> p_eqs p' <> [].
Proof. unfold port_frame. intros [= _ E] Hne E'. rewrite E' in E. destruct (p_eqs p); done. Qed.

Lemma inv_start_rx cfg envs n k D L p :
  (forall i, is_Some (qe_cq_buf (envs i))) -> 0 < cf_rx_ring_size cfg <= 2 ^ 31 ->
  port_inv None D L p -> p_eqs p <> [] ->
  exists ret p', start_queues (start_rx_queue cfg) envs n k p = Some (ret, p') /\ (p_next p <= p_next p')%nat /\
    (p_txq p', port_frame p') = (p_txq p, port_frame p) /\
    (ret = 0 -> port_inv None D L p' /\ forall key, is_Some (p_rxq p' !! key) <-> is_Some (p_rxq p !! key) \/ Z.of_nat k <= key < Z.of_nat (k + n)) /\
    (ret <> 0 -> exists D', leaked (p_next p) D D' /\ port_inv None D' L p').
Proof.
  intros Henv Hsz. revert k p. induction n as [|n IH]; intros k p Hinv Hne; cbn [start_queues].
  { do 2 eexists. split; [reflexivity|]. split; [done|]. split; [done|]. split; [|done]. intros _. split; [done|]. intros key. rewrite Nat.add_0_r. intuition lia. }
  destruct (inv_start_rx_queue cfg (envs k) k D L p Hinv (Henv k) Hne Hsz) as (ret & p1 & -> & Hok & Hfail). cbn [mbind option_bind].
  destruct (Z.eqb_spec ret 0) as [->|Hret]; cbn [negb].
  - destruct (Hok eq_refl) as (Hinv1 & F & Hnx & _ & r & Er).
    destruct (IH (S k) p1 Hinv1) as (ret & p2 & -> & Hnx2 & F' & Hok2 & Hfail2); [eapply frame_eqs; [exact (f_equal snd F)|done]|].
    do 2 eexists. split; [reflexivity|]. split; [lia|]. split; [by rewrite F', F|]. split.
    + intros Hr. destruct (Hok2 Hr) as [H1 H2]. split; [done|]. intros key. rewrite H2, Er, lookup_insert_is_Some'. rewrite Nat.add_succ_r. intuition lia.
    + intros Hr. destruct (Hfail2 Hr) as (D' & H1 & H2). exists D'. split; [by eapply leaked_le|done].
  - destruct (Hfail Hret) as (F & Hnx & D' & H1 & H2). injection F as F1 F2 F3 F4. do 2 eexists. split; [reflexivity|]. split; [done|].
    unfold port_frame. rewrite F2, F3, F4. split; [done|]. split; [done|]. intros _. by exists D'.
Qed.

Lemma inv_start_tx cfg envs n k D L p :
  (forall i, is_Some (qe_cq_buf (envs i))) -> 2 <= cf_tx_ring_size cfg <= 2 ^ 15 -> 1 <= cf_max_desc_block_size cfg ->
  (forall i c r cq m n b, tx_live c r -> tx_geometry n b r -> tx_slots n b [] [] 0 r -> cq_fresh m cq -> cq_geometry m cq -> TX (Z.of_nat i) c r cq) ->
  port_inv None D L p -> p_eqs p <> [] ->
  exists ret p', start_queues (start_tx_queue cfg) envs n k p = Some (ret, p') /\ (p_next p <= p_next p')%nat /\
    (p_rxq p', port_frame p') = (p_rxq p, port_frame p) /\
    (ret = 0 -> port_inv None D L p' /\ forall key, is_Some (p_txq p' !! key) <-> is_Some (p_txq p !! key) \/ Z.of_nat k <= key < Z.of_nat (k + n)) /\
    (ret <> 0 -> exists D', leaked (p_next p) D D' /\ port_inv None D' L p').
Proof.
  intros Henv Hsz Hbl Hnew. revert k p. induction n as [|n IH]; intros k p Hinv Hne; cbn [start_queues].
  { do 2 eexists. split; [reflexivity|]. split; [done|]. split; [done|]. split; [|done]. intros _. split; [done|]. intros key. rewrite Nat.add_0_r. intuition lia. }
  destruct (inv_start_tx_queue cfg (envs k) k D L p (Hnew k) Hinv (Henv k) Hne Hsz Hbl) as (ret & p1 & -> & Hok & Hfail). cbn [mbind option_bind].
  destruct (Z.eqb_spec ret 0) as [->|Hret]; cbn [negb].
  - destruct (Hok eq_refl) as (Hinv1 & F & Hnx & _ & r & Er).
    destruct (IH (S k) p1 Hinv1) as (ret & p2 & -> & Hnx2 & F' & Hok2 & Hfail2); [eapply frame_eqs; [exact (f_equal snd F)|done]|].
    do 2 eexists. split; [reflexivity|]. split; [lia|]. split; [by rewrite F', F|]. split.
    + intros Hr. destruct (Hok2 Hr) as [H1 H2]. split; [done|]. intros key. rewrite H2, Er, lookup_insert_is_Some'. rewrite Nat.add_succ_r. intuition lia.
    + intros Hr. destruct (Hfail2 Hr) as (D' & H1 & H2). exists D'. split; [by eapply leaked_le|done].
  - destruct (Hfail Hret) as (F & Hnx & D' & H1 & H2). injection F as F1 F2 F3 F4. do 2 eexists. split; [reflexivity|]. split; [done|].
    unfold port_frame. rewrite F1, F3, F4. split; [done|]. split; [done|]. intros _. by exists D'.
Qed.

(** ** Stopping a queue *)

(** The ring leaves the table. *)
Lemma inv_take_rx D L p key r :
  port_inv None D L p -> p_rxq p !! key = Some r ->
  exists c cq, rx_live c r /\ p_cqs p !! c = Some cq /\ cq_live (length (p_eqs p0)) cq /\ p_napi p !! c = Some true /\ D !! c = None /\
    port_inv (Some c) D (rx_ledger r ⊎ L) (set_rxq (delete key (p_rxq p)) p).
Proof.
  intros (Hh & (HC & HR & HT) & He & (HN1 & HN2)) Hr. destruct (HR key r Hr) as (c & cq & G1 & G2 & _ & G4 & G5 & G6).
  destruct (HC c cq G2) as (Hlt & [Hlive (i & Hi & Hp)]); [done|]. rewrite G6 in Hp. destruct Hp as (r' & Hr' & Hp).
  rewrite G4 in Hi. injection Hi as <-. rewrite Z2Nat.id, Hr in Hr' by done. injection Hr' as <-.
  exists c, cq. split; [by destruct Hp|]. split; [done|]. split; [done|]. split; [by rewrite HN1, G2|]. split.
  { destruct (D !! c) eqn:E; [|done]. destruct (HN2 c) as [_ ?]; [by rewrite E|congruence]. }
  split; [|split; [|split; [done|]]].
  - revert Hh. apply holds_proper. unfold port_ledger. cbn. rewrite (lg_map_delete rx_ledger _ key r Hr).
    rewrite (ledger_comm (rx_ledger r) L), <- !ledger_assoc. f_equiv. rewrite !ledger_assoc. by rewrite (ledger_comm (lg_map cq_ledger _) (rx_ledger r)).
  - cbn. split_and!.
    + intros c1 cq1 H1. destruct (HC _ _ H1) as [? Hl]. split; [done|]. intros Hne. eapply linked_mono; [| |by apply Hl]; [|done].
      intros i r1 Hi1 Hc1. rewrite lookup_delete_ne; [done|]. intros <-. rewrite Hr in Hi1. injection Hi1 as <-. congruence.
    + intros key1 r1 [Hne Hr1]%lookup_delete_Some. destruct (HR key1 r1 Hr1) as (c1 & cq1 & K1 & K2 & _ & K4 & K5 & K6). exists c1, cq1.
      split_and!; try done. intros [= <-]. rewrite G2 in K2. injection K2 as <-. rewrite G4 in K4. injection K4 as K4. lia.
    + intros key1 r1 Hr1. destruct (HT key1 r1 Hr1) as (c1 & cq1 & K1 & K2 & _ & K4 & K5 & K6). exists c1, cq1.
      split_and!; try done. intros [= <-]. congruence.
  - split; [|done]. cbn. intros c1 _. by apply HN1.
Qed.

Lemma inv_take_tx D L p key r :
  port_inv None D L p -> p_txq p !! key = Some r ->
  exists c cq, tx_live c r /\ p_cqs p !! c = Some cq /\ cq_live (length (p_eqs p0)) cq /\ p_napi p !! c = Some true /\ D !! c = None /\
    port_inv (Some c) D (tx_ledger r ⊎ L) (set_txq (delete key (p_txq p)) p).
Proof.
  intros (Hh & (HC & HR & HT) & He & (HN1 & HN2)) Hr. destruct (HT key r Hr) as (c & cq & G1 & G2 & _ & G4 & G5 & G6).
  destruct (HC c cq G2) as (Hlt & [Hlive (i & Hi & Hp)]); [done|]. rewrite G6 in Hp. destruct Hp as (r' & Hr' & Hp).
  rewrite G4 in Hi. injection Hi as <-. rewrite Z2Nat.id in Hp, Hr' by done. rewrite Hr in Hr'. injection Hr' as <-.
  exists c, cq. split; [by eapply HTX|]. split; [done|]. split; [done|]. split; [by rewrite HN1, G2|]. split.
  { destruct (D !! c) eqn:E; [|done]. destruct (HN2 c) as [_ ?]; [by rewrite E|congruence]. }
  split; [|split; [|split; [done|]]].
  - revert Hh. apply holds_proper. unfold port_ledger. cbn. rewrite (lg_map_delete tx_ledger _ key r Hr).
    rewrite (ledger_comm (tx_ledger r) L), <- !ledger_assoc. f_equiv. rewrite !ledger_assoc. rewrite (ledger_comm _ (tx_ledger r)). by rewrite !ledger_assoc.
  - cbn. split_and!.
    + intros c1 cq1 H1. destruct (HC _ _ H1) as [? Hl]. split; [done|]. intros Hne. eapply linked_mono; [| |by apply Hl]; [done|].
      intros i r1 Hi1 Hc1. rewrite lookup_delete_ne; [done|]. intros <-. rewrite Hr in Hi1. injection Hi1 as <-. congruence.
    + intros key1 r1 Hr1. destruct (HR key1 r1 Hr1) as (c1 & cq1 & K1 & K2 & _ & K4 & K5 & K6). exists c1, cq1.
      split_and!; try done. intros [= <-]. congruence.
    + intros key1 r1 [Hne Hr1]%lookup_delete_Some. destruct (HT key1 r1 Hr1) as (c1 & cq1 & K1 & K2 & _ & K4 & K5 & K6). exists c1, cq1.
      split_and!; try done. intros [= <-]. rewrite G2 in K2. injection K2 as <-. rewrite G4 in K4. injection K4 as K4. lia.
  - split; [|done]. cbn. intros c1 _. by apply HN1.
Qed.

Lemma inv_set_napi D L p c m :
  port_inv (Some c) D L p -> (forall i, i <> c -> m !! i = p_napi p !! i) -> port_inv (Some c) D L (set_napi m p).
Proof.
  intros (Hh & Hl & He & (HN1 & HN2)) Hm. split; [done|]. split; [done|]. split; [done|]. split; [|done]. cbn. intros i Hi.
  rewrite Hm by congruence. by apply HN1.
Qed.

(** Closing a ring does not look at the tables. *)
Lemma port_close_rx_table r m p : port_close_rx r (set_rxq m p) = (fun x => (x.1, set_rxq m x.2)) <$> port_close_rx r p.
Proof.
  unfold port_close_rx. destruct (rx_cq r); cbn [p_cqs set_rxq p_k p_w].
  - destruct (p_cqs p !! _); [|done]. cbn [mbind option_bind]. by destruct (mqnic_close_rx_ring _ _ _ _) as [[[[] ?] ?]|].
  - by destruct (mqnic_close_rx_ring _ _ _ _) as [[[[] ?] ?]|].
Qed.
Lemma port_close_tx_table r m p : port_close_tx r (set_txq m p) = (fun x => (x.1, set_txq m x.2)) <$> port_close_tx r p.
Proof.
  unfold port_close_tx. destruct (tx_cq r); cbn [p_cqs set_txq p_t p_w].
  - destruct (p_cqs p !! _); [|done]. cbn [mbind option_bind]. by destruct (mqnic_close_tx_ring _ _ _ _) as [[[[] ?] ?]|].
  - by destruct (mqnic_close_tx_ring _ _ _ _) as [[[[] ?] ?]|].
Qed.

(** The end of both: the completion queue, closed twice. *)
Lemma inv_stop_cq D L p c cq :
  port_inv (Some c) D L p -> p_cqs p !! c = Some cq -> cq_live (length (p_eqs p0)) cq -> p_napi p !! c = None -> D !! c = None ->
  exists p1 p', port_close_cq c p = Some p1 /\ mqnic_destroy_cq c p1 = Some p' /\ port_inv None D L p' /\
    (p_rxq p', p_txq p', p_dev p') = (p_rxq p, p_txq p, p_dev p).
Proof.
  intros Hinv Hc Hlive Hn HD. destruct (inv_close_cq _ _ _ _ _ Hinv Hc (or_introl Hlive)) as (p1 & cq1 & E1 & Ec & Hcl & Hinv1 & Hs1).
  destruct (inv_destroy_cq D L p1 c cq1 Hinv1) as (p2 & E2 & Hinv2 & Hs2 & _); [rewrite Ec; by rewrite lookup_insert_eq|by right|].
  exists p1, p2. split; [done|]. split; [done|]. unfold same_tables, left_behind in *. injection Hs1 as S1 S2 S3 S4 S5 S6. injection Hs2 as U1 U2 U3 U4 U5 U6.
  rewrite S1, Hn, partial_alter_none in Hinv2 by done. split; [done|]. by rewrite U3, U4, U5, S3, S4, S5.
Qed.

Lemma inv_stop_rx_queue D L p key r :
  port_inv None D L p -> p_rxq p !! key = Some r ->
  exists p', stop_rx_queue key p = Some p' /\ port_inv None D L p' /\ (p_rxq p', p_txq p', p_dev p') = (delete key (p_rxq p), p_txq p, p_dev p).
Proof.
  intros Hinv Hr. destruct (inv_take_rx _ _ _ _ _ Hinv Hr) as (c & cq & Hrl & Hc & Hlive & Hn & HD & Hinv1).
  unfold stop_rx_queue. rewrite Hr. cbn [mbind option_bind]. pose proof Hrl as (_ & _ & -> & _). cbn [mbind option_bind].
  unfold napi_disable. rewrite Hn. cbn [mbind option_bind]. unfold netif_napi_del. cbn [set_napi p_napi].
  set (p1 := set_napi (delete c _) _).
  assert (port_inv (Some c) D (rx_ledger r ⊎ L) (set_rxq (delete key (p_rxq p)) p1)) as Hinv2.
  { apply (inv_set_napi _ _ _ _ (delete c (<[c := false]> (p_napi p)))) in Hinv1; [exact Hinv1|]. intros i Hi. by rewrite lookup_delete_ne, lookup_insert_ne. }
  destruct (inv_close_rx _ _ _ _ _ cq Hinv2 Hrl Hc) as (r' & p2 & cq2 & E2 & Hinv3 & Hs3 & Hcl & Hrc & Hc2 & Hq & He).
  rewrite port_close_rx_table in E2. apply fmap_Some in E2 as ([r2 p3] & E3 & [= <- ->]). rewrite E3. cbn [mbind option_bind].
  destruct (inv_destroy_closed_rx _ _ _ _ r' Hinv3 Hcl Hrc) as (p4 & E4 & Hinv4 & Hs4 & Ec4).
  unfold mqnic_destroy_rx_ring in E4. rewrite port_close_rx_table in E4. unfold mqnic_destroy_rx_ring.
  assert (p_rxq p3 = p_rxq p1) as T3 by (unfold port_close_rx in E3; repeat case_match; simplify_option_eq; repeat case_match; simplify_eq; done).
  destruct (port_close_rx r' p3) as [[r4 p5]|] eqn:E5; [|done]. cbn in E4. injection E4 as <-. cbn [mbind option_bind].
  assert (p_rxq p5 = p_rxq p3) as T5 by (unfold port_close_rx in E5; rewrite Hrc in E5; repeat case_match; simplify_option_eq; repeat case_match; simplify_eq; done).
  rewrite T5, T3. cbn [p1 set_napi p_rxq]. unfold same_tables in Hs3, Hs4. injection Hs3 as S1 S2 S4 S5 S6. injection Hs4 as U1 U2 U4 U5 U6. cbn in *.
  destruct (inv_stop_cq _ _ _ c cq2 Hinv4) as (p6 & p7 & E6 & E7 & Hinv7 & F).
  - cbn. by rewrite Ec4.
  - unfold cq_live in *. by rewrite Hq, He.
  - cbn. by rewrite U1, S1, lookup_delete_eq.
  - done.
  - rewrite E6. cbn [mbind option_bind]. exists p7. split; [exact E7|]. split; [done|]. rewrite F. cbn. by rewrite U4, U5, S4, S5.
Qed.
Lemma inv_stop_tx_queue D L p key r :
  port_inv None D L p -> p_txq p !! key = Some r ->
  exists p', stop_tx_queue key p = Some p' /\ port_inv None D L p' /\ (p_rxq p', p_txq p', p_dev p') = (p_rxq p, delete key (p_txq p), p_dev p).
Proof.
  intros Hinv Hr. destruct (inv_take_tx _ _ _ _ _ Hinv Hr) as (c & cq & Hrl & Hc & Hlive & Hn & HD & Hinv1).
  unfold stop_tx_queue. rewrite Hr. cbn [mbind option_bind]. pose proof Hrl as (_ & _ & -> & _). cbn [mbind option_bind].
  unfold napi_disable. rewrite Hn. cbn [mbind option_bind]. unfold netif_napi_del. cbn [set_napi p_napi].
  set (p1 := set_napi (delete c _) _).
  assert (port_inv (Some c) D (tx_ledger r ⊎ L) (set_txq (delete key (p_txq p)) p1)) as Hinv2.
  { apply (inv_set_napi _ _ _ _ (delete c (<[c := false]> (p_napi p)))) in Hinv1; [exact Hinv1|]. intros i Hi. by rewrite lookup_delete_ne, lookup_insert_ne. }
  destruct (inv_close_tx _ _ _ _ _ cq Hinv2 Hrl Hc) as (r' & p2 & cq2 & E2 & Hinv3 & Hs3 & Hcl & Hrc & Hc2 & Hq & He).
  rewrite port_close_tx_table in E2. apply fmap_Some in E2 as ([r2 p3] & E3 & [= <- ->]). rewrite E3. cbn [mbind option_bind].
  destruct (inv_destroy_closed_tx _ _ _ _ r' Hinv3 Hcl Hrc) as (p4 & E4 & Hinv4 & Hs4 & Ec4).
  unfold mqnic_destroy_tx_ring in E4. rewrite port_close_tx_table in E4. unfold mqnic_destroy_tx_ring.
  assert (p_txq p3 = p_txq p1) as T3 by (unfold port_close_tx in E3; repeat case_match; simplify_option_eq; repeat case_match; simplify_eq; done).
  destruct (port_close_tx r' p3) as [[r4 p5]|] eqn:E5; [|done]. cbn in E4. injection E4 as <-. cbn [mbind option_bind].
  assert (p_txq p5 = p_txq p3) as T5 by (unfold port_close_tx in E5; rewrite Hrc in E5; repeat case_match; simplify_option_eq; repeat case_match; simplify_eq; done).
  rewrite T5, T3. cbn [p1 set_napi p_txq]. unfold same_tables in Hs3, Hs4. injection Hs3 as S1 S2 S4 S5 S6. injection Hs4 as U1 U2 U4 U5 U6. cbn in *.
  destruct (inv_stop_cq _ _ _ c cq2 Hinv4) as (p6 & p7 & E6 & E7 & Hinv7 & F).
  - cbn. by rewrite Ec4.
  - unfold cq_live in *. by rewrite Hq, He.
  - cbn. by rewrite U1, S1, lookup_delete_eq.
  - done.
  - rewrite E6. cbn [mbind option_bind]. exists p7. split; [exact E7|]. split; [done|]. rewrite F. cbn. by rewrite U4, U5, S4, S5.
Qed.

Lemma sorted_keys_spec {A} (t : gmap Z A) : NoDup (sorted_keys t) /\ forall key, key ∈ sorted_keys t <-> is_Some (t !! key).
Proof.
  unfold sorted_keys. split.
  - rewrite merge_sort_Permutation. apply NoDup_fst_map_to_list.
  - intros key. rewrite merge_sort_Permutation, list_elem_of_fmap. split.
    + intros ([i x] & -> & Hx). apply elem_of_map_to_list in Hx. by exists x.
    + intros [x Hx]. exists (key, x). split; [done|]. by apply elem_of_map_to_list.
Qed.

Lemma inv_stop_rx D L keys p :
  port_inv None D L p -> NoDup keys -> (forall key, key ∈ keys <-> is_Some (p_rxq p !! key)) ->
  exists p', stop_queues stop_rx_queue keys p = Some p' /\ port_inv None D L p' /\ (p_rxq p', p_txq p', p_dev p') = (∅, p_txq p, p_dev p).
Proof.
  revert p. induction keys as [|key keys IH]; intros p Hinv Hnd Hk; cbn [stop_queues].
  { exists p. split; [done|]. split; [done|]. do 2 f_equal. apply map_empty. intros i. destruct (p_rxq p !! i) eqn:E; [|done].
    exfalso. apply (not_elem_of_nil i). apply Hk. by rewrite E. }
  apply NoDup_cons in Hnd as [Hni Hnd]. destruct (proj1 (Hk key)) as [r Hr]; [by left|].
  destruct (inv_stop_rx_queue _ _ _ _ _ Hinv Hr) as (p1 & -> & Hinv1 & F). injection F as F1 F2 F3. cbn [mbind option_bind].
  destruct (IH p1 Hinv1 Hnd) as (p2 & E2 & Hinv2 & F).
  - intros i. rewrite F1, lookup_delete_is_Some, <- Hk, elem_of_cons. split; [|intuition congruence]. intros Hi. split; [congruence|by right].
  - exists p2. split; [done|]. split; [done|]. by rewrite F, F2, F3.
Qed.

Lemma inv_stop_tx D L keys p :
  port_inv None D L p -> NoDup keys -> (forall key, key ∈ keys <-> is_Some (p_txq p !! key)) ->
  exists p', stop_queues stop_tx_queue keys p = Some p' /\ port_inv None D L p' /\ (p_rxq p', p_txq p', p_dev p') = (p_rxq p, ∅, p_dev p).
Proof.
  revert p. induction keys as [|key keys IH]; intros p Hinv Hnd Hk; cbn [stop_queues].
  { exists p. split; [done|]. split; [done|]. do 2 f_equal. apply map_empty. intros i. destruct (p_txq p !! i) eqn:E; [|done].
    exfalso. apply (not_elem_of_nil i). apply Hk. by rewrite E. }
  apply NoDup_cons in Hnd as [Hni Hnd]. destruct (proj1 (Hk key)) as [r Hr]; [by left|].
  destruct (inv_stop_tx_queue _ _ _ _ _ Hinv Hr) as (p1 & -> & Hinv1 & F). injection F as F1 F2 F3. cbn [mbind option_bind].
  destruct (IH p1 Hinv1 Hnd) as (p2 & E2 & Hinv2 & F).
  - intros i. rewrite F2, lookup_delete_is_Some, <- Hk, elem_of_cons. split; [|intuition congruence]. intros Hi. split; [congruence|by right].
  - exists p2. split; [done|]. split; [done|]. by rewrite F, F1, F3.
Qed.

(** ** Walks over the tables *)

(** A ring of the table is replaced by one that holds the same. *)
Lemma inv_update_rx X D L p key r r' w :
  port_inv X D L p -> p_rxq p !! key = Some r -> w_fixed w = w_fixed (p_w p) -> rx_ledger r' = rx_ledger r -> rx_cq r' = rx_cq r ->
  (forall c cq, rx_pair c r cq -> rx_pair c r' cq) ->
  port_inv X D L (set_rxq (<[key := r']> (p_rxq p)) (set_w w p)).
Proof.
  intros (Hh & (HC & HR & HT) & He & HN) Hr Hw Hl Hcq Hp. split; [|split; [|by split]].
  - eapply holds_fixed; [exact Hw|]. revert Hh. apply holds_proper. unfold port_ledger. cbn. by rewrite (lg_map_same rx_ledger _ key r).
  - cbn. split_and!.
    + intros c cq Hc. destruct (HC _ _ Hc) as [? Hlk]. split; [done|]. intros HX. destruct (Hlk HX) as [Hlive (i & Hi & Hm)]. split; [done|].
      exists i. split; [done|]. destruct (cq_hnd cq) as [[]|]; [|done|done]. destruct Hm as (r1 & Hr1 & Hp1).
      destruct (decide (key = Z.of_nat i)) as [->|Hne]; [|exists r1; by rewrite lookup_insert_ne].
      rewrite Hr in Hr1. injection Hr1 as <-. exists r'. rewrite lookup_insert_eq. split; [done|by apply Hp].
    + intros key1 r1 [[<- <-]|[Hne Hr1]]%lookup_insert_Some; [|by apply HR]. destruct (HR key r Hr) as (c & cq & G1 & G). exists c, cq. by rewrite Hcq.
    + done.
Qed.

Lemma inv_update_tx X D L p key r r' w :
  port_inv X D L p -> p_txq p !! key = Some r -> w_fixed w = w_fixed (p_w p) -> tx_ledger r' = tx_ledger r -> tx_cq r' = tx_cq r ->
  (forall c cq, TX key c r cq -> TX key c r' cq) ->
  port_inv X D L (set_txq (<[key := r']> (p_txq p)) (set_w w p)).
Proof.
  intros (Hh & (HC & HR & HT) & He & HN) Hr Hw Hl Hcq Hp. split; [|split; [|by split]].
  - eapply holds_fixed; [exact Hw|]. revert Hh. apply holds_proper. unfold port_ledger. cbn. by rewrite (lg_map_same tx_ledger _ key r).
  - cbn. split_and!.
    + intros c cq Hc. destruct (HC _ _ Hc) as [? Hlk]. split; [done|]. intros HX. destruct (Hlk HX) as [Hlive (i & Hi & Hm)]. split; [done|].
      exists i. split; [done|]. destruct (cq_hnd cq) as [[]|]; [done| |done]. destruct Hm as (r1 & Hr1 & Hp1).
      destruct (decide (key = Z.of_nat i)) as [->|Hne]; [|exists r1; by rewrite lookup_insert_ne].
      rewrite Hr in Hr1. injection Hr1 as <-. exists r'. rewrite lookup_insert_eq. split; [done|by apply Hp].
    + done.
    + intros key1 r1 [[<- <-]|[Hne Hr1]]%lookup_insert_Some; [|by apply HT]. destruct (HT key r Hr) as (c & cq & G1 & G). exists c, cq. by rewrite Hcq.
Qed.

(** A function on a ring that changes no ledger. *)
Definition rx_harmless (f : rx_ring -> qworld hw -> rx_ring * qworld hw) : Prop :=
  forall r w, w_fixed (f r w).2 = w_fixed w /\ rx_ledger (f r w).1 = rx_ledger r /\ rx_cq (f r w).1 = rx_cq r /\
    forall c cq, rx_pair c r cq -> rx_pair c (f r w).1 cq.
Definition tx_harmless (f : tx_ring -> qworld hw -> tx_ring * qworld hw) : Prop :=
  forall r w, w_fixed (f r w).2 = w_fixed w /\ tx_ledger (f r w).1 = tx_ledger r /\ tx_cq (f r w).1 = tx_cq r /\
    forall key c cq, TX key c r cq -> TX key c (f r w).1 cq.

Lemma inv_each_rx X D L f keys p :
  rx_harmless f -> port_inv X D L p -> (forall key, key ∈ keys -> is_Some (p_rxq p !! key)) ->
  exists p', each_rx f keys p = Some p' /\ port_inv X D L p' /\ (p_txq p', p_dev p') = (p_txq p, p_dev p) /\
    forall key, is_Some (p_rxq p' !! key) <-> is_Some (p_rxq p !! key).
Proof.
  intros Hf. revert p. induction keys as [|key keys IH]; intros p Hinv Hk; cbn [each_rx]; [by exists p|].
  destruct (Hk key) as [r Hr]; [by left|]. rewrite Hr. cbn [mbind option_bind]. destruct (Hf r (p_w p)) as (H1 & H2 & H3 & H4).
  destruct (f r (p_w p)) as [r' w]. cbn [fst snd] in *.
  assert (forall i, is_Some (<[key := r']> (p_rxq p) !! i) <-> is_Some (p_rxq p !! i)) as Hd.
  { intros i. rewrite lookup_insert_is_Some'. split; [|by right]. intros [<-|?]; [by rewrite Hr|done]. }
  destruct (IH (set_rxq (<[key := r']> (p_rxq p)) (set_w w p))) as (p' & E & Hi & F & Hd').
  - by eapply inv_update_rx.
  - intros i Hi. cbn. apply Hd, Hk. by right.
  - exists p'. split; [done|]. split; [done|]. split; [done|]. intros i. rewrite Hd'. cbn. apply Hd.
Qed.

Lemma inv_each_tx X D L f keys p :
  tx_harmless f -> port_inv X D L p -> (forall key, key ∈ keys -> is_Some (p_txq p !! key)) ->
  exists p', each_tx f keys p = Some p' /\ port_inv X D L p' /\ (p_rxq p', p_dev p') = (p_rxq p, p_dev p) /\
    forall key, is_Some (p_txq p' !! key) <-> is_Some (p_txq p !! key).
Proof.
  intros Hf. revert p. induction keys as [|key keys IH]; intros p Hinv Hk; cbn [each_tx]; [by exists p|].
  destruct (Hk key) as [r Hr]; [by left|]. rewrite Hr. cbn [mbind option_bind]. destruct (Hf r (p_w p)) as (H1 & H2 & H3 & H4).
  destruct (f r (p_w p)) as [r' w]. cbn [fst snd] in *.
  assert (forall i, is_Some (<[key := r']> (p_txq p) !! i) <-> is_Some (p_txq p !! i)) as Hd.
  { intros i. rewrite lookup_insert_is_Some'. split; [|by right]. intros [<-|?]; [by rewrite Hr|done]. }
  destruct (IH (set_txq (<[key := r']> (p_txq p)) (set_w w p))) as (p' & E & Hi & F & Hd').
  - eapply inv_update_tx; try done. intros c cq. apply H4.
  - intros i Hi. cbn. apply Hd, Hk. by right.
  - exists p'. split; [done|]. split; [done|]. split; [done|]. intros i. rewrite Hd'. cbn. apply Hd.
Qed.

Lemma inv_tx_all X D L p b :
  port_inv X D L p -> (forall key c r cq, TX key c r cq -> TX key c (set_tx_stopped b r) cq) -> port_inv X D L (netif_tx_all_queues b p).
Proof.
  intros (Hh & (HC & HR & HT) & He & HN) Hb. split; [|split; [|by split]].
  - revert Hh. apply holds_proper. unfold port_ledger. cbn. by rewrite lg_map_fmap.
  - cbn. split_and!.
    + intros c cq Hc. destruct (HC _ _ Hc) as [? Hlk]. split; [done|]. intros HX. destruct (Hlk HX) as [Hlive (i & Hi & Hm)]. split; [done|].
      exists i. split; [done|]. destruct (cq_hnd cq) as [[]|]; [done| |done]. destruct Hm as (r1 & Hr1 & Hp1).
      exists (set_tx_stopped b r1). rewrite lookup_fmap, Hr1. split; [done|by apply Hb].
    + done.
    + intros key r Hr. rewrite lookup_fmap in Hr. apply fmap_Some in Hr as (r1 & Hr1 & ->).
      destruct (HT key r1 Hr1) as (c & cq & G1 & G). by exists c, cq.
Qed.

Lemma inv_frame X D L p w d : port_inv X D L p -> w_fixed w = w_fixed (p_w p) -> port_inv X D L (set_dev d (set_w w p)).
Proof. intros (Hh & Hl & He & HN) Hw. split; [|by split]. eapply holds_fixed; [exact Hw|exact Hh]. Qed.

Lemma inv_set_dev X D L p d : port_inv X D L p -> port_inv X D L (set_dev d p).
Proof. done. Qed.

Lemma inv_set_hw X D L p h : port_inv X D L p -> port_inv X D L (set_hw h p).
Proof. intros (Hh & Hl & He & HN). split; [|by split]. eapply holds_fixed; [|exact Hh]. done. Qed.

Lemma inv_update_stats X D L p : port_inv X D L p -> port_inv X D L (mqnic_update_stats p).
Proof. intros Hinv. unfold mqnic_update_stats. by destruct (negb _). Qed.

Lemma stats_frame p :
  let p' := mqnic_update_stats p in
  (p_rxq p', p_txq p', nd_mtu (p_dev p'), nd_port_up (p_dev p'), nd_carrier (p_dev p'))
  = (p_rxq p, p_txq p, nd_mtu (p_dev p), nd_port_up (p_dev p), nd_carrier (p_dev p)).
Proof. unfold mqnic_update_stats. by destruct (negb _). Qed.

Lemma rx_pair_enabled b c r cq : rx_pair c r cq -> rx_pair c (set_rx_q (set_q_enabled b (rx_q r)) r) cq.
Proof. destruct r as [[]]. done. Qed.

Lemma disable_rx_harmless : rx_harmless mqnic_disable_rx_ring.
Proof.
  intros r w. unfold mqnic_disable_rx_ring. cbn [fst snd]. split; [apply write_ctrl_fixed|]. split; [by destruct r as [[]]|]. split; [done|].
  intros c cq. apply rx_pair_enabled.
Qed.
Lemma enable_rx_harmless : rx_harmless (fun r w => let '(_, r, w) := mqnic_enable_rx_ring r w in (r, w)).
Proof.
  intros r w. unfold mqnic_enable_rx_ring. destruct (q_hw_addr (rx_q r)) as [a|] eqn:Ea; [|done]. cbn [fst snd].
  split; [apply (write_ctrl_fixed (Some a))|]. split; [by destruct r as [[]]|]. split; [done|]. intros c cq. apply rx_pair_enabled.
Qed.

Definition tx_stable : Prop :=
  forall key c r cq b, TX key c r cq -> TX key c (set_tx_q (set_q_enabled b (tx_q r)) r) cq.

Lemma disable_tx_harmless : tx_stable -> tx_harmless mqnic_disable_tx_ring.
Proof.
  intros Hs r w. unfold mqnic_disable_tx_ring. cbn [fst snd]. split; [apply write_ctrl_fixed|]. split; [by destruct r as [[]]|]. split; [done|].
  intros key c cq. apply Hs.
Qed.
Lemma enable_tx_harmless : tx_stable -> tx_harmless (fun r w => let '(_, r, w) := mqnic_enable_tx_ring r w in (r, w)).
Proof.
  intros Hs r w. unfold mqnic_enable_tx_ring. destruct (q_hw_addr (tx_q r)) as [a|] eqn:Ea; [|done]. cbn [fst snd].
  split; [apply (write_ctrl_fixed (Some a))|]. split; [by destruct r as [[]]|]. split; [done|]. intros key c cq. apply Hs.
Qed.

Lemma inv_stop_port cfg D L p :
  port_inv None D L p -> tx_stable -> (forall key c r cq, TX key c r cq -> TX key c (set_tx_stopped true r) cq) ->
  exists p', mqnic_stop_port cfg p = Some p' /\ port_inv None D L p' /\
    (p_rxq p', p_txq p', nd_mtu (p_dev p'), nd_port_up (p_dev p'), nd_carrier (p_dev p')) = (∅, ∅, nd_mtu (p_dev p), false, false).
Proof.
  intros Hinv Hst Hsd. unfold mqnic_stop_port. cbv zeta.
  set (p1 := netif_tx_all_queues true _). assert (port_inv None D L p1) as Hinv1 by (by apply inv_tx_all).
  set (p2 := set_hw _ _). assert (port_inv None D L p2) as Hinv2 by (by apply inv_set_hw, inv_update_stats).
  pose proof (stats_frame p1) as F. cbn zeta in F. injection F as F1 F2 F3 F4 F5.
  destruct (inv_each_tx None D L mqnic_disable_tx_ring (sorted_keys (p_txq p2)) p2) as (p3 & -> & Hinv3 & F & Hd3);
    [by apply disable_tx_harmless|done|intros key; apply sorted_keys_spec|]. cbn [mbind option_bind]. injection F as G1 G2.
  destruct (inv_each_rx None D L mqnic_disable_rx_ring (sorted_keys (p_rxq p3)) p3) as (p4 & -> & Hinv4 & F & Hd4);
    [apply disable_rx_harmless|done|intros key; apply sorted_keys_spec|]. cbn [mbind option_bind]. injection F as H1 H2.
  set (p5 := set_dev _ p4). assert (port_inv None D L p5) as Hinv5 by done.
  destruct (inv_stop_tx D L (sorted_keys (p_txq p5)) p5 Hinv5) as (p6 & -> & Hinv6 & F); [apply sorted_keys_spec..|]. cbn [mbind option_bind]. injection F as I1 I2 I3.
  destruct (inv_stop_rx D L (sorted_keys (p_rxq p6)) p6 Hinv6) as (p7 & -> & Hinv7 & F); [apply sorted_keys_spec..|]. injection F as J1 J2 J3.
  exists p7. split; [done|]. split; [done|]. rewrite J1, J2, J3, I2, I3. cbn. rewrite H2, G2. cbn. by rewrite F3, F5.
Qed.

(** ** The end *)

(** Everything is where it was. *)
Definition gave_back p : Prop :=
  same_use (w_eq_res (p_w p0)) (w_eq_res (p_w p)) /\ same_use (w_cq_res (p_w p0)) (w_cq_res (p_w p)) /\
  same_use (w_txq_res (p_w p0)) (w_txq_res (p_w p)) /\ same_use (w_rxq_res (p_w p0)) (w_rxq_res (p_w p)) /\
  w_bufs (p_w p) ≡ₚ w_bufs (p_w p0) /\ w_chain (p_w p) = w_chain (p_w p0) /\
  k_pages (p_k p) ≡ₚ k_pages (p_k p0) /\ k_maps (p_k p) ≡ₚ k_maps (p_k p0) /\
  t_skbs (p_t p) ≡ₚ t_skbs (p_t p0) /\ t_maps (p_t p) ≡ₚ t_maps (p_t p0) /\ t_frags (p_t p) ≡ₚ t_frags (p_t p0) /\
  p_eqs p = p_eqs p0 /\ p_cqs p = ∅ /\ p_rxq p = ∅ /\ p_txq p = ∅.

Lemma inv_gave_back D p : port_inv None D ∅ p -> p_rxq p = ∅ -> p_txq p = ∅ -> gave_back p /\ p_napi p = D.
Proof.
  intros (Hh & (HC & _) & (Hlen & He) & (HN1 & _)) Hr Ht. unfold port_ledger in Hh. rewrite Hr, Ht in *.
  assert (p_cqs p = ∅) as Hcq.
  { apply map_empty. intros c. destruct (p_cqs p !! c) as [cq|] eqn:E; [|done]. destruct (HC c cq E) as (_ & [_ (i & _ & Hm)]); [done|].
    destruct (cq_hnd cq) as [[]|]; [destruct Hm as (r & Hm & _); by rewrite lookup_empty in Hm..|done]. }
  rewrite Hcq in *. destruct Hh as (H1 & H2 & H3 & H4 & H5 & H6 & H7 & H8 & H9 & H10 & H11). cbn in *. split.
  - unfold gave_back. do 11 (split; [first [done|by apply res_holds_back]|]). split; [|done].
    apply list_eq. intros e. destruct (p_eqs p !! e) as [eq|] eqn:E.
    + destruct (He e eq E) as (eq0 & G1 & G2 & G3). rewrite G1. f_equal. destruct eq as [q ev irq t], eq0 as [q0 ev0 irq0 t0]. cbn in *. injection G2 as -> -> ->.
      f_equal. apply map_eq. intros n. destruct (G3 n) as [->|(_ & c & cq & _ & K & _)]; [done|]. by rewrite lookup_empty in K.
    + symmetry. apply lookup_ge_None. apply lookup_ge_None in E. lia.
  - apply map_eq. intros c. rewrite HN1 by done. by rewrite lookup_empty.
Qed.
End Port.

(** ** Starting and stopping the port *)

Section Cycle.
Context {hw : Type} `{!Mmio hw}.
Implicit Types p : port hw.

Lemma port_inv_mono p0 (TX TX' : Z -> nat -> tx_ring -> mqnic_cq -> Prop) X D L p :
  (forall key c r cq, TX key c r cq -> TX' key c r cq) -> port_inv p0 TX X D L p -> port_inv p0 TX' X D L p.
Proof.
  intros Himp (Hh & (HC & HR & HT) & He & HN). split; [done|]. split; [|done]. split; [|done]. intros c cq Hc.
  destruct (HC c cq Hc) as [? Hl]. split; [done|]. intros HX. destruct (Hl HX) as [Hlive (i & Hi & Hm)]. split; [done|]. exists i. split; [done|].
  destruct (cq_hnd cq) as [[]|]; [done| |done]. destruct Hm as (r & Hr & Hp). exists r. split; [done|by apply Himp].
Qed.

(** A transmit ring that has not sent yet. *)
Definition tx_unused (key : Z) (c : nat) (r : tx_ring) (cq : mqnic_cq) : Prop :=
  tx_live c r /\ (exists n b, tx_geometry n b r /\ tx_slots n b [] [] 0 r) /\ exists m, cq_fresh m cq /\ cq_geometry m cq.

Definition tx_open (key : Z) (c : nat) (r : tx_ring) (cq : mqnic_cq) : Prop := tx_live c r.

Lemma tx_geometry_flags n b q s r :
  tx_geometry n b r -> q_size q = q_size (tx_q r) -> q_size_mask q = q_size_mask (tx_q r) -> q_stride q = q_stride (tx_q r) ->
  tx_geometry n b (set_tx_stopped s (set_tx_q q r)).
Proof. unfold tx_geometry. cbn. intros H -> -> ->. done. Qed.

Lemma tx_slots_flags n b sent gone c q s r :
  tx_slots n b sent gone c r -> q_cons_ptr q = q_cons_ptr (tx_q r) -> q_prod_ptr q = q_prod_ptr (tx_q r) ->
  (s = false -> tx_stopped r = false \/ (length sent < c + Z.to_nat (2 ^ (n - 1)))%nat) ->
  tx_slots n b sent gone c (set_tx_stopped s (set_tx_q q r)).
Proof.
  unfold tx_slots. cbn. intros (H1 & H2 & H3 & H4 & H5) -> -> Hs. do 3 (split; [done|]). split; [|done].
  intros Es. destruct (Hs Es) as [?|?]; [by apply H4|done].
Qed.

Lemma set_tx_stopped_id r : set_tx_stopped (tx_stopped r) r = r.
Proof. by destruct r. Qed.
Lemma set_tx_q_id r : set_tx_q (tx_q r) r = r.
Proof. by destruct r. Qed.

(** Both are kept by the enable bit and by stopping the queue; an unused ring
    also by starting it. *)
Lemma tx_live_flags c r b s :
  tx_live c r -> (s = false -> tx_stopped r = false) -> tx_live c (set_tx_stopped s (set_tx_q (set_q_enabled b (tx_q r)) r)).
Proof.
  intros (H1 & H2 & H3 & n & d & sent & gone & x & Hg & Hs & Hd) Hst. split; [done|]. split; [done|]. split; [done|].
  exists n, d, sent, gone, x. split; [by apply tx_geometry_flags|]. split; [|done]. apply tx_slots_flags; try done. intros E. left. by apply Hst.
Qed.

Lemma tx_open_stable : tx_stable tx_open.
Proof.
  intros key c r cq b Hl. unfold tx_open. rewrite <- (set_tx_stopped_id (set_tx_q _ r)). by apply tx_live_flags.
Qed.
Lemma tx_open_stop key c r cq : tx_open key c r cq -> tx_open key c (set_tx_stopped true r) cq.
Proof.
  intros Hl. apply (tx_live_flags c r (q_enabled (tx_q r)) true) in Hl; [|done].
  replace (set_q_enabled (q_enabled (tx_q r)) (tx_q r)) with (tx_q r) in Hl by (by destruct (tx_q r)). by rewrite set_tx_q_id in Hl.
Qed.

Lemma tx_unused_flags key c r cq b s : tx_unused key c r cq -> tx_unused key c (set_tx_stopped s (set_tx_q (set_q_enabled b (tx_q r)) r)) cq.
Proof.
  intros ((H1 & H2 & H3 & _) & (n & d & Hg & Hs) & Hm).
  pose proof Hg as (Hn & _). assert (0 < 2 ^ (n - 1)) as Hpos by (apply Z.pow_pos_nonneg; lia).
  assert (tx_geometry n d (set_tx_stopped s (set_tx_q (set_q_enabled b (tx_q r)) r))) as Hg' by (by apply tx_geometry_flags).
  assert (tx_slots n d [] [] 0 (set_tx_stopped s (set_tx_q (set_q_enabled b (tx_q r)) r))) as Hs'
    by (apply tx_slots_flags; try done; intros _; right; cbn; lia).
  split; [|split; [by exists n, d|done]]. split; [done|]. split; [done|]. split; [done|]. exists n, d, [], [], 0%nat. split; [done|]. split; [done|]. intros x Hx. cbn in Hx. lia.
Qed.
Lemma tx_unused_stable : tx_stable tx_unused.
Proof. intros key c r cq b Hl. rewrite <- (set_tx_stopped_id (set_tx_q _ r)). by apply tx_unused_flags. Qed.
Lemma tx_unused_queue key c r cq b : tx_unused key c r cq -> tx_unused key c (set_tx_stopped b r) cq.
Proof.
  intros Hl. apply (tx_unused_flags key c r cq (q_enabled (tx_q r)) b) in Hl.
  replace (set_q_enabled (q_enabled (tx_q r)) (tx_q r)) with (tx_q r) in Hl by (by destruct (tx_q r)). by rewrite set_tx_q_id in Hl.
Qed.

(** What the start of a port needs: no queue yet, and contexts and tables that
    do not know queues to come. *)
Definition port_down p : Prop :=
  world_wf (p_w p) /\ p_cqs p = ∅ /\ p_rxq p = ∅ /\ p_txq p = ∅ /\ p_eqs p <> [] /\ tables_ok p /\
  forall c, is_Some (p_napi p !! c) -> (c < p_next p)%nat.

Definition cfg_ok (cfg : port_cfg) : Prop :=
  0 < cf_rx_ring_size cfg <= 2 ^ 31 /\ 2 <= cf_tx_ring_size cfg <= 2 ^ 15 /\ 1 <= cf_max_desc_block_size cfg /\ cf_sched_blocks cfg <> [].

(** The buffers of the completion queues are granted. *)
Definition cq_bufs_granted (envs : nat -> queue_env) : Prop := forall i, is_Some (qe_cq_buf (envs i)).

Lemma port_down_inv p TX : port_down p -> port_inv p TX None (p_napi p) ∅ p.
Proof.
  intros (Hwf & Hc & Hr & Ht & _ & _ & Hn). split; [|split; [|split]].
  - unfold port_ledger. rewrite Hc, Hr, Ht. by apply holds_start.
  - rewrite Hc, Hr, Ht. split_and!; [intros ? ?|intros ? ?|intros ? ?]; by rewrite lookup_empty.
  - split; [done|]. intros e eq He. exists eq. split; [done|]. split; [done|]. intros n. by left.
  - rewrite Hc. split; [intros c _; by rewrite lookup_empty|]. intros c Hs. by split; [apply Hn|].
Qed.

Lemma inv_start_finish p0 cfg D p :
  tables_ok p0 -> cf_sched_blocks cfg <> [] -> port_inv p0 tx_unused None D ∅ p ->
  exists p', start_finish cfg p = Some p' /\ port_inv p0 tx_unused None D ∅ p' /\ nd_port_up (p_dev p') = true /\ nd_mtu (p_dev p') = nd_mtu (p_dev p) /\
    (forall key, is_Some (p_rxq p' !! key) <-> is_Some (p_rxq p !! key)) /\ forall key, is_Some (p_txq p' !! key) <-> is_Some (p_txq p !! key).
Proof.
  intros Htab Hsb Hinv. unfold start_finish. cbv zeta. set (p1 := set_dev _ _). assert (port_inv p0 tx_unused None D ∅ p1) as Hinv1 by (by do 2 apply inv_set_hw).
  destruct (inv_each_tx p0 tx_unused None D ∅ (fun r w => let '(_, r, w) := mqnic_enable_tx_ring r w in (r, w)) (sorted_keys (p_txq p1)) p1)
    as (p2 & -> & Hinv2 & F & Hd2); [apply enable_tx_harmless, tx_unused_stable|done|intros key; apply sorted_keys_spec|]. cbn [mbind option_bind]. injection F as G1 G2.
  destruct (inv_each_rx p0 tx_unused None D ∅ (fun r w => let '(_, r, w) := mqnic_enable_rx_ring r w in (r, w)) (sorted_keys (p_rxq p2)) p2)
    as (p3 & -> & Hinv3 & F & Hd3); [apply enable_rx_harmless|done|intros key; apply sorted_keys_spec|]. cbn [mbind option_bind]. injection F as H1 H2.
  destruct (cf_sched_blocks cfg) as [|b l]; [done|]. cbn [head mbind option_bind]. eexists. split; [reflexivity|]. split; [|split; [|split; [|split]]].
  - apply inv_set_dev, inv_tx_all; [by apply inv_set_hw|]. intros key c r cq. apply tx_unused_queue.
  - cbn. rewrite H2, G2. by destruct (cf_link_status_poll cfg =? 0).
  - cbn. rewrite H2, G2. by destruct (cf_link_status_poll cfg =? 0).
  - intros key. cbn. rewrite Hd3, G1. done.
  - intros key. cbn. rewrite lookup_fmap, fmap_is_Some, H1, Hd2. done.
Qed.

(** Starting from a port without queues. *)
Lemma start_port_ok p0 cfg rx_envs tx_envs D p :
  tables_ok p0 -> p_eqs p0 <> [] -> cfg_ok cfg -> cq_bufs_granted rx_envs -> cq_bufs_granted tx_envs ->
  port_inv p0 tx_unused None D ∅ p -> p_rxq p = ∅ -> p_txq p = ∅ ->
  exists ret p', mqnic_start_port cfg rx_envs tx_envs p = Some (ret, p') /\ nd_mtu (p_dev p') = nd_mtu (p_dev p) /\
    (ret = 0 -> port_inv p0 tx_unused None D ∅ p' /\ nd_port_up (p_dev p') = true /\
       (forall key, is_Some (p_rxq p' !! key) <-> 0 <= key < Z.of_nat (cf_rxq_count cfg)) /\
       (forall key, is_Some (p_txq p' !! key) <-> 0 <= key < Z.of_nat (cf_txq_count cfg))) /\
    (ret <> 0 -> nd_port_up (p_dev p') = false /\ p_rxq p' = ∅ /\ p_txq p' = ∅ /\
       exists D', leaked (p_next p) D D' /\ port_inv p0 tx_unused None D' ∅ p').
Proof.
  intros Htab Hne (Hc1 & Hc2 & Hc3 & Hc4) Hrx Htx Hinv Er Et. unfold mqnic_start_port.
  assert (forall key c r cq, tx_unused key c r cq -> tx_live c r) as HTX by (by intros key c r cq [? _]).
  assert (p_eqs p <> []) as Hne1. { destruct Hinv as (_ & _ & [Hl _] & _). destruct (p_eqs p); [by destruct (p_eqs p0)|done]. }
  assert (forall ret p1 D', ret <> 0 -> nd_mtu (p_dev p1) = nd_mtu (p_dev p) -> leaked (p_next p) D D' -> port_inv p0 tx_unused None D' ∅ p1 ->
     exists ret' p2, (p ← mqnic_stop_port cfg p1; Some (ret, p)) = Some (ret', p2) /\ nd_mtu (p_dev p2) = nd_mtu (p_dev p) /\ ret' <> 0 /\
       nd_port_up (p_dev p2) = false /\ p_rxq p2 = ∅ /\ p_txq p2 = ∅ /\ exists D', leaked (p_next p) D D' /\ port_inv p0 tx_unused None D' ∅ p2) as Hstop.
  { intros ret p1 D' Hret Hm HD Hi. destruct (inv_stop_port p0 tx_unused Htab HTX cfg D' ∅ p1 Hi) as (p2 & -> & Hi2 & F);
      [apply tx_unused_stable|intros key c r cq; apply tx_unused_queue|]. injection F as F1 F2 F3 F4 F5. cbn [mbind option_bind].
    exists ret, p2. split; [done|]. split; [congruence|]. split; [done|]. split; [done|]. split; [done|]. split; [done|]. by exists D'. }
  destruct (inv_start_rx p0 tx_unused Htab HTX cfg rx_envs (cf_rxq_count cfg) 0 D ∅ p Hrx Hc1 Hinv Hne1) as (ret & p1 & -> & Hnx & F & Hok & Hfail).
  cbn [mbind option_bind]. injection F as F1 F2 F3. destruct (Z.eqb_spec ret 0) as [->|Hret]; cbn [negb].
  2: { destruct (Hfail Hret) as (D' & HD & Hi). destruct (Hstop ret p1 D' Hret) as (ret' & p2 & E & Hm & Hr' & H); [by rewrite F2|done|done|].
       exists ret', p2. split; [exact E|]. split; [done|]. split; [done|]. intros _. exact H. }
  destruct (Hok eq_refl) as [Hinv1 Hk1].
  destruct (inv_start_tx p0 tx_unused Htab HTX cfg tx_envs (cf_txq_count cfg) 0 D ∅ p1 Htx Hc2 Hc3) as (ret & p2 & -> & Hnx2 & F & Hok2 & Hfail2).
  { intros i c r cq m n b H1 H2 H3 H4 H5. split; [done|]. split; [by exists n, b|by exists m]. }
  { done. }
  { destruct (p_eqs p1); [destruct (p_eqs p); done|done]. }
  cbn [mbind option_bind]. injection F as G1 G2 G3. destruct (Z.eqb_spec ret 0) as [->|Hret]; cbn [negb].
  2: { destruct (Hfail2 Hret) as (D' & HD & Hi). destruct (Hstop ret p2 D' Hret) as (ret' & p3 & E & Hm & Hr' & H); [by rewrite G2, F2|by eapply leaked_le|done|].
       exists ret', p3. split; [exact E|]. split; [done|]. split; [done|]. intros _. exact H. }
  destruct (Hok2 eq_refl) as [Hinv2 Hk2]. destruct (inv_start_finish p0 cfg D p2 Htab Hc4 Hinv2) as (p3 & -> & Hinv3 & Hup & Hm & Hk3 & Hk4). cbn [mbind option_bind].
  exists 0, p3. split; [done|]. split; [by rewrite Hm, G2, F2|]. split; [|done]. intros _. split; [done|]. split; [done|]. split.
  - intros key. rewrite Hk3, G1, Hk1, Er, lookup_empty. cbn. split; [|by right]. intros [[? ?]|?]; done.
  - intros key. rewrite Hk4, Hk2, F1, Et, lookup_empty. cbn. split; [|by right]. intros [[? ?]|?]; done.
Qed.
End Cycle.
