(* ===== verification/MqnicLife.v ===== *)
(** * The life of a network device

    The port in use: the NAPI poll functions of [modules/mqnic/mqnic_rx.c] and
    [mqnic_tx.c] called on the completion queues of the port,
    [mqnic_start_xmit] on its transmit rings, the device that writes
    completions, and the callbacks [mqnic_open], [mqnic_close] and
    [mqnic_change_mtu], in any order. *)

From S2P Require Import Prelude Mmio MqnicRes MqnicQueue MqnicRx MqnicTx MqnicTxSys MqnicSched MqnicLedger MqnicNetdev MqnicPort.

(** ** What can happen *)

(** [c] is the address of a completion queue. *)
Inductive net_event :=
| DevRx (c : nat) (cpls : list mqnic_cpl)                        (* the device writes completions *)
| NapiRx (c : nat) (env : rx_env) (pages : nat -> page_answer) (budget : nat)
| Xmit (env : tx_env) (xe : xmit_env) (skb : tx_skb)
| DevTx (c : nat) (len ts_ns ts_s : Z)                           (* the device completes the next packet *)
| NapiTx (c : nat) (env : tx_env) (budget : nat)
| Open (rx_envs tx_envs : nat -> queue_env)
| Close
| ChangeMtu (mtu : Z) (rx_envs tx_envs : nat -> queue_env).

(** [nl_done]: the completions the device has written on each transmit
    completion queue; [nl_running]: [netif_running]. *)
Record netlife (hw : Type) := mk_netlife {
  nl_port : port hw;
  nl_done : gmap nat nat;
  nl_running : bool;
}.
Arguments mk_netlife {hw}. Arguments nl_port {hw}. Arguments nl_done {hw}. Arguments nl_running {hw}.

Definition set_cpls (cpls : list mqnic_cpl) (cq : mqnic_cq) : mqnic_cq := mk_cq (cq_q cq) cpls (cq_eq cq) (cq_src_ring cq) (cq_hnd cq).

Section Life.
Context {hw : Type} `{!Mmio hw}.
Implicit Types p : port hw.

(** The ring a completion queue serves. *)
Definition rx_of (c : nat) p : option (mqnic_cq * Z * rx_ring) :=
  cq ← p_cqs p !! c;
  i ← cq_src_ring cq;
  match cq_hnd cq with
  | Some mqnic_rx_irq => r ← p_rxq p !! Z.of_nat i; Some (cq, Z.of_nat i, r)
  | _ => None
  end.
Definition tx_of (c : nat) p : option (mqnic_cq * Z * tx_ring) :=
  cq ← p_cqs p !! c;
  i ← cq_src_ring cq;
  match cq_hnd cq with
  | Some mqnic_tx_irq => r ← p_txq p !! Z.of_nat i; Some (cq, Z.of_nat i, r)
  | _ => None
  end.

(** [mqnic_poll_rx_cq] with the queue and the ring in the port. *)
Definition port_poll_rx (c : nat) (env : rx_env) (pages : nat -> page_answer) (budget : nat) p : option (port hw) :=
  '(cq, key, r) ← rx_of c p;
  '(_, _, cq, r, k, w) ← mqnic_poll_rx_cq env pages cq budget r (p_k p) (p_w p);
  Some (put_cq c cq (set_rxq (<[key := r]> (p_rxq p)) (set_mem w k (p_t p) p))).

Definition port_poll_tx (c : nat) (env : tx_env) (budget : nat) p : option (port hw) :=
  '(cq, key, r) ← tx_of c p;
  '(_, _, cq, r, t, w) ← mqnic_poll_tx_cq env cq budget r (p_t p) (p_w p);
  Some (put_cq c cq (set_txq (<[key := r]> (p_txq p)) (set_mem w (p_k p) t p))).

Definition port_xmit (env : tx_env) (xe : xmit_env) (skb : tx_skb) p : option (port hw) :=
  '(table, t, w) ← mqnic_start_xmit env xe skb (p_txq p) (p_t p) (p_w p);
  Some (set_txq table (set_mem w (p_k p) t p)).

(** A context that is not registered is not polled; the stack does not use a
    stopped queue; the device writes completions into queues it knows, on the
    transmit side for the packets in the order it got them, when the queue
    has room. The network core opens a device that is down and closes one
    that is up. *)
Definition net_exec (cfg : port_cfg) (a : net_event) (s : netlife hw) : option (netlife hw) :=
  let p := nl_port s in
  let running p := Some (mk_netlife p (nl_done s) (nl_running s)) in
  match a with
  | DevRx c cpls =>
      match rx_of c p with
      | Some (cq, _, _) =>
          if (length cpls =? length (cq_cpls cq))%nat && forallb (fun x => 0 <=? cpl_index x) cpls
          then running (put_cq c (set_cpls cpls cq) p) else Some s
      | None => Some s
      end
  | NapiRx c env pages budget =>
      match p_cqs p !! c with
      | Some cq => if cq_hnd cq is Some mqnic_rx_irq then p ← port_poll_rx c env pages budget p; running p else Some s
      | None => Some s
      end
  | Xmit env xe skb =>
      match p_txq p !! ts_queue skb with
      | Some r => if tx_stopped r then Some s else p ← port_xmit env xe skb p; running p
      | None => p ← port_xmit env xe skb p; running p
      end
  | DevTx c len ts_ns ts_s =>
      match tx_of c p with
      | Some (cq, _, r) =>
          let y := default 0%nat (nl_done s !! c) in
          let m := Z.log2 (q_size (cq_q cq)) in
          if negb (u32 (Z.of_nat y) =? q_prod_ptr (tx_q r)) && (u32 (u32 (Z.of_nat y) - q_cons_ptr (cq_q cq)) <? q_size (cq_q cq)) then
            let e := dev_cpl m y y len ts_ns ts_s in
            Some (mk_netlife (put_cq c (set_cpls (<[(y mod Z.to_nat (q_size (cq_q cq)))%nat := e]> (cq_cpls cq)) cq) p)
                    (<[c := S y]> (nl_done s)) (nl_running s))
          else Some s
      | None => Some s
      end
  | NapiTx c env budget =>
      match p_cqs p !! c with
      | Some cq => if cq_hnd cq is Some mqnic_tx_irq then p ← port_poll_tx c env budget p; running p else Some s
      | None => Some s
      end
  | Open rx_envs tx_envs =>
      if nl_running s then Some s
      else '(ret, p) ← mqnic_open cfg rx_envs tx_envs p; Some (mk_netlife p ∅ (ret =? 0))
  | Close =>
      if nl_running s then '(_, p) ← mqnic_close cfg p; Some (mk_netlife p ∅ false) else Some s
  | ChangeMtu mtu rx_envs tx_envs =>
      '(ret, p) ← mqnic_change_mtu cfg rx_envs tx_envs (nl_running s) mtu p;
      Some (mk_netlife p (if ret =? 0 then if nl_running s then ∅ else nl_done s else nl_done s) (nl_running s))
  end.

Fixpoint net_run (cfg : port_cfg) (l : list net_event) (s : netlife hw) : option (netlife hw) :=
  match l with
  | [] => Some s
  | a :: l' => s ← net_exec cfg a s; net_run cfg l' s
  end.
End Life.

(** ** The port in use *)

Section InUse.
Context {hw : Type} `{!Mmio hw}.
Implicit Types p : port hw.
Variable p0 : port hw.

(** A transmit ring in use, when the device completes packets in order: [x]
    completions are consumed, [y] written. *)
Definition tx_running (done : gmap nat nat) (key : Z) (c : nat) (r : tx_ring) (cq : mqnic_cq) : Prop :=
  is_Some (q_buf (tx_q r)) /\ 0 <= q_index (tx_q r) /\ tx_cq r = Some c /\
  exists n b m sent x cc ev, let y := default 0%nat (done !! c) in
    tx_geometry n b r /\ tx_slots n b sent (seq 0 x) cc r /\ tx_tight sent (seq 0 x) cc /\
    q_size (cq_q cq) = 2 ^ m /\ q_size_mask (cq_q cq) = 2 ^ m - 1 /\ q_cons_ptr (cq_q cq) = u32 (Z.of_nat x) /\
    ring_view cpl_phase m (cq_cpls cq) ev x y /\ (forall z, (x <= z < y)%nat -> cpl_index (ev z) = u16 (Z.of_nat z)) /\ (y <= length sent)%nat.

Lemma tx_running_live done key c r cq : tx_running done key c r cq -> tx_live c r.
Proof.
  intros (H1 & H2 & H3 & n & b & m & sent & x & cc & ev & Hg & Hs & Ht & _). split; [done|]. split; [done|]. split; [done|].
  exists n, b, sent, (seq 0 x), cc. split; [done|]. split; [done|]. intros d Hd. rewrite elem_of_seq. destruct Ht as [->|Ht]; [lia|]. rewrite elem_of_seq in Ht. lia.
Qed.

Lemma tx_unused_running key c r cq : tx_unused key c r cq -> tx_running ∅ key c r cq.
Proof.
  intros ((H1 & H2 & H3 & _) & (n & b & Hg & Hs) & m & (Hm & Hz & Hzm & Hc & Hl & Hf) & _). split; [done|]. split; [done|]. split; [done|].
  exists n, b, m, [], 0%nat, 0%nat, (fun _ => cpl_ones). rewrite lookup_empty. cbn [default]. split; [done|]. split; [done|]. split; [by left|].
  split; [done|]. split; [done|]. split; [done|]. split; [by apply ring_view_init|]. split; [intros z ?; lia|]. cbn. lia.
Qed.

(** What polling a completion queue leaves alone. *)
Definition cq_same (cq cq' : mqnic_cq) : Prop :=
  (q_index (cq_q cq'), q_buf (cq_q cq'), q_buf_size (cq_q cq'), q_buf_dma_addr (cq_q cq'), cq_eq cq', cq_src_ring cq', cq_hnd cq')
  = (q_index (cq_q cq), q_buf (cq_q cq), q_buf_size (cq_q cq), q_buf_dma_addr (cq_q cq), cq_eq cq, cq_src_ring cq, cq_hnd cq).

Lemma rx_of_inv TX D L p c cq :
  port_inv p0 TX None D L p -> p_cqs p !! c = Some cq -> cq_hnd cq = Some mqnic_rx_irq ->
  exists i r, rx_of c p = Some (cq, Z.of_nat i, r) /\ cq_src_ring cq = Some i /\ p_rxq p !! Z.of_nat i = Some r /\ rx_pair c r cq.
Proof.
  intros (_ & (HC & _) & _) Hc Hh. destruct (HC c cq Hc) as (_ & [_ (i & Hi & Hm)]); [done|]. rewrite Hh in Hm. destruct Hm as (r & Hr & Hp).
  exists i, r. unfold rx_of. rewrite Hc. cbn [mbind option_bind]. rewrite Hi. cbn [mbind option_bind]. rewrite Hh, Hr. done.
Qed.
Lemma tx_of_inv TX D L p c cq :
  port_inv p0 TX None D L p -> p_cqs p !! c = Some cq -> cq_hnd cq = Some mqnic_tx_irq ->
  exists i r, tx_of c p = Some (cq, Z.of_nat i, r) /\ cq_src_ring cq = Some i /\ p_txq p !! Z.of_nat i = Some r /\ TX (Z.of_nat i) c r cq.
Proof.
  intros (_ & (HC & _) & _) Hc Hh. destruct (HC c cq Hc) as (_ & [_ (i & Hi & Hm)]); [done|]. rewrite Hh in Hm. destruct Hm as (r & Hr & Hp).
  exists i, r. unfold tx_of. rewrite Hc. cbn [mbind option_bind]. rewrite Hi. cbn [mbind option_bind]. rewrite Hh, Hr. done.
Qed.

Lemma cq_same_live n cq cq' : cq_same cq cq' -> cq_live n cq -> cq_live n cq'.
Proof. unfold cq_same, cq_live. intros E. injection E as E1 E2 E3 E4 E5 E6 E7. by rewrite E1, E2, E5. Qed.
Lemma cq_same_ledger cq cq' : cq_same cq cq' -> cq_ledger cq' = cq_ledger cq.
Proof. unfold cq_same, cq_ledger, q_bufs. intros E. injection E as E1 E2 E3 E4 E5 E6 E7. by rewrite E1, E2, E3, E4. Qed.

(** The queue [c] changes, but not what it holds and serves. *)
Lemma cqs_put D L cqs rxq txq next eqs napi c cq cq' :
  cqs !! c = Some cq -> cq_same cq cq' ->
  eqs_ok p0 cqs eqs /\ napi_ok None D next cqs napi ->
  (eqs_ok p0 (<[c := cq']> cqs) eqs /\ napi_ok None D next (<[c := cq']> cqs) napi) /\
  L ⊎ port_ledger (<[c := cq']> cqs) rxq txq ≡ L ⊎ port_ledger cqs rxq txq.
Proof.
  intros Hc Hs [He [HN1 HN2]]. split; [split; [|split]|].
  - eapply eqs_ok_mono; [exact He|]. intros c1 cq1 H1 _. unfold cq_same in Hs. injection Hs as E1 E2 E3 E4 E5 E6 E7.
    destruct (decide (c = c1)) as [<-|Hne]; [|exists cq1; by rewrite lookup_insert_ne]. exists cq'. rewrite lookup_insert_eq. split_and!; congruence.
  - intros c1 H1. rewrite HN1 by done. destruct (decide (c = c1)) as [<-|Hne]; [by rewrite lookup_insert_eq, Hc|by rewrite lookup_insert_ne].
  - intros c1 H1. destruct (HN2 c1 H1) as [? Hn]. split; [done|]. rewrite lookup_insert_ne; [done|]. congruence.
  - unfold port_ledger. rewrite (lg_map_same cq_ledger _ c cq); [done|done|by apply cq_same_ledger].
Qed.

Lemma inv_pair_rx TX D L p c cq key r cq' r' w k :
  port_inv p0 TX None D L p -> p_cqs p !! c = Some cq -> cq_hnd cq = Some mqnic_rx_irq -> cq_src_ring cq = Some (Z.to_nat key) -> 0 <= key ->
  p_rxq p !! key = Some r -> cq_same cq cq' -> rx_cq r' = rx_cq r -> rx_pair c r' cq' ->
  (forall L', holds (port_store p0) (port_store p) (rx_ledger r ⊎ L') -> holds (port_store p0) (w, k, p_t p) (rx_ledger r' ⊎ L')) ->
  port_inv p0 TX None D L (put_cq c cq' (set_rxq (<[key := r']> (p_rxq p)) (set_mem w k (p_t p) p))).
Proof.
  intros (Hh & (HC & HR & HT) & HeN) Hc Hhnd Hsrc Hkey Hr Hs Hrc Hp Hchg.
  destruct (cqs_put D L _ (<[key := r']> (p_rxq p)) (p_txq p) _ _ _ c cq cq' Hc Hs HeN) as (HeN' & Hlg).
  assert (cq_src_ring cq' = cq_src_ring cq /\ cq_hnd cq' = cq_hnd cq) as [Es Eh] by (unfold cq_same in Hs; by injection Hs).
  split; [|split; [|exact HeN']].
  - unfold port_store. cbn [put_cq set_cqs p_cqs set_rxq p_rxq set_mem p_txq p_w p_k p_t]. rewrite Hlg. unfold port_ledger in *. rewrite lg_map_replace by done.
    rewrite (lg_map_delete rx_ledger _ key r Hr) in Hh.
    rewrite ledger_pull_rx in *. by apply Hchg.
  - cbn. split_and!.
    + intros c1 cq1 [[<- <-]|[Hne H1]]%lookup_insert_Some.
      * destruct (HC c cq Hc) as [? [Hlive _]]; [done|]. split; [done|]. intros _. split; [by eapply cq_same_live|].
        exists (Z.to_nat key). rewrite Es, Eh, Hhnd, Hsrc. split; [done|]. exists r'. rewrite Z2Nat.id by done. by rewrite lookup_insert_eq.
      * destruct (HC c1 cq1 H1) as [? Hl]. split; [done|]. intros HX. destruct (Hl HX) as [Hlive (i & Hi & Hm)]. split; [done|]. exists i. split; [done|].
        destruct (cq_hnd cq1) as [[]|] eqn:Eh1; [|done|done]. destruct Hm as (r1 & Hr1 & Hp1). exists r1. split; [|done].
        rewrite lookup_insert_ne; [done|]. intros ->. rewrite Hr in Hr1. injection Hr1 as <-. destruct Hp1 as ((_ & _ & Hc1 & _) & _).
        destruct Hp as ((_ & _ & Hc2 & _) & _). congruence.
    + intros key1 r1 [[<- <-]|[Hne Hr1]]%lookup_insert_Some.
      * exists c, cq'. rewrite lookup_insert_eq, Es, Eh. destruct Hp as ((_ & _ & Hc2 & _) & _). by split_and!.
      * destruct (HR key1 r1 Hr1) as (c1 & cq1 & K1 & K2 & K3 & K4 & K5 & K6). exists c1, cq1. rewrite lookup_insert_ne; [done|].
        intros <-. rewrite Hc in K2. injection K2 as <-. rewrite Hsrc in K4. injection K4 as K4. lia.
    + intros key1 r1 Hr1. destruct (HT key1 r1 Hr1) as (c1 & cq1 & K1 & K2 & K3 & K4 & K5 & K6). exists c1, cq1. rewrite lookup_insert_ne; [done|].
      intros <-. congruence.
Qed.

Lemma inv_pair_tx (TX TX' : Z -> nat -> tx_ring -> mqnic_cq -> Prop) D L p c cq key r cq' r' w t :
  (forall key c r cq, TX key c r cq -> tx_live c r) ->
  port_inv p0 TX None D L p -> p_cqs p !! c = Some cq -> cq_hnd cq = Some mqnic_tx_irq -> cq_src_ring cq = Some (Z.to_nat key) -> 0 <= key ->
  p_txq p !! key = Some r -> cq_same cq cq' -> tx_cq r = Some c -> tx_cq r' = Some c -> TX' key c r' cq' ->
  (forall key1 c1 r1 cq1, c1 <> c -> TX key1 c1 r1 cq1 -> TX' key1 c1 r1 cq1) ->
  (forall L', holds (port_store p0) (port_store p) (tx_ledger r ⊎ L') -> holds (port_store p0) (w, p_k p, t) (tx_ledger r' ⊎ L')) ->
  port_inv p0 TX' None D L (put_cq c cq' (set_txq (<[key := r']> (p_txq p)) (set_mem w (p_k p) t p))).
Proof.
  intros HTX (Hh & (HC & HR & HT) & HeN) Hc Hhnd Hsrc Hkey Hr Hs Hrc Hrc' Hp Hmono Hchg.
  destruct (cqs_put D L _ (p_rxq p) (<[key := r']> (p_txq p)) _ _ _ c cq cq' Hc Hs HeN) as (HeN' & Hlg).
  assert (cq_src_ring cq' = cq_src_ring cq /\ cq_hnd cq' = cq_hnd cq) as [Es Eh] by (unfold cq_same in Hs; by injection Hs).
  split; [|split; [|exact HeN']].
  - unfold port_store. cbn [put_cq set_cqs p_cqs set_txq p_rxq set_mem p_txq p_w p_k p_t]. rewrite Hlg. unfold port_ledger in *. rewrite lg_map_replace by done.
    rewrite (lg_map_delete tx_ledger _ key r Hr) in Hh. rewrite ledger_pull_tx in *. by apply Hchg.
  - cbn. split_and!.
    + intros c1 cq1 [[<- <-]|[Hne H1]]%lookup_insert_Some.
      * destruct (HC c cq Hc) as [? [Hlive _]]; [done|]. split; [done|]. intros _. split; [by eapply cq_same_live|].
        exists (Z.to_nat key). rewrite Es, Eh, Hhnd, Hsrc. split; [done|]. exists r'. rewrite Z2Nat.id by done. by rewrite lookup_insert_eq.
      * destruct (HC c1 cq1 H1) as [? Hl]. split; [done|]. intros HX. destruct (Hl HX) as [Hlive (i & Hi & Hm)]. split; [done|]. exists i. split; [done|].
        destruct (cq_hnd cq1) as [[]|] eqn:Eh1; [done| |done]. destruct Hm as (r1 & Hr1 & Hp1). exists r1.
        split; [|apply Hmono; [congruence|done]]. rewrite lookup_insert_ne; [done|]. intros ->. rewrite Hr in Hr1. injection Hr1 as <-.
        destruct (HTX _ _ _ _ Hp1) as (_ & _ & Hc1 & _). congruence.
    + intros key1 r1 Hr1. destruct (HR key1 r1 Hr1) as (c1 & cq1 & K1 & K2 & K3 & K4 & K5 & K6). exists c1, cq1. rewrite lookup_insert_ne; [done|].
      intros <-. congruence.
    + intros key1 r1 [[<- <-]|[Hne Hr1]]%lookup_insert_Some.
      * exists c, cq'. rewrite lookup_insert_eq, Es, Eh. by split_and!.
      * destruct (HT key1 r1 Hr1) as (c1 & cq1 & K1 & K2 & K3 & K4 & K5 & K6). exists c1, cq1. rewrite lookup_insert_ne; [done|].
        intros <-. rewrite Hc in K2. injection K2 as <-. rewrite Hsrc in K4. injection K4 as K4. lia.
Qed.

(** ** The receive side *)

Lemma process_rx_same env pages cq budget r k (w : qworld hw) d cq' r' k' w' :
  mqnic_process_rx_cq env pages cq budget r k w = Some (d, cq', r', k', w') -> cq_same cq cq'.
Proof.
  unfold mqnic_process_rx_cq. destruct (_ || _); [intros E; by injection E as <- <- <- <- <-|].
  destruct (rx_cq_loop _ _ _ _ _ _ _ _) as [[[[[d1 x1] r1] k1] w1]|]; [|done]. destruct (rx_ring_loop _ _ _); [|done].
  destruct (mqnic_refill_rx_buffers _ _ _ _) as [[[[ret r2] k2] w2]|]; [|done]. intros E. by injection E as <- <- <- <- <-.
Qed.

Lemma inv_poll_rx TX D L p c cq env pages budget :
  port_inv p0 TX None D L p -> p_cqs p !! c = Some cq -> cq_hnd cq = Some mqnic_rx_irq ->
  exists p', port_poll_rx c env pages budget p = Some p' /\ port_inv p0 TX None D L p' /\ p_dev p' = p_dev p /\ p_txq p' = p_txq p.
Proof.
  intros Hinv Hc Hh. destruct (rx_of_inv _ _ _ _ _ _ Hinv Hc Hh) as (i & r & Eof & Hsrc & Hr & Hp). unfold port_poll_rx. rewrite Eof. cbn [mbind option_bind].
  destruct Hp as [(Hb & Hi & Hrc & n & a & b & Hsh) (m & x & Hg & Hx)].
  assert (exists L0, holds (port_store p0) (port_store p) (rx_ledger r ⊎ L0)) as [L0 Hh0].
  { destruct Hinv as (Hh0 & _). unfold port_ledger in Hh0. rewrite (lg_map_delete rx_ledger _ _ r Hr), ledger_pull_rx in Hh0. by eexists. }
  destruct (mqnic_process_rx_cq_ok n m _ _ env pages cq x budget a b r (p_k p) (p_w p) Hg Hx (holds_rx_inv _ _ _ _ _ _ _ _ _ Hh0 Hsh))
    as (d & cq' & r' & k' & w' & a' & b' & skbs & E & _ & Hg' & Hx' & _ & Hinv' & Hf & _).
  pose proof (process_rx_same _ _ _ _ _ _ _ _ _ _ _ _ E) as Hsame. pose proof (process_fixed _ _ _ _ _ _ _ _ _ _ _ _ E) as Hw.
  assert (exists over w2, mqnic_poll_rx_cq env pages cq budget r (p_k p) (p_w p) = Some (d, over, cq', r', k', w2) /\ w_fixed w2 = w_fixed (p_w p)) as (over & w2 & -> & Hw2).
  { unfold mqnic_poll_rx_cq. rewrite E. destruct (d =? budget)%nat; do 2 eexists; (split; [reflexivity|]); [done|]. unfold mqnic_arm_cq. destruct (negb _); [done|].
    by rewrite write_ctrl_fixed. }
  cbn [mbind option_bind]. eexists. split; [reflexivity|]. split; [|done].
  assert (rx_fixed r' = rx_fixed r) as Hf0 by done. unfold rx_fixed in Hf. injection Hf as F1 F2 F3 F4 F5 F6 F7 F8.
  eapply inv_pair_rx; try done; [by rewrite Nat2Z.id|lia| |].
  - split; [|by eauto]. split; [by rewrite F1|]. split; [by rewrite F4|]. split; [by rewrite F7|].
    exists n, a', b'. by apply rx_inv_shape in Hinv' as [? _].
  - intros L' HL'. destruct (mqnic_process_rx_cq_ok n m _ _ env pages cq x budget a b r (p_k p) (p_w p) Hg Hx (holds_rx_inv _ _ _ _ _ _ _ _ _ HL' Hsh))
      as (d1 & cq1 & r1 & k1 & w1 & a1 & b1 & skbs1 & E1 & _ & _ & _ & _ & Hinv1 & _). rewrite E in E1. injection E1 as <- <- <- <- <-.
    by eapply holds_rx_change.
Qed.

Lemma inv_dev_rx TX D L p c cq key r cpls :
  port_inv p0 TX None D L p -> rx_of c p = Some (cq, key, r) -> length cpls = length (cq_cpls cq) -> Forall (fun x => 0 <= cpl_index x) cpls ->
  port_inv p0 TX None D L (put_cq c (set_cpls cpls cq) p).
Proof.
  intros Hinv Eof Hl Hf. unfold rx_of in Eof. destruct (p_cqs p !! c) as [cq1|] eqn:Hc; [|done]. cbn [mbind option_bind] in Eof.
  destruct (cq_src_ring cq1) as [i|] eqn:Hi; [|done]. cbn [mbind option_bind] in Eof. destruct (cq_hnd cq1) as [[]|] eqn:Hh; [|done|done].
  destruct (p_rxq p !! Z.of_nat i) as [r1|] eqn:Hr; [|done]. cbn in Eof. injection Eof as <- <- <-.
  destruct (rx_of_inv _ _ _ _ _ _ Hinv Hc Hh) as (i1 & r2 & _ & Hi1 & Hr1 & Hp). rewrite Hi in Hi1. injection Hi1 as <-. rewrite Hr in Hr1. injection Hr1 as <-.
  replace (put_cq c (set_cpls cpls cq1) p) with (put_cq c (set_cpls cpls cq1) (set_rxq (<[Z.of_nat i := r1]> (p_rxq p)) (set_mem (p_w p) (p_k p) (p_t p) p))).
  2: { rewrite (insert_id (p_rxq p) _ r1 Hr). by destruct p. }
  eapply (inv_pair_rx _ _ _ _ _ cq1); try done; [by rewrite Nat2Z.id|lia|].
  destruct Hp as [Hl1 (m & x & (H1 & H2 & H3 & H4 & H5) & Hx)]. split; [done|]. exists m, x. split; [|done]. do 3 (split; [done|]). split; [by rewrite <- H4|done].
Qed.

(** ** The transmit side *)

Lemma process_tx_same env cq budget r k (w : qworld hw) d cq' r' k' w' :
  mqnic_process_tx_cq env cq budget r k w = Some (d, cq', r', k', w') -> cq_same cq cq'.
Proof.
  unfold mqnic_process_tx_cq. destruct (_ || _); [intros E; by injection E as <- <- <- <- <-|].
  destruct (tx_cq_loop _ _ _ _ _ _ _ _) as [[[[[d1 x1] r1] k1] w1]|]; [|done]. cbn [mbind option_bind]. destruct (tx_ring_loop _ _ _); [|done]. cbn [mbind option_bind].
  intros E. by injection E as <- <- <- <- <-.
Qed.

Lemma pending_in_order n m sent cq ev x y :
  1 <= n <= 16 -> q_size (cq_q cq) = 2 ^ m -> q_size_mask (cq_q cq) = 2 ^ m - 1 -> ring_view cpl_phase m (cq_cpls cq) ev x y ->
  (forall z, (x <= z < y)%nat -> cpl_index (ev z) = u16 (Z.of_nat z)) -> (y <= length sent)%nat ->
  cpls_pending n m sent (seq 0 x) cq ev (fun z => z) x y.
Proof.
  intros Hn H1 H2 H3 H4 H5. split; [done|]. split; [done|]. split; [done|]. split; [|done]. intros z Hz. rewrite H4 by done.
  split; [by apply cpl_slot_index|]. split; [lia|]. rewrite elem_of_seq. lia.
Qed.

Lemma tx_ring_out TX D L p key r :
  port_inv p0 TX None D L p -> p_txq p !! key = Some r -> exists L0, holds (port_store p0) (port_store p) (tx_ledger r ⊎ L0).
Proof. intros (Hh0 & _) Hr. unfold port_ledger in Hh0. rewrite (lg_map_delete tx_ledger _ _ r Hr), ledger_pull_tx in Hh0. by eexists. Qed.

Lemma inv_poll_tx done D L p c cq env budget :
  port_inv p0 (tx_running done) None D L p -> p_cqs p !! c = Some cq -> cq_hnd cq = Some mqnic_tx_irq ->
  exists p', port_poll_tx c env budget p = Some p' /\ port_inv p0 (tx_running done) None D L p' /\ p_dev p' = p_dev p /\ p_rxq p' = p_rxq p.
Proof.
  intros Hinv Hc Hh. destruct (tx_of_inv _ _ _ _ _ _ Hinv Hc Hh) as (i & r & Eof & Hsrc & Hr & Hp). unfold port_poll_tx. rewrite Eof. cbn [mbind option_bind].
  destruct Hp as (Hb & Hi & Hrc & n & b & m & sent & x & cc & ev & Hg & Hs & Ht & Q1 & Q2 & Q3 & Hv & Hidx & Hle). set (y := default 0%nat (done !! c)) in *.
  destruct (tx_ring_out _ _ _ _ _ _ Hinv Hr) as [L0 Hh0].
  pose proof (pending_in_order n m sent cq ev x y ltac:(by destruct Hg) Q1 Q2 Hv Hidx Hle) as Hpend.
  destruct (tx_process_ok n m b _ _ _ sent (seq 0 x) cc env budget cq ev (fun z => z) x y r (p_t p) (p_w p) Hpend Q3 (holds_tx_inv _ _ _ _ _ _ _ _ _ _ _ Hh0 Hg Hs) Ht)
    as (l & c' & cq' & r' & k' & w' & E & El & Hlen & _ & (Hg' & Hs' & _) & Ht' & Hq & Hcp & _ & _ & Hf & Hw).
  rewrite list_fmap_id in El. assert (seq 0 x ++ l = seq 0 (x + length l)) as Eg by (rewrite El at 1; by rewrite seq_app). rewrite Eg in Hs', Ht'.
  pose proof (process_tx_same _ _ _ _ _ _ _ _ _ _ _ E) as Hsame.
  assert (exists over w2, mqnic_poll_tx_cq env cq budget r (p_t p) (p_w p) = Some (length l, over, cq', r', k', w2) /\ w_fixed w2 = w_fixed (p_w p)) as (over & w2 & -> & Hw2).
  { unfold mqnic_poll_tx_cq. rewrite E. cbn [mbind option_bind]. destruct (length l =? budget)%nat; do 2 eexists; (split; [reflexivity|]); [done|]. unfold mqnic_arm_cq.
    destruct (negb (q_enabled (cq_q cq'))); [done|]. by rewrite write_ctrl_fixed. }
  cbn [mbind option_bind]. eexists. split; [reflexivity|]. split; [|done].
  assert (tx_fixed r' = tx_fixed r) as Hf0 by done. unfold tx_fixed in Hf. injection Hf as F1 F2 F3 F4 F5 F6 F7 F8.
  assert (x + length l <= y)%nat as Hxy. { rewrite Hlen. pose proof (proj1 (proj2 (proj2 Hv))). destruct (_ || _); lia. }
  eapply (inv_pair_tx (tx_running done) (tx_running done)); try done; [apply tx_running_live|by rewrite Nat2Z.id|lia|by rewrite F8| |].
  - split; [by rewrite F1|]. split; [by rewrite F4|]. split; [by rewrite F8|]. exists n, b, m, sent, (x + length l)%nat, c', ev. fold y. rewrite Hq, Hcp.
    split; [done|]. split; [done|]. split; [done|]. split; [done|]. split; [done|]. split; [done|]. split; [|split; [intros z Hz; apply Hidx; lia|done]].
    clear -Hv Hxy. remember (length l) as d eqn:Hd. clear Hd. induction d as [|d IH]; [by rewrite Nat.add_0_r|]. rewrite Nat.add_succ_r. apply ring_view_consume; [apply IH|]; lia.
  - intros L' HL'.
    destruct (tx_process_ok n m b _ _ _ sent (seq 0 x) cc env budget cq ev (fun z => z) x y r (p_t p) (p_w p) Hpend Q3 (holds_tx_inv _ _ _ _ _ _ _ _ _ _ _ HL' Hg Hs) Ht)
      as (l1 & c1 & cq1 & r1 & k1 & w1 & E1 & _ & _ & _ & (_ & _ & Ho) & _). rewrite E in E1. injection E1 as _ <- <- <- <-. by eapply holds_tx_change.
Qed.

Lemma u32_diff (a b : nat) : (b <= a)%nat -> Z.of_nat a - Z.of_nat b < 2 ^ 32 -> u32 (u32 (Z.of_nat a) - u32 (Z.of_nat b)) = Z.of_nat a - Z.of_nat b.
Proof. intros H1 H2. unfold u32. rewrite <- Zminus_mod. apply Z.mod_small. lia. Qed.

Lemma inv_dev_tx done D L p c cq key r len ts_ns ts_s :
  port_inv p0 (tx_running done) None D L p -> tx_of c p = Some (cq, key, r) ->
  let y := default 0%nat (done !! c) in
  u32 (Z.of_nat y) <> q_prod_ptr (tx_q r) -> u32 (u32 (Z.of_nat y) - q_cons_ptr (cq_q cq)) < q_size (cq_q cq) ->
  port_inv p0 (tx_running (<[c := S y]> done)) None D L
    (put_cq c (set_cpls (<[(y mod Z.to_nat (q_size (cq_q cq)))%nat := dev_cpl (Z.log2 (q_size (cq_q cq))) y y len ts_ns ts_s]> (cq_cpls cq)) cq) p).
Proof.
  intros Hinv Eof y Hne Hroom. unfold tx_of in Eof. destruct (p_cqs p !! c) as [cq1|] eqn:Hc; [|done]. cbn [mbind option_bind] in Eof.
  destruct (cq_src_ring cq1) as [i|] eqn:Hi; [|done]. cbn [mbind option_bind] in Eof. destruct (cq_hnd cq1) as [[]|] eqn:Hh; [done| |done].
  destruct (p_txq p !! Z.of_nat i) as [r1|] eqn:Hr; [|done]. cbn in Eof. injection Eof as <- <- <-.
  destruct (tx_of_inv _ _ _ _ _ _ Hinv Hc Hh) as (i1 & r2 & _ & Hi1 & Hr1 & Hp). rewrite Hi in Hi1. injection Hi1 as <-. rewrite Hr in Hr1. injection Hr1 as <-.
  set (cq' := set_cpls _ _).
  replace (put_cq c cq' p) with (put_cq c cq' (set_txq (<[Z.of_nat i := r1]> (p_txq p)) (set_mem (p_w p) (p_k p) (p_t p) p))).
  2: { rewrite (insert_id (p_txq p) _ r1 Hr). by destruct p. }
  pose proof (tx_running_live _ _ _ _ _ Hp) as (_ & _ & Hrc & _).
  eapply (inv_pair_tx (tx_running done) _ _ _ _ _ cq1); try done; [apply tx_running_live|by rewrite Nat2Z.id|lia| |].
  - destruct Hp as (Hb & Hx & _ & n & b & m & sent & x & cc & ev & Hg & Hs & Ht & Q1 & Q2 & Q3 & Hv & Hidx & Hle). fold y in Hv, Hidx, Hle.
    pose proof Hs as (_ & Hprod & _). pose proof Hv as (Hm & _ & Hxy & Hyx & _).
    assert (2 ^ m <= 2 ^ 31) by (apply Z.pow_le_mono_r; lia). assert (0 < 2 ^ m) by (apply Z.pow_pos_nonneg; lia).
    rewrite Q3, Q1, u32_diff in Hroom by lia. assert (y <> length sent) by (intros E; apply Hne; by rewrite Hprod, E).
    split; [done|]. split; [done|]. split; [done|]. set (e := dev_cpl m y y len ts_ns ts_s). exists n, b, m, sent, x, cc, (fun z => if (z =? y)%nat then e else ev z).
    rewrite lookup_insert_eq. change (default 0%nat (Some (S y))) with (S y). split; [done|]. split; [done|]. split; [done|]. split; [done|]. split; [done|]. split; [done|]. split; [|split].
    + cbn [cq' set_cpls cq_cpls]. rewrite Q1, Z.log2_pow2 by lia. fold e.
      replace e with (if (y =? y)%nat then e else ev y) at 1 by (by rewrite Nat.eqb_refl).
      apply (ring_view_post cpl_phase m (cq_cpls cq1) (fun z => if (z =? y)%nat then e else ev z) x y).
      * eapply ring_view_ext; [|exact Hv]. intros z Hz. cbn beta. destruct (Nat.eqb_spec z y); [lia|done].
      * lia.
      * rewrite Nat.eqb_refl. unfold e, dev_cpl. cbn [cpl_phase]. by destruct (Z.testbit _ _).
    + intros z Hz. destruct (Nat.eqb_spec z y) as [->|]; [done|]. apply Hidx. lia.
    + lia.
  - intros key1 c1 r2 cq2 Hc1 (H1 & H2 & H3 & H). split; [done|]. split; [done|]. split; [done|]. by rewrite lookup_insert_ne by done.
Qed.

Lemma drop_ok skb t :
  let t1 := mk_tmem (ts_id skb :: t_skbs t) (t_maps t) (t_frags t) (t_tick t) (t_sent t) (t_dropped t) (t_stamps t) in
  exists t2, dev_kfree_skb_any (ts_id skb) t1 = Some t2 /\ t_skbs t2 = t_skbs t /\ t_maps t2 = t_maps t /\ t_frags t2 = t_frags t.
Proof. unfold dev_kfree_skb_any. cbn [t_skbs]. rewrite remove_one_head. by eexists. Qed.

Lemma inv_drop TX D L p w t :
  port_inv p0 TX None D L p -> w_fixed w = w_fixed (p_w p) -> t_skbs t = t_skbs (p_t p) -> t_maps t = t_maps (p_t p) -> t_frags t = t_frags (p_t p) ->
  port_inv p0 TX None D L (set_txq (p_txq p) (set_mem w (p_k p) t p)).
Proof.
  intros (Hh & Hl & He) Hw E1 E2 E3. split; [|by split]. apply (holds_fixed _ _ w) in Hh; [|done]. revert Hh. unfold holds, port_store. cbn. rewrite E1, E2, E3. done.
Qed.

Lemma inv_xmit done D L p env xe skb :
  port_inv p0 (tx_running done) None D L p -> (forall r, p_txq p !! ts_queue skb = Some r -> tx_stopped r = false) ->
  exists p', port_xmit env xe skb p = Some p' /\ port_inv p0 (tx_running done) None D L p' /\ p_dev p' = p_dev p /\ p_rxq p' = p_rxq p.
Proof.
  intros Hinv Hstop. unfold port_xmit, mqnic_start_xmit. set (t1 := mk_tmem _ _ _ _ _ _ _). destruct (drop_ok skb (p_t p)) as (t2 & Ed & D1 & D2 & D3). fold t1 in Ed.
  assert (exists p', ('(table, t, w) ← (k ← dev_kfree_skb_any (ts_id skb) t1; Some (p_txq p, k, p_w p)); Some (set_txq table (set_mem w (p_k p) t p))) = Some p' /\
            port_inv p0 (tx_running done) None D L p' /\ p_dev p' = p_dev p /\ p_rxq p' = p_rxq p) as Hdrop.
  { rewrite Ed. cbn [mbind option_bind]. eexists. split; [reflexivity|]. split; [by apply inv_drop|done]. }
  destruct (te_port_up env); cbn [negb]; [|exact Hdrop]. destruct (p_txq p !! ts_queue skb) as [r|] eqn:Hr; [|exact Hdrop]. clear Hdrop.
  pose proof Hinv as (_ & (HC & _ & HT) & _). destruct (HT _ _ Hr) as (c & cq & Hrc & Hc & _ & Hsrc & Hkey & Hh).
  destruct (tx_of_inv _ _ _ _ _ _ Hinv Hc Hh) as (i & r1 & _ & Hi & Hr1 & Hp). rewrite Hsrc in Hi. injection Hi as <-. rewrite Z2Nat.id in Hr1, Hp by done.
  rewrite Hr in Hr1. injection Hr1 as <-. destruct Hp as (Hb & Hx & _ & n & b & m & sent & x & cc & ev & Hg & Hs & Ht & Q1 & Q2 & Q3 & Hv & Hidx & Hle).
  assert (forall L', holds (port_store p0) (port_store p) (tx_ledger r ⊎ L') ->
            tx_inv n b (ts_id skb :: (lg_skbs L' ++ t_skbs (p_t p0))) (lg_tmaps L' ++ t_maps (p_t p0)) (lg_frags L' ++ t_frags (p_t p0)) sent (seq 0 x) cc r t1) as Hi1.
  { intros L' HL'. destruct (holds_tx_inv _ _ _ _ _ _ _ _ _ _ _ HL' Hg Hs) as (_ & _ & O1 & O2 & O3). split; [done|]. split; [done|]. split; [|done].
    cbn [t1 t_skbs]. rewrite O1. cbn. solve_Permutation. }
  destruct (tx_ring_out _ _ _ _ _ _ Hinv Hr) as [L0 Hh0].
  destruct (xmit_ring_ok env xe n b _ _ _ sent (seq 0 x) cc r t1 (p_w p) skb (Hi1 _ Hh0) (Hstop r eq_refl)) as (r' & t' & w' & E & Hf & Hw & Ho).
  rewrite E. cbn [mbind option_bind]. eexists. split; [reflexivity|]. split; [|done].
  replace (set_txq (<[ts_queue skb := r']> (p_txq p)) (set_mem w' (p_k p) t' p))
    with (put_cq c cq (set_txq (<[ts_queue skb := r']> (p_txq p)) (set_mem w' (p_k p) t' p))).
  2: { unfold put_cq. cbn. rewrite (insert_id (p_cqs p) c cq Hc). by destruct p. }
  assert (tx_fixed r' = tx_fixed r) as Hf0 by done. unfold tx_fixed in Hf. injection Hf as F1 F2 F3 F4 F5 F6 F7 F8.
  eapply (inv_pair_tx (tx_running done) _ _ _ _ _ cq); try done; [apply tx_running_live|by rewrite F8| |].
  - split; [by rewrite F1|]. split; [by rewrite F4|]. split; [by rewrite F8|].
    destruct Ho as (_ & _ & [(_ & _ & (Hg' & Hs' & _))|(_ & _ & (Hg' & Hs' & _))]).
    + exists n, b, m, (sent ++ [skb]), x, cc, ev. split; [done|]. split; [done|]. split.
      { right. destruct Ht as [->|?]; [|done]. destruct Hs as (_ & _ & _ & _ & Hgone & _). intros Hin. rewrite Forall_forall in Hgone. apply Hgone in Hin. lia. }
      do 5 (split; [done|]). rewrite length_app. lia.
    + exists n, b, m, sent, x, cc, ev. by split_and!.
  - intros L' HL'. destruct (xmit_ring_ok env xe n b _ _ _ sent (seq 0 x) cc r t1 (p_w p) skb (Hi1 _ HL') (Hstop r eq_refl)) as (r1 & t2' & w1 & E1 & _ & _ & Ho1).
    rewrite E in E1. injection E1 as <- <- <-.
    eapply holds_tx_change; [exact HL'| |done|done|reflexivity|reflexivity|reflexivity]. by destruct Ho1 as (_ & _ & [(_ & _ & (_ & _ & ?))|(_ & _ & (_ & _ & ?))]).
Qed.

(** ** The whole life *)

(** In between the events. [D]: contexts left behind. *)
Definition life_inv (s : netlife hw) : Prop :=
  exists D, port_inv p0 (tx_running (nl_done s)) None D ∅ (nl_port s) /\
    (nl_running s = false -> p_rxq (nl_port s) = ∅ /\ p_txq (nl_port s) = ∅).

Lemma inv_any_tx TX TX' X D L p : port_inv p0 TX X D L p -> p_txq p = ∅ -> port_inv p0 TX' X D L p.
Proof.
  intros (Hh & (HC & HR & HT) & He & HN) Ht. split; [done|]. split; [|done]. split; [|done]. intros c cq Hc.
  destruct (HC c cq Hc) as [? Hl]. split; [done|]. intros HX. destruct (Hl HX) as [Hlive (i & Hi & Hm)]. split; [done|]. exists i. split; [done|].
  destruct (cq_hnd cq) as [[]|]; [done| |done]. destruct Hm as (r & Hr & _). by rewrite Ht, lookup_empty in Hr.
Qed.

(** The buffers of completion queues are granted: [mqnic_open_cq] closes the
    event queue when they are not. *)
Definition event_ok (a : net_event) : Prop :=
  match a with
  | Open rx_envs tx_envs | ChangeMtu _ rx_envs tx_envs => cq_bufs_granted rx_envs /\ cq_bufs_granted tx_envs
  | _ => True
  end.

Context (Htab : tables_ok p0) (Heqs : p_eqs p0 <> []) (cfg : port_cfg) (Hcfg : cfg_ok cfg).

Lemma life_stop s :
  life_inv s -> exists D p', mqnic_stop_port cfg (nl_port s) = Some p' /\ (forall TX, port_inv p0 TX None D ∅ p') /\ p_rxq p' = ∅ /\ p_txq p' = ∅.
Proof.
  intros (D & Hinv & _). assert (port_inv p0 tx_open None D ∅ (nl_port s)) as Hi by (eapply port_inv_mono; [|exact Hinv]; intros ? ? ? ?; apply tx_running_live).
  destruct (inv_stop_port p0 tx_open Htab ltac:(done) cfg D ∅ _ Hi tx_open_stable tx_open_stop) as (p' & E & Hi' & F). injection F as F1 F2 F3 F4 F5.
  exists D, p'. split; [done|]. split; [|done]. intros TX. by eapply inv_any_tx.
Qed.

Lemma life_start D p rx_envs tx_envs :
  cq_bufs_granted rx_envs -> cq_bufs_granted tx_envs -> (forall TX, port_inv p0 TX None D ∅ p) -> p_rxq p = ∅ -> p_txq p = ∅ ->
  exists ret p', mqnic_start_port cfg rx_envs tx_envs p = Some (ret, p') /\
    forall r, (r = false -> ret <> 0) -> life_inv (mk_netlife p' ∅ r).
Proof.
  intros Hrx Htx Hinv Er Et. destruct (start_port_ok p0 cfg rx_envs tx_envs D p Htab Heqs Hcfg Hrx Htx (Hinv _) Er Et) as (ret & p' & E & _ & Hok & Hfail).
  exists ret, p'. split; [exact E|]. intros r Hr. destruct (decide (ret = 0)) as [->|Hne].
  - destruct (Hok eq_refl) as (Hi & _). exists D. split; [|intros Hr0; by destruct (Hr Hr0)]. eapply port_inv_mono; [|exact Hi]. apply tx_unused_running.
  - destruct (Hfail Hne) as (_ & E1 & E2 & D' & _ & Hi). exists D'. split; [by eapply inv_any_tx|done].
Qed.

Lemma life_step a s : event_ok a -> life_inv s -> exists s', net_exec cfg a s = Some s' /\ life_inv s'.
Proof.
  intros Ha Hs. pose proof Hs as (D & Hinv & Hdown). destruct s as [p done running]. cbn [nl_port nl_done nl_running] in *.
  assert (forall p' done', port_inv p0 (tx_running done') None D ∅ p' -> (p_rxq p = ∅ -> p_rxq p' = ∅) -> (p_txq p = ∅ -> p_txq p' = ∅) ->
            life_inv (mk_netlife p' done' running)) as Hrun.
  { intros p' done' Hi H1 H2. exists D. split; [done|]. intros Hr. destruct (Hdown Hr). split; auto. }
  destruct a as [c cpls|c env pages budget|env xe skb|c len ts_ns ts_s|c env budget|rx_envs tx_envs| |mtu rx_envs tx_envs]; cbn [net_exec nl_port nl_done nl_running].
  - destruct (rx_of c p) as [[[cq key] r]|] eqn:Eof; [|by eexists]. destruct (_ && _) eqn:Eg; [|by eexists]. apply andb_true_iff in Eg as [G1 G2].
    apply Nat.eqb_eq in G1. apply Is_true_true, forallb_True in G2. eexists. split; [reflexivity|]. apply Hrun; [|done..]. eapply inv_dev_rx; try done.
    eapply Forall_impl; [exact G2|]. intros x Hx. by apply Z.leb_le, Is_true_true.
  - destruct (p_cqs p !! c) as [cq|] eqn:Hc; [|by eexists]. destruct (cq_hnd cq) as [[]|] eqn:Hh; [|by eexists..].
    destruct (inv_poll_rx _ _ _ _ _ _ env pages budget Hinv Hc Hh) as (p' & E & Hi & _ & Et). rewrite E. cbn [mbind option_bind]. eexists. split; [reflexivity|].
    apply Hrun; [done| |congruence]. intros Hr. destruct (rx_of_inv _ _ _ _ _ _ Hinv Hc Hh) as (i & r & _ & _ & Hr1 & _). by rewrite Hr, lookup_empty in Hr1.
  - destruct (p_txq p !! ts_queue skb) as [r|] eqn:Hr; [destruct (tx_stopped r) eqn:Hst; [by eexists|]|].
    + destruct (inv_xmit _ _ _ _ env xe skb Hinv) as (p' & E & Hi & _ & Er); [intros r' Hr'; congruence|]. rewrite E. cbn [mbind option_bind]. eexists.
      split; [reflexivity|]. apply Hrun; [done|congruence|]. intros Ht. by rewrite Ht, lookup_empty in Hr.
    + destruct (inv_xmit _ _ _ _ env xe skb Hinv) as (p' & E & Hi & _ & Er); [intros r' Hr'; congruence|]. rewrite E. cbn [mbind option_bind]. eexists.
      split; [reflexivity|]. apply Hrun; [done|congruence|]. intros Ht. unfold port_xmit, mqnic_start_xmit in E. rewrite Hr in E.
      destruct (drop_ok skb (p_t p)) as (t2 & Ed & _). rewrite Ed in E. cbn [mbind option_bind] in E. destruct (negb _); by injection E as <-.
  - destruct (tx_of c p) as [[[cq key] r]|] eqn:Eof; [|by eexists]. destruct (_ && _) eqn:Eg; [|by eexists]. apply andb_true_iff in Eg as [G1 G2].
    apply negb_true_iff, Z.eqb_neq in G1. apply Z.ltb_lt in G2. eexists. split; [reflexivity|]. apply Hrun; [|done..]. by eapply inv_dev_tx.
  - destruct (p_cqs p !! c) as [cq|] eqn:Hc; [|by eexists]. destruct (cq_hnd cq) as [[]|] eqn:Hh; [by eexists| |by eexists].
    destruct (inv_poll_tx _ _ _ _ _ _ env budget Hinv Hc Hh) as (p' & E & Hi & _ & Er). rewrite E. cbn [mbind option_bind]. eexists. split; [reflexivity|].
    apply Hrun; [done|congruence|]. intros Ht. destruct (tx_of_inv _ _ _ _ _ _ Hinv Hc Hh) as (i & r & _ & _ & Hr1 & _). by rewrite Ht, lookup_empty in Hr1.
  - destruct running; [by eexists|]. destruct (Hdown eq_refl) as [Er Et]. destruct Ha as [Hrx Htx].
    destruct (life_start D p rx_envs tx_envs Hrx Htx) as (ret & p' & E & Hl); [intros TX; by eapply inv_any_tx|done|done|].
    unfold mqnic_open. rewrite E. cbn [mbind option_bind]. eexists. split; [reflexivity|]. apply Hl. intros Hr. by apply Z.eqb_neq in Hr.
  - destruct running; [|by eexists]. destruct (life_stop _ Hs) as (D' & p' & E & Hi & E1 & E2). cbn [nl_port] in E. unfold mqnic_close. rewrite E. cbn [mbind option_bind].
    eexists. split; [reflexivity|]. by exists D'.
  - unfold mqnic_change_mtu. destruct (_ || _); [by eexists|]. destruct Ha as [Hrx Htx]. set (p1 := set_dev _ p).
    destruct running; cbn [mbind option_bind].
    2: { eexists. split; [reflexivity|]. by apply (Hrun p1). }
    assert (life_inv (mk_netlife p1 done true)) as Hs1 by (by apply (Hrun p1)).
    destruct (life_stop _ Hs1) as (D' & p2 & E & Hi & E1 & E2). cbn [nl_port] in E. rewrite E. cbn [mbind option_bind].
    destruct (life_start D' p2 rx_envs tx_envs Hrx Htx Hi E1 E2) as (ret & p' & E' & Hl). rewrite E'. cbn [mbind option_bind].
    eexists. split; [reflexivity|]. by apply Hl.
Qed.

Lemma life_run l s : Forall event_ok l -> life_inv s -> exists s', net_run cfg l s = Some s' /\ life_inv s'.
Proof.
  intros Hl. revert s. induction Hl as [|a l Ha _ IH]; intros s Hs; cbn [net_run]; [by exists s|].
  destruct (life_step a s Ha Hs) as (s1 & -> & H1). cbn [mbind option_bind]. by apply IH.
Qed.
End InUse.

(** The life of a network device. From a port that is down, whatever is
    opened, closed, sent, received, completed and polled in whatever order,
    with changes of the MTU in between and any failing allocation but those
    of completion queue buffers: every function of the driver goes through
    (no freed completion queue or NULL pointer is followed, nothing is freed
    twice, nothing waits for ever), an entry in the table of an event queue
    leads to a live completion queue with that number, and whenever the
    device is down all queue numbers, buffers, pages, packets, mappings and
    table entries are back as they were. *)
Theorem mqnic_netdev_life {hw} `{!Mmio hw} (p0 : port hw) cfg l :
  port_down p0 -> cfg_ok cfg -> Forall event_ok l ->
  exists s, net_run cfg l (mk_netlife p0 ∅ false) = Some s /\
    (nl_running s = false -> gave_back p0 (nl_port s)) /\
    (forall e eq n c, p_eqs (nl_port s) !! e = Some eq -> eq_table eq !! n = Some c ->
       (exists eq0, p_eqs p0 !! e = Some eq0 /\ eq_table eq0 !! n = Some c) \/
       exists cq, p_cqs (nl_port s) !! c = Some cq /\ q_index (cq_q cq) = n /\ cq_eq cq = Some e).
Proof.
  intros Hdown Hcfg Hl. pose proof Hdown as (_ & _ & Er & Et & Hne & Htab & _).
  assert (life_inv p0 (mk_netlife p0 ∅ false)) as H0 by (exists (p_napi p0); split; [by apply port_down_inv|done]).
  destruct (life_run p0 Htab Hne cfg Hcfg l _ Hl H0) as (s & E & D & Hinv & Hd). exists s. split; [exact E|]. split.
  - intros Hr. destruct (Hd Hr) as [E1 E2]. by destruct (inv_gave_back _ _ _ _ Hinv E1 E2).
  - intros e eq n c He Ht. destruct Hinv as (_ & _ & [_ Hok] & _). destruct (Hok e eq He) as (eq0 & G1 & _ & G3).
    destruct (G3 n) as [Hn|(_ & c' & cq & K1 & K2 & K3 & K4)]; [left; exists eq0; split; congruence|right]. exists cq. split; [congruence|done].
Qed.


(** ** Examples *)

(** One event queue, which serves completion queue 9 of someone else. *)
Definition ndev0 : ndev := mk_ndev 1500 false (mk_stats 0 0 0 0 0 0) false false false (mk_hwts 0 0 0).
Definition port4 : port memory :=
  mk_netport world4 (mk_kmem [] [] 0 [] []) tmem0 [eq4] ∅ 10 ∅ ∅ ∅ ndev0.
Definition cfg4 : port_cfg :=
  mk_cfg 1 1 8 4 8 0x5000 0x5100 0x5200 [0; 0] [mk_sched_block 0 None 0 (replicate MQNIC_MAX_PORTS None)] [] 0 68 9000.
Definition qenv (b : Z) : queue_env :=
  mk_qenv true (Some (b, b)) true true true (Some (b + 1, b + 1)) (fun t => Mapped (100 + Z.of_nat t) (0x10000 + 0x1000 * Z.of_nat t)) true.

Lemma port4_down : port_down port4.
Proof.
  split; [split_and!; by eexists|]. do 3 (split; [done|]). split; [done|]. split; [|intros c Hc; cbn in Hc; rewrite lookup_empty in Hc; by destruct Hc].
  intros e eq n c He Hn. destruct e as [|e]; [|done]. injection He as <-. cbn in Hn. apply lookup_singleton_Some in Hn as [<- _]. split; [lia|].
  eexists. split; [reflexivity|done].
Qed.
Lemma cfg4_ok : cfg_ok cfg4.
Proof. split; [cbn; lia|]. split; [cbn; lia|]. split; [cbn; lia|done]. Qed.

(** A packet is received, one sent and completed; then the MTU changes, which
    restarts the port, and the device is closed. *)
Definition events4 : list net_event :=
  [Open (fun _ => qenv 0x100) (fun _ => qenv 0x200); DevRx 10 (cpl0 :: replicate 7 cpl_ones);
   NapiRx 10 rx_env0 (fun t => Mapped (100 + Z.of_nat t) (0x10000 + 0x1000 * Z.of_nat t)) 64;
   Xmit tx_env0 xmit_env0 skb_b; DevTx 11 60 0 0; NapiTx 11 tx_env0 64; Xmit tx_env0 xmit_env0 skb_b;
   ChangeMtu 9000 (fun _ => qenv 0x300) (fun _ => qenv 0x400); Close].

Definition observed (s : netlife memory) := (nl_running s, p_next (nl_port s), length (k_skbs (p_k (nl_port s))), t_sent (p_t (nl_port s)), nd_mtu (p_dev (nl_port s))).
Lemma life4 : observed <$> net_run cfg4 events4 (mk_netlife port4 ∅ false) = Some (false, 14%nat, 1%nat, [200; 200], 9000).
Proof. vm_compute. reflexivity. Qed.

Lemma mqnic_netdev_life_witness :
  exists s, net_run cfg4 events4 (mk_netlife port4 ∅ false) = Some s /\ length (k_skbs (p_k (nl_port s))) = 1%nat /\ gave_back port4 (nl_port s).
Proof.
  destruct (mqnic_netdev_life port4 cfg4 events4 port4_down cfg4_ok) as (s & E & Hg & _).
  - repeat (constructor; [first [exact I|split; intros i; by eexists]|]). constructor.
  - pose proof life4 as Hv. rewrite E in Hv. cbn [fmap option_fmap option_map] in Hv. unfold observed in Hv. injection Hv as H1 _ H3 _ _.
    exists s. split; [exact E|]. split; [exact H3|exact (Hg H1)].
Defined.

Lemma start4 : (fun x => x.1) <$> mqnic_start_port cfg4 (fun _ => qenv 0x100) (fun _ => qenv 0x200) port4 = Some 0.
Proof. vm_compute. reflexivity. Qed.


(** The error paths of [mqnic_start_port] free a completion queue without
    removing its NAPI context: here the ring cannot be allocated, and context
    10 stays in the device's list, enabled, while queue 10 is gone. *)
Theorem start_port_leaves_context :
  (fun x => (x.1, p_napi x.2 !! 10%nat, p_cqs x.2 !! 10%nat)) <$>
    mqnic_start_port cfg4 (fun _ => mk_qenv true (Some (1, 1)) true false true None (fun _ => NoPage) true) (fun _ => qenv 0x200) port4
  = Some (- ENOMEM, Some true, None).
Proof. vm_compute. reflexivity. Qed.

(** [mqnic_change_mtu] reports success although the port could not be started
    again. *)
Theorem change_mtu_hides_failure :
  (fun x => (x.1, nd_port_up (p_dev x.2), sorted_keys (p_rxq x.2))) <$>
    (x ← mqnic_start_port cfg4 (fun _ => qenv 0x100) (fun _ => qenv 0x200) port4;
     mqnic_change_mtu cfg4 (fun _ => mk_qenv false None true true true None (fun _ => NoPage) true) (fun _ => qenv 0x200) true 9000 x.2)
  = Some (0, false, []).
Proof. vm_compute. reflexivity. Qed.
