(* ===== verification/MqnicEthtool.v ===== *)
(** * The ethtool operations of the network device

    Model of [modules/mqnic/mqnic_ethtool.c]: ring sizes, channel counts and
    the receive indirection table, which stop and start the port, and the
    EEPROM of the transceiver module, which is read through a window. *)

From S2P Require Import Prelude Mmio MqnicRes MqnicQueue MqnicRx MqnicTx MqnicTxSys MqnicSched MqnicLedger MqnicNetdev MqnicPort MqnicLife.

(** ** Rings, channels and the indirection table *)

Record ethtool_ringparam := mk_ringparam {
  rp_rx_pending : Z;
  rp_rx_mini_pending : Z;
  rp_rx_jumbo_pending : Z;
  rp_tx_pending : Z;
}.
Record ethtool_channels := mk_channels {
  ch_rx_count : Z;
  ch_tx_count : Z;
  ch_other_count : Z;
  ch_combined_count : Z;
}.

Definition ETH_RSS_HASH_NO_CHANGE : Z := 0.
Definition ETH_RSS_HASH_TOP : Z := 1.

Definition set_ring_sizes (rx tx : Z) (cfg : port_cfg) : port_cfg :=
  mk_cfg (cf_rxq_count cfg) (cf_txq_count cfg) rx tx (cf_max_desc_block_size cfg) (cf_if_ctrl cfg) (cf_queue_map cfg) (cf_indir_regs cfg)
    (cf_indir cfg) (cf_sched_blocks cfg) (cf_ports cfg) (cf_link_status_poll cfg) (cf_min_mtu cfg) (cf_max_mtu cfg).
Definition set_counts (rx tx : nat) (indir : list Z) (cfg : port_cfg) : port_cfg :=
  mk_cfg rx tx (cf_rx_ring_size cfg) (cf_tx_ring_size cfg) (cf_max_desc_block_size cfg) (cf_if_ctrl cfg) (cf_queue_map cfg) (cf_indir_regs cfg)
    indir (cf_sched_blocks cfg) (cf_ports cfg) (cf_link_status_poll cfg) (cf_min_mtu cfg) (cf_max_mtu cfg).
Definition set_indir (indir : list Z) (cfg : port_cfg) : port_cfg := set_counts (cf_rxq_count cfg) (cf_txq_count cfg) indir cfg.

(** What the checks of a request come to. *)
Inductive verdict :=
| Refuse (ret : Z)
| NoChange
| Change (cfg : port_cfg).

Definition ringparam_verdict (param : ethtool_ringparam) (cfg : port_cfg) : verdict :=
  if negb (rp_rx_mini_pending param =? 0) || negb (rp_rx_jumbo_pending param =? 0) then Refuse (- EINVAL)
  else if rp_rx_pending param <? MQNIC_MIN_RX_RING_SZ then Refuse (- EINVAL)
  else if MQNIC_MAX_RX_RING_SZ <? rp_rx_pending param then Refuse (- EINVAL)
  else if rp_tx_pending param <? MQNIC_MIN_TX_RING_SZ then Refuse (- EINVAL)
  else if MQNIC_MAX_TX_RING_SZ <? rp_tx_pending param then Refuse (- EINVAL)
  else
    let rx_ring_size := roundup_pow_of_two (rp_rx_pending param) in
    let tx_ring_size := roundup_pow_of_two (rp_tx_pending param) in
    if (rx_ring_size =? cf_rx_ring_size cfg) && (tx_ring_size =? cf_tx_ring_size cfg) then NoChange
    else Change (set_ring_sizes rx_ring_size tx_ring_size cfg).

(** The counts compared with the limits are those in force, not the new ones.
    [None]: a division by zero. *)
Definition channels_verdict (max_rx max_tx : Z) (ch : ethtool_channels) (cfg : port_cfg) : option verdict :=
  if negb (ch_combined_count ch =? 0) || negb (ch_other_count ch =? 0) then Some (Refuse (- EINVAL))
  else if max_rx <? Z.of_nat (cf_rxq_count cfg) then Some (Refuse (- EINVAL))
  else if max_tx <? Z.of_nat (cf_txq_count cfg) then Some (Refuse (- EINVAL))
  else
    let rxq := ch_rx_count ch in
    let txq := ch_tx_count ch in
    if (rxq =? Z.of_nat (cf_rxq_count cfg)) && (txq =? Z.of_nat (cf_txq_count cfg)) then Some NoChange
    else if rxq =? Z.of_nat (cf_rxq_count cfg) then Some (Change (set_counts (Z.to_nat rxq) (Z.to_nat txq) (cf_indir cfg) cfg))
    else if (rxq =? 0) && negb (length (cf_indir cfg) =? 0)%nat then None
    else Some (Change (set_counts (Z.to_nat rxq) (Z.to_nat txq) (imap (fun k _ => Z.of_nat k mod rxq) (cf_indir cfg)) cfg)).

Section Ethtool.
Context {hw : Type} `{!Mmio hw}.
Implicit Types p : port hw.

(** The new configuration comes in force with the port stopped, if it was
    up; what is returned is the result of starting it again. *)
Definition apply_change (cfg cfg' : port_cfg) (rx_envs tx_envs : nat -> queue_env) p : option (Z * port hw) :=
  if nd_port_up (p_dev p) then p ← mqnic_stop_port cfg p; mqnic_start_port cfg' rx_envs tx_envs p
  else Some (0, p).

Definition apply_verdict (v : verdict) (cfg : port_cfg) (rx_envs tx_envs : nat -> queue_env) p : option (Z * port_cfg * port hw) :=
  match v with
  | Refuse ret => Some (ret, cfg, p)
  | NoChange => Some (0, cfg, p)
  | Change cfg' => '(ret, p) ← apply_change cfg cfg' rx_envs tx_envs p; Some (ret, cfg', p)
  end.

Definition mqnic_set_ringparam (param : ethtool_ringparam) (rx_envs tx_envs : nat -> queue_env) (cfg : port_cfg) p
    : option (Z * port_cfg * port hw) := apply_verdict (ringparam_verdict param cfg) cfg rx_envs tx_envs p.

Definition mqnic_set_channels (max_rx max_tx : Z) (ch : ethtool_channels) (rx_envs tx_envs : nat -> queue_env) (cfg : port_cfg) p
    : option (Z * port_cfg * port hw) :=
  v ← channels_verdict max_rx max_tx ch cfg; apply_verdict v cfg rx_envs tx_envs p.

Definition mqnic_get_rxfh (cfg : port_cfg) : list Z := cf_indir cfg.

(** [indir] is an array of the table's length, or NULL. *)
Definition mqnic_set_rxfh (indir : option (list Z)) (hfunc : Z) (cfg : port_cfg) p : Z * port_cfg * port hw :=
  if negb (hfunc =? ETH_RSS_HASH_NO_CHANGE) && negb (hfunc =? ETH_RSS_HASH_TOP) then (- EOPNOTSUPP, cfg, p)
  else match indir with
  | None => (0, cfg, p)
  | Some l =>
      if existsb (fun q => Z.of_nat (cf_rxq_count cfg) <=? q) l then (- EINVAL, cfg, p)
      else (0, set_indir l cfg, mqnic_update_indir_table (set_indir l cfg) p)
  end.

(** ** A device that is also reconfigured *)

Inductive eth_event :=
| Net (a : net_event)
| SetRing (param : ethtool_ringparam) (rx_envs tx_envs : nat -> queue_env)
| SetChannels (max_rx max_tx : Z) (ch : ethtool_channels) (rx_envs tx_envs : nat -> queue_env)
| SetRxfh (indir : option (list Z)) (hfunc : Z).

(** Queues that are started again begin with no completions. *)
Definition reconfigured (s : netlife hw) (v : verdict) (x : Z * port_cfg * port hw) : port_cfg * netlife hw :=
  let '(_, cfg, p) := x in
  let restart := match v with Change _ => nd_port_up (p_dev (nl_port s)) | _ => false end in
  (cfg, mk_netlife p (if restart then ∅ else nl_done s) (nl_running s)).

Definition eth_exec (a : eth_event) (x : port_cfg * netlife hw) : option (port_cfg * netlife hw) :=
  let '(cfg, s) := x in
  match a with
  | Net a => s ← net_exec cfg a s; Some (cfg, s)
  | SetRing param rx_envs tx_envs =>
      r ← mqnic_set_ringparam param rx_envs tx_envs cfg (nl_port s);
      Some (reconfigured s (ringparam_verdict param cfg) r)
  | SetChannels max_rx max_tx ch rx_envs tx_envs =>
      r ← mqnic_set_channels max_rx max_tx ch rx_envs tx_envs cfg (nl_port s);
      Some (reconfigured s (default NoChange (channels_verdict max_rx max_tx ch cfg)) r)
  | SetRxfh indir hfunc => Some (reconfigured s NoChange (mqnic_set_rxfh indir hfunc cfg (nl_port s)))
  end.

Fixpoint eth_run (l : list eth_event) (x : port_cfg * netlife hw) : option (port_cfg * netlife hw) :=
  match l with
  | [] => Some x
  | a :: l' => x ← eth_exec a x; eth_run l' x
  end.
End Ethtool.

(** ** What stays true *)

Section EthLife.
Context {hw : Type} `{!Mmio hw}.
Implicit Types p : port hw.
Variable p0 : port hw.
Context (Htab : tables_ok p0) (Heqs : p_eqs p0 <> []).

(** The entries of the indirection table name queues of the device. *)
Definition indir_ok (cfg : port_cfg) : Prop := Forall (fun q => 0 <= q < Z.of_nat (cf_rxq_count cfg)) (cf_indir cfg).

(** A port that is up belongs to a device that is open, and has a ring for
    each queue. *)
Definition up_ok (cfg : port_cfg) (s : netlife hw) : Prop :=
  (nl_running s = false -> nd_port_up (p_dev (nl_port s)) = false) /\
  (nd_port_up (p_dev (nl_port s)) = true -> forall key, is_Some (p_rxq (nl_port s) !! key) <-> 0 <= key < Z.of_nat (cf_rxq_count cfg)).

Definition eth_inv (x : port_cfg * netlife hw) : Prop :=
  cfg_ok x.1 /\ indir_ok x.1 /\ life_inv p0 x.2 /\ up_ok x.1 x.2.

(** The stack asks for a receive channel at least, and gives a table of
    unsigned numbers. *)
Definition eth_event_ok (a : eth_event) : Prop :=
  match a with
  | Net a => event_ok a
  | SetRing _ rx_envs tx_envs => cq_bufs_granted rx_envs /\ cq_bufs_granted tx_envs
  | SetChannels _ _ ch rx_envs tx_envs => cq_bufs_granted rx_envs /\ cq_bufs_granted tx_envs /\ 0 < ch_rx_count ch
  | SetRxfh indir _ => match indir with Some l => Forall (fun q => 0 <= q) l | None => True end
  end.

(** The events between opening and closing keep the rings that are there. *)
Definition data_event (a : net_event) : bool :=
  match a with Open _ _ | Close | ChangeMtu _ _ _ => false | _ => true end.

Lemma data_event_shape cfg a s s' :
  data_event a = true -> net_exec cfg a s = Some s' ->
  nl_running s' = nl_running s /\ p_dev (nl_port s') = p_dev (nl_port s) /\ forall key, is_Some (p_rxq (nl_port s') !! key) <-> is_Some (p_rxq (nl_port s) !! key).
Proof.
  intros Ha E. destruct a; try discriminate Ha; cbn [net_exec] in E.
  - destruct (rx_of c (nl_port s)) as [[[cq key] r]|]; [|by injection E as <-]. destruct (_ && _); by injection E as <-.
  - destruct (p_cqs _ !! c) as [cq|] eqn:Hc; [|by injection E as <-]. destruct (cq_hnd cq) as [[]|]; [|by injection E as <-..].
    unfold port_poll_rx in E. destruct (rx_of c (nl_port s)) as [[[cq' key] r]|] eqn:Eof; [|done]. cbn [mbind option_bind] in E.
    destruct (mqnic_poll_rx_cq _ _ _ _ _ _ _) as [[[[[[? ?] ?] r'] ?] ?]|]; [|done]. cbn [mbind option_bind] in E. injection E as <-. split; [done|]. split; [done|].
    unfold rx_of in Eof. rewrite Hc in Eof. cbn [mbind option_bind] in Eof. destruct (cq_src_ring cq) as [i|]; [|done]. cbn [mbind option_bind] in Eof.
    destruct (cq_hnd cq) as [[]|]; [|done..]. destruct (p_rxq (nl_port s) !! Z.of_nat i) as [r0|] eqn:Hr; [|done]. injection Eof as <- <- <-.
    intros key. cbn. destruct (decide (key = Z.of_nat i)) as [->|Hne]; [rewrite lookup_insert_eq, Hr|rewrite lookup_insert_ne by done]; split; try done; by eexists.
  - destruct (p_txq _ !! _) as [r|]; [destruct (tx_stopped r); [by injection E as <-|]|]; unfold port_xmit in E;
      (destruct (mqnic_start_xmit _ _ _ _ _ _) as [[[? ?] ?]|]; [|done]); by injection E as <-.
  - destruct (tx_of c (nl_port s)) as [[[cq key] r]|]; [|by injection E as <-]. destruct (_ && _); by injection E as <-.
  - destruct (p_cqs _ !! c) as [cq|]; [|by injection E as <-]. destruct (cq_hnd cq) as [[]|]; [by injection E as <-| |by injection E as <-].
    unfold port_poll_tx in E. destruct (tx_of c (nl_port s)) as [[[cq' key] r]|]; [|done]. cbn [mbind option_bind] in E.
    destruct (mqnic_poll_tx_cq _ _ _ _ _ _) as [[[[[[? ?] ?] ?] ?] ?]|]; [|done]. by injection E as <-.
Qed.

(** Stopping, and starting with a configuration that need not be the old
    one. *)
Lemma eth_stop cfg s :
  life_inv p0 s -> exists D p', mqnic_stop_port cfg (nl_port s) = Some p' /\ (forall TX, port_inv p0 TX None D ∅ p') /\
    p_rxq p' = ∅ /\ p_txq p' = ∅ /\ nd_port_up (p_dev p') = false.
Proof.
  intros (D & Hinv & _). assert (port_inv p0 tx_open None D ∅ (nl_port s)) as Hi by (eapply port_inv_mono; [|exact Hinv]; intros ? ? ? ?; apply tx_running_live).
  destruct (inv_stop_port p0 tx_open Htab ltac:(done) cfg D ∅ _ Hi tx_open_stable tx_open_stop) as (p' & E & Hi' & F). injection F as F1 F2 F3 F4 F5.
  exists D, p'. split; [done|]. split; [|done]. intros TX. by eapply inv_any_tx.
Qed.

Lemma eth_start cfg D p rx_envs tx_envs :
  cfg_ok cfg -> cq_bufs_granted rx_envs -> cq_bufs_granted tx_envs -> (forall TX, port_inv p0 TX None D ∅ p) -> p_rxq p = ∅ -> p_txq p = ∅ ->
  exists ret p', mqnic_start_port cfg rx_envs tx_envs p = Some (ret, p') /\
    forall r, (r = false -> ret <> 0) -> life_inv p0 (mk_netlife p' ∅ r) /\ up_ok cfg (mk_netlife p' ∅ r).
Proof.
  intros Hcfg Hrx Htx Hinv Er Et. destruct (start_port_ok p0 cfg rx_envs tx_envs D p Htab Heqs Hcfg Hrx Htx (Hinv _) Er Et) as (ret & p' & E & _ & Hok & Hfail).
  exists ret, p'. split; [exact E|]. intros r Hr. destruct (decide (ret = 0)) as [->|Hne].
  - destruct (Hok eq_refl) as (Hi & Hup & Hk & _). split.
    + exists D. split; [|intros Hr0; by destruct (Hr Hr0)]. eapply port_inv_mono; [|exact Hi]. apply tx_unused_running.
    + split; [intros Hr0; by destruct (Hr Hr0)|]. done.
  - destruct (Hfail Hne) as (Hup & E1 & E2 & D' & _ & Hi). split; [exists D'; by split; [eapply inv_any_tx|]|]. split; [done|]. cbn. by rewrite Hup.
Qed.

Lemma net_step cfg a s : event_ok a -> eth_inv (cfg, s) -> exists s', net_exec cfg a s = Some s' /\ eth_inv (cfg, s').
Proof.
  intros Ha (Hc & Hi & Hl & Hu). cbn [fst snd] in *. destruct (data_event a) eqn:Hd.
  { destruct (life_step p0 Htab Heqs cfg Hc a s Ha Hl) as (s' & E & Hl'). exists s'. split; [done|]. split; [done|]. split; [done|]. split; [done|].
    destruct (data_event_shape cfg a s s' Hd E) as (E1 & E2 & E3). unfold up_ok. cbn [snd]. rewrite E1, E2. setoid_rewrite E3. exact Hu. }
  destruct a as [| | | | |rx_envs tx_envs| |mtu rx_envs tx_envs]; try discriminate Hd; cbn [net_exec].
  - destruct (nl_running s) eqn:Hr; [by exists s|]. destruct Hl as (D & Hinv & Hdown). destruct (Hdown Hr) as [Er Et]. destruct Ha as [Hrx Htx].
    destruct (eth_start cfg D (nl_port s) rx_envs tx_envs Hc Hrx Htx) as (ret & p' & E & H); [intros TX; by eapply inv_any_tx|done|done|].
    unfold mqnic_open. rewrite E. cbn [mbind option_bind]. eexists. split; [reflexivity|]. destruct (H (ret =? 0)) as [H1 H2]; [intros Hr'; by apply Z.eqb_neq in Hr'|]. by split_and!.
  - destruct (nl_running s) eqn:Hr; [|by exists s]. destruct (eth_stop cfg s Hl) as (D & p' & E & Hinv & E1 & E2 & E3). unfold mqnic_close. rewrite E. cbn [mbind option_bind].
    eexists. split; [reflexivity|]. split; [done|]. split; [done|]. split; [exists D; by split|]. split; [done|]. cbn. by rewrite E3.
  - unfold mqnic_change_mtu. destruct (_ || _); [cbn [mbind option_bind]; exists s; by destruct s|]. destruct Ha as [Hrx Htx]. set (p1 := set_dev _ (nl_port s)).
    assert (life_inv p0 (mk_netlife p1 (nl_done s) (nl_running s))) as Hl1 by (destruct Hl as (D & Hv & Hdn); exists D; by split).
    destruct (nl_running s) eqn:Hr; cbn [mbind option_bind].
    + destruct (eth_stop cfg _ Hl1) as (D & p2 & E & Hinv & E1 & E2 & _). cbn [nl_port] in E. rewrite E. cbn [mbind option_bind].
      destruct (eth_start cfg D p2 rx_envs tx_envs Hc Hrx Htx Hinv E1 E2) as (ret & p' & E' & H). rewrite E'. cbn [mbind option_bind].
      eexists. split; [reflexivity|]. destruct (H true ltac:(done)) as [H1 H2]. by split_and!.
    + eexists. split; [reflexivity|]. split; [done|]. split; [done|]. split; [done|]. split; [intros _; exact (proj1 Hu Hr)|exact (proj2 Hu)].
Qed.

Lemma change_step cfg cfg' rx_envs tx_envs s :
  cfg_ok cfg' -> indir_ok cfg' -> cq_bufs_granted rx_envs -> cq_bufs_granted tx_envs -> eth_inv (cfg, s) ->
  exists ret p', apply_change cfg cfg' rx_envs tx_envs (nl_port s) = Some (ret, p') /\
    eth_inv (cfg', mk_netlife p' (if nd_port_up (p_dev (nl_port s)) then ∅ else nl_done s) (nl_running s)).
Proof.
  intros Hc Hi Hrx Htx (_ & _ & Hl & Hu1 & Hu2). cbn [fst snd] in *. unfold apply_change. destruct (nd_port_up (p_dev (nl_port s))) eqn:Hup.
  - destruct (eth_stop cfg s Hl) as (D & p1 & E & Hinv & E1 & E2 & _). rewrite E. cbn [mbind option_bind].
    destruct (eth_start cfg' D p1 rx_envs tx_envs Hc Hrx Htx Hinv E1 E2) as (ret & p' & E' & H). exists ret, p'. split; [exact E'|].
    destruct (H (nl_running s)) as [H1 H2]; [intros Hr; by apply Hu1 in Hr|]. by split_and!.
  - exists 0, (nl_port s). split; [done|]. split; [done|]. split; [done|]. split; [by destruct s|]. split; cbn; by rewrite Hup.
Qed.

Lemma ringparam_verdict_ok param cfg cfg' : ringparam_verdict param cfg = Change cfg' -> cfg_ok cfg -> indir_ok cfg -> cfg_ok cfg' /\ indir_ok cfg'.
Proof.
  unfold ringparam_verdict. destruct (_ || _); [done|]. unfold MQNIC_MIN_RX_RING_SZ, MQNIC_MIN_TX_RING_SZ, MQNIC_MAX_RX_RING_SZ, MQNIC_MAX_TX_RING_SZ. change (4096 / 16) with 256.
  destruct (Z.ltb_spec (rp_rx_pending param) 256); [done|]. destruct (Z.ltb_spec 32768 (rp_rx_pending param)); [done|].
  destruct (Z.ltb_spec (rp_tx_pending param) 256); [done|]. destruct (Z.ltb_spec 32768 (rp_tx_pending param)); [done|].
  destruct (_ && _); [done|]. intros [= <-] (_ & _ & H3 & H4) Hi. split; [|done].
  destruct (ring_size_range (rp_rx_pending param)) as (n & Hn & En). destruct (ring_size_range (rp_tx_pending param)) as (m & Hm & Em).
  change (4096 / 16) with 256 in En, Em. assert (forall x, 256 <= x <= 32768 -> clamp x 256 32768 = x) as Hcl by (unfold clamp; lia). rewrite Hcl in En, Em by lia.
  unfold cfg_ok. cbn [cf_rx_ring_size cf_tx_ring_size set_ring_sizes]. rewrite En, Em.
  assert (2 ^ 8 <= 2 ^ n <= 2 ^ 15) by (split; apply Z.pow_le_mono_r; lia). assert (2 ^ 8 <= 2 ^ m <= 2 ^ 15) by (split; apply Z.pow_le_mono_r; lia).
  split; [lia|]. by split; [lia|].
Qed.

Lemma channels_verdict_ok mr mt ch cfg :
  0 < ch_rx_count ch -> cfg_ok cfg -> indir_ok cfg ->
  exists v, channels_verdict mr mt ch cfg = Some v /\ forall cfg', v = Change cfg' -> cfg_ok cfg' /\ indir_ok cfg'.
Proof.
  intros Hr Hc Hi. unfold channels_verdict. destruct (_ || _); [by eexists|]. destruct (mr <? _); [by eexists|]. destruct (mt <? _); [by eexists|].
  destruct (Z.eqb_spec (ch_rx_count ch) (Z.of_nat (cf_rxq_count cfg))) as [E|Hne]; cbn [andb].
  - destruct (_ =? _); [by eexists|]. eexists. split; [done|]. intros cfg' [= <-]. split; [done|]. unfold indir_ok. cbn [set_counts cf_rxq_count cf_indir]. by rewrite E, Nat2Z.id.
  - rewrite (proj2 (Z.eqb_neq _ _)) by lia. cbn [andb]. eexists. split; [done|]. intros cfg' [= <-]. split; [done|]. unfold indir_ok. cbn [set_counts cf_rxq_count cf_indir].
    rewrite Z2Nat.id by lia. apply Forall_lookup. intros k q Hq. rewrite list_lookup_imap in Hq. destruct (cf_indir cfg !! k); [|done]. injection Hq as <-. apply Z.mod_pos_bound. lia.
Qed.

Lemma verdict_step v cfg rx_envs tx_envs s :
  (forall cfg', v = Change cfg' -> cfg_ok cfg' /\ indir_ok cfg') -> cq_bufs_granted rx_envs -> cq_bufs_granted tx_envs -> eth_inv (cfg, s) ->
  exists x, apply_verdict v cfg rx_envs tx_envs (nl_port s) = Some x /\ eth_inv (reconfigured s v x).
Proof.
  intros Hv Hrx Htx Hinv. destruct v as [ret| |cfg']; [eexists; split; [reflexivity|]; by destruct s..|].
  destruct (Hv cfg' eq_refl) as [Hc Hi]. destruct (change_step cfg cfg' rx_envs tx_envs s Hc Hi Hrx Htx Hinv) as (ret & p' & E & H).
  cbn [apply_verdict]. rewrite E. cbn [mbind option_bind]. eexists. split; [reflexivity|exact H].
Qed.

Lemma eth_step a x : eth_event_ok a -> eth_inv x -> exists x', eth_exec a x = Some x' /\ eth_inv x'.
Proof.
  intros Ha Hx. destruct x as [cfg s]. pose proof Hx as (Hc & Hi & Hl & Hu). cbn [fst snd] in *. destruct a as [a|param rx_envs tx_envs|mr mt ch rx_envs tx_envs|indir hfunc]; cbn [eth_exec].
  - destruct (net_step cfg a s Ha Hx) as (s' & -> & H). cbn [mbind option_bind]. by eexists.
  - destruct Ha as [Hrx Htx]. destruct (verdict_step (ringparam_verdict param cfg) cfg rx_envs tx_envs s) as (x & E & H); [intros cfg' Ev; by eapply ringparam_verdict_ok|done..|].
    unfold mqnic_set_ringparam. rewrite E. cbn [mbind option_bind]. by eexists.
  - destruct Ha as (Hrx & Htx & Hpos). destruct (channels_verdict_ok mr mt ch cfg Hpos Hc Hi) as (v & Ev & Hv).
    destruct (verdict_step v cfg rx_envs tx_envs s Hv Hrx Htx Hx) as (x & E & H). unfold mqnic_set_channels. rewrite Ev. cbn [mbind option_bind default]. rewrite E. cbn [mbind option_bind]. by eexists.
  - eexists. split; [reflexivity|]. unfold mqnic_set_rxfh. destruct (_ && _); [by destruct s|]. destruct indir as [l|]; [|by destruct s].
    destruct (existsb _ l) eqn:Ex; [by destruct s|]. cbn [reconfigured]. split; [done|]. split.
    + apply Forall_forall. intros q Hq. split; [by eapply (proj1 (Forall_forall _ _) Ha)|]. destruct (Z.leb_spec (Z.of_nat (cf_rxq_count cfg)) q) as [Hle|]; [|done].
      assert (existsb (fun q => Z.of_nat (cf_rxq_count cfg) <=? q) l = true) as Ht; [|congruence]. apply existsb_exists. exists q. split; [by apply list_elem_of_In|]. by apply Z.leb_le.
    + split; [|exact Hu]. destruct Hl as (D & Hinv & Hdn). exists D. split; [|done]. by apply inv_set_hw.
Qed.

Lemma eth_steps l x : Forall eth_event_ok l -> eth_inv x -> exists x', eth_run l x = Some x' /\ eth_inv x'.
Proof.
  intros Hl. revert x. induction Hl as [|a l Ha _ IH]; intros x Hx; cbn [eth_run]; [by exists x|].
  destruct (eth_step a x Ha Hx) as (x1 & -> & H1). cbn [mbind option_bind]. by apply IH.
Qed.

Lemma port_down_eth cfg : port_down p0 -> nd_port_up (p_dev p0) = false -> cfg_ok cfg -> indir_ok cfg -> eth_inv (cfg, mk_netlife p0 ∅ false).
Proof.
  intros Hdown Hup Hcfg Hi. pose proof Hdown as (_ & _ & Er & Et & _). split; [done|]. split; [done|]. split.
  - exists (p_napi p0). split; [by apply port_down_inv|done].
  - split; [done|]. cbn. by rewrite Hup.
Qed.

Lemma eth_gave_back cfg s : eth_inv (cfg, s) -> nl_running s = false -> gave_back p0 (nl_port s).
Proof. intros (_ & _ & (D & Hinv & Hd) & _) Hr. destruct (Hd Hr) as [E1 E2]. by destruct (inv_gave_back _ _ _ _ Hinv E1 E2). Qed.

(** An entry that names a ring is written. *)
Lemma indir_written cfg (t : gmap Z rx_ring) k q :
  cf_indir cfg !! k = Some q -> is_Some (t !! q) -> exists r, t !! q = Some r /\ (q_index (rx_q r), cf_indir_regs cfg + Z.of_nat k * 4) ∈ indir_writes cfg t.
Proof.
  intros Hk [r Hr]. exists r. split; [done|]. unfold indir_writes. apply list_elem_of_omap. exists (k, q). split; [|by rewrite Hr].
  apply list_elem_of_lookup. exists k. by rewrite list_lookup_imap, Hk.
Qed.
End EthLife.


(** ** Examples *)

(** The events of the plain device, then larger rings and a new table while
    it is open again. *)
Definition events_eth : list eth_event :=
  (Net <$> events4) ++ [Net (Open (fun _ => qenv 0x500) (fun _ => qenv 0x600)); SetRing (mk_ringparam 300 0 0 256) (fun _ => qenv 0x700) (fun _ => qenv 0x800);
                        SetChannels 2 2 (mk_channels 2 1 0 0) (fun k => qenv (0x900 + 0x10 * Z.of_nat k)) (fun k => qenv (0xA00 + 0x10 * Z.of_nat k)); SetRxfh (Some [1; 0]) 1; SetRxfh (Some [7; 0]) 1].
Definition observed_eth (x : port_cfg * netlife memory) := (nl_running x.2, nd_port_up (p_dev (nl_port x.2)), cf_rx_ring_size x.1, cf_indir x.1, cf_indir_regs x.1, length (indir_writes x.1 (p_rxq (nl_port x.2)))).

Lemma life_eth : observed_eth <$> eth_run events_eth (cfg4, mk_netlife port4 ∅ false) = Some (true, true, 512, [1; 0], 0x5200, 2%nat).
Proof. vm_compute. reflexivity. Qed.


(** [mqnic_set_channels] compares the counts in force with the limits: a
    request for a hundred receive channels on an interface with one queue is
    taken. *)
Theorem set_channels_not_checked : exists cfg, channels_verdict 1 1 (mk_channels 100 1 0 0) cfg4 = Some (Change cfg) /\ cf_rxq_count cfg = 100%nat.
Proof. eexists. split; vm_compute; reflexivity. Qed.
