(* ===== verification/MqnicIf.v ===== *)
(** * Interfaces

    Model of [modules/mqnic/mqnic_if.c]: [mqnic_create_interface] reads the
    register blocks of one interface, sets up the allocators of queue
    numbers, resets the queues, creates the ports, the scheduler blocks, the
    event queues and the network device; [mqnic_destroy_interface] undoes it,
    also from the middle of a failed creation.

    [None] stands for a crash: a write beyond an array, a division by zero, a
    NULL or error pointer that is followed, a shift by more than the width. *)

From S2P Require Import Prelude Mmio MqnicRes MqnicQueue MqnicRx MqnicTx MqnicTxSys MqnicSched MqnicLedger MqnicNetdev MqnicPort MqnicLife MqnicEthtool.

Definition MQNIC_MAX_EQ : Z := 256.
Definition MQNIC_MAX_TXQ : Z := 8192.
Definition MQNIC_MAX_RXQ : Z := MQNIC_MAX_TXQ.
Definition MQNIC_MAX_CQ : Z := MQNIC_MAX_TXQ * 2.
Definition MQNIC_RB_IF_CTRL_TYPE : Z := 0x0000C001.
Definition MQNIC_RB_IF_CTRL_VER : Z := 0x00000400.
Definition MQNIC_RB_IF_CTRL_REG_FEATURES : Z := 0x0C.
Definition MQNIC_RB_IF_CTRL_REG_PORT_COUNT : Z := 0x10.
Definition MQNIC_RB_IF_CTRL_REG_SCHED_COUNT : Z := 0x14.
Definition MQNIC_RB_IF_CTRL_REG_MAX_TX_MTU : Z := 0x20.
Definition MQNIC_RB_IF_CTRL_REG_MAX_RX_MTU : Z := 0x24.
Definition MQNIC_RB_EQM_TYPE : Z := 0x0000C010.
Definition MQNIC_RB_CQM_TYPE : Z := 0x0000C020.
Definition MQNIC_RB_TX_QM_TYPE : Z := 0x0000C030.
Definition MQNIC_RB_RX_QM_TYPE : Z := 0x0000C031.
Definition MQNIC_RB_QM_VER : Z := 0x00000400.          (* the same for the four queue managers *)
Definition MQNIC_RB_QM_REG_OFFSET : Z := 0x0C.
Definition MQNIC_RB_QM_REG_COUNT : Z := 0x10.
Definition MQNIC_RB_QM_REG_STRIDE : Z := 0x14.
Definition MQNIC_RB_RX_QUEUE_MAP_TYPE : Z := 0x0000C090.
Definition MQNIC_RB_RX_QUEUE_MAP_VER : Z := 0x00000200.
Definition MQNIC_RB_RX_QUEUE_MAP_REG_CFG : Z := 0x0C.
Definition MQNIC_RB_RX_QUEUE_MAP_CH_REG_OFFSET : Z := 0x00.
Definition MQNIC_QUEUE_SIZE_CQN_REG : Z := 0x0C.
Definition MQNIC_RB_PORT_TYPE : Z := 0x0000C002.
Definition MQNIC_RB_PORT_VER : Z := 0x00000200.
Definition MQNIC_RB_SCHED_BLOCK_TYPE : Z := 0x0000C004.
Definition MQNIC_RB_SCHED_BLOCK_VER : Z := 0x00000300.

(** ** State *)

(** What [struct mqnic_dev] and the module parameters give. *)
Record if_dev := mk_if_dev {
  id_if_stride : Z;
  id_if_csr_offset : Z;
  id_irq_count : Z;
  id_num_eq_entries : Z;
  id_dev_port_max : nat;
  id_online_cpus : Z;
  id_num_txq_entries : Z;
  id_num_rxq_entries : Z;
  id_macs : list (list Z);
}.

(** The answers of the kernel's allocators, by object. *)
Record if_env := mk_if_env {
  ie_kzalloc : bool;
  ie_rb : rb_env;
  ie_res : nat -> bool * bool;
  ie_port : nat -> bool * rb_env;
  ie_sched : nat -> bool * rb_env * (nat -> bool);
  ie_eq : nat -> bool * option (Z * Z) * Z;
  ie_netdev : bool * bool * Z;
}.

(** The fields of [struct mqnic_if]. The allocators themselves are in the
    world; [if_res_err]: one of the pointers to them is an [ERR_PTR]. The
    arrays [port], [sched_block] and [rx_queue_map_indir_table] have
    [MQNIC_MAX_PORTS] entries, [eq] has [MQNIC_MAX_EQ]. *)
Record mqnic_if := mk_if {
  if_hw_regs_size : Z;
  if_hw_addr : Z;
  if_rb_list : list mqnic_reg_block;
  if_ctrl_regs : Z;
  if_queue_map_regs : Z;
  if_features : Z;
  if_port_count : Z;
  if_sched_block_count : Z;
  if_max_tx_mtu : Z;
  if_max_rx_mtu : Z;
  if_res_err : bool;
  if_indir_table_size : Z;
  if_indir_table : list Z;
  if_max_desc_block_size : Z;
  if_ports : list mqnic_port;
  if_sched_blocks : list mqnic_sched_block;
  if_eqs : list mqnic_eq;
  if_ndev : option new_netdev;
}.

Section If.
Context {hw : Type} `{!Mmio hw}.

(** The interface under construction, and the world. *)
Definition ifst : Type := mqnic_if * qworld hw.
Implicit Types s : ifst.

(** A stage of the creation: a return code, 0 or an error, as in the source. *)
Definition stage : Type := ifst -> option (Z * ifst).
Definition then_ (a b : stage) : stage := fun s =>
  '(ret, s) ← a s;
  if negb (ret =? 0) then Some (ret, s) else b s.

Definition ifread (a : Z) s : Z * ifst :=
  let '(v, h) := ioread32 a (w_hw (s.2)) in (v, (s.1, set_w_hw h s.2)).
Definition ifwrite (l : list (Z * Z)) s : ifst := (s.1, set_w_hw (write_all l (w_hw s.2)) s.2).

Definition if_new (d : if_dev) (hw_addr : Z) : mqnic_if :=
  mk_if (id_if_stride d) hw_addr [] 0 0 0 0 0 0 0 false 0 (replicate MQNIC_MAX_PORTS 0) 0 [] [] [] None.

(** ** Creation, stage by stage *)

Definition if_enumerate (d : if_dev) (env : rb_env) : stage := fun s =>
  let '(i, w) := s in
  '(r, h) ← mqnic_enumerate_reg_block_list (be_fuel env) (be_kzalloc env) (be_krealloc env) (if_hw_addr i) (id_if_csr_offset d) (if_hw_regs_size i) (w_hw w);
  let w := set_w_hw h w in
  match r with
  | EnumOverrun => None
  | EnumNull => Some (- EIO, (i, w))
  | EnumList l =>
      Some (0, (mk_if (if_hw_regs_size i) (if_hw_addr i) l 0 0 0 0 0 0 0 false 0 (if_indir_table i) 0 [] [] [] None, w))
  end.

Definition if_control : stage := fun s =>
  let i := s.1 in
  match mqnic_find_reg_block (if_rb_list i) MQNIC_RB_IF_CTRL_TYPE MQNIC_RB_IF_CTRL_VER 0 with
  | None => Some (- EIO, s)
  | Some rb =>
      let a := rb_regs rb in
      let '(features, s) := ifread (a + MQNIC_RB_IF_CTRL_REG_FEATURES) s in
      let '(ports, s) := ifread (a + MQNIC_RB_IF_CTRL_REG_PORT_COUNT) s in
      let '(scheds, s) := ifread (a + MQNIC_RB_IF_CTRL_REG_SCHED_COUNT) s in
      let '(tx_mtu, s) := ifread (a + MQNIC_RB_IF_CTRL_REG_MAX_TX_MTU) s in
      let '(rx_mtu, s) := ifread (a + MQNIC_RB_IF_CTRL_REG_MAX_RX_MTU) s in
      Some (0, (mk_if (if_hw_regs_size i) (if_hw_addr i) (if_rb_list i) a 0 features ports scheds tx_mtu rx_mtu false 0 (if_indir_table i) 0 [] [] [] None, s.2))
  end.

Definition set_res_err (i : mqnic_if) : mqnic_if :=
  mk_if (if_hw_regs_size i) (if_hw_addr i) (if_rb_list i) (if_ctrl_regs i) (if_queue_map_regs i) (if_features i) (if_port_count i) (if_sched_block_count i)
    (if_max_tx_mtu i) (if_max_rx_mtu i) true (if_indir_table_size i) (if_indir_table i) (if_max_desc_block_size i) (if_ports i) (if_sched_blocks i) (if_eqs i) (if_ndev i).

(** One of the four queue managers; [put] stores the allocator. *)
Definition if_queues (type max : Z) (env : bool * bool) (put : mqnic_res -> qworld hw -> qworld hw) : stage := fun s =>
  match mqnic_find_reg_block (if_rb_list s.1) type MQNIC_RB_QM_VER 0 with
  | None => Some (- EIO, s)
  | Some rb =>
      let '(offset, s) := ifread (rb_regs rb + MQNIC_RB_QM_REG_OFFSET) s in
      let '(count, s) := ifread (rb_regs rb + MQNIC_RB_QM_REG_COUNT) s in
      let '(stride, s) := ifread (rb_regs rb + MQNIC_RB_QM_REG_STRIDE) s in
      match mqnic_create_res env.1 env.2 (Z.to_nat (Z.min count max)) (if_hw_addr s.1 + offset) stride with
      | inl err => Some (err, (set_res_err s.1, s.2))
      | inr res => Some (0, (s.1, put res s.2))
      end
  end.

Definition set_queue_map (regs size : Z) (table : list Z) (i : mqnic_if) : mqnic_if :=
  mk_if (if_hw_regs_size i) (if_hw_addr i) (if_rb_list i) (if_ctrl_regs i) regs (if_features i) (if_port_count i) (if_sched_block_count i)
    (if_max_tx_mtu i) (if_max_rx_mtu i) (if_res_err i) size table (if_max_desc_block_size i) (if_ports i) (if_sched_blocks i) (if_eqs i) (if_ndev i).

(** The loop over the channels: table address, masks and first entry. *)
Fixpoint map_channels (n k : nat) (regs : Z) s : option ifst :=
  match n with
  | O => Some s
  | S n' =>
      if (length (if_indir_table s.1) <=? k)%nat then None
      else
        let ch := regs + MQNIC_RB_RX_QUEUE_MAP_CH_OFFSET + MQNIC_RB_RX_QUEUE_MAP_CH_STRIDE * Z.of_nat k in
        let '(v, s) := ifread (ch + MQNIC_RB_RX_QUEUE_MAP_CH_REG_OFFSET) s in
        let table := if_hw_addr s.1 + v in
        let s := (set_queue_map regs (if_indir_table_size s.1) (<[k := table]> (if_indir_table s.1)) s.1, s.2) in
        let s := ifwrite [(0, ch + MQNIC_RB_RX_QUEUE_MAP_CH_REG_RSS_MASK); (0, ch + MQNIC_RB_RX_QUEUE_MAP_CH_REG_APP_MASK); (0, table)] s in
        map_channels n' (S k) regs s
  end.

Definition if_queue_map : stage := fun s =>
  match mqnic_find_reg_block (if_rb_list s.1) MQNIC_RB_RX_QUEUE_MAP_TYPE MQNIC_RB_RX_QUEUE_MAP_VER 0 with
  | None => Some (- EIO, s)
  | Some rb =>
      let '(v, s) := ifread (rb_regs rb + MQNIC_RB_RX_QUEUE_MAP_REG_CFG) s in
      let n := Z.land (Z.shiftr v 8) 0xff in
      if 31 <? n then None
      else
        let s := (set_queue_map (rb_regs rb) (Z.shiftl 1 n) (if_indir_table s.1) s.1, s.2) in
        s ← map_channels (Z.to_nat (if_port_count s.1)) 0 (rb_regs rb) s;
        Some (0, s)
  end.

Definition set_max_desc (n : Z) (i : mqnic_if) : mqnic_if :=
  mk_if (if_hw_regs_size i) (if_hw_addr i) (if_rb_list i) (if_ctrl_regs i) (if_queue_map_regs i) (if_features i) (if_port_count i) (if_sched_block_count i)
    (if_max_tx_mtu i) (if_max_rx_mtu i) (if_res_err i) (if_indir_table_size i) (if_indir_table i) n (if_ports i) (if_sched_blocks i) (if_eqs i) (if_ndev i).

(** The largest block of descriptors, from the first transmit queue. *)
Definition if_desc_block : stage := fun s =>
  a ← mqnic_res_get_addr (w_txq_res s.2) 0;
  let s := ifwrite [(Z.lor CMD_SET_SIZE 0xff00, a + MQNIC_CTRL_STATUS_REG)] s in
  let '(v, s) := ifread (a + MQNIC_QUEUE_SIZE_CQN_REG) s in
  let s := ifwrite [(Z.lor CMD_SET_SIZE 0x0000, a + MQNIC_CTRL_STATUS_REG)] s in
  Some (0, (set_max_desc (Z.min (Z.shiftl 1 (Z.land (Z.shiftr v 28) 0xf)) (Z.of_nat MQNIC_MAX_FRAGS)) s.1, s.2)).

(** All queues of one kind are switched off. *)
Definition off_writes (res : mqnic_res) : list (Z * Z) :=
  (fun k => (Z.lor CMD_SET_ENABLE 0, r_base res + Z.of_nat k * r_stride res + MQNIC_CTRL_STATUS_REG)) <$> seq 0 (r_count res).
Definition if_queues_off : stage := fun s =>
  let w := s.2 in
  Some (0, ifwrite (off_writes (w_eq_res w) ++ off_writes (w_cq_res w) ++ off_writes (w_txq_res w) ++ off_writes (w_rxq_res w)) s).

Definition add_port (p : mqnic_port) (i : mqnic_if) : mqnic_if :=
  mk_if (if_hw_regs_size i) (if_hw_addr i) (if_rb_list i) (if_ctrl_regs i) (if_queue_map_regs i) (if_features i) (if_port_count i) (if_sched_block_count i)
    (if_max_tx_mtu i) (if_max_rx_mtu i) (if_res_err i) (if_indir_table_size i) (if_indir_table i) (if_max_desc_block_size i) (if_ports i ++ [p]) (if_sched_blocks i) (if_eqs i) (if_ndev i).
Definition add_sched (b : mqnic_sched_block) (i : mqnic_if) : mqnic_if :=
  mk_if (if_hw_regs_size i) (if_hw_addr i) (if_rb_list i) (if_ctrl_regs i) (if_queue_map_regs i) (if_features i) (if_port_count i) (if_sched_block_count i)
    (if_max_tx_mtu i) (if_max_rx_mtu i) (if_res_err i) (if_indir_table_size i) (if_indir_table i) (if_max_desc_block_size i) (if_ports i) (if_sched_blocks i ++ [b]) (if_eqs i) (if_ndev i).
Definition set_if_eqs (l : list mqnic_eq) (i : mqnic_if) : mqnic_if :=
  mk_if (if_hw_regs_size i) (if_hw_addr i) (if_rb_list i) (if_ctrl_regs i) (if_queue_map_regs i) (if_features i) (if_port_count i) (if_sched_block_count i)
    (if_max_tx_mtu i) (if_max_rx_mtu i) (if_res_err i) (if_indir_table_size i) (if_indir_table i) (if_max_desc_block_size i) (if_ports i) (if_sched_blocks i) l (if_ndev i).
Definition set_if_ndev (n : option new_netdev) (i : mqnic_if) : mqnic_if :=
  mk_if (if_hw_regs_size i) (if_hw_addr i) (if_rb_list i) (if_ctrl_regs i) (if_queue_map_regs i) (if_features i) (if_port_count i) (if_sched_block_count i)
    (if_max_tx_mtu i) (if_max_rx_mtu i) (if_res_err i) (if_indir_table_size i) (if_indir_table i) (if_max_desc_block_size i) (if_ports i) (if_sched_blocks i) (if_eqs i) n.

(** Port [k]; it is stored after it was created. *)
Definition if_port (env : bool * rb_env) (k : nat) : stage := fun s =>
  match mqnic_find_reg_block (if_rb_list s.1) MQNIC_RB_PORT_TYPE MQNIC_RB_PORT_VER (Z.of_nat k) with
  | None => Some (- EIO, s)
  | Some rb =>
      '(r, h) ← mqnic_create_port env.1 env.2 (if_hw_addr s.1) (if_hw_regs_size s.1) (Z.of_nat k) rb (w_hw s.2);
      let w := set_w_hw h s.2 in
      match r with
      | inl err => Some (err, (s.1, w))
      | inr p => if (k <? MQNIC_MAX_PORTS)%nat then Some (0, (add_port p s.1, w)) else None
      end
  end.

Definition if_sched (env : bool * rb_env * (nat -> bool)) (k : nat) : stage := fun s =>
  match mqnic_find_reg_block (if_rb_list s.1) MQNIC_RB_SCHED_BLOCK_TYPE MQNIC_RB_SCHED_BLOCK_VER (Z.of_nat k) with
  | None => Some (- EIO, s)
  | Some rb =>
      '(r, h) ← mqnic_create_sched_block env.1.1 env.1.2 env.2 (if_hw_addr s.1) (if_hw_regs_size s.1) (Z.of_nat k) rb (w_hw s.2);
      let w := set_w_hw h s.2 in
      match r with
      | inl err => Some (err, (s.1, w))
      | inr b => if (k <? MQNIC_MAX_PORTS)%nat then Some (0, (add_sched b s.1, w)) else None
      end
  end.

(** Event queue [k], on interrupt [k % irq_count]. It is stored before it is
    opened. *)
Definition if_eq (d : if_dev) (env : bool * option (Z * Z) * Z) (k : nat) : stage := fun s =>
  if negb env.1.1 then Some (- ENOMEM, s)
  else if id_irq_count d =? 0 then None
  else
    '(ret, eq, w) ← mqnic_open_eq k mqnic_create_eq (Some (Z.of_nat k mod id_irq_count d)) (id_num_eq_entries d) env.1.2 env.2 s.2;
    let i := set_if_eqs (if_eqs s.1 ++ [eq]) s.1 in
    if negb (ret =? 0) then Some (ret, (i, w)) else Some (0, (i, mqnic_arm_eq eq w)).

(** [n] turns of a loop from [k] on. *)
Fixpoint repeat_stage (f : nat -> stage) (n k : nat) : stage :=
  match n with
  | O => fun s => Some (0, s)
  | S n' => then_ (f k) (repeat_stage f n' (S k))
  end.

Definition if_netdev (d : if_dev) (env : bool * bool * Z) : stage := fun s =>
  let i := s.1 in
  r ← mqnic_create_netdev env.1.1 env.1.2 env.2 (id_dev_port_max d)
        (mk_netdev_in (Z.of_nat (r_count (w_txq_res s.2))) (Z.of_nat (r_count (w_rxq_res s.2))) (id_online_cpus d) (id_num_txq_entries d) (id_num_rxq_entries d)
           (if_features i) (Z.to_nat (if_indir_table_size i)) (if_max_tx_mtu i) (if_max_rx_mtu i) (id_macs d));
  match r with
  | inl err => Some (err, s)
  | inr n => Some (0, (set_if_ndev (Some n) i, s.2))
  end.

Definition if_stages (d : if_dev) (env : if_env) : stage :=
  then_ (if_enumerate d (ie_rb env)) (
  then_ if_control (
  then_ (if_queues MQNIC_RB_EQM_TYPE MQNIC_MAX_EQ (ie_res env 0) set_eq_res) (
  then_ (if_queues MQNIC_RB_CQM_TYPE MQNIC_MAX_CQ (ie_res env 1) set_cq_res) (
  then_ (if_queues MQNIC_RB_TX_QM_TYPE MQNIC_MAX_TXQ (ie_res env 2) set_txq_res) (
  then_ (if_queues MQNIC_RB_RX_QM_TYPE MQNIC_MAX_RXQ (ie_res env 3) set_rxq_res) (
  then_ if_queue_map (
  then_ if_desc_block (
  then_ if_queues_off (
  then_ (fun s => repeat_stage (fun k => if_port (ie_port env k) k) (Z.to_nat (if_port_count s.1)) 0 s) (
  then_ (fun s => repeat_stage (fun k => if_sched (ie_sched env k) k) (Z.to_nat (if_sched_block_count s.1)) 0 s) (
  then_ (fun s => repeat_stage (fun k => if_eq d (ie_eq env k) k) (r_count (w_eq_res s.2)) 0 s)
        (if_netdev d (ie_netdev env))))))))))))).

(** ** Destruction *)

Fixpoint destroy_eqs (k : nat) (l : list mqnic_eq) (w : qworld hw) : option (qworld hw) :=
  match l with
  | [] => Some w
  | eq :: l' => '(_, w) ← mqnic_close_eq k eq w; destroy_eqs (S k) l' w
  end.

(** [mqnic_destroy_res] follows an error pointer; destroying the ports, and a
    network device that is not open, does not touch the device. *)
Definition mqnic_destroy_interface s : option (qworld hw) :=
  let '(i, w) := s in
  w ← destroy_eqs 0 (if_eqs i) w;
  let w := set_w_hw (foldl (fun h b => mqnic_destroy_sched_block b h) (w_hw w) (if_sched_blocks i)) w in
  if if_res_err i then None else Some w.

(** [inl]: an [ERR_PTR]; the world is what is left. *)
Definition mqnic_create_interface (d : if_dev) (env : if_env) (hw_addr : Z) (w : qworld hw) : option ((Z + mqnic_if) * qworld hw) :=
  if negb (ie_kzalloc env) then Some (inl (- ENOMEM), w)
  else
    '(ret, s) ← if_stages d env (if_new d hw_addr, w);
    if ret =? 0 then Some (inr s.1, s.2)
    else w ← mqnic_destroy_interface s; Some (inl ret, w).
End If.

(** ** The event queues of an interface *)

Lemma filter_all {A} (P : A -> Prop) `{!forall x, Decision (P x)} l : Forall P l -> base.filter P l = l.
Proof. induction 1 as [|x l Hx _ IH]; [done|]. by rewrite filter_cons_True, IH. Qed.
Lemma filter_none {A} (P : A -> Prop) `{!forall x, Decision (P x)} l : Forall (fun x => ~ P x) l -> base.filter P l = [].
Proof. induction 1 as [|x l Hx _ IH]; [done|]. by rewrite filter_cons_False. Qed.

Section EventQueues.
Context {hw : Type} `{!Mmio hw}.
Implicit Types w : qworld hw.

Definition eq_live (eq : mqnic_eq) : Prop := 0 <= q_index (eq_q eq) /\ is_Some (q_buf (eq_q eq)) /\ is_Some (eq_irq eq).
Definition eq_shut (eq : mqnic_eq) : Prop := queue_closed (eq_q eq) /\ eq_irq eq = None.
Definition eq_nums (l : list mqnic_eq) : list nat := (fun eq => Z.to_nat (q_index (eq_q eq))) <$> l.
Definition eq_bufs (l : list mqnic_eq) : list (Z * Z * Z) := l ≫= (fun eq => q_bufs (eq_q eq)).

(** The queues [l] hold their numbers, buffers and places on the interrupt
    chain, in addition to [B] and [C]. *)
Definition eqs_held (r0 : mqnic_res) (B : list (Z * Z * Z)) (C : list nat) (l : list mqnic_eq) w : Prop :=
  Forall eq_live l /\ res_holds r0 (w_eq_res w) (eq_nums l) /\ w_bufs w ≡ₚ eq_bufs l ++ B /\ w_chain w = reverse (seq 0 (length l)) ++ C.

Lemma close_eq_shut me eq w : eq_shut eq -> exists eq', mqnic_close_eq me eq w = Some (eq', w).
Proof.
  intros [[Hb Hi] He]. unfold mqnic_close_eq. rewrite He. apply orb_false_iff in Hb as [Hb Hb3]. apply orb_false_iff in Hb as [Hb1 Hb2].
  apply bool_decide_eq_false in Hb2, Hb3. destruct eq as [[? ? ? ? ? ? qb ? qi ? qh] ? ? ?]; cbn in *.
  destruct qh; [by destruct Hb2|]. destruct qb; [by destruct Hb3|]. cbn. rewrite res_free_noop by done. eexists. by destruct w.
Qed.

Lemma destroy_eqs_ok r0 B l : forall k w,
  Forall eq_live l -> res_holds r0 (w_eq_res w) (eq_nums l) -> w_bufs w ≡ₚ eq_bufs l ++ B ->
  exists w', destroy_eqs k l w = Some w' /\ res_holds r0 (w_eq_res w') [] /\ w_bufs w' ≡ₚ B /\
    w_chain w' = base.filter (fun x => ~ (k <= x < k + length l)%nat) (w_chain w).
Proof.
  induction l as [|eq l IH]; intros k w Hl Hr HB.
  { exists w. do 3 (split; [done|]). cbn [length]. symmetry. apply filter_all, Forall_forall. intros x _. lia. }
  apply Forall_cons in Hl as [(Hi & [b Hb] & [irqn Hirq]) Hl]. destruct eq as [q ev irq t]. cbn [eq_q eq_irq] in *. subst irq.
  cbn [eq_nums fmap list_fmap eq_q] in Hr. destruct (res_holds_free _ _ _ _ Hr Hi) as (res & Ef & Hres).
  unfold eq_bufs in HB. cbn [mbind list_bind eq_q] in HB. unfold q_bufs at 1 in HB. rewrite Hb in HB. cbn [option_list fmap list_fmap app] in HB.
  destruct (remove_one_perm _ _ _ HB) as (rest & Er & Hrest).
  destruct (close_eq_opened k q ev (Some irqn) t w rest b res Hb Er Ef) as (eq' & w1 & Ec & _ & _ & _ & G1 & G2 & _ & _ & _ & G3).
  cbn [destroy_eqs]. rewrite Ec. cbn [mbind option_bind].
  destruct (IH (Datatypes.S k) w1 Hl) as (w' & E & H1 & H2 & H3); [by rewrite G2|by rewrite G1|].
  exists w'. split; [exact E|]. split; [done|]. split; [done|]. rewrite H3, G3, list_filter_filter. apply list_filter_iff. intros x. cbn [length]. lia.
Qed.

Lemma destroy_eqs_app l2 : forall l1 k w, destroy_eqs k (l1 ++ l2) w = (w ← destroy_eqs k l1 w; destroy_eqs (k + length l1) l2 w).
Proof.
  induction l1 as [|eq l1 IH]; intros k w; cbn [app destroy_eqs length]; [by rewrite Nat.add_0_r|].
  destruct (mqnic_close_eq k eq w) as [[eq' w']|]; cbn [mbind option_bind]; [|done]. rewrite IH. by rewrite Nat.add_succ_r.
Qed.

(** The numbers of the event queues leave the chain, and no other. *)
Lemma chain_back n C : Forall (fun x => (n <= x)%nat) C -> base.filter (fun x => ~ (0 <= x < 0 + n)%nat) (reverse (seq 0 n) ++ C) = C.
Proof.
  intros HC. rewrite filter_app, filter_none, filter_all; [done|..].
  - apply Forall_forall. intros x Hx. pose proof (proj1 (Forall_forall _ _) HC x Hx). cbn in *. lia.
  - apply Forall_forall. intros x Hx%elem_of_reverse%elem_of_seq. lia.
Qed.

(** All queues are destroyed, the last of which may not have been opened. *)
Lemma destroy_eqs_all r0 B C l last w :
  eqs_held r0 B C l w -> Forall (fun x => (length l <= x)%nat) C -> (last = [] \/ exists eq, last = [eq] /\ eq_shut eq) ->
  exists w', destroy_eqs 0 (l ++ last) w = Some w' /\ w_bufs w' ≡ₚ B /\ w_chain w' = C.
Proof.
  intros (Hl & Hr & HB & Hc) HC Hlast. destruct (destroy_eqs_ok r0 B l 0 w Hl Hr HB) as (w' & E & _ & H1 & H2). exists w'. rewrite destroy_eqs_app, E. cbn [mbind option_bind].
  rewrite Hc, chain_back in H2 by done. split; [|done].
  destruct Hlast as [->|(eq & -> & Hs)]; cbn [destroy_eqs]; [done|]. by destruct (close_eq_shut (0 + length l) eq w' Hs) as [eq' ->].
Qed.

(** An event queue more. *)
Lemma open_eq_held r0 B C l irqn size buf ret0 w :
  eqs_held r0 B C l w -> 0 < size <= 2 ^ 31 ->
  exists ret eq w', mqnic_open_eq (length l) mqnic_create_eq (Some irqn) size buf ret0 w = Some (ret, eq, w') /\
    (w_cq_res w', w_txq_res w', w_rxq_res w') = (w_cq_res w, w_txq_res w, w_rxq_res w) /\ r_count (w_eq_res w') = r_count (w_eq_res w) /\
    (ret <> 0 -> eq_shut eq /\ eqs_held r0 B C l w') /\ (ret = 0 -> eq_table eq = ∅ /\ eqs_held r0 B C (l ++ [eq]) w').
Proof.
  intros (Hl & Hr & HB & Hc) Hsz. pose proof (proj1 Hr) as Hwf.
  destruct (open_eq_ok (length l) mqnic_create_eq irqn size buf ret0 w Hwf eq_refl eq_refl Hsz) as (ret & eq & w' & E & Hfail & Hok).
  exists ret, eq, w'. split; [exact E|]. destruct (decide (ret = 0)) as [->|Hne].
  - destruct (Hok eq_refl) as (Ea & Hi & (b & Hb & Hw) & F & Hk & Ht & _). injection F as F1 F2 F3 F4.
    pose proof (res_holds_alloc _ _ _ _ _ Hr Ea Hi) as Hr'. split; [congruence|]. split; [by rewrite (proj1 (proj2 Hr)), (proj1 (proj2 Hr'))|].
    split; [done|]. intros _. split; [done|]. split_and!.
    + apply Forall_app. split; [done|]. constructor; [|done]. split; [done|]. split; [by eexists|by eexists].
    + unfold eq_nums. rewrite fmap_app. cbn [fmap list_fmap]. by rewrite Permutation_app_comm.
    + rewrite Hw, HB. unfold eq_bufs. rewrite bind_app. cbn [mbind list_bind]. assert (q_bufs (eq_q eq) = [(q_buf_size (eq_q eq), b, q_buf_dma_addr (eq_q eq))]) as -> by (unfold q_bufs; by rewrite Hb). solve_Permutation.
    + rewrite F4, Hc, length_app, Nat.add_comm. cbn [length Nat.add]. by rewrite seq_S, reverse_app.
  - destruct (Hfail Hne) as (Hs & Hk & Hu & F). injection F as F1 F2 F3 F4 F5. split; [congruence|]. split; [apply Hu|]. split; [|done].
    intros _. split; [by split|]. split_and!; [done|by eapply res_holds_same|by rewrite F4|by rewrite F5].
Qed.

Lemma eqs_held_fixed r0 B C l w w' : w_fixed w' = w_fixed w -> eqs_held r0 B C l w -> eqs_held r0 B C l w'.
Proof. intros E. unfold w_fixed in E. injection E as E1 E2 E3 E4 E5 E6. unfold eqs_held. by rewrite E1, E5, E6. Qed.
End EventQueues.

(** ** Creating an interface *)

(** No number is handed out. *)
Definition fresh (r : mqnic_res) : Prop := r_bmap r = Some (replicate (r_count r) false).

Lemma fresh_wf r : fresh r -> res_wf r.
Proof. intros H. eexists. split; [exact H|]. apply length_replicate. Qed.
Lemma fresh_unused r k : fresh r -> ~ in_use r k.
Proof. intros H (b & E & Hk). rewrite H in E. injection E as <-. by apply lookup_replicate in Hk as [? _]. Qed.
Lemma create_res_fresh n base stride : exists r, mqnic_create_res true true n base stride = inr r /\ fresh r /\ r_count r = n.
Proof. eexists. split; [reflexivity|]. done. Qed.

Section Creation.
Context {hw : Type} `{!Mmio hw}.
Implicit Types (s : ifst (hw := hw)) (w : qworld hw).

(** A stage takes [P] to [Q], or fails with [F]. *)
Definition stage_ok (P Q F : ifst (hw := hw) -> Prop) (a : stage) : Prop :=
  forall s ret s', P s -> a s = Some (ret, s') -> (ret = 0 /\ Q s') \/ (ret <> 0 /\ F s').

Lemma then_ok P Q R F a b : stage_ok P Q F a -> stage_ok Q R F b -> stage_ok P R F (then_ a b).
Proof.
  intros Ha Hb s ret s' HP E. unfold then_ in E. destruct (a s) as [[r1 s1]|] eqn:E1; [|done]. cbn [mbind option_bind] in E.
  destruct (Ha _ _ _ HP E1) as [[-> HQ]|[Hne HF]]; [by apply (Hb s1)|].
  rewrite (proj2 (Z.eqb_neq _ _)) in E by done. cbn [negb] in E. injection E as <- <-. by right.
Qed.

Lemma repeat_ok (P : nat -> ifst (hw := hw) -> Prop) F f n : forall k,
  (forall j, (k <= j < k + n)%nat -> stage_ok (P j) (P (Datatypes.S j)) F (f j)) -> stage_ok (P k) (P (k + n)%nat) F (repeat_stage f n k).
Proof.
  induction n as [|n IH]; intros k Hf; cbn [repeat_stage].
  - rewrite Nat.add_0_r. intros s ret s' HP [= <- <-]. by left.
  - eapply then_ok; [apply Hf; lia|]. rewrite Nat.add_succ_r. apply (IH (Datatypes.S k)). intros j Hj. apply Hf. lia.
Qed.

Context (B : list (Z * Z * Z)) (C : list nat) (HC : Forall (fun x => MQNIC_MAX_EQ <= Z.of_nat x) C).
Context (d : if_dev) (Hirq : id_irq_count d <> 0) (Hsize : 0 < id_num_eq_entries d <= 2 ^ 31) (Hcpus : 0 < id_online_cpus d).

(** Before the event queues: [n] of the allocators are there (5: the size of
    the descriptor blocks too), [np] ports and [ns] scheduler blocks. *)
Definition bare (n np ns : nat) s : Prop :=
  let '(i, w) := s in
  if_eqs i = [] /\ if_res_err i = false /\ w_bufs w = B /\ w_chain w = C /\
  ((1 <= n)%nat -> fresh (w_eq_res w) /\ Z.of_nat (r_count (w_eq_res w)) <= MQNIC_MAX_EQ) /\ ((2 <= n)%nat -> fresh (w_cq_res w)) /\
  ((3 <= n)%nat -> fresh (w_txq_res w)) /\ ((4 <= n)%nat -> fresh (w_rxq_res w)) /\
  ((5 <= n)%nat -> 1 <= if_max_desc_block_size i <= Z.of_nat MQNIC_MAX_FRAGS) /\
  length (if_ports i) = np /\ length (if_sched_blocks i) = ns.

(** The event queues can be destroyed, and nothing else is in the way. *)
Definition undoable s : Prop :=
  if_res_err s.1 = false /\ exists w', destroy_eqs 0 (if_eqs s.1) s.2 = Some w' /\ w_bufs w' ≡ₚ B /\ w_chain w' = C.

Lemma bare_undoable n np ns s : bare n np ns s -> undoable s.
Proof. destruct s as [i w]. intros (He & Hr & HB & Hc & _). split; [done|]. exists w. cbn. by rewrite He, HB. Qed.

Ltac enough_bare H n np ns := right; split; [done|]; apply (bare_undoable n np ns); exact H.

Lemma enumerate_bare env : stage_ok (bare 0 0 0) (bare 0 0 0) undoable (if_enumerate d env).
Proof.
  intros [i w] ret s' H E. unfold if_enumerate in E. destruct (mqnic_enumerate_reg_block_list _ _ _ _ _ _ _) as [[r h]|]; [|done].
  cbn [mbind option_bind] in E. destruct r as [l| |]; [..|done]; injection E as <- <-.
  - left. split; [done|]. destruct H as (? & ? & ? & ? & _). by split_and!; try (intros ?; lia).
  - enough_bare H 0%nat 0%nat 0%nat.
Qed.

Lemma control_bare : stage_ok (bare 0 0 0) (bare 0 0 0) undoable if_control.
Proof.
  intros [i w] ret s' H E. unfold if_control in E. destruct (mqnic_find_reg_block _ _ _ _) as [rb|]; [|injection E as <- <-; enough_bare H 0%nat 0%nat 0%nat].
  unfold ifread in E. do 5 (destruct (ioread32 _ _) as [? ?]; cbn [fst snd] in E). injection E as <- <-.
  left. split; [done|]. destruct H as (? & ? & ? & ? & _). by split_and!; try (intros ?; lia).
Qed.

(** An allocator of queue numbers, under its place in the order. *)
Definition puts (n : nat) (put : mqnic_res -> qworld hw -> qworld hw) : Prop :=
  forall i w h res, bare n 0 0 (i, w) -> fresh res -> (n = 0%nat -> Z.of_nat (r_count res) <= MQNIC_MAX_EQ) -> bare (Datatypes.S n) 0 0 (i, put res (set_w_hw h w)).

Lemma queues_bare n type max put :
  puts n put -> (n = 0%nat -> max = MQNIC_MAX_EQ) -> stage_ok (bare n 0 0) (bare (Datatypes.S n) 0 0) undoable (if_queues type max (true, true) put).
Proof.
  intros Hput Hmax [i w] ret s' H E. unfold if_queues in E. destruct (mqnic_find_reg_block _ _ _ _) as [rb|]; [|injection E as <- <-; enough_bare H n 0%nat 0%nat].
  unfold ifread in E. destruct (ioread32 _ _) as [v1 h1]. cbn [fst snd] in E. destruct (ioread32 _ _) as [v2 h2]. cbn [fst snd] in E. destruct (ioread32 _ _) as [v3 h3]. cbn [fst snd] in E.
  destruct (create_res_fresh (Z.to_nat (Z.min v2 max)) (if_hw_addr i + v1) v3) as (r & Er & Hr & Hc). rewrite Er in E. injection E as <- <-.
  left. split; [done|]. apply (Hput i w); [done..|]. intros Hn. rewrite Hc, <- (Hmax Hn). assert (0 <= max) by (rewrite (Hmax Hn); done). lia.
Qed.

Lemma puts_eq : puts 0 set_eq_res.
Proof. intros i w h res (? & ? & ? & ? & _ & _ & _ & _ & _ & ? & ?) Hf Hc. split_and!; try done; try (intros ?; lia). intros _. split; [done|]. by apply Hc. Qed.
Lemma puts_cq : puts 1 set_cq_res.
Proof. intros i w h res (? & ? & ? & ? & H1 & _ & _ & _ & _ & ? & ?) Hf Hc. split_and!; try done; try (intros ?; lia). intros _. apply H1. lia. Qed.
Lemma puts_txq : puts 2 set_txq_res.
Proof. intros i w h res (? & ? & ? & ? & H1 & H2 & _ & _ & _ & ? & ?) Hf Hc. split_and!; try done; try (intros ?; lia); intros _; [apply H1; lia|apply H2; lia]. Qed.
Lemma puts_rxq : puts 3 set_rxq_res.
Proof. intros i w h res (? & ? & ? & ? & H1 & H2 & H3 & _ & _ & ? & ?) Hf Hc. split_and!; try done; try (intros ?; lia); intros _; [apply H1; lia|apply H2; lia|apply H3; lia]. Qed.

Lemma channels_bare n : forall k regs s s', bare 4 0 0 s -> map_channels n k regs s = Some s' -> bare 4 0 0 s'.
Proof.
  induction n as [|n IH]; intros k regs [i w] s' H E; cbn [map_channels] in E; [by injection E as <-|].
  destruct (_ <=? k)%nat; [done|]. unfold ifread in E. destruct (ioread32 _ _) as [v h]. by apply IH in E.
Qed.

Lemma queue_map_bare : stage_ok (bare 4 0 0) (bare 4 0 0) undoable if_queue_map.
Proof.
  intros [i w] ret s' H E. unfold if_queue_map in E. destruct (mqnic_find_reg_block _ _ _ _) as [rb|]; [|injection E as <- <-; enough_bare H 4%nat 0%nat 0%nat].
  unfold ifread in E. destruct (ioread32 _ _) as [v h]. cbn [fst snd] in E. destruct (31 <? _); [done|].
  destruct (map_channels _ _ _ _) as [s2|] eqn:E2; [|done]. injection E as <- <-. left. split; [done|]. by apply channels_bare in E2.
Qed.

Lemma desc_block_bare : stage_ok (bare 4 0 0) (bare 5 0 0) undoable if_desc_block.
Proof.
  intros [i w] ret s' H E. unfold if_desc_block in E. destruct (mqnic_res_get_addr _ _) as [a|]; [|done]. cbn [mbind option_bind] in E.
  unfold ifread in E. destruct (ioread32 _ _) as [v h]. cbn [fst snd] in E. injection E as <- <-. left. split; [done|].
  destruct H as (? & ? & ? & ? & H1 & H2 & H3 & H4 & _ & ? & ?). split_and!; try done; intros _; [apply H1; lia|apply H2; lia|apply H3; lia|apply H4; lia|].
  cbn [set_max_desc if_max_desc_block_size]. rewrite Z.shiftl_1_l. assert (0 < 2 ^ Z.land (Z.shiftr v 28) 15); [|unfold MQNIC_MAX_FRAGS; lia].
  apply Z.pow_pos_nonneg; [lia|]. apply Z.land_nonneg. lia.
Qed.

Lemma queues_off_bare : stage_ok (bare 5 0 0) (bare 5 0 0) undoable if_queues_off.
Proof. intros [i w] ret s' H [= <- <-]. by left. Qed.

(** Errors are not 0. *)
Lemma create_port_err ok env addr size index rb (h : hw) e h' : mqnic_create_port ok env addr size index rb h = Some (inl e, h') -> e <> 0.
Proof.
  unfold mqnic_create_port. destruct ok; cbn [negb]; [|by intros [= <- _]]. destruct (ioread32 _ _) as [off h1].
  destruct (mqnic_enumerate_reg_block_list _ _ _ _ _ _ _) as [[[l| |] h2]|]; cbn [mbind option_bind]; [|by intros [= <- _]|done..].
  destruct (mqnic_find_reg_block _ _ _ _) as [b|]; [|by intros [= <- _]]. destruct (ioread32 _ h2) as [f h3].
  unfold mqnic_port_get_tx_status, mqnic_port_get_rx_status. cbn [po_port_ctrl_rb mbind option_bind]. destruct (ioread32 _ h3) as [? h4]. by destruct (ioread32 _ h4).
Qed.

Lemma create_sched_err ok env sok addr size index rb (h : hw) e h' : mqnic_create_sched_block ok env sok addr size index rb h = Some (inl e, h') -> e <> 0.
Proof.
  unfold mqnic_create_sched_block. destruct ok; cbn [negb]; [|by intros [= <- _]]. destruct (ioread32 _ _) as [off h1].
  destruct (mqnic_enumerate_reg_block_list _ _ _ _ _ _ _) as [[[l| |] h2]|]; cbn [mbind option_bind]; [|by intros [= <- _]|done..].
  destruct (sched_loop _ _ _ _ _) as [[[ret b] h3]|]; cbn [mbind option_bind]; [|done]. destruct (Z.eqb_spec ret 0); [done|]. by intros [= <- _].
Qed.

Lemma create_netdev_err a k r port x e : mqnic_create_netdev a k r port x = Some (inl e) -> e <> 0.
Proof.
  unfold mqnic_create_netdev. destruct a; cbn [negb]; [|by intros [= <-]]. destruct k; cbn [negb]; [|by intros [= <-]].
  destruct (_ && _); [done|]. destruct (Z.eqb_spec r 0); cbn [negb]; [done|]. by intros [= <-].
Qed.

(** The counts the device declares stay the same. *)
Definition counts s : Z * Z := (if_port_count s.1, if_sched_block_count s.1).

Lemma port_bare c env k : stage_ok (fun s => bare 5 k 0 s /\ counts s = c /\ (k <= MQNIC_MAX_PORTS)%nat) (fun s => bare 5 (Datatypes.S k) 0 s /\ counts s = c /\ (Datatypes.S k <= MQNIC_MAX_PORTS)%nat) undoable (if_port env k).
Proof.
  intros [i w] ret s' (H & Hc & Hk) E. unfold if_port in E. destruct (mqnic_find_reg_block _ _ _ _) as [rb|]; [|injection E as <- <-; enough_bare H 5%nat k 0%nat].
  destruct (mqnic_create_port _ _ _ _ _ _ _) as [[[e|p] h]|] eqn:Ep; cbn [mbind option_bind] in E; [..|done].
  - injection E as <- <-. right. split; [by eapply create_port_err|]. by apply (bare_undoable 5 k 0).
  - destruct (Nat.ltb_spec k MQNIC_MAX_PORTS) as [Hlt|]; [|done]. injection E as <- <-. left. split; [done|]. split; [|by split].
    destruct H as (? & ? & ? & ? & H1 & H2 & H3 & H4 & H5 & H6 & ?). do 9 (split; [done|]). split; [|done]. cbn [add_port if_ports]. rewrite length_app, H6, Nat.add_comm. done.
Qed.

Lemma sched_bare c np env k :
  stage_ok (fun s => bare 5 np k s /\ counts s = c /\ (k <= MQNIC_MAX_PORTS)%nat) (fun s => bare 5 np (Datatypes.S k) s /\ counts s = c /\ (Datatypes.S k <= MQNIC_MAX_PORTS)%nat) undoable (if_sched env k).
Proof.
  intros [i w] ret s' (H & Hc & Hk) E. unfold if_sched in E. destruct (mqnic_find_reg_block _ _ _ _) as [rb|]; [|injection E as <- <-; enough_bare H 5%nat np k].
  destruct (mqnic_create_sched_block _ _ _ _ _ _ _ _) as [[[e|b] h]|] eqn:Ep; cbn [mbind option_bind] in E; [..|done].
  - injection E as <- <-. right. split; [by eapply create_sched_err|]. by apply (bare_undoable 5 np k).
  - destruct (Nat.ltb_spec k MQNIC_MAX_PORTS) as [Hlt|]; [|done]. injection E as <- <-. left. split; [done|]. split; [|by split].
    destruct H as (? & ? & ? & ? & H1 & H2 & H3 & H4 & H5 & ? & H6). do 10 (split; [done|]). cbn [add_sched if_sched_blocks]. rewrite length_app, H6, Nat.add_comm. done.
Qed.

(** A port and a scheduler block for each that the device declares. *)
Definition populated s : Prop :=
  let '(i, w) := s in
  length (if_ports i) = Z.to_nat (if_port_count i) /\ length (if_sched_blocks i) = Z.to_nat (if_sched_block_count i) /\
  (length (if_ports i) <= MQNIC_MAX_PORTS)%nat /\ (length (if_sched_blocks i) <= MQNIC_MAX_PORTS)%nat.

Definition ported s : Prop := exists np, bare 5 np 0 s /\ np = Z.to_nat (if_port_count s.1) /\ (np <= MQNIC_MAX_PORTS)%nat.

Lemma ports_bare env :
  stage_ok (bare 5 0 0) ported undoable (fun s => repeat_stage (fun k => if_port (env k) k) (Z.to_nat (if_port_count s.1)) 0 s).
Proof.
  intros s ret s' H E.
  destruct (repeat_ok (fun k s' => bare 5 k 0 s' /\ counts s' = counts s /\ (k <= MQNIC_MAX_PORTS)%nat) undoable (fun k => if_port (env k) k) (Z.to_nat (if_port_count s.1)) 0 ltac:(intros; apply port_bare) s ret s') as [[-> (Hb & Hc & Hle)]|?];
    [split_and!; [done..|lia]|exact E| |by right].
  left. split; [done|]. eexists. split; [exact Hb|]. injection Hc as -> _. done.
Qed.

Lemma scheds_bare env :
  stage_ok ported (fun s => (exists np ns, bare 5 np ns s) /\ populated s) undoable
    (fun s => repeat_stage (fun k => if_sched (env k) k) (Z.to_nat (if_sched_block_count s.1)) 0 s).
Proof.
  intros s ret s' (np & H & Hnp & Hle) E.
  destruct (repeat_ok (fun k s' => bare 5 np k s' /\ counts s' = counts s /\ (k <= MQNIC_MAX_PORTS)%nat) undoable (fun k => if_sched (env k) k) (Z.to_nat (if_sched_block_count s.1)) 0 ltac:(intros; apply sched_bare) s ret s') as [[-> (Hb & Hc & Hle')]|?];
    [split_and!; [done..|lia]|exact E| |by right].
  left. split; [done|]. split; [by do 2 eexists|]. destruct s' as [i w], Hb as (_ & _ & _ & _ & _ & _ & _ & _ & _ & Hp & Hs). injection Hc as Hc1 Hc2. unfold populated. rewrite Hp, Hs, Hc1, Hc2. done.
Qed.

(** With [k] of the event queues open. *)
Definition settled (k n : nat) s : Prop :=
  let '(i, w) := s in
  if_res_err i = false /\ (exists r0, fresh r0 /\ eqs_held r0 B C (if_eqs i) w) /\ r_count (w_eq_res w) = n /\ Z.of_nat n <= MQNIC_MAX_EQ /\ length (if_eqs i) = k /\
  Forall (fun eq => eq_table eq = ∅) (if_eqs i) /\ fresh (w_cq_res w) /\ fresh (w_txq_res w) /\ fresh (w_rxq_res w) /\
  1 <= if_max_desc_block_size i <= Z.of_nat MQNIC_MAX_FRAGS /\ populated s.

Lemma settled_chain k n s : settled k n s -> (k <= n)%nat -> Forall (fun x => (k <= x)%nat) C.
Proof. destruct s as [i w]. intros (_ & _ & _ & Hn & _) Hk. eapply Forall_impl; [exact HC|]. cbn. lia. Qed.

Lemma settled_undoable k n s : settled k n s -> (k <= n)%nat -> undoable s.
Proof.
  intros H Hk. pose proof (settled_chain _ _ _ H Hk) as Hch. destruct s as [i w], H as (He & (r0 & _ & Hh) & _ & _ & Hl & _). split; [done|]. rewrite <- Hl in Hch.
  destruct (destroy_eqs_all r0 B C (if_eqs i) [] w Hh Hch (or_introl eq_refl)) as (w' & E & H'). rewrite app_nil_r in E. by exists w'.
Qed.

Lemma eq_settled env k n : (k < n)%nat -> stage_ok (settled k n) (settled (Datatypes.S k) n) undoable (if_eq d env k).
Proof.
  intros Hkn [i w] ret s' H E. pose proof (settled_chain _ _ _ H ltac:(lia)) as Hch. unfold if_eq in E.
  destruct (env.1.1); cbn [negb] in E; [|injection E as <- <-; right; split; [done|]; eapply settled_undoable; [exact H|lia]].
  rewrite (proj2 (Z.eqb_neq _ _)) in E by done. destruct H as (He & (r0 & Hf & Hh) & Hc & Hn & Hl & Ht & H). cbn [fst snd] in E.
  destruct (open_eq_held r0 B C (if_eqs i) (Z.of_nat k mod id_irq_count d) (id_num_eq_entries d) (env.1.2) (env.2) w Hh Hsize) as (r & eq & w' & Eo & F & Hc' & Hfail & Hok).
  rewrite Hl in Eo. rewrite Eo in E. cbn [mbind option_bind] in E. injection F as F1 F2 F3. destruct (Z.eqb_spec r 0) as [->|Hne]; cbn [negb] in E; injection E as <- <-.
  - left. split; [done|]. destruct (Hok eq_refl) as [Ht' Hh'].
    assert (w_fixed (mqnic_arm_eq eq w') = w_fixed w') as Ew by (unfold mqnic_arm_eq, write_ctrl; by repeat case_match).
    pose proof Ew as Ew'. unfold w_fixed in Ew'. injection Ew' as G1 G2 G3 G4 G5 G6. unfold settled. rewrite G1, G2, G3, G4, F1, F2, F3. cbn [set_if_eqs if_res_err if_eqs if_max_desc_block_size].
    split; [done|]. split; [exists r0; split; [done|]; by apply (eqs_held_fixed _ _ _ _ w')|]. split; [congruence|]. split; [done|]. split; [by rewrite length_app, Hl, Nat.add_comm|].
    split; [apply Forall_app; by split; [|constructor]|]. exact H.
  - right. split; [done|]. destruct (Hfail Hne) as [Hs Hh']. split; [done|]. cbn [fst snd set_if_eqs if_eqs].
    apply (destroy_eqs_all r0 B C); [done|by rewrite Hl|]. right. by exists eq.
Qed.

Lemma eqs_settled env :
  stage_ok (fun s => (exists np ns, bare 5 np ns s) /\ populated s) (fun s => settled (r_count (w_eq_res s.2)) (r_count (w_eq_res s.2)) s) undoable
    (fun s => repeat_stage (fun k => if_eq d (env k) k) (r_count (w_eq_res s.2)) 0 s).
Proof.
  intros [i w] ret s' [(np & ns & H1 & H2 & H3 & H4 & H5 & H6 & H7 & H8 & H9 & _) Hp] E. destruct (H5 ltac:(lia)) as [Hf Hn].
  destruct (repeat_ok (fun k => settled k (r_count (w_eq_res w))) undoable (fun k => if_eq d (env k) k) (r_count (w_eq_res w)) 0 ltac:(intros; apply eq_settled; lia) (i, w) ret s') as [[-> Hs]|?];
    [|exact E| |by right].
  - unfold settled. rewrite H1. split; [done|]. split; [exists (w_eq_res w); split; [done|]; unfold eqs_held; rewrite H3, H4; by split_and!; [|apply res_holds_nil, fresh_wf|..]|].
    do 4 (split; [done|]). split; [apply H6; lia|]. split; [apply H7; lia|]. split; [apply H8; lia|]. split; [apply H9; lia|done].
  - left. split; [done|]. pose proof Hs as Hs'. destruct s' as [i' w'], Hs' as (_ & _ & Hc & _). cbn [snd]. by rewrite Hc.
Qed.

(** Its network device: proper rings and an indirection table in range. *)
Definition netdev_ok (n : new_netdev) : Prop :=
  (exists m, 8 <= m <= 15 /\ nn_tx_ring_size n = 2 ^ m) /\ (exists m, 8 <= m <= 15 /\ nn_rx_ring_size n = 2 ^ m) /\
  0 <= nn_rxq_count n /\ Forall (fun q => 0 <= q < nn_rxq_count n) (nn_indir n) /\ nd_port_up (nn_dev n) = false.

(** The interface as it is handed out. *)
Definition ready s : Prop :=
  settled (r_count (w_eq_res s.2)) (r_count (w_eq_res s.2)) s /\
  exists n, if_ndev s.1 = Some n /\ netdev_ok n.

Lemma netdev_ready env : stage_ok (fun s => settled (r_count (w_eq_res s.2)) (r_count (w_eq_res s.2)) s) ready undoable (if_netdev d env).
Proof.
  intros s ret s' H E. unfold if_netdev in E. destruct (mqnic_create_netdev _ _ _ _ _) as [[e|n]|] eqn:En; cbn [mbind option_bind] in E; [..|done].
  - injection E as <- <-. right. split; [by eapply create_netdev_err|]. eapply settled_undoable; [exact H|done].
  - injection E as <- <-. left. split; [done|]. split; [by destruct s|]. exists n. split; [done|].
    unfold mqnic_create_netdev in En. cbn [ni_rxq_count ni_online_cpus ni_indir_table_size] in En.
    destruct (env.1.1); [|done]. destruct (env.1.2); [|done]. cbn [negb] in En. destruct (_ && _) eqn:Ez; [done|]. destruct (env.2 =? 0); [|done]. injection En as <-.
    split; [apply ring_size_range|]. split; [apply ring_size_range|]. cbn [nn_rxq_count nn_indir nn_dev nd_port_up]. split; [lia|]. split; [|done].
    apply Forall_forall. intros q (k & -> & Hk)%list_elem_of_fmap. apply elem_of_seq in Hk. apply Z.mod_pos_bound.
    apply andb_false_iff in Ez as [Ez|Ez]; [apply Z.eqb_neq in Ez; lia|]. apply negb_false_iff, Nat.eqb_eq in Ez. lia.
Qed.

Lemma stages_ok env : (forall k, ie_res env k = (true, true)) -> stage_ok (bare 0 0 0) ready undoable (if_stages d env).
Proof.
  intros Hres. unfold if_stages. rewrite !Hres. eapply then_ok; [apply enumerate_bare|]. eapply then_ok; [apply control_bare|].
  eapply then_ok; [by apply queues_bare; [apply puts_eq|]|]. eapply then_ok; [by apply queues_bare; [apply puts_cq|]|].
  eapply then_ok; [by apply queues_bare; [apply puts_txq|]|]. eapply then_ok; [by apply queues_bare; [apply puts_rxq|]|].
  eapply then_ok; [apply queue_map_bare|]. eapply then_ok; [apply desc_block_bare|]. eapply then_ok; [apply queues_off_bare|].
  eapply then_ok; [apply ports_bare|]. eapply then_ok; [apply scheds_bare|]. eapply then_ok; [apply eqs_settled|]. apply netdev_ready.
Qed.

(** Destroying what can be undone gives everything back. *)
Lemma undoable_destroy s : undoable s -> exists w', mqnic_destroy_interface s = Some w' /\ w_bufs w' ≡ₚ B /\ w_chain w' = C.
Proof.
  destruct s as [i w]. intros [He (w' & E & H1 & H2)]. cbn [fst snd] in *. unfold mqnic_destroy_interface. rewrite E. cbn [mbind option_bind]. rewrite He.
  eexists. split; [reflexivity|]. done.
Qed.
End Creation.

(** ** The interface and its network device *)

Section Whole.
Context {hw : Type} `{!Mmio hw}.
Implicit Types w : qworld hw.

(** The network device of a new interface: not open, its tables empty. *)
Definition if_netport (i : mqnic_if) (n : new_netdev) (k : kmem) (t : tmem) (next : nat) w : port hw :=
  mk_netport w k t (if_eqs i) ∅ next ∅ ∅ ∅ (nn_dev n).
Definition if_cfg (i : mqnic_if) (n : new_netdev) (link_status_poll : Z) : port_cfg :=
  mk_cfg (Z.to_nat (nn_rxq_count n)) (Z.to_nat (nn_txq_count n)) (nn_rx_ring_size n) (nn_tx_ring_size n) (if_max_desc_block_size i)
    (if_ctrl_regs i) (if_queue_map_regs i) (nth 0 (if_indir_table i) 0) (nn_indir n) (if_sched_blocks i) (if_ports i) link_status_poll (nn_min_mtu n) (nn_max_mtu n).

(** [unregister_netdev] closes the device if it is up. *)
Definition mqnic_destroy_netdev (cfg : port_cfg) (s : netlife hw) : option (netlife hw) :=
  if nl_running s then '(_, p) ← mqnic_close cfg (nl_port s); Some (mk_netlife p ∅ false) else Some s.

(** [mqnic_destroy_interface] on an interface whose device has been in use:
    the device goes first, then what it used. *)
Definition destroy_interface_netdev (cfg : port_cfg) (i : mqnic_if) (s : netlife hw) : option (qworld hw) :=
  s ← mqnic_destroy_netdev cfg s;
  mqnic_destroy_interface (set_if_eqs (p_eqs (nl_port s)) (set_if_ndev None i), p_w (nl_port s)).

(** What an interface starts from. *)
Definition if_start_ok (d : if_dev) (env : if_env) w : Prop :=
  id_irq_count d <> 0 /\ 0 < id_num_eq_entries d <= 2 ^ 31 /\ 0 < id_online_cpus d /\ (forall k, ie_res env k = (true, true)) /\
  Forall (fun x => MQNIC_MAX_EQ <= Z.of_nat x) (w_chain w).

Lemma new_bare d addr w : bare (w_bufs w) (w_chain w) 0 0 0 (if_new d addr, w).
Proof. by split_and!; try (intros ?; lia). Qed.

(** What a creation gives: everything back, or an interface that can be
    destroyed, whatever else has happened to the registers since. *)
Lemma create_interface_result d env addr w r w' :
  if_start_ok d env w -> mqnic_create_interface d env addr w = Some (r, w') ->
  match r with
  | inl ret => ret <> 0 /\ w_bufs w' ≡ₚ w_bufs w /\ w_chain w' = w_chain w
  | inr i =>
      length (if_eqs i) = r_count (w_eq_res w') /\ Forall eq_live (if_eqs i) /\ NoDup (eq_nums (if_eqs i)) /\
      populated (i, w') /\ 1 <= if_max_desc_block_size i <= Z.of_nat MQNIC_MAX_FRAGS /\
      forall h, exists w'', mqnic_destroy_interface (i, set_w_hw h w') = Some w'' /\ w_bufs w'' ≡ₚ w_bufs w /\ w_chain w'' = w_chain w
  end.
Proof.
  intros (Hirq & Hsz & Hcpu & Hres & HC) Ec. unfold mqnic_create_interface in Ec. destruct (ie_kzalloc env); cbn [negb] in Ec; [|by injection Ec as <- <-].
  destruct (if_stages _ _ _) as [[ret s]|] eqn:E; [|done]. cbn [mbind option_bind] in Ec.
  destruct (stages_ok (w_bufs w) (w_chain w) HC d Hirq Hsz Hcpu env Hres _ _ _ (new_bare d addr w) E) as [[-> [Hr _]]|[Hne Hu]].
  - destruct s as [i w1]. cbn [Z.eqb fst snd] in Ec. injection Ec as <- <-. pose proof (settled_chain _ _ HC _ _ _ Hr ltac:(lia)) as Hch. destruct Hr as (Herr & (r0 & Hf & Hl & Hh & Hh2 & Hh3) & _ & _ & Hlen & _ & _ & _ & _ & Hm & Hp).
    pose proof Hh as (_ & _ & Hnd & _). do 5 (split; [done|]). intros h. apply undoable_destroy. split; [done|]. cbn [fst snd]. rewrite <- (app_nil_r (if_eqs i)). apply (destroy_eqs_all r0); [|by rewrite Hlen|by left].
    apply (eqs_held_fixed r0 _ _ _ w1); [done|]. exact (conj Hl (conj Hh (conj Hh2 Hh3))).
  - rewrite (proj2 (Z.eqb_neq _ _)) in Ec by done. destruct (undoable_destroy _ _ _ Hu) as (w'' & E'' & H1 & H2). rewrite E'' in Ec. cbn [mbind option_bind] in Ec. by injection Ec as <- <-.
Qed.


Lemma ready_down B C i n w k t next poll :
  settled B C (length (if_eqs i)) (length (if_eqs i)) (i, w) -> if_eqs i <> [] -> if_sched_blocks i <> [] -> netdev_ok n ->
  port_down (if_netport i n k t next w) /\ cfg_ok (if_cfg i n poll) /\ indir_ok (if_cfg i n poll).
Proof.
  intros (_ & (r0 & _ & Hh) & _ & _ & _ & Ht & F1 & F2 & F3 & Hm & _) He Hs ((mt & Hmt & Et) & (mr & Hmr & Er) & Hq & Hi & _). split; [|split].
  - split; [split_and!; [apply Hh|by apply fresh_wf..]|]. do 3 (split; [done|]). split; [done|]. split.
    + intros e eq m c Hl Htab. rewrite (Forall_lookup_1 _ _ _ _ Ht Hl) in Htab. done.
    + intros c [? Hc]. done.
  - unfold cfg_ok, if_cfg. cbn [cf_rx_ring_size cf_tx_ring_size cf_max_desc_block_size cf_sched_blocks]. rewrite Et, Er.
    assert (2 ^ 8 <= 2 ^ mt <= 2 ^ 15) by (split; apply Z.pow_le_mono_r; lia). assert (2 ^ 8 <= 2 ^ mr <= 2 ^ 15) by (split; apply Z.pow_le_mono_r; lia).
    split; [lia|]. split; [lia|]. by split; [lia|].
  - unfold indir_ok, if_cfg. cbn [cf_rxq_count cf_indir]. by rewrite Z2Nat.id by done.
Qed.

End Whole.

(** ** Examples *)

(** The registers of an interface with two event queues, four completion
    queues, two queues in each direction, a port and a scheduler block. *)
Definition block (a type ver next : Z) (regs : list (Z * Z)) : list (Z * Z) :=
  [(type, a); (ver, a + 4); (next, a + 8)] ++ ((fun x => (x.1, a + x.2)) <$> regs).
Definition if_regs : list (Z * Z) :=
  block 0x100 MQNIC_RB_IF_CTRL_TYPE MQNIC_RB_IF_CTRL_VER 0x140 [(1, 0x10); (1, 0x14); (9214, 0x20); (9214, 0x24)] ++
  block 0x140 MQNIC_RB_EQM_TYPE MQNIC_RB_QM_VER 0x160 [(0x1000, 0x0C); (2, 0x10); (0x10, 0x14)] ++
  block 0x160 MQNIC_RB_CQM_TYPE MQNIC_RB_QM_VER 0x180 [(0x2000, 0x0C); (4, 0x10); (0x10, 0x14)] ++
  block 0x180 MQNIC_RB_TX_QM_TYPE MQNIC_RB_QM_VER 0x1A0 [(0x3000, 0x0C); (2, 0x10); (0x20, 0x14)] ++
  block 0x1A0 MQNIC_RB_RX_QM_TYPE MQNIC_RB_QM_VER 0x1C0 [(0x4000, 0x0C); (2, 0x10); (0x20, 0x14)] ++
  block 0x1C0 MQNIC_RB_RX_QUEUE_MAP_TYPE MQNIC_RB_RX_QUEUE_MAP_VER 0x200 [(0x100, 0x0C); (0x5000, 0x10)] ++
  block 0x200 MQNIC_RB_PORT_TYPE MQNIC_RB_PORT_VER 0x220 [(0x300, 0x0C)] ++
  block 0x220 MQNIC_RB_SCHED_BLOCK_TYPE MQNIC_RB_SCHED_BLOCK_VER 0 [(0x380, 0x0C)] ++
  block 0x300 MQNIC_RB_PORT_CTRL_TYPE MQNIC_RB_PORT_CTRL_VER 0 [] ++
  block 0x380 MQNIC_RB_SCHED_RR_TYPE MQNIC_RB_SCHED_RR_VER 0 [(0x6000, 0x0C); (2, 0x10); (4, 0x14)] ++
  [(0x30000000, 0x300C)].
Definition world_if : qworld memory :=
  mk_qworld (write_all if_regs (∅ : memory)) (w_eq_res world0) (w_cq_res world0) (w_txq_res world0) (w_rxq_res world0) [(64, 1, 1)] [300%nat].
Definition dev_if : if_dev := mk_if_dev 0x10000 0x100 1 1024 0 1 1024 1024 [].
Definition rb_ok : rb_env := mk_rb_env 16 true (fun _ => true).
(** All allocations succeed but the event queues from [n] on, and the
    allocators of numbers if [res] is [false]. *)
Definition env_if (res : bool) (n : nat) : if_env :=
  mk_if_env true rb_ok (fun _ => (res, res)) (fun _ => (true, rb_ok)) (fun _ => (true, rb_ok, fun _ => true))
    (fun k => (true, if (k <? n)%nat then Some (0x70 + Z.of_nat k, 0x80 + Z.of_nat k) else None, 0)) (true, true, 0).

Lemma start_if n : if_start_ok dev_if (env_if true n) world_if.
Proof. split_and!; try done. repeat constructor. done. Qed.

(** Success, and a failure at the second event queue. *)
Lemma create_if : (fun x => match x with (inr i, w) => inr (length (if_eqs i), length (w_bufs w), w_chain w, if_max_desc_block_size i, length (if_sched_blocks i)) | (inl e, w) => inl e end)
    <$> mqnic_create_interface dev_if (env_if true 2) 0 world_if = Some (inr (2%nat, 3%nat, [1%nat; 0%nat; 300%nat], 8, 1%nat)).
Proof. vm_compute. reflexivity. Qed.
Lemma stages_if n : (n <= 2)%nat -> is_Some (if_stages dev_if (env_if true n) (if_new dev_if 0, world_if)).
Proof.
  intros Hn. assert (match if_stages dev_if (env_if true n) (if_new dev_if 0, world_if) with Some _ => true | None => false end = true) as H
    by (assert (n = 0 \/ n = 1 \/ n = 2)%nat as [->|[->| ->]] by lia; vm_compute; reflexivity).
  destruct (if_stages _ _ _) as [x|]; [by exists x|discriminate H].
Qed.
Lemma create_if_fails : (fun x => match x with (inl e, _) => e | _ => 0 end) <$> mqnic_create_interface dev_if (env_if true 1) 0 world_if = Some (- ENOMEM).
Proof. vm_compute. reflexivity. Qed.


(** Open, send a packet, complete and reap it, then larger rings and a single
    transmit channel; the device stays up. *)
Definition envs_if (b : Z) : nat -> queue_env := fun k => qenv (b + 0x10 * Z.of_nat k).
Definition events_if : list eth_event :=
  [Net (Open (envs_if 0x1000) (envs_if 0x2000)); Net (Xmit tx_env0 xmit_env0 skb_b); Net (DevTx 11 60 0 0); Net (NapiTx 11 tx_env0 64);
   SetRing (mk_ringparam 300 0 0 300) (envs_if 0x3000) (envs_if 0x4000); SetChannels 2 2 (mk_channels 1 1 0 0) (envs_if 0x5000) (envs_if 0x6000);
   SetRxfh (Some [0; 0]) 0].


(** The device is up, with the new rings, and has sent the packet before the
    interface goes. *)
Lemma life_if : (fun x => (nl_running x.2, cf_rx_ring_size x.1, cf_txq_count x.1, t_sent (p_t (nl_port x.2)), length (w_bufs (p_w (nl_port x.2))))) <$>
    (x ← mqnic_create_interface dev_if (env_if true 2) 0 world_if;
     i ← match x.1 with inr i => Some i | inl _ => None end; n ← if_ndev i;
     eth_run events_if (if_cfg i n 0, mk_netlife (if_netport i n (mk_kmem [] [] 0 [] []) tmem0 10 x.2) ∅ false)) = Some (true, 512, 1%nat, [200], 7%nat).
Proof. vm_compute. reflexivity. Qed.

(** When an allocator cannot be allocated, the error pointer stays in the
    interface and [mqnic_destroy_res] follows it. *)
Theorem create_interface_follows_err_ptr : mqnic_create_interface dev_if (env_if false 2) 0 world_if = None.
Proof. vm_compute. reflexivity. Qed.
