(* ===== verification/MqnicModule.v ===== *)
(** * The EEPROM of the transceiver module

    Model of the last part of [modules/mqnic/mqnic_ethtool.c]: the memory of an
    SFP or QSFP module is read over I2C in pieces of at most 32 bytes, through
    two bus addresses (SFP) or through pages of 128 bytes (QSFP). The module
    and the I2C core are parameters: [mem a p o] is byte [o] at bus address
    [a] with page [p] selected, and [ans n] the answer of transfer [n], an
    error or how many bytes it moves at most. *)

From S2P Require Import Prelude.

Definition SFF_MODULE_ID_SFP : Z := 0x03.
Definition SFF_MODULE_ID_QSFP : Z := 0x0c.
Definition SFF_MODULE_ID_QSFP_PLUS : Z := 0x0d.
Definition SFF_MODULE_ID_QSFP28 : Z := 0x11.
Definition I2C_SMBUS_BLOCK_MAX : Z := 32.
Definition ETH_MODULE_SFF_8472 : Z := 0x2.
Definition ETH_MODULE_SFF_8472_LEN : Z := 512.
Definition ETH_MODULE_SFF_8636 : Z := 0x3.
Definition ETH_MODULE_SFF_8636_LEN : Z := 256.
Definition ETH_MODULE_SFF_8436 : Z := 0x4.
Definition ETH_MODULE_SFF_8436_LEN : Z := 256.

(** [mod_i2c_client] with its address ([None]: NULL), the page selected, and
    the number of transfers so far. *)
Record mstate := mk_ms {
  ms_client : option Z;
  ms_page : Z;
  ms_calls : nat;
}.

Section Eeprom.
Variable mem : Z -> Z -> Z -> Z.
Variable ans : nat -> Z.
Implicit Types st : mstate.

(** Result, the bytes stored, state. *)
Definition mqnic_read_module_eeprom (offset len : Z) st : Z * list Z * mstate :=
  match ms_client st with
  | None => (- EINVAL, [], st)
  | Some a =>
      let len := Z.min len I2C_SMBUS_BLOCK_MAX in
      let r := ans (ms_calls st) in
      let st := mk_ms (Some a) (ms_page st) (S (ms_calls st)) in
      if r <? 0 then (r, [], st)
      else
        let n := Z.min r len in
        (n, (fun j => mem a (ms_page st) (u8 (offset + Z.of_nat j))) <$> seq 0 (Z.to_nat n), st)
  end.

(** One byte, as the code writes. Byte 127 of a QSFP module selects the page. *)
Definition mqnic_write_module_eeprom (offset d : Z) st : Z * mstate :=
  match ms_client st with
  | None => (- EINVAL, st)
  | Some a =>
      let r := ans (ms_calls st) in
      if r <? 0 then (r, mk_ms (Some a) (ms_page st) (S (ms_calls st)))
      else (r, mk_ms (Some a) (if offset =? 127 then d else ms_page st) (S (ms_calls st)))
  end.

(** [None]: the byte is used although nothing was read. *)
Definition mqnic_query_module_id st : option (Z * mstate) :=
  let '(ret, data, st) := mqnic_read_module_eeprom 0 1 st in
  if ret <? 0 then Some (ret, st) else d ← head data; Some (d, st).

Definition is_qsfp (id : Z) : bool := (id =? SFF_MODULE_ID_QSFP) || (id =? SFF_MODULE_ID_QSFP_PLUS) || (id =? SFF_MODULE_ID_QSFP28).

Definition mqnic_query_module_eeprom_by_page (i2c_addr page bank offset len : Z) st : option (Z * list Z * mstate) :=
  '(module_id, st) ← mqnic_query_module_id st;
  if module_id <? 0 then Some (module_id, [], st)
  else
    let read st :=
      match ms_client st with
      | None => Some (- EINVAL, [], st)
      | Some orig =>
          let '(ret, data, st) := mqnic_read_module_eeprom offset len (mk_ms (Some i2c_addr) (ms_page st) (ms_calls st)) in
          Some (ret, data, mk_ms (Some orig) (ms_page st) (ms_calls st))
      end in
    if module_id =? SFF_MODULE_ID_SFP then
      if (0 <? page) || (0 <? bank) then Some (- EINVAL, [], st)
      else if negb (i2c_addr =? 0x50) && negb (i2c_addr =? 0x51) then Some (- EINVAL, [], st)
      else read st
    else if is_qsfp module_id then
      if (3 <? page) || (0 <? bank) then Some (- EINVAL, [], st)
      else if negb (i2c_addr =? 0x50) then Some (- EINVAL, [], st)
      else read (if 128 <=? offset + len then (mqnic_write_module_eeprom 127 (u8 page) st).2 else st)
    else Some (- EINVAL, [], st).

(** The bus address, the page and the offset a place in the linear view of
    the module stands for; [None]: unknown module. 16-bit variables. *)
Definition locate (module_id offset : Z) : option (Z * Z * Z) :=
  if module_id =? SFF_MODULE_ID_SFP then
    Some (if 256 <=? offset then (0x51, 0, u16 (offset - 256)) else (0x50, 0, offset))
  else if is_qsfp module_id then
    Some (if offset <? 256 then (0x50, 0, offset)
          else let page := 1 + (offset - 256) / 128 in (0x50, page, u16 (offset - page * 128)))
  else None.

Definition mqnic_query_module_eeprom (offset len : Z) st : option (Z * list Z * mstate) :=
  '(module_id, st) ← mqnic_query_module_id st;
  if module_id <? 0 then Some (module_id, [], st)
  else match locate module_id offset with
  | None => Some (- EINVAL, [], st)
  | Some (i2c_addr, page, offset) =>
      let len := if 256 <? offset + len then u16 (256 - offset) else len in
      mqnic_query_module_eeprom_by_page i2c_addr page 0 offset len st
  end.

(** The loops of the two callers: [i] bytes are there. Some error, or how far
    they came; [data] is the whole buffer. *)
Fixpoint eeprom_loop (query : Z -> Z -> mstate -> option (Z * list Z * mstate)) (fuel : nat) (offset len i : Z) (data : list Z) st
    : option (Z + Z * list Z * mstate) :=
  match fuel with
  | O => None
  | S fuel' =>
      if len <=? i then Some (inr (i, data, st))
      else
        '(read_len, bytes, st) ← query (offset + i) (len - i) st;
        if read_len =? 0 then Some (inr (0, data, st))
        else if read_len <? 0 then Some (inl read_len)
        else eeprom_loop query fuel' offset len (i + read_len) (write_bytes (Z.to_nat i) bytes data) st
  end.

Definition mqnic_get_module_eeprom (offset len : Z) st : option (Z + list Z * mstate) :=
  if len =? 0 then Some (inl (- EINVAL))
  else
    r ← eeprom_loop (fun o l => mqnic_query_module_eeprom (u16 o) (u16 l)) (S (Z.to_nat len)) offset len 0 (replicate (Z.to_nat len) 0) st;
    Some (match r with inl e => inl e | inr (_, data, st) => inr (data, st) end).

(** The result is the number of bytes, 0 when a read came back empty. *)
Definition mqnic_get_module_eeprom_by_page (i2c_address page bank offset length : Z) st : option (Z + Z * list Z * mstate) :=
  if length =? 0 then Some (inl (- EINVAL))
  else eeprom_loop (fun o l => mqnic_query_module_eeprom_by_page i2c_address page bank (u16 o) (u16 l)) (S (Z.to_nat length)) offset length 0
         (replicate (Z.to_nat length) 0) st.

(** Type and length reported for the module. *)
Definition mqnic_get_module_info st : (Z + Z * Z) * mstate :=
  let '(read_len, data, st) := mqnic_read_module_eeprom 0 2 st in
  (if read_len <? 0 then inl read_len
   else match data with
   | [d0; d1] =>
       if d0 =? SFF_MODULE_ID_SFP then inr (ETH_MODULE_SFF_8472, ETH_MODULE_SFF_8472_LEN)
       else if d0 =? SFF_MODULE_ID_QSFP then inr (ETH_MODULE_SFF_8436, ETH_MODULE_SFF_8436_LEN)
       else if d0 =? SFF_MODULE_ID_QSFP_PLUS then
         if 3 <=? d1 then inr (ETH_MODULE_SFF_8636, ETH_MODULE_SFF_8636_LEN) else inr (ETH_MODULE_SFF_8436, ETH_MODULE_SFF_8436_LEN)
       else if d0 =? SFF_MODULE_ID_QSFP28 then inr (ETH_MODULE_SFF_8636, ETH_MODULE_SFF_8636_LEN)
       else inl (- EINVAL)
   | _ => inl (- EIO)
   end, st).
End Eeprom.

(** ** What is read *)

(** The bytes [f o], [f (o + 1)], ... *)
Definition bytes_at (f : Z -> Z) (o : Z) (n : nat) : list Z := (fun j => f (o + Z.of_nat j)) <$> seq 0 n.

Lemma bytes_at_app f o n m : bytes_at f o (n + m) = bytes_at f o n ++ bytes_at f (o + Z.of_nat n) m.
Proof.
  unfold bytes_at. rewrite seq_app, fmap_app. f_equal. rewrite Nat.add_0_l. rewrite <- (Nat.add_0_r n) at 1. rewrite <- fmap_add_seq, <- list_fmap_compose.
  apply list_fmap_ext. intros k j _. cbn. f_equal. lia.
Qed.
Lemma bytes_at_ext f g o o' n : (forall j, 0 <= j < Z.of_nat n -> f (o + j) = g (o' + j)) -> bytes_at f o n = bytes_at g o' n.
Proof. intros H. unfold bytes_at. apply list_fmap_ext. intros k j Hj. apply H. apply list_elem_of_lookup_2, elem_of_seq in Hj. lia. Qed.
Lemma length_bytes_at f o n : length (bytes_at f o n) = n.
Proof. unfold bytes_at. by rewrite length_fmap, length_seq. Qed.

Section EepromSpec.
Context (mem : Z -> Z -> Z -> Z) (ans : nat -> Z) (id : Z).

(** The linear view of the module's memory, and its length: an SFP module is
    the 256 bytes of its first bus address, then those of its second; a QSFP
    module is its lower half, then the upper halves of pages 0 to 3. *)
Definition image (o : Z) : Z :=
  if id =? SFF_MODULE_ID_SFP then if o <? 256 then mem 0x50 0 o else mem 0x51 0 (o - 256)
  else if o <? 128 then mem 0x50 0 o else mem 0x50 (o / 128 - 1) (128 + o mod 128).
Definition image_len : Z := if id =? SFF_MODULE_ID_SFP then 512 else 640.

(** What SFF-8472 and SFF-8636 say: the identifier is at place 0, the lower
    half of a QSFP module and all of an SFP module is the same whichever page
    is selected. *)
Record module_ok : Prop := {
  mo_id : id = SFF_MODULE_ID_SFP \/ is_qsfp id = true;
  mo_ident : forall p, mem 0x50 p 0 = id;
  mo_lower : is_qsfp id = true -> forall p p' o, 0 <= o < 128 -> mem 0x50 p o = mem 0x50 p' o;
  mo_sfp : id = SFF_MODULE_ID_SFP -> forall a p p' o, mem a p o = mem a p' o;
}.
Context (Hmod : module_ok) (Hans : forall n, 0 < ans n).

(** The client talks to the module's first address. *)
Definition ready (st : mstate) : Prop := ms_client st = Some 0x50.

(** A step that reads some, at least one, of the bytes asked for. *)
Definition reads (f : Z -> Z) (o l : Z) (r : option (Z * list Z * mstate)) : Prop :=
  exists n st', r = Some (n, bytes_at f o (Z.to_nat n), st') /\ 0 < n <= l /\ ready st'.

Lemma read_step a p c o l :
  0 < l -> 0 <= o -> o + l <= 256 ->
  exists n, mqnic_read_module_eeprom mem ans o l (mk_ms (Some a) p c) = (n, bytes_at (mem a p) o (Z.to_nat n), mk_ms (Some a) p (S c)) /\ 0 < n <= l.
Proof.
  intros Hl Ho Hol. unfold mqnic_read_module_eeprom, I2C_SMBUS_BLOCK_MAX. cbn [ms_client ms_calls ms_page]. pose proof (Hans c). rewrite (proj2 (Z.ltb_ge _ _)) by lia.
  exists (Z.min (ans c) (Z.min l 32)). split; [|lia]. f_equal. f_equal. unfold bytes_at. apply list_fmap_ext. intros k j Hj.
  apply list_elem_of_lookup_2, elem_of_seq in Hj. rewrite u8_id; [done|lia].
Qed.

Lemma id_step st : ready st -> mqnic_query_module_id mem ans st = Some (id, mk_ms (Some 0x50) (ms_page st) (S (ms_calls st))).
Proof.
  intros Hr. destruct st as [c p k]. unfold ready in Hr. cbn [ms_client] in Hr. subst c. unfold mqnic_query_module_id.
  destruct (read_step 0x50 p k 0 1) as (n & -> & Hn); [lia..|]. rewrite (proj2 (Z.ltb_ge _ _)) by lia. assert (n = 1) as -> by lia. change (Some (mem 0x50 p 0, mk_ms (Some 0x50) p (S k)) = Some (id, mk_ms (Some 0x50) p (S k))). by rewrite (mo_ident Hmod).
Qed.

Lemma id_not_neg : id <? 0 = false.
Proof.
  destruct (mo_id Hmod) as [->|H]; [done|]. unfold is_qsfp in H. apply orb_true_iff in H as [H|H]; [apply orb_true_iff in H as [H|H]|]; apply Z.eqb_eq in H as ->; done.
Qed.

Lemma qsfp_not_sfp : is_qsfp id = true -> id =? SFF_MODULE_ID_SFP = false.
Proof. unfold is_qsfp. intros H. apply Z.eqb_neq. intros ->. discriminate H. Qed.

(** A read inside one page, or of an SFP module. *)
Lemma by_page_step a p o l st :
  ready st -> 0 < l -> 0 <= o -> o + l <= 256 ->
  (id = SFF_MODULE_ID_SFP /\ p = 0 /\ (a = 0x50 \/ a = 0x51)) \/ (is_qsfp id = true /\ 0 <= p <= 3 /\ a = 0x50) ->
  reads (mem a p) o l (mqnic_query_module_eeprom_by_page mem ans a p 0 o l st).
Proof.
  intros Hr Hl Ho Hol Hcase. unfold mqnic_query_module_eeprom_by_page. rewrite id_step by done. cbn [mbind option_bind]. rewrite id_not_neg.
  assert (forall pg k, (forall j, 0 <= j < l -> mem a pg (o + j) = mem a p (o + j)) -> exists n,
    mqnic_read_module_eeprom mem ans o l (mk_ms (Some a) pg k) = (n, bytes_at (mem a p) o (Z.to_nat n), mk_ms (Some a) pg (S k)) /\ 0 < n <= l) as Hread.
  { intros pg k Hpg. destruct (read_step a pg k o l Hl Ho Hol) as (n & -> & Hn). exists n. split; [|done]. do 2 f_equal. apply bytes_at_ext. intros j Hj. apply Hpg. lia. }
  destruct Hcase as [(Hid & -> & Ha)|(Hq & Hp & ->)].
  - rewrite Hid, Z.eqb_refl. cbn [orb Z.ltb Z.compare].
    assert (negb (a =? 0x50) && negb (a =? 0x51) = false) as -> by (destruct Ha as [->| ->]; done). cbn [ms_client ms_page ms_calls].
    destruct (Hread (ms_page st) (S (ms_calls st))) as (n & -> & Hn); [intros; by apply (mo_sfp Hmod)|]. by do 2 eexists.
  - rewrite (qsfp_not_sfp Hq), Hq. rewrite (proj2 (Z.ltb_ge _ _)) by lia. cbn [orb Z.ltb Z.compare negb Z.eqb Pos.eqb]. destruct (Z.leb_spec 128 (o + l)) as [Hge|Hlt].
    + unfold mqnic_write_module_eeprom. cbn [ms_client ms_calls ms_page]. pose proof (Hans (S (ms_calls st))). rewrite (proj2 (Z.ltb_ge (ans _) 0)) by lia. cbn [snd ms_client ms_page ms_calls Z.eqb Pos.eqb].
      rewrite (u8_id p) by lia. destruct (Hread p (S (S (ms_calls st)))) as (n & -> & Hn); [done|]. by do 2 eexists.
    + cbn [ms_client ms_page ms_calls]. destruct (Hread (ms_page st) (S (ms_calls st))) as (n & -> & Hn); [intros j Hj; apply (mo_lower Hmod Hq); lia|]. by do 2 eexists.
Qed.

(** A place and those after it, up to the end of its page, are together. *)
Lemma locate_ok o : 0 <= o < image_len -> exists a p o', locate id o = Some (a, p, o') /\ 0 <= o' < 256 /\
  ((id = SFF_MODULE_ID_SFP /\ p = 0 /\ (a = 0x50 \/ a = 0x51)) \/ (is_qsfp id = true /\ 0 <= p <= 3 /\ a = 0x50)) /\
  forall j, 0 <= j < 256 - o' -> image (o + j) = mem a p (o' + j).
Proof.
  unfold image_len, image, locate. intros Ho. destruct (mo_id Hmod) as [Hid|Hq].
  - rewrite Hid, Z.eqb_refl in *. destruct (Z.leb_spec 256 o) as [Hge|Hlt].
    + do 3 eexists. split; [reflexivity|]. rewrite u16_id by lia. split; [lia|]. split; [left; auto|]. intros j Hj. rewrite (proj2 (Z.ltb_ge _ _)) by lia. f_equal. lia.
    + do 3 eexists. split; [reflexivity|]. split; [lia|]. split; [left; auto|]. intros j Hj. by rewrite (proj2 (Z.ltb_lt _ _)) by lia.
  - rewrite (qsfp_not_sfp Hq), Hq in *. assert (forall q k, 0 <= k < 128 -> (128 * q + k) / 128 = q /\ (128 * q + k) mod 128 = k) as Hqk.
    { intros q k Hk. split; [symmetry; apply (Z.div_unique _ _ _ k)|symmetry; apply (Z.mod_unique _ _ q)]; lia. }
    destruct (Z.ltb_spec o 256) as [Hlt|Hge].
    + do 3 eexists. split; [reflexivity|]. split; [lia|]. split; [right; lia|]. intros j Hj. destruct (Z.ltb_spec (o + j) 128) as [H1|H1]; [done|].
      destruct (Hqk 1 (o + j - 128) ltac:(lia)) as [E1 E2]. replace (128 * 1 + (o + j - 128)) with (o + j) in E1, E2 by lia. rewrite E1, E2. f_equal. lia.
    + pose proof (Z.div_mod (o - 256) 128 ltac:(lia)) as Hd. pose proof (Z.mod_pos_bound (o - 256) 128 ltac:(lia)) as Hm. set (q := (o - 256) / 128) in *.
      do 3 eexists. split; [reflexivity|]. cbv zeta. rewrite u16_id by lia. split; [lia|]. split; [right; lia|]. intros j Hj. rewrite (proj2 (Z.ltb_ge _ _)) by lia.
      destruct (Hqk (q + 2) (o + j - 128 * (q + 2)) ltac:(lia)) as [E1 E2]. replace (128 * (q + 2) + (o + j - 128 * (q + 2))) with (o + j) in E1, E2 by lia. rewrite E1, E2. f_equal; lia.
Qed.

Lemma query_step o l st :
  ready st -> 0 < l -> 0 <= o -> o + l <= image_len -> reads image o l (mqnic_query_module_eeprom mem ans o l st).
Proof.
  intros Hr Hl Ho Hol. unfold mqnic_query_module_eeprom. rewrite id_step by done. cbn [mbind option_bind]. rewrite id_not_neg.
  destruct (locate_ok o ltac:(lia)) as (a & p & o' & E & Ho' & Hcase & Him). rewrite E.
  set (l' := if _ <? _ then _ else _). assert (0 < l' <= l /\ o' + l' <= 256) as [Hl' Hol'] by (unfold l'; destruct (Z.ltb_spec 256 (o' + l)); [rewrite u16_id by lia|]; lia).
  destruct (by_page_step a p o' l' (mk_ms (Some 0x50) (ms_page st) (S (ms_calls st)))) as (n & st' & -> & Hn & Hr'); [done|lia..|exact Hcase|].
  exists n, st'. split; [|split; [lia|done]]. do 3 f_equal. apply bytes_at_ext. intros j Hj. symmetry. apply Him. lia.
Qed.

(** The loop of the callers, for any step that reads something. *)
Lemma eeprom_loop_ok query f o len :
  0 <= len -> (forall i st, 0 <= i < len -> ready st -> reads f (o + i) (len - i) (query (o + i) (len - i) st)) ->
  forall fuel i data st, (Z.to_nat (len - i) < fuel)%nat -> 0 <= i <= len -> ready st ->
  length data = Z.to_nat len -> take (Z.to_nat i) data = bytes_at f o (Z.to_nat i) ->
  exists st', eeprom_loop query fuel o len i data st = Some (inr (len, bytes_at f o (Z.to_nat len), st')) /\ ready st'.
Proof.
  intros Hlen Hq fuel. induction fuel as [|fuel IH]; intros i data st Hf Hi Hr Hd Ht; [lia|]. cbn [eeprom_loop]. destruct (Z.leb_spec len i) as [Hge|Hlt].
  - assert (i = len) as -> by lia. exists st. split; [|done]. rewrite take_ge in Ht by lia. by rewrite Ht.
  - destruct (Hq i st ltac:(lia) Hr) as (n & st' & -> & Hn & Hr'). cbn [mbind option_bind]. rewrite (proj2 (Z.eqb_neq _ _)), (proj2 (Z.ltb_ge _ _)) by lia.
    apply IH; [lia|lia|done|rewrite length_write_bytes; [done|rewrite length_bytes_at; lia]|].
    replace (Z.to_nat (i + n)) with (Z.to_nat i + length (bytes_at f (o + i) (Z.to_nat n)))%nat by (rewrite length_bytes_at; lia).
    rewrite take_write_bytes by lia. rewrite Ht, length_bytes_at, bytes_at_app. by rewrite Z2Nat.id by lia.
Qed.
End EepromSpec.


(** The same for a stretch of one page. *)
Lemma get_module_eeprom_by_page_exact mem ans id page offset len st :
  module_ok mem id -> is_qsfp id = true -> (forall n, 0 < ans n) -> ready st -> 0 < len -> 0 <= offset -> offset + len <= 256 -> 0 <= page <= 3 ->
  exists st', mqnic_get_module_eeprom_by_page mem ans 0x50 page 0 offset len st = Some (inr (len, bytes_at (mem 0x50 page) offset (Z.to_nat len), st')) /\ ready st'.
Proof.
  intros Hmod Hq Hans Hr Hl Ho Hol Hp. unfold mqnic_get_module_eeprom_by_page. rewrite (proj2 (Z.eqb_neq _ _)) by lia.
  apply eeprom_loop_ok; [lia| |lia|lia|done|by rewrite length_replicate|done]. intros i st1 Hi Hr1. rewrite !u16_id by lia. apply (by_page_step mem ans id); try done; try lia. by right.
Qed.

(** ** Examples *)

(** A QSFP28 module whose pages differ. *)
Definition qsfp (a p o : Z) : Z := if o =? 0 then SFF_MODULE_ID_QSFP28 else if o <? 128 then o else u8 (p * 37 + o).
Definition sel0 : mstate := mk_ms (Some 0x50) 0 0.

Lemma qsfp_ok : module_ok qsfp SFF_MODULE_ID_QSFP28.
Proof.
  split; [by right|done| |done]. intros _ p p' o Ho. unfold qsfp. by rewrite (proj2 (Z.ltb_lt o 128)) by lia.
Qed.


(** The write that selects the page is not checked: when it fails, the bytes
    of the page selected before are returned as those of page 1. *)
Theorem page_select_not_checked :
  match mqnic_get_module_eeprom qsfp (fun n => if (n =? 2)%nat then - EIO else 32) 256 2 sel0 with
  | Some (inr (data, _)) => data = bytes_at (qsfp 0x50 0) 128 2 /\ data <> bytes_at (image qsfp SFF_MODULE_ID_QSFP28) 256 2
  | _ => False
  end.
Proof. vm_compute. split; [reflexivity|discriminate]. Qed.
