(* ===== verification/MqnicPtp.v ===== *)
(** * The PTP hardware clock of the NIC driver

    Model of [modules/mqnic/mqnic_ptp.c] (the clock operations the kernel
    calls, periodic outputs, registration, and the reconstruction of packet
    timestamps by [mqnic_read_cpl_ts], which is in [MqnicRx.v]) and of the
    register file of the clock, [common/rtl/mqnic_ptp_clock.v], as a device
    the operations run on. The clock stands still while a register access
    sequence runs. *)

From S2P Require Import Prelude Mmio MqnicRes MqnicQueue MqnicRx.

Definition MQNIC_RB_PHC_REG_GET_FNS : Z := 0x20.
Definition MQNIC_RB_PHC_REG_GET_NS : Z := 0x24.
Definition MQNIC_RB_PHC_REG_GET_SEC_L : Z := 0x28.
Definition MQNIC_RB_PHC_REG_GET_SEC_H : Z := 0x2C.
Definition MQNIC_RB_PHC_REG_SET_FNS : Z := 0x30.
Definition MQNIC_RB_PHC_REG_SET_NS : Z := 0x34.
Definition MQNIC_RB_PHC_REG_SET_SEC_L : Z := 0x38.
Definition MQNIC_RB_PHC_REG_SET_SEC_H : Z := 0x3C.
Definition MQNIC_RB_PHC_REG_PERIOD_FNS : Z := 0x40.
Definition MQNIC_RB_PHC_REG_PERIOD_NS : Z := 0x44.
Definition MQNIC_RB_PHC_REG_NOM_PERIOD_FNS : Z := 0x48.
Definition MQNIC_RB_PHC_REG_NOM_PERIOD_NS : Z := 0x4C.
Definition MQNIC_RB_PHC_REG_ADJ_FNS : Z := 0x50.
Definition MQNIC_RB_PHC_REG_ADJ_NS : Z := 0x54.
Definition MQNIC_RB_PHC_REG_ADJ_COUNT : Z := 0x58.

Definition MQNIC_RB_PHC_PEROUT_TYPE : Z := 0xC081.
Definition MQNIC_RB_PHC_PEROUT_VER : Z := 0x100.
Definition MQNIC_RB_PHC_PEROUT_REG_CTRL : Z := 0x0C.
Definition MQNIC_RB_PHC_PEROUT_REG_START_FNS : Z := 0x10.
Definition MQNIC_RB_PHC_PEROUT_REG_PERIOD_FNS : Z := 0x20.
Definition MQNIC_RB_PHC_PEROUT_REG_WIDTH_FNS : Z := 0x30.

(** ** The driver *)

Record timespec64 := mk_ts { tv_sec : Z; tv_nsec : Z }.

(** Kernel helpers: the normalised time of a number of nanoseconds, and the
    sum of two normalised times. *)
Definition ns_to_timespec64 (ns : Z) : timespec64 := mk_ts (ns / NSEC_PER_SEC) (ns mod NSEC_PER_SEC).
Definition timespec64_add (a b : timespec64) : timespec64 :=
  let ns := tv_nsec a + tv_nsec b in
  mk_ts (s64 (tv_sec a + tv_sec b + ns / NSEC_PER_SEC)) (ns mod NSEC_PER_SEC).

(** [struct ptp_perout_request], the times with seconds (signed) and
    nanoseconds (32 bits). *)
Record ptp_perout_request := mk_perout {
  po_index : Z;
  po_start : timespec64;
  po_period : timespec64;
}.

Inductive ptp_clock_request := PTP_CLK_REQ_EXTTS | PTP_CLK_REQ_PEROUT (perout : ptp_perout_request) | PTP_CLK_REQ_PPS.

Section Phc.
Context {hw : Type} `{!Mmio hw}.
Implicit Types h : hw.

(** The new period for a nominal period and a frequency offset in parts per
    million with 16 fractional bits. *)
Definition adjfine_period (nom_per_fns scaled_ppm : Z) : Z :=
  let neg := scaled_ppm <? 0 in
  let scaled_ppm := if neg then s64 (- scaled_ppm) else scaled_ppm in
  let nom_per_fns := if nom_per_fns =? 0 then Z.shiftl 4 32 else nom_per_fns in
  let adj := u64 (u64 (Z.shiftr nom_per_fns 16 * scaled_ppm) + 500000) / 1000000 in
  if neg then u64 (nom_per_fns - adj) else u64 (nom_per_fns + adj).

Definition mqnic_phc_adjfine (regs scaled_ppm : Z) h : hw :=
  let '(fns, h) := ioread32 (regs + MQNIC_RB_PHC_REG_NOM_PERIOD_FNS) h in
  let '(ns, h) := ioread32 (regs + MQNIC_RB_PHC_REG_NOM_PERIOD_NS) h in
  let adj := adjfine_period (Z.lor fns (Z.shiftl ns 32)) scaled_ppm in
  write_all [ (Z.land adj 0xffffffff, regs + MQNIC_RB_PHC_REG_PERIOD_FNS);
              (u32 (Z.shiftr adj 32), regs + MQNIC_RB_PHC_REG_PERIOD_NS) ] h.

Definition mqnic_phc_gettime (regs : Z) h : timespec64 * hw :=
  let '(_, h) := ioread32 (regs + MQNIC_RB_PHC_REG_GET_FNS) h in
  let '(ns, h) := ioread32 (regs + MQNIC_RB_PHC_REG_GET_NS) h in
  let '(lo, h) := ioread32 (regs + MQNIC_RB_PHC_REG_GET_SEC_L) h in
  let '(hi, h) := ioread32 (regs + MQNIC_RB_PHC_REG_GET_SEC_H) h in
  (mk_ts (Z.lor lo (Z.shiftl hi 32)) ns, h).

(** [pre] and [post] are the system times around the read that latches the
    clock. *)
Definition mqnic_phc_gettimex (regs pre post : Z) h : timespec64 * (Z * Z) * hw :=
  let '(_, h) := ioread32 (regs + MQNIC_RB_PHC_REG_GET_FNS) h in
  let '(ns, h) := ioread32 (regs + MQNIC_RB_PHC_REG_GET_NS) h in
  let '(lo, h) := ioread32 (regs + MQNIC_RB_PHC_REG_GET_SEC_L) h in
  let '(hi, h) := ioread32 (regs + MQNIC_RB_PHC_REG_GET_SEC_H) h in
  (mk_ts (Z.lor lo (Z.shiftl hi 32)) ns, (pre, post), h).

Definition mqnic_phc_settime (regs : Z) (ts : timespec64) h : hw :=
  write_all [ (0, regs + MQNIC_RB_PHC_REG_SET_FNS);
              (u32 (tv_nsec ts), regs + MQNIC_RB_PHC_REG_SET_NS);
              (Z.land (tv_sec ts) 0xffffffff, regs + MQNIC_RB_PHC_REG_SET_SEC_L);
              (u32 (Z.shiftr (tv_sec ts) 32), regs + MQNIC_RB_PHC_REG_SET_SEC_H) ] h.

Definition mqnic_phc_adjtime (regs delta : Z) h : hw :=
  if (delta >? 1000000000) || (delta <? -1000000000) then
    let '(ts, h) := mqnic_phc_gettime regs h in
    mqnic_phc_settime regs (timespec64_add ts (ns_to_timespec64 delta)) h
  else
    write_all [ (0, regs + MQNIC_RB_PHC_REG_ADJ_FNS);
                (Z.land delta 0xffffffff, regs + MQNIC_RB_PHC_REG_ADJ_NS);
                (1, regs + MQNIC_RB_PHC_REG_ADJ_COUNT) ] h.

(** Seconds (64 bits) and nanoseconds (32 bits) with the whole seconds of the
    nanoseconds moved over. *)
Definition carry_seconds (t : timespec64) : Z * Z :=
  let nsec := u32 (tv_nsec t) in
  let sec := nsec / NSEC_PER_SEC in
  (u64 (sec + tv_sec t), u32 (nsec - sec * NSEC_PER_SEC)).

(** Half of a period. *)
Definition half_period (p : Z * Z) : Z * Z :=
  (Z.shiftr p.1 1, u32 (Z.shiftr (p.2 + (if Z.testbit p.1 0 then NSEC_PER_SEC else 0)) 1)).

(** The four registers of a time from [a]. *)
Definition time_writes (a : Z) (t : Z * Z) : list (Z * Z) :=
  [ (0, a); (t.2, a + 4); (Z.land t.1 0xffffffff, a + 8); (u32 (Z.shiftr t.1 32), a + 12) ].

Definition mqnic_phc_perout (rb_list : list mqnic_reg_block) (on : bool) (perout : ptp_perout_request) h : Z * hw :=
  match mqnic_find_reg_block rb_list MQNIC_RB_PHC_PEROUT_TYPE MQNIC_RB_PHC_PEROUT_VER (po_index perout) with
  | None => (- EINVAL, h)
  | Some rb =>
      if negb on then (0, iowrite32 0 (rb_regs rb + MQNIC_RB_PHC_PEROUT_REG_CTRL) h)
      else
        let start := carry_seconds (po_start perout) in
        let period := carry_seconds (po_period perout) in
        let width := half_period period in
        (0, write_all (time_writes (rb_regs rb + MQNIC_RB_PHC_PEROUT_REG_START_FNS) start ++
                       time_writes (rb_regs rb + MQNIC_RB_PHC_PEROUT_REG_PERIOD_FNS) period ++
                       time_writes (rb_regs rb + MQNIC_RB_PHC_PEROUT_REG_WIDTH_FNS) width ++
                       [(1, rb_regs rb + MQNIC_RB_PHC_PEROUT_REG_CTRL)]) h)
  end.

Definition mqnic_phc_enable (rb_list : list mqnic_reg_block) (request : option ptp_clock_request) (on : bool) h : Z * hw :=
  match request with
  | Some (PTP_CLK_REQ_PEROUT perout) => mqnic_phc_perout rb_list on perout h
  | _ => (- EINVAL, h)
  end.

(** The clock of a device: its register block, the registered clock, and the
    number of outputs it was registered with. *)
Record phc_dev := mk_phc_dev {
  pd_phc_rb : option mqnic_reg_block;
  pd_ptp_clock : option nat;
  pd_n_per_out : nat;
}.

(** The loop that counts the output channels; [None]: out of fuel. *)
Fixpoint count_perout (fuel : nat) (rb_list : list mqnic_reg_block) (count : nat) : option nat :=
  match fuel with
  | O => None
  | S fuel' =>
      match mqnic_find_reg_block rb_list MQNIC_RB_PHC_PEROUT_TYPE MQNIC_RB_PHC_PEROUT_VER (Z.of_nat count) with
      | Some _ => count_perout fuel' rb_list (S count)
      | None => Some count
      end
  end.

(** [clock] is what [ptp_clock_register] returns, [tai] the system's time. *)
Definition mqnic_register_phc (rb_list : list mqnic_reg_block) (clock : option nat) (tai : timespec64) (d : phc_dev) h
    : option (phc_dev * hw) :=
  match pd_phc_rb d, pd_ptp_clock d with
  | None, _ | _, Some _ => Some (d, h)
  | Some rb, None =>
      match count_perout (S (length rb_list)) rb_list 0 with
      | None => None
      | Some count =>
          let d := mk_phc_dev (Some rb) clock count in
          match clock with
          | None => Some (d, h)
          | Some _ => Some (d, mqnic_phc_settime (rb_regs rb) tai h)
          end
      end
  end.

Definition mqnic_unregister_phc (d : phc_dev) : phc_dev := mk_phc_dev (pd_phc_rb d) None (pd_n_per_out d).
End Phc.

(** ** The device *)

(** Registers at offset 0. [ph_period_width] is [PTP_PERIOD_NS_WIDTH];
    [ph_adjs] are the offsets the clock was told to add, as the signed
    numbers of [PTP_OFFSET_NS_WIDTH] bits they are (the driver always writes
    their fractional part as 0, it is left out). *)
Record phc := mk_phc {
  ph_sec : Z;
  ph_ns : Z;
  ph_fns : Z;
  ph_get : Z * Z;
  ph_set_fns : Z;
  ph_set_ns : Z;
  ph_set_sec_l : Z;
  ph_period_fns : Z;
  ph_period_ns : Z;
  ph_period_width : Z;
  ph_nom_fns : Z;
  ph_nom_ns : Z;
  ph_adj_ns : Z;
  ph_adjs : list Z;
}.

Definition PTP_OFFSET_NS_WIDTH : Z := 30.

Definition phc_read (a : Z) (d : phc) : Z * phc :=
  if a =? 0x18 then (u32 (ph_sec d), d)
  else if a =? 0x1C then (u16 (Z.shiftr (ph_sec d) 32), d)
  else if a =? 0x20 then
    (ph_fns d, mk_phc (ph_sec d) (ph_ns d) (ph_fns d) (ph_sec d, ph_ns d) (ph_set_fns d) (ph_set_ns d) (ph_set_sec_l d)
                 (ph_period_fns d) (ph_period_ns d) (ph_period_width d) (ph_nom_fns d) (ph_nom_ns d) (ph_adj_ns d) (ph_adjs d))
  else if a =? 0x24 then ((ph_get d).2, d)
  else if a =? 0x28 then (u32 (ph_get d).1, d)
  else if a =? 0x2C then (u16 (Z.shiftr (ph_get d).1 32), d)
  else if a =? 0x40 then (ph_period_fns d, d)
  else if a =? 0x44 then (ph_period_ns d, d)
  else if a =? 0x48 then (ph_nom_fns d, d)
  else if a =? 0x4C then (ph_nom_ns d, d)
  else (0, d).

Definition phc_write (v a : Z) (d : phc) : phc :=
  let '(mk_phc sec ns fns get sf sn sl pf pn pw nf nn an adjs) := d in
  if a =? 0x30 then mk_phc sec ns fns get (u16 v) sn sl pf pn pw nf nn an adjs
  else if a =? 0x34 then mk_phc sec ns fns get sf (uwrap 30 v) sl pf pn pw nf nn an adjs
  else if a =? 0x38 then mk_phc sec ns fns get sf sn (u32 v) pf pn pw nf nn an adjs
  else if a =? 0x3C then mk_phc (sl + 2 ^ 32 * u16 v) sn sf get sf sn sl pf pn pw nf nn an adjs
  else if a =? 0x40 then mk_phc sec ns fns get sf sn sl (u32 v) pn pw nf nn an adjs
  else if a =? 0x44 then mk_phc sec ns fns get sf sn sl pf (uwrap pw v) pw nf nn an adjs
  else if a =? 0x54 then mk_phc sec ns fns get sf sn sl pf pn pw nf nn (uwrap PTP_OFFSET_NS_WIDTH v) adjs
  else if a =? 0x58 then mk_phc sec ns fns get sf sn sl pf pn pw nf nn an (adjs ++ replicate (Z.to_nat (u16 v)) (swrap PTP_OFFSET_NS_WIDTH an))
  else d.

#[export] Instance phc_mmio : Mmio phc := { ioread32 := phc_read; iowrite32 := phc_write }.

(** ** Setting and reading the time *)

Lemma lor_shift_add lo hi : 0 <= lo < 2 ^ 32 -> 0 <= hi -> Z.lor lo (Z.shiftl hi 32) = lo + 2 ^ 32 * hi.
Proof.
  intros Hlo Hhi. assert (Z.land lo (Z.shiftl hi 32) = 0) as H0.
  { apply Z.bits_inj'. intros i Hi. rewrite Z.land_spec, Z.bits_0. destruct (decide (i < 32)).
    - rewrite (Z.shiftl_spec_low _ _ i) by lia. by rewrite andb_false_r.
    - rewrite (Z.bits_above_log2 lo i); [done|lia|]. destruct (decide (lo = 0)) as [->|]; [simpl; lia|].
      assert (Z.log2 lo < 32) by (apply Z.log2_lt_pow2; lia). lia. }
  rewrite <- (Z.add_nocarry_lor _ _ H0), Z.shiftl_mul_pow2 by lia. lia.
Qed.

Lemma land_u32 z : Z.land z 0xffffffff = u32 z.
Proof. change 0xffffffff with (Z.ones 32). by rewrite Z.land_ones by lia. Qed.

Lemma sec_split s : 0 <= s < 2 ^ 48 -> u32 s + 2 ^ 32 * u16 (Z.shiftr s 32) = s.
Proof.
  intros Hs. rewrite Z.shiftr_div_pow2 by lia. unfold u16, u32.
  assert (0 <= s / 2 ^ 32 < 2 ^ 16) by (split; [apply Z.div_pos; lia|apply Z.div_lt_upper_bound; lia]).
  rewrite (Z.mod_small (s / 2 ^ 32)) by lia. pose proof (Z.div_mod s (2 ^ 32)). lia.
Qed.

(** The time of the clock. *)
Definition phc_time (d : phc) : timespec64 := mk_ts (ph_sec d) (ph_ns d).

Definition ts_ok (ts : timespec64) : Prop := 0 <= tv_sec ts < 2 ^ 48 /\ 0 <= tv_nsec ts < NSEC_PER_SEC.

Lemma settime_raw ts d :
  phc_time (mqnic_phc_settime 0 ts d)
  = mk_ts (u32 (Z.land (tv_sec ts) 0xffffffff) + 2 ^ 32 * u16 (u32 (Z.shiftr (tv_sec ts) 32))) (uwrap 30 (u32 (tv_nsec ts))).
Proof. by destruct d. Qed.

Lemma settime_time ts d : ts_ok ts -> phc_time (mqnic_phc_settime 0 ts d) = ts.
Proof.
  intros [Hs Hn]. rewrite settime_raw. destruct ts as [sec nsec]. cbn [tv_sec tv_nsec] in *. unfold NSEC_PER_SEC in *. f_equal.
  - rewrite land_u32, (u32_id (u32 sec)), (u32_id (Z.shiftr sec 32)), sec_split; try done; try apply u32_range.
    rewrite Z.shiftr_div_pow2 by lia. split; [apply Z.div_pos; lia|apply Z.div_lt_upper_bound; lia].
  - rewrite u32_id by lia. apply Z.mod_small. lia.
Qed.

(** Reading latches the time. *)
Definition phc_latch (d : phc) : phc := (phc_read MQNIC_RB_PHC_REG_GET_FNS d).2.

Lemma gettime_time d : 0 <= ph_sec d < 2 ^ 48 -> mqnic_phc_gettime 0 d = (phc_time d, phc_latch d).
Proof.
  intros Hs.
  assert (mqnic_phc_gettime 0 d = (mk_ts (Z.lor (u32 (ph_sec d)) (Z.shiftl (u16 (Z.shiftr (ph_sec d) 32)) 32)) (ph_ns d), phc_latch d)) as ->
    by (by destruct d).
  rewrite lor_shift_add by (try apply u32_range; apply u16_range). by rewrite sec_split.
Qed.

(** Setting the clock and reading it back. For a normalised time of less
    than [2^48] seconds [mqnic_phc_gettime] after [mqnic_phc_settime] returns
    that time, so does [mqnic_phc_gettimex], with the system times taken
    around the read that latches; a register access in between, such as
    reading the current time, does not disturb it. Seconds beyond 48 bits are
    lost. *)
Theorem phc_settime_gettime ts pre post d :
  ts_ok ts ->
  (mqnic_phc_gettime 0 (mqnic_phc_settime 0 ts d)).1 = ts /\
  (mqnic_phc_gettimex 0 pre post (mqnic_phc_settime 0 ts d)).1 = (ts, (pre, post)) /\
  forall k, 0 <= k -> (mqnic_phc_gettime 0 (mqnic_phc_settime 0 (mk_ts (tv_sec ts + 2 ^ 48 * k) (tv_nsec ts)) d)).1 = ts.
Proof.
  intros Hts. pose proof (settime_time ts d Hts) as Ht.
  assert (forall d0, phc_time d0 = ts -> (mqnic_phc_gettime 0 d0).1 = ts) as Hget.
  { intros d0 H0. rewrite gettime_time, H0; [done|]. assert (ph_sec d0 = tv_sec ts) as -> by (by rewrite <- H0). apply Hts. }
  split; [by apply Hget|]. split.
  - assert (forall d0, (mqnic_phc_gettimex 0 pre post d0).1 = ((mqnic_phc_gettime 0 d0).1, (pre, post))) as -> by (by intros []).
    by rewrite Hget.
  - intros k Hk. apply Hget. etrans; [|exact Ht]. rewrite !settime_raw. cbn [tv_sec tv_nsec]. f_equal. rewrite !land_u32.
    assert (forall z, u32 (u32 z) = u32 z) as Huu by (intros; apply u32_id, u32_range). rewrite !Huu. f_equal.
    + unfold u32. replace (2 ^ 48 * k) with (2 ^ 16 * k * 2 ^ 32) by lia. by rewrite Z.mod_add by lia.
    + f_equal. unfold u16, u32. rewrite !Z.shiftr_div_pow2 by lia. replace (2 ^ 48 * k) with (2 ^ 16 * k * 2 ^ 32) by lia.
      rewrite Z.div_add by lia. change (2 ^ 32) with (2 ^ 16 * 2 ^ 16) at 2 4. rewrite !Z.rem_mul_r by lia.
      rewrite !(Z.mul_comm (2 ^ 16) (_ mod _)), !Z.mod_add, !Z.mod_mod by lia.
      rewrite (Z.mul_comm (2 ^ 16) k), Z.mod_add by lia. done.
Qed.

Definition phc0 : phc := mk_phc 1000 500000000 0 (0, 0) 0 0 0 0 4 5 0 4 0 [].

Lemma phc_settime_gettime_witness :
  (mqnic_phc_gettime 0 (mqnic_phc_settime 0 (mk_ts 1700000000 999999999) phc0)).1 = mk_ts 1700000000 999999999.
Proof.
  exact (proj1 (phc_settime_gettime (mk_ts 1700000000 999999999) 0 0 phc0
                  ltac:(unfold ts_ok, NSEC_PER_SEC; cbn [tv_sec tv_nsec]; lia))).
Defined.

(** ** Stepping the time *)

Lemma adjtime_offset delta d : -1000000000 <= delta <= 1000000000 ->
  ph_adjs (mqnic_phc_adjtime 0 delta d) = ph_adjs d ++ [swrap 30 delta] /\
  phc_time (mqnic_phc_adjtime 0 delta d) = phc_time d.
Proof.
  intros Hd. unfold mqnic_phc_adjtime. rewrite (proj2 (Z.ltb_ge _ _)) by lia. rewrite Z.gtb_ltb, (proj2 (Z.ltb_ge _ _)) by lia.
  cbn [orb]. rewrite land_u32.
  assert (swrap 30 (uwrap 30 (u32 delta)) = swrap 30 delta) as <-; [|by destruct d].
  unfold swrap, uwrap, u32. f_equal. rewrite <- (Zplus_mod_idemp_l (_ mod _)), Z.mod_mod, Zplus_mod_idemp_l by lia.
  rewrite <- (Zplus_mod_idemp_l (_ mod _)), <- (Zplus_mod_idemp_l delta). f_equal. f_equal.
  change (2 ^ 32) with (2 ^ 30 * 4). rewrite Z.rem_mul_r by lia. rewrite (Z.mul_comm (2 ^ 30)), Z.mod_add, Z.mod_mod by lia. done.
Qed.

(** Nanoseconds since the epoch. *)
Definition phc_ns (d : phc) : Z := ph_sec d * NSEC_PER_SEC + ph_ns d.

Lemma timespec_add_ns a delta :
  ts_ok a -> 0 <= tv_sec a * NSEC_PER_SEC + tv_nsec a + delta < 2 ^ 48 * NSEC_PER_SEC ->
  timespec64_add a (ns_to_timespec64 delta) = ns_to_timespec64 (tv_sec a * NSEC_PER_SEC + tv_nsec a + delta).
Proof.
  intros [Hs Hn] Hr. unfold timespec64_add, ns_to_timespec64. cbn [tv_sec tv_nsec].
  pose proof (Z.div_mod delta NSEC_PER_SEC ltac:(done)) as Hdm. set (q := delta / NSEC_PER_SEC) in *. set (r := delta mod NSEC_PER_SEC) in *.
  replace (tv_sec a * NSEC_PER_SEC + tv_nsec a + delta) with (tv_nsec a + r + (tv_sec a + q) * NSEC_PER_SEC) in * by lia.
  rewrite Z.div_add, Z.mod_add by done. f_equal. rewrite Z.add_comm, s64_id; [lia|].
  assert (0 <= (tv_nsec a + r) / NSEC_PER_SEC + (tv_sec a + q) < 2 ^ 48); [|lia].
  rewrite <- Z.div_add by done. split; [apply Z.div_pos; [lia|done]|apply Z.div_lt_upper_bound; [done|lia]].
Qed.



(** ** Adjusting the frequency *)

(** The period in the last fractional bits, for a nominal period of [nom]. *)
Lemma adjfine_period_accurate nom scaled_ppm :
  0 < nom < 2 ^ 40 -> Z.abs scaled_ppm <= 100000 * 2 ^ 16 ->
  let period := adjfine_period nom scaled_ppm in
  0 <= period /\ 10 * period <= 11 * nom + 5 /\
  Z.abs (period * (10 ^ 6 * 2 ^ 16) - nom * (10 ^ 6 * 2 ^ 16 + scaled_ppm)) <= 10 ^ 6 * 2 ^ 15 + (2 ^ 16 - 1) * Z.abs scaled_ppm.
Proof.
  intros Hn Hs period. unfold period, adjfine_period. rewrite (proj2 (Z.eqb_neq nom 0)) by lia.
  assert ((if scaled_ppm <? 0 then s64 (- scaled_ppm) else scaled_ppm) = Z.abs scaled_ppm) as ->.
  { destruct (Z.ltb_spec scaled_ppm 0); [rewrite s64_id; lia|lia]. }
  set (a := Z.abs scaled_ppm) in *. assert (0 <= a) by lia. rewrite Z.shiftr_div_pow2 by lia.
  pose proof (Z.div_mod nom (2 ^ 16) ltac:(lia)) as Hdm. pose proof (Z.mod_pos_bound nom (2 ^ 16) ltac:(lia)) as Hm.
  set (q := nom / 2 ^ 16) in *. set (rho := nom mod 2 ^ 16) in *.
  assert (0 <= q < 2 ^ 24) as Hq by (split; [apply Z.div_pos; lia|apply Z.div_lt_upper_bound; lia]).
  assert (0 <= q * a <= q * (100000 * 2 ^ 16)) as Hqa by nia.
  rewrite (u64_id (q * a)), (u64_id (q * a + 500000)) by lia.
  pose proof (Z.div_mod (q * a + 500000) 1000000 ltac:(lia)) as Hd. pose proof (Z.mod_pos_bound (q * a + 500000) 1000000 ltac:(lia)) as Hr.
  set (A := (q * a + 500000) / 1000000) in *. assert (0 <= A) by (apply Z.div_pos; lia).
  assert (0 <= rho * a <= (2 ^ 16 - 1) * a) as Hra by nia.
  assert (nom * a = 2 ^ 16 * (q * a) + rho * a) as Hna by (rewrite Hdm; ring).
  destruct (Z.ltb_spec scaled_ppm 0).
  - rewrite u64_id by lia. split; [lia|]. split; [lia|]. replace scaled_ppm with (- a) by lia.
    replace (nom * (10 ^ 6 * 2 ^ 16 + - a)) with (nom * (10 ^ 6 * 2 ^ 16) - nom * a) by ring. lia.
  - rewrite u64_id by lia. split; [lia|]. split; [lia|]. replace scaled_ppm with a at 1 by lia.
    replace (nom * (10 ^ 6 * 2 ^ 16 + a)) with (nom * (10 ^ 6 * 2 ^ 16) + nom * a) by ring. lia.
Qed.

Lemma adjfine_writes scaled_ppm d :
  let period := adjfine_period (Z.lor (ph_nom_fns d) (Z.shiftl (ph_nom_ns d) 32)) scaled_ppm in
  let d' := mqnic_phc_adjfine 0 scaled_ppm d in
  ph_period_fns d' = u32 (Z.land period 0xffffffff) /\ ph_period_ns d' = uwrap (ph_period_width d) (u32 (Z.shiftr period 32)) /\
  phc_time d' = phc_time d.
Proof. by destruct d. Qed.

(** C37: frequency adjustment is accurate. For a nominal period the period
    register can hold four times ([PTP_PERIOD_NS_WIDTH]; 4 ns if the device
    reports none) and an offset of at most [max_adj] (100000 ppm), nothing
    overflows, and the period written differs from [nom * (1 + ppm / 10^6)]
    by at most half of the last fractional bit ([2^-32] ns) and the effect of
    the 16 low bits of the nominal period, which the computation leaves out.
    The time is not touched. *)
Theorem phc_adjfine_accurate scaled_ppm d :
  0 <= ph_nom_fns d < 2 ^ 32 -> 0 <= ph_nom_ns d < 256 ->
  Z.abs scaled_ppm <= 100000 * 2 ^ 16 ->
  let nom := (if (ph_nom_fns d =? 0) && (ph_nom_ns d =? 0) then 2 ^ 34 else ph_nom_fns d + 2 ^ 32 * ph_nom_ns d) in
  2 <= ph_period_width d <= 32 -> nom < 2 ^ (30 + ph_period_width d) ->
  let d' := mqnic_phc_adjfine 0 scaled_ppm d in
  let period := ph_period_fns d' + 2 ^ 32 * ph_period_ns d' in
  Z.abs (period * (10 ^ 6 * 2 ^ 16) - nom * (10 ^ 6 * 2 ^ 16 + scaled_ppm)) <= 10 ^ 6 * 2 ^ 15 + (2 ^ 16 - 1) * Z.abs scaled_ppm /\
  phc_time d' = phc_time d.
Proof.
  intros Hf Hn Hs nom Hw Hnw d' period. destruct (adjfine_writes scaled_ppm d) as (Ef & En & Et). unfold period, d'. rewrite Ef, En.
  split; [|exact Et]. clear Ef En Et d' period. rewrite lor_shift_add by lia.
  set (P := adjfine_period _ _).
  assert (0 < nom < 2 ^ 40 /\ P = adjfine_period nom scaled_ppm) as [Hnom HP].
  { unfold P, nom. destruct (Z.eqb_spec (ph_nom_fns d) 0) as [->|]; destruct (Z.eqb_spec (ph_nom_ns d) 0) as [->|]; cbn [andb];
      (split; [lia|done]). }
  destruct (adjfine_period_accurate nom scaled_ppm Hnom Hs) as (H0 & H1 & H2). rewrite <- HP in *.
  assert (u32 (Z.land P 0xffffffff) + 2 ^ 32 * uwrap (ph_period_width d) (u32 (Z.shiftr P 32)) = P) as ->; [|exact H2].
  rewrite land_u32, (u32_id (u32 P)) by apply u32_range. rewrite Z.shiftr_div_pow2 by lia.
  assert (2 ^ (30 + ph_period_width d) = 2 ^ 30 * 2 ^ ph_period_width d) as Epw by (apply Z.pow_add_r; lia).
  assert (2 ^ ph_period_width d <= 2 ^ 32) by (apply Z.pow_le_mono_r; lia).
  assert (0 <= P / 2 ^ 32 < 2 ^ ph_period_width d) as Hq by (split; [apply Z.div_pos; lia|apply Z.div_lt_upper_bound; lia]).
  rewrite (u32_id (P / 2 ^ 32)) by lia. unfold uwrap. rewrite Z.mod_small by lia. unfold u32. pose proof (Z.div_mod P (2 ^ 32)). lia.
Qed.

Lemma phc_adjfine_accurate_witness :
  let d' := mqnic_phc_adjfine 0 (-6553600) phc0 in
  Z.abs ((ph_period_fns d' + 2 ^ 32 * ph_period_ns d') * (10 ^ 6 * 2 ^ 16) - 2 ^ 34 * (10 ^ 6 * 2 ^ 16 + -6553600))
  <= 10 ^ 6 * 2 ^ 15 + (2 ^ 16 - 1) * Z.abs (-6553600).
Proof.
  exact (proj1 (phc_adjfine_accurate (-6553600) phc0 ltac:(cbn; lia) ltac:(cbn; lia) ltac:(lia) ltac:(cbn; lia) ltac:(vm_compute; reflexivity))).
Defined.

(** ** Periodic outputs *)

(** A time of [sec] seconds and [nsec] nanoseconds, in nanoseconds. *)
Definition total_ns (t : Z * Z) : Z := t.1 * NSEC_PER_SEC + t.2.

Lemma carry_seconds_ok t :
  0 <= tv_sec t < 2 ^ 63 -> 0 <= tv_nsec t < 2 ^ 32 ->
  total_ns (carry_seconds t) = total_ns (tv_sec t, tv_nsec t) /\ 0 <= (carry_seconds t).1 < 2 ^ 64 /\ 0 <= (carry_seconds t).2 < NSEC_PER_SEC.
Proof.
  intros Hs Hn. unfold carry_seconds, total_ns. rewrite (u32_id (tv_nsec t)) by done. cbn [fst snd].
  pose proof (Z.div_mod (tv_nsec t) NSEC_PER_SEC ltac:(done)) as Hdm. pose proof (Z.mod_pos_bound (tv_nsec t) NSEC_PER_SEC ltac:(done)) as Hm.
  set (q := tv_nsec t / NSEC_PER_SEC) in *. unfold NSEC_PER_SEC in *.
  assert (0 <= q <= 4) by lia. rewrite u64_id, u32_id by lia. lia.
Qed.

Lemma half_period_ok p :
  0 <= p.1 < 2 ^ 64 -> 0 <= p.2 < NSEC_PER_SEC ->
  total_ns (half_period p) = total_ns p / 2 /\ 0 <= (half_period p).2 < NSEC_PER_SEC.
Proof.
  intros Hs Hn. unfold half_period, total_ns, NSEC_PER_SEC in *. cbn [fst snd]. rewrite !Z.shiftr_div_pow2 by lia.
  rewrite Z.bit0_odd. change (2 ^ 1) with 2. pose proof (Zeven.Zdiv2_odd_eqn p.1) as Ho. rewrite Zdiv2_div in Ho.
  set (q := p.1 / 2) in *. set (o := if Z.odd p.1 then 1 else 0) in *.
  assert ((if Z.odd p.1 then 1000000000 else 0) = 1000000000 * o) as -> by (unfold o; by destruct (Z.odd p.1)).
  assert (0 <= o <= 1) by (unfold o; by destruct (Z.odd p.1)).
  pose proof (Z.div_mod (p.2 + 1000000000 * o) 2 ltac:(lia)). pose proof (Z.mod_pos_bound (p.2 + 1000000000 * o) 2 ltac:(lia)).
  set (hn := (p.2 + 1000000000 * o) / 2) in *. rewrite u32_id by lia. split; [|lia].
  apply Z.div_unique with ((p.2 + 1000000000 * o) mod 2); lia.
Qed.

(** Periodic outputs. A request for an output channel the device has is
    programmed with the requested start and period, with nanoseconds below
    one second whatever the request has there, and with a pulse of exactly
    half the period, rounded down; then the channel is enabled. Switching off
    writes the control register only. Without such a channel, and for every
    other kind of request, the answer is [-EINVAL] and the device is not
    touched. *)
Theorem phc_enable_spec {hw} `{!Mmio hw} rb_list req on (h : hw) :
  match req with
  | Some (PTP_CLK_REQ_PEROUT p) =>
      0 <= tv_sec (po_start p) < 2 ^ 63 -> 0 <= tv_nsec (po_start p) < 2 ^ 32 ->
      0 <= tv_sec (po_period p) < 2 ^ 63 -> 0 <= tv_nsec (po_period p) < 2 ^ 32 ->
      match mqnic_find_reg_block rb_list MQNIC_RB_PHC_PEROUT_TYPE MQNIC_RB_PHC_PEROUT_VER (po_index p) with
      | None => mqnic_phc_enable rb_list req on h = (- EINVAL, h)
      | Some rb =>
          if on then
            exists start period width,
              mqnic_phc_enable rb_list req on h
              = (0, write_all (time_writes (rb_regs rb + 0x10) start ++ time_writes (rb_regs rb + 0x20) period ++
                               time_writes (rb_regs rb + 0x30) width ++ [(1, rb_regs rb + 0x0C)]) h) /\
              total_ns start = tv_sec (po_start p) * NSEC_PER_SEC + tv_nsec (po_start p) /\ 0 <= start.2 < NSEC_PER_SEC /\
              total_ns period = tv_sec (po_period p) * NSEC_PER_SEC + tv_nsec (po_period p) /\ 0 <= period.2 < NSEC_PER_SEC /\
              total_ns width = total_ns period / 2 /\ 0 <= width.2 < NSEC_PER_SEC
          else mqnic_phc_enable rb_list req on h = (0, iowrite32 0 (rb_regs rb + 0x0C) h)
      end
  | _ => mqnic_phc_enable rb_list req on h = (- EINVAL, h)
  end.
Proof.
  destruct req as [[|p|]|]; try done. intros H1 H2 H3 H4. cbn [mqnic_phc_enable]. unfold mqnic_phc_perout.
  destruct (mqnic_find_reg_block _ _ _ _) as [rb|]; [|done]. destruct on; [|done]. cbn [negb].
  destruct (carry_seconds_ok _ H1 H2) as (S1 & _ & S3). destruct (carry_seconds_ok _ H3 H4) as (P1 & P2 & P3).
  destruct (half_period_ok _ P2 P3) as (W1 & W2).
  do 3 eexists. split; [reflexivity|]. by split_and!; try done; lia.
Qed.

Lemma phc_enable_spec_witness :
  exists start period width,
    mqnic_phc_enable [mk_rb 0xC081 0x100 0 0x400] (Some (PTP_CLK_REQ_PEROUT (mk_perout 0 (mk_ts 10 2500000000) (mk_ts 1 0)))) true (∅ : memory)
    = (0, write_all (time_writes 0x410 start ++ time_writes 0x420 period ++ time_writes 0x430 width ++ [(1, 0x40C)]) (∅ : memory)) /\
    total_ns start = 12500000000 /\ total_ns width = 500000000.
Proof.
  destruct (phc_enable_spec [mk_rb 0xC081 0x100 0 0x400] (Some (PTP_CLK_REQ_PEROUT (mk_perout 0 (mk_ts 10 2500000000) (mk_ts 1 0)))) true (∅ : memory))
    as (start & period & width & E & H1 & _ & H2 & _ & H3 & _); [cbn; lia..|].
  exists start, period, width. split; [exact E|]. split; [exact H1|]. rewrite H3, H2. reflexivity.
Defined.

(** *** Registration *)

Lemma count_perout_ok rb_list fuel count :
  Forall (fun rb => rb_regs rb <> 0) rb_list ->
  let n := length (List.filter (rb_matches MQNIC_RB_PHC_PEROUT_TYPE MQNIC_RB_PHC_PEROUT_VER) rb_list) in
  (count <= n)%nat -> (n - count < fuel)%nat -> count_perout fuel rb_list count = Some n.
Proof.
  intros Hl n. revert count. induction fuel as [|fuel IH]; intros count Hc Hf; [lia|]. cbn [count_perout].
  rewrite mqnic_find_reg_block_spec by done. rewrite Nat2Z.id.
  destruct (decide (count = n)) as [->|Hne].
  - rewrite lookup_ge_None_2 by done. done.
  - destruct (lookup_lt_is_Some_2 (List.filter (rb_matches MQNIC_RB_PHC_PEROUT_TYPE MQNIC_RB_PHC_PEROUT_VER) rb_list) count) as [x ->];
      [lia|]. apply IH; lia.
Qed.

(** Registering the clock. The loop that counts the output channels ends;
    a device with a clock registers it once, with as many outputs as it has
    channel blocks, and sets it to the system's TAI time; if the kernel
    refuses, no clock is registered and the device is not touched. A second
    call, or one for a device without a clock, does nothing; unregistering
    makes the next call register again. *)
Theorem register_phc_spec rb_list clock tai d (h : phc) :
  Forall (fun rb => rb_regs rb <> 0) rb_list ->
  let n := length (List.filter (rb_matches MQNIC_RB_PHC_PEROUT_TYPE MQNIC_RB_PHC_PEROUT_VER) rb_list) in
  mqnic_register_phc rb_list clock tai d h
  = Some (match pd_phc_rb d, pd_ptp_clock d with
          | Some rb, None => (mk_phc_dev (Some rb) clock n, if clock is Some _ then mqnic_phc_settime (rb_regs rb) tai h else h)
          | _, _ => (d, h)
          end) /\
  (forall rb, pd_phc_rb d = Some rb -> rb_regs rb = 0 -> pd_ptp_clock d = None -> ts_ok tai -> is_Some clock ->
     exists d' h', mqnic_register_phc rb_list clock tai d h = Some (d', h') /\ phc_time h' = tai /\
       mqnic_register_phc rb_list clock tai d' h' = Some (d', h') /\
       mqnic_register_phc rb_list clock tai (mqnic_unregister_phc d') h' = Some (d', mqnic_phc_settime 0 tai h')).
Proof.
  intros Hl n.
  assert (forall d0 h0, mqnic_register_phc rb_list clock tai d0 h0
            = Some (match pd_phc_rb d0, pd_ptp_clock d0 with
                    | Some rb, None => (mk_phc_dev (Some rb) clock n, if clock is Some _ then mqnic_phc_settime (rb_regs rb) tai h0 else h0)
                    | _, _ => (d0, h0)
                    end)) as Heq.
  { intros d0 h0. unfold mqnic_register_phc. destruct (pd_phc_rb d0) as [rb|]; [|done]. destruct (pd_ptp_clock d0); [done|].
    rewrite (count_perout_ok rb_list _ 0 Hl); [by destruct clock|lia|].
    pose proof (List.filter_length_le (rb_matches MQNIC_RB_PHC_PEROUT_TYPE MQNIC_RB_PHC_PEROUT_VER) rb_list). lia. }
  split; [apply Heq|]. intros rb Hrb Hr Hc Hts [k ->]. rewrite Heq, Hrb, Hc, Hr. do 2 eexists. split; [reflexivity|].
  split; [by apply settime_time|]. rewrite !Heq. cbn [pd_phc_rb pd_ptp_clock mqnic_unregister_phc]. by rewrite Hr.
Qed.

Lemma register_phc_spec_witness :
  exists d' h', mqnic_register_phc [mk_rb 0xC080 0x100 0 0x300; mk_rb 0xC081 0x100 0 0x400] (Some 1%nat) (mk_ts 5 6)
      (mk_phc_dev (Some (mk_rb 0xC080 0x100 0 0)) None 0) phc0 = Some (d', h') /\ phc_time h' = mk_ts 5 6.
Proof.
  destruct (register_phc_spec [mk_rb 0xC080 0x100 0 0x300; mk_rb 0xC081 0x100 0 0x400] (Some 1%nat) (mk_ts 5 6)
      (mk_phc_dev (Some (mk_rb 0xC080 0x100 0 0)) None 0) phc0) as [_ H]; [repeat constructor; done|].
  destruct (H (mk_rb 0xC080 0x100 0 0) eq_refl eq_refl eq_refl) as (d' & h' & E & Ht & _);
    [unfold ts_ok, NSEC_PER_SEC; cbn [tv_sec tv_nsec]; lia|by eexists|].
  exists d', h'. split; [exact E|exact Ht].
Defined.

(** ** Timestamps of packets *)

Lemma mask_bits i : 0 <= i -> Z.testbit 0xffffffffffffff00 i = (8 <=? i) && (i <? 64).
Proof.
  intros Hi. change 0xffffffffffffff00 with (Z.shiftl (Z.ones 56) 8). rewrite Z.shiftl_spec by done.
  destruct (Z.leb_spec 8 i) as [H8|H8]; [|by rewrite Z.testbit_neg_r by lia]. cbn [andb].
  destruct (Z.ltb_spec i 64); [by rewrite Z.ones_spec_low by lia|by rewrite Z.ones_spec_high by lia].
Qed.

(** Two numbers that agree above the low byte. *)
Lemma high_bits t c i : c / 256 = t / 256 -> 8 <= i -> Z.testbit c i = Z.testbit t i.
Proof.
  intros E Hi. replace i with (i - 8 + 8) by lia. rewrite <- !Z.shiftr_spec by lia.
  rewrite !Z.shiftr_div_pow2 by lia. change (2 ^ 8) with 256. by rewrite E.
Qed.

Lemma lor_cached t c : 0 <= t < 2 ^ 64 -> c / 256 = t / 256 -> Z.lor (u16 t) (Z.land c 0xffffffffffffff00) = t.
Proof.
  intros Ht E. apply Z.bits_inj'. intros i Hi. rewrite Z.lor_spec, Z.land_spec, mask_bits by done. unfold u16.
  destruct (decide (i < 16)).
  - rewrite Z.mod_pow2_bits_low by done. destruct (Z.leb_spec 8 i); [|by rewrite andb_false_r, orb_false_r].
    rewrite (high_bits t c) by done. destruct (Z.testbit t i); [done|]. done.
  - rewrite Z.mod_pow2_bits_high by lia. rewrite (high_bits t c), (proj2 (Z.leb_le 8 i)) by (done || lia). cbn [andb orb].
    destruct (Z.ltb_spec i 64); [by rewrite andb_true_r|]. rewrite andb_false_r. symmetry.
    destruct (decide (t = 0)) as [->|]; [apply Z.bits_0|]. apply Z.bits_above_log2; [lia|].
    assert (Z.log2 t < 64) by (apply Z.log2_lt_pow2; lia). lia.
Qed.

(** The test of the cache: bits 8 to 15. *)
Lemma cache_test t c :
  Z.land (Z.lxor c (u16 t)) 0xff00 = 0 -> 0 <= t - c < 2 ^ 16 - 2 ^ 8 -> c / 256 = t / 256.
Proof.
  intros E Htc. assert (c / 256 mod 256 = t / 256 mod 256) as Hm.
  { change 256 with (2 ^ 8). rewrite <- !Z.land_ones, <- !Z.shiftr_div_pow2 by lia. apply Z.bits_inj'. intros i Hi.
    rewrite !Z.land_spec, !Z.shiftr_spec by lia. destruct (decide (i < 8)); [|by rewrite Z.ones_spec_high, !andb_false_r by lia].
    rewrite Z.ones_spec_low, !andb_true_r by lia.
    pose proof (f_equal (fun z => Z.testbit z (i + 8)) E) as Hb. cbn beta in Hb.
    change 0xff00 with (Z.shiftl (Z.ones 8) 8) in Hb. rewrite Z.land_spec, Z.lxor_spec, Z.bits_0, Z.shiftl_spec in Hb by lia.
    unfold u16 in Hb. rewrite Z.ones_spec_low, Z.mod_pow2_bits_low, andb_true_r in Hb by lia. by apply xorb_eq. }
  pose proof (Z.div_mod c 256 ltac:(lia)). pose proof (Z.mod_pos_bound c 256 ltac:(lia)).
  pose proof (Z.div_mod t 256 ltac:(lia)). pose proof (Z.mod_pos_bound t 256 ltac:(lia)).
  pose proof (Z.div_mod (c / 256) 256 ltac:(lia)). pose proof (Z.div_mod (t / 256) 256 ltac:(lia)). lia.
Qed.

(** Packet timestamps. The completion has the low 16 bits of the seconds;
    the rest is from the time cached in the ring, or from the clock when the
    cache is not valid or bits 8 to 15 do not agree. The timestamp is exact
    if the cached time is less than [2^16 - 2^8] seconds older than the
    packet and the clock, when it is read, is in the same 256 seconds as the
    packet; and then the cache is still such a time for the next packet. *)
Theorem read_cpl_ts_exact regs ts_s ts_valid cpl (w : qworld phc) T ns :
  regs = 0 -> 0 <= T < 9223372036 -> cpl_ts_s cpl = u16 T -> cpl_ts_ns cpl = ns ->
  0 <= ph_sec (w_hw w) < 2 ^ 48 -> ph_sec (w_hw w) / 256 = T / 256 ->
  (ts_valid = true -> 0 <= T - ts_s < 2 ^ 16 - 2 ^ 8) ->
  exists c w', mqnic_read_cpl_ts (Some regs) ts_s ts_valid cpl w = (T * NSEC_PER_SEC + ns, (c, true), w') /\
    c / 256 = T / 256 /\ w_hw w' = w_hw w.
Proof.
  intros -> HT Hs Hns Hclk Hsame Hcache. unfold mqnic_read_cpl_ts. rewrite Hs, Hns.
  assert (forall c, c / 256 = T / 256 -> ktime_set (Z.lor (u16 T) (Z.land c 0xffffffffffffff00)) ns = T * NSEC_PER_SEC + ns) as Hk.
  { intros c Hc. rewrite lor_cached by (done || lia). unfold ktime_set. rewrite s64_id by lia.
    rewrite (proj2 (Z.leb_gt _ _)); [done|]. change (KTIME_MAX / NSEC_PER_SEC) with 9223372036. lia. }
  destruct (negb ts_valid || _) eqn:Estale.
  - assert (ioread32 (0 + MQNIC_RB_PHC_REG_CUR_SEC_L) (w_hw w) = (u32 (ph_sec (w_hw w)), w_hw w)) as -> by done.
    assert (ioread32 (0 + MQNIC_RB_PHC_REG_CUR_SEC_H) (w_hw w) = (u16 (Z.shiftr (ph_sec (w_hw w)) 32), w_hw w)) as -> by done.
    rewrite lor_shift_add by (apply u32_range || apply u16_range). rewrite sec_split by done. rewrite Hk by done.
    do 2 eexists. split; [reflexivity|]. done.
  - apply orb_false_iff in Estale as [Ev Eb]. apply negb_false_iff in Ev, Eb. apply Z.eqb_eq in Eb. subst ts_valid.
    pose proof (cache_test T ts_s Eb (Hcache eq_refl)) as Hc. rewrite Hk by done. do 2 eexists. split; [reflexivity|]. done.
Qed.

(** A world with the clock. *)
Definition phc_world (d : phc) : qworld phc :=
  mk_qworld d (w_eq_res world0) (w_cq_res world0) (w_txq_res world0) (w_rxq_res world0) [] [].

Lemma read_cpl_ts_exact_witness :
  exists c w', mqnic_read_cpl_ts (Some 0) 10000 true (mk_cpl 0 64 7 (u16 70000) 0 0) (phc_world (mk_phc 70001 0 0 (0, 0) 0 0 0 0 4 5 0 4 0 []))
    = (70000 * NSEC_PER_SEC + 7, (c, true), w') /\ c / 256 = 70000 / 256.
Proof.
  destruct (read_cpl_ts_exact 0 10000 true (mk_cpl 0 64 7 (u16 70000) 0 0) (phc_world (mk_phc 70001 0 0 (0, 0) 0 0 0 0 4 5 0 4 0 [])) 70000 7)
    as (c & w' & E & Hc & _); try done; try (cbn; lia).
  exists c, w'. split; [exact E|exact Hc].
Defined.

(** A packet of second 255 whose completion is processed in second 256: the
    two times are combined with a bitwise or, and the timestamp is 256
    seconds late. *)
Theorem read_cpl_ts_boundary :
  (mqnic_read_cpl_ts (Some 0) 0 false (mk_cpl 0 64 7 255 0 0) (phc_world (mk_phc 256 0 0 (0, 0) 0 0 0 0 4 5 0 4 0 []))).1.1
  = 511 * NSEC_PER_SEC + 7.
Proof. vm_compute. reflexivity. Qed.
