(* ===== verification/MqnicDevice.v ===== *)
(** * The NIC as a device

    Model of [modules/mqnic/mqnic_main.c] (PCI probe and remove),
    [mqnic_irq.c], [mqnic_clk_info.c] and [mqnic_stats.c]: the device number,
    regions, BARs, interrupts, the register blocks of the device, its
    interfaces, the character device and the auxiliary device.

    [None] stands for a crash: a division by zero, or what the parts called
    here stand [None] for. *)

From S2P Require Import Prelude Mmio MqnicRes MqnicQueue MqnicSched MqnicNetdev MqnicIf MqnicPtp.

Definition MQNIC_MAX_IF : Z := 8.
Definition MQNIC_MAX_IRQ : Z := 256.
Definition MQNIC_RB_FW_ID_TYPE : Z := 0xFFFFFFFF.
Definition MQNIC_RB_FW_ID_VER : Z := 0x00000100.
Definition MQNIC_RB_FW_ID_REG_FPGA_ID : Z := 0x0C.
Definition MQNIC_RB_FW_ID_REG_FW_ID : Z := 0x10.
Definition MQNIC_RB_FW_ID_REG_FW_VER : Z := 0x14.
Definition MQNIC_RB_FW_ID_REG_BOARD_ID : Z := 0x18.
Definition MQNIC_RB_FW_ID_REG_BOARD_VER : Z := 0x1C.
Definition MQNIC_RB_FW_ID_REG_BUILD_DATE : Z := 0x20.
Definition MQNIC_RB_FW_ID_REG_GIT_HASH : Z := 0x24.
Definition MQNIC_RB_FW_ID_REG_REL_INFO : Z := 0x28.
Definition MQNIC_RB_STATS_TYPE : Z := 0x0000C006.
Definition MQNIC_RB_STATS_VER : Z := 0x00000100.
Definition MQNIC_RB_STATS_REG_OFFSET : Z := 0x0C.
Definition MQNIC_RB_STATS_REG_COUNT : Z := 0x10.
Definition MQNIC_RB_STATS_REG_STRIDE : Z := 0x14.
Definition MQNIC_RB_STATS_REG_FLAGS : Z := 0x18.
Definition MQNIC_RB_CLK_INFO_TYPE : Z := 0x0000C008.
Definition MQNIC_RB_CLK_INFO_VER : Z := 0x00000100.
Definition MQNIC_RB_CLK_INFO_COUNT : Z := 0x0C.
Definition MQNIC_RB_CLK_INFO_REF_NOM_PER : Z := 0x10.
Definition MQNIC_RB_CLK_INFO_CLK_NOM_PER : Z := 0x18.
Definition MQNIC_RB_CLK_INFO_CLK_FREQ : Z := 0x1C.
Definition MQNIC_RB_CLK_INFO_FREQ_BASE : Z := 0x20.
Definition MQNIC_RB_IF_TYPE : Z := 0x0000C000.
Definition MQNIC_RB_IF_VER : Z := 0x00000100.
Definition MQNIC_RB_IF_REG_OFFSET : Z := 0x0C.
Definition MQNIC_RB_IF_REG_COUNT : Z := 0x10.
Definition MQNIC_RB_IF_REG_STRIDE : Z := 0x14.
Definition MQNIC_RB_IF_REG_CSR_OFFSET : Z := 0x18.
Definition MQNIC_RB_APP_INFO_TYPE : Z := 0x0000C005.
Definition MQNIC_RB_APP_INFO_VER : Z := 0x00000200.
Definition MQNIC_RB_APP_INFO_REG_ID : Z := 0x0C.
Definition MQNIC_RB_PHC_TYPE : Z := 0x0000C080.
Definition MQNIC_RB_PHC_VER : Z := 0x00000100.

(** ** Device numbers *)

(** The numbers of the devices on the list; [None]: out of fuel. *)
Fixpoint free_id_loop (fuel : nat) (ids : list Z) (id : Z) : option Z :=
  match fuel with
  | O => None
  | S fuel' => if existsb (Z.eqb id) ids then free_id_loop fuel' ids (u32 (id + 1)) else Some id
  end.
Definition mqnic_get_free_id (ids : list Z) : option Z := free_id_loop (S (length ids)) ids 0.

(** ** Clock rates *)

Record clk_info := mk_clk {
  ref_clk_nom_per_ns_num : Z;
  ref_clk_nom_per_ns_denom : Z;
  ref_clk_nom_freq_hz : Z;
  core_clk_nom_per_ns_num : Z;
  core_clk_nom_per_ns_denom : Z;
  core_clk_nom_freq_hz : Z;
  clk_info_channels : Z;
  clk_info_regs : Z;
}.

Section Device.
Context {hw : Type} `{!Mmio hw}.

(** [None]: division by zero. The block may be missing. *)
Definition mqnic_clk_info_init (rb_list : list mqnic_reg_block) (h : hw) : option (option clk_info * hw) :=
  match mqnic_find_reg_block rb_list MQNIC_RB_CLK_INFO_TYPE MQNIC_RB_CLK_INFO_VER 0 with
  | None => Some (None, h)
  | Some rb =>
      let '(v, h) := ioread32 (rb_regs rb + MQNIC_RB_CLK_INFO_REF_NOM_PER) h in
      let '(rn, rd) := (Z.shiftr v 16, Z.land v 0xffff) in
      if rn =? 0 then None else
      let '(v, h) := ioread32 (rb_regs rb + MQNIC_RB_CLK_INFO_CLK_NOM_PER) h in
      let '(cn, cd) := (Z.shiftr v 16, Z.land v 0xffff) in
      if cn =? 0 then None else
      let '(v, h) := ioread32 (rb_regs rb + MQNIC_RB_CLK_INFO_COUNT) h in
      Some (Some (mk_clk rn rd (u32 (rd * 1000000000 / rn)) cn cd (u32 (cd * 1000000000 / cn)) v (rb_regs rb)), h)
  end.

Definition mqnic_get_core_clk_freq_hz (c : option clk_info) (h : hw) : Z * hw :=
  match c with None => (0, h) | Some c => ioread32 (clk_info_regs c + MQNIC_RB_CLK_INFO_CLK_FREQ) h end.
Definition mqnic_get_clk_freq_hz (c : option clk_info) (ch : Z) (h : hw) : Z * hw :=
  match c with
  | None => (0, h)
  | Some c => if (ch <? 0) || (clk_info_channels c <=? u32 ch) then (0, h) else ioread32 (clk_info_regs c + MQNIC_RB_CLK_INFO_FREQ_BASE + ch * 4) h
  end.

(** ** Statistics *)

Record stats_info := mk_stats { stats_offset : Z; stats_count : Z; stats_stride : Z; stats_flags : Z }.

Definition mqnic_stats_init (rb_list : list mqnic_reg_block) (h : hw) : option stats_info * hw :=
  match mqnic_find_reg_block rb_list MQNIC_RB_STATS_TYPE MQNIC_RB_STATS_VER 0 with
  | None => (None, h)
  | Some rb =>
      let '(o, h) := ioread32 (rb_regs rb + MQNIC_RB_STATS_REG_OFFSET) h in
      let '(c, h) := ioread32 (rb_regs rb + MQNIC_RB_STATS_REG_COUNT) h in
      let '(s, h) := ioread32 (rb_regs rb + MQNIC_RB_STATS_REG_STRIDE) h in
      let '(f, h) := ioread32 (rb_regs rb + MQNIC_RB_STATS_REG_FLAGS) h in
      (Some (mk_stats o c s f), h)
  end.

Definition mqnic_stats_read (hw_addr : Z) (s : option stats_info) (index : Z) (h : hw) : Z * hw :=
  match s with
  | None => (0, h)
  | Some s =>
      if (index <? 0) || (stats_count s <=? u32 index) then (0, h)
      else
        let '(lo, h) := ioread32 (hw_addr + stats_offset s + index * 8 + 0) h in
        let '(hi, h) := ioread32 (hw_addr + stats_offset s + index * 8 + 4) h in
        (Z.lor lo (Z.shiftl hi 32), h)
  end.
End Device.

Definition mqnic_core_clk_cycles_to_ns (c : option clk_info) (cycles : Z) : Z :=
  match c with
  | None => 0
  | Some c => if core_clk_nom_per_ns_denom c =? 0 then 0 else u64 (cycles * core_clk_nom_per_ns_num c) / core_clk_nom_per_ns_denom c
  end.
Definition mqnic_core_clk_ns_to_cycles (c : option clk_info) (ns : Z) : Z :=
  match c with
  | None => 0
  | Some c => if core_clk_nom_per_ns_num c =? 0 then 0 else u64 (ns * core_clk_nom_per_ns_denom c) / core_clk_nom_per_ns_num c
  end.
Definition mqnic_ref_clk_cycles_to_ns (c : option clk_info) (cycles : Z) : Z :=
  match c with
  | None => 0
  | Some c => if ref_clk_nom_per_ns_denom c =? 0 then 0 else u64 (cycles * ref_clk_nom_per_ns_num c) / ref_clk_nom_per_ns_denom c
  end.
Definition mqnic_ref_clk_ns_to_cycles (c : option clk_info) (ns : Z) : Z :=
  match c with
  | None => 0
  | Some c => if ref_clk_nom_per_ns_num c =? 0 then 0 else u64 (ns * ref_clk_nom_per_ns_denom c) / ref_clk_nom_per_ns_num c
  end.

(** ** Probe and remove *)

(** What the kernel holds for the driver: the list of devices, the state of
    the PCI function, interrupts, register block lists, the PTP clock, the
    character device, the auxiliary device; and the DMA buffers and notifier
    entries that interfaces which are gone have left behind. *)
Record kern := mk_kern {
  k_ids : list Z;
  k_enabled : bool;
  k_regions : bool;
  k_bars : list nat;
  k_vectors : bool;
  k_irqs : list nat;
  k_master : bool;
  k_lists : nat;
  k_clock : bool;
  k_misc : bool;
  k_adev : bool;
  k_left : list (Z * Z * Z) * list nat;
}.

Definition set_ids x k := mk_kern x (k_enabled k) (k_regions k) (k_bars k) (k_vectors k) (k_irqs k) (k_master k) (k_lists k) (k_clock k) (k_misc k) (k_adev k) (k_left k).
Definition set_enabled x k := mk_kern (k_ids k) x (k_regions k) (k_bars k) (k_vectors k) (k_irqs k) (k_master k) (k_lists k) (k_clock k) (k_misc k) (k_adev k) (k_left k).
Definition set_regions x k := mk_kern (k_ids k) (k_enabled k) x (k_bars k) (k_vectors k) (k_irqs k) (k_master k) (k_lists k) (k_clock k) (k_misc k) (k_adev k) (k_left k).
Definition set_bars x k := mk_kern (k_ids k) (k_enabled k) (k_regions k) x (k_vectors k) (k_irqs k) (k_master k) (k_lists k) (k_clock k) (k_misc k) (k_adev k) (k_left k).
Definition set_vectors x k := mk_kern (k_ids k) (k_enabled k) (k_regions k) (k_bars k) x (k_irqs k) (k_master k) (k_lists k) (k_clock k) (k_misc k) (k_adev k) (k_left k).
Definition set_irqs x k := mk_kern (k_ids k) (k_enabled k) (k_regions k) (k_bars k) (k_vectors k) x (k_master k) (k_lists k) (k_clock k) (k_misc k) (k_adev k) (k_left k).
Definition set_master x k := mk_kern (k_ids k) (k_enabled k) (k_regions k) (k_bars k) (k_vectors k) (k_irqs k) x (k_lists k) (k_clock k) (k_misc k) (k_adev k) (k_left k).
Definition set_lists x k := mk_kern (k_ids k) (k_enabled k) (k_regions k) (k_bars k) (k_vectors k) (k_irqs k) (k_master k) x (k_clock k) (k_misc k) (k_adev k) (k_left k).
Definition set_clock x k := mk_kern (k_ids k) (k_enabled k) (k_regions k) (k_bars k) (k_vectors k) (k_irqs k) (k_master k) (k_lists k) x (k_misc k) (k_adev k) (k_left k).
Definition set_misc x k := mk_kern (k_ids k) (k_enabled k) (k_regions k) (k_bars k) (k_vectors k) (k_irqs k) (k_master k) (k_lists k) (k_clock k) x (k_adev k) (k_left k).
Definition set_adev x k := mk_kern (k_ids k) (k_enabled k) (k_regions k) (k_bars k) (k_vectors k) (k_irqs k) (k_master k) (k_lists k) (k_clock k) (k_misc k) x (k_left k).
Definition leave (bufs : list (Z * Z * Z)) (chain : list nat) k :=
  mk_kern (k_ids k) (k_enabled k) (k_regions k) (k_bars k) (k_vectors k) (k_irqs k) (k_master k) (k_lists k) (k_clock k) (k_misc k) (k_adev k) ((k_left k).1 ++ bufs, (k_left k).2 ++ chain).

(** The kernel's answers during a probe, and the module parameters. *)
Record pci_env := mk_pci_env {
  pe_kzalloc : bool;
  pe_enable : Z;
  pe_dma64 : Z;
  pe_dma32 : Z;
  pe_request_regions : Z;
  pe_len : nat -> Z;                 (* [pci_resource_len] *)
  pe_ioremap : nat -> Z;             (* [pci_ioremap_bar], 0: NULL *)
  pe_alloc_vectors : Z;
  pe_irq : nat -> bool * Z;          (* [kzalloc], [pci_request_irq] *)
  pe_rb : rb_env;
  pe_board : Z;                      (* [mqnic_board_init] *)
  pe_macs : list (list Z);
  pe_clock : option nat;             (* [ptp_clock_register] *)
  pe_tai : timespec64;
  pe_if : nat -> if_env;
  pe_misc : Z;
  pe_adev : bool * Z * Z;            (* [kzalloc], [auxiliary_device_init], [_add] *)
  pe_num_eq_entries : Z;
  pe_online_cpus : Z;
  pe_num_txq_entries : Z;
  pe_num_rxq_entries : Z;
}.

Section Probe.
Context {hw : Type} `{!Mmio hw}.

(** The fields of [struct mqnic_dev]. Each interface has its own world, whose
    registers are those of the device. *)
Record mqnic_dev := mk_dev {
  md_id : Z;
  md_hw_addr : Z;
  md_app_hw_addr : Z;
  md_ram_hw_addr : Z;
  md_irq_count : Z;
  md_irq : list nat;
  md_rb_list : option (list mqnic_reg_block);
  md_fw : list Z;
  md_app_id : Z;
  md_clk : option clk_info;
  md_stats : option stats_info;
  md_phc : phc_dev;
  md_if_count : Z;
  md_if_stride : Z;
  md_if_csr_offset : Z;
  md_interface : list (mqnic_if * qworld hw);
  md_misc : bool;
  md_adev : bool;
}.
Definition dev0 (id : Z) : mqnic_dev := mk_dev id 0 0 0 0 [] None [] 0 None None (mk_phc_dev None None 0) 0 0 0 [] false false.

(** What a device does and holds, apart from the PCI part. *)
Definition set_common (rbs : option (list mqnic_reg_block)) fw app clk st phc count stride csr (d : mqnic_dev) : mqnic_dev :=
  mk_dev (md_id d) (md_hw_addr d) (md_app_hw_addr d) (md_ram_hw_addr d) (md_irq_count d) (md_irq d) rbs fw app clk st phc count stride csr (md_interface d) (md_misc d) (md_adev d).
Definition set_interface (l : list (mqnic_if * qworld hw)) (d : mqnic_dev) : mqnic_dev :=
  mk_dev (md_id d) (md_hw_addr d) (md_app_hw_addr d) (md_ram_hw_addr d) (md_irq_count d) (md_irq d) (md_rb_list d) (md_fw d) (md_app_id d) (md_clk d) (md_stats d) (md_phc d) (md_if_count d)
    (md_if_stride d) (md_if_csr_offset d) l (md_misc d) (md_adev d).
Definition set_devs (misc adev : bool) (d : mqnic_dev) : mqnic_dev :=
  mk_dev (md_id d) (md_hw_addr d) (md_app_hw_addr d) (md_ram_hw_addr d) (md_irq_count d) (md_irq d) (md_rb_list d) (md_fw d) (md_app_id d) (md_clk d) (md_stats d) (md_phc d) (md_if_count d)
    (md_if_stride d) (md_if_csr_offset d) (md_interface d) misc adev.
Definition set_phc (p : phc_dev) (d : mqnic_dev) : mqnic_dev :=
  mk_dev (md_id d) (md_hw_addr d) (md_app_hw_addr d) (md_ram_hw_addr d) (md_irq_count d) (md_irq d) (md_rb_list d) (md_fw d) (md_app_id d) (md_clk d) (md_stats d) p (md_if_count d)
    (md_if_stride d) (md_if_csr_offset d) (md_interface d) (md_misc d) (md_adev d).
Definition set_if_count (n : Z) (d : mqnic_dev) : mqnic_dev :=
  set_common (md_rb_list d) (md_fw d) (md_app_id d) (md_clk d) (md_stats d) (md_phc d) n (md_if_stride d) (md_if_csr_offset d) d.
Definition set_irq (count : Z) (l : list nat) (d : mqnic_dev) : mqnic_dev :=
  mk_dev (md_id d) (md_hw_addr d) (md_app_hw_addr d) (md_ram_hw_addr d) count l (md_rb_list d) (md_fw d) (md_app_id d) (md_clk d) (md_stats d) (md_phc d) (md_if_count d)
    (md_if_stride d) (md_if_csr_offset d) (md_interface d) (md_misc d) (md_adev d).
Definition set_addrs (a b c : Z) (d : mqnic_dev) : mqnic_dev :=
  mk_dev (md_id d) a b c (md_irq_count d) (md_irq d) (md_rb_list d) (md_fw d) (md_app_id d) (md_clk d) (md_stats d) (md_phc d) (md_if_count d)
    (md_if_stride d) (md_if_csr_offset d) (md_interface d) (md_misc d) (md_adev d).

(** *** Interrupts *)

(** Interrupt [k] and the following; [None]: beyond the array. *)
Fixpoint irq_loop (env : pci_env) (n k : nat) (irqs : list nat) (ke : kern) : option (Z * list nat * kern) :=
  match n with
  | O => Some (0, irqs, ke)
  | S n' =>
      if negb (pe_irq env k).1 then Some (- ENOMEM, irqs, ke)
      else if (pe_irq env k).2 <? 0 then Some (- ENOMEM, irqs, ke)
      else if MQNIC_MAX_IRQ <=? Z.of_nat k then None
      else irq_loop env n' (S k) (irqs ++ [k]) (set_irqs (k_irqs ke ++ [k]) ke)
  end.

Definition mqnic_irq_deinit_pcie (d : mqnic_dev) (ke : kern) : mqnic_dev * kern :=
  (set_irq (md_irq_count d) [] d, set_vectors false (set_irqs (base.filter (fun k => k ∉ md_irq d) (k_irqs ke)) ke)).

Definition mqnic_irq_init_pcie (env : pci_env) (d : mqnic_dev) (ke : kern) : option (Z * mqnic_dev * kern) :=
  let count := pe_alloc_vectors env in
  if count <? 0 then Some (- ENOMEM, set_irq count [] d, ke)
  else
    '(ret, irqs, ke) ← irq_loop env (Z.to_nat count) 0 [] (set_vectors true ke);
    let d := set_irq count irqs d in
    if ret =? 0 then Some (0, d, ke) else let '(d, ke) := mqnic_irq_deinit_pcie d ke in Some (ret, d, ke).

(** *** The common part *)

Fixpoint destroy_ifs (l : list (mqnic_if * qworld hw)) (ke : kern) (h : hw) : option (kern * hw) :=
  match l with
  | [] => Some (ke, h)
  | (i, w) :: l' => w ← mqnic_destroy_interface (i, set_w_hw h w); destroy_ifs l' (leave (w_bufs w) (w_chain w) ke) (w_hw w)
  end.

(** [mqnic_board_deinit] is not part of the model. *)
Definition mqnic_common_remove (d : mqnic_dev) (ke : kern) (h : hw) : option (mqnic_dev * kern * hw) :=
  let ke := if md_adev d then set_adev false ke else ke in
  let ke := if md_misc d then set_misc false ke else ke in
  '(ke, h) ← destroy_ifs (md_interface d) ke h;
  let ke := match pd_ptp_clock (md_phc d) with Some _ => set_clock false ke | None => ke end in
  let ke := match md_rb_list d with Some _ => set_lists (k_lists ke - 1) ke | None => ke end in
  Some (set_interface [] (set_phc (mqnic_unregister_phc (md_phc d)) d), ke, h).

(** Error: clean up and return [ret]. *)
Definition probe_fail (ret : Z) (d : mqnic_dev) (ke : kern) (h : hw) : option (Z * mqnic_dev * kern * hw) :=
  '(d, ke, h) ← mqnic_common_remove d ke h; Some (ret, d, ke, h).

Fixpoint read_regs (l : list Z) (h : hw) : list Z * hw :=
  match l with
  | [] => ([], h)
  | a :: l' => let '(v, h) := ioread32 a h in let '(vs, h) := read_regs l' h in (v :: vs, h)
  end.

Definition fw_regs (a : Z) : list Z :=
  (fun o => a + o) <$> [MQNIC_RB_FW_ID_REG_FPGA_ID; MQNIC_RB_FW_ID_REG_FW_ID; MQNIC_RB_FW_ID_REG_FW_VER; MQNIC_RB_FW_ID_REG_BOARD_ID;
    MQNIC_RB_FW_ID_REG_BOARD_VER; MQNIC_RB_FW_ID_REG_BUILD_DATE; MQNIC_RB_FW_ID_REG_GIT_HASH; MQNIC_RB_FW_ID_REG_REL_INFO].

(** What [mqnic_create_interface] is told: [port] is [dev_port_max]. *)
Definition if_dev_of (env : pci_env) (d : mqnic_dev) (port : nat) : if_dev :=
  mk_if_dev (md_if_stride d) (md_if_csr_offset d) (md_irq_count d) (pe_num_eq_entries env) port (pe_online_cpus env) (pe_num_txq_entries env) (pe_num_rxq_entries env) (pe_macs env).
Definition res_none : mqnic_res := mk_res 0 0 0 None.
Definition if_world (h : hw) : qworld hw := mk_qworld h res_none res_none res_none res_none [] [].

(** The loop that sets up the interfaces; it ends at the first that cannot be
    created. *)
Fixpoint create_ifs (env : pci_env) (d : mqnic_dev) (n k port : nat) (l : list (mqnic_if * qworld hw)) (ke : kern) (h : hw)
    : option (list (mqnic_if * qworld hw) * kern * hw) :=
  match n with
  | O => Some (l, ke, h)
  | S n' =>
      '(r, w) ← mqnic_create_interface (if_dev_of env d port) (pe_if env k) (md_hw_addr d + Z.of_nat k * md_if_stride d) (if_world h);
      match r with
      | inl _ => Some (l, leave (w_bufs w) (w_chain w) ke, w_hw w)
      | inr i => create_ifs env d n' (S k) (match if_ndev i with Some _ => S port | None => port end) (l ++ [(i, w)]) ke (w_hw w)
      end
  end.

(** The character device and the auxiliary device. *)
Definition probe_devs (env : pci_env) (d : mqnic_dev) (ke : kern) (h : hw) : option (Z * mqnic_dev * kern * hw) :=
  if negb (pe_misc env =? 0) then probe_fail (pe_misc env) d ke h
  else
    let '(d, ke) := (set_devs true false d, set_misc true ke) in
    if md_app_id d =? 0 then Some (0, d, ke, h)
    else
      let '(alloc, init, add) := pe_adev env in
      if negb alloc then probe_fail (- ENOMEM) d ke h
      else if negb (init =? 0) then probe_fail init d ke h
      else if negb (add =? 0) then probe_fail add d ke h
      else Some (0, set_devs true true d, set_adev true ke, h).

Definition probe_ifs (env : pci_env) (rbs : list mqnic_reg_block) (d : mqnic_dev) (ke : kern) (h : hw) : option (Z * mqnic_dev * kern * hw) :=
  if negb (pe_board env =? 0) then probe_fail (pe_board env) d ke h
  else
    '(phc, h) ← mqnic_register_phc rbs (pe_clock env) (pe_tai env) (md_phc d) h;
    let ke := match pd_ptp_clock phc with Some _ => set_clock true ke | None => ke end in
    let d := set_if_count (Z.min (md_if_count d) MQNIC_MAX_IF) (set_phc phc d) in
    '(l, ke, h) ← create_ifs env d (Z.to_nat (md_if_count d)) 0 0 [] ke h;
    probe_devs env (set_interface l d) ke h.

Definition mqnic_common_probe (env : pci_env) (d : mqnic_dev) (ke : kern) (h : hw) : option (Z * mqnic_dev * kern * hw) :=
  let size := pe_len env 0 in
  '(r, h) ← mqnic_enumerate_reg_block_list (be_fuel (pe_rb env)) (be_kzalloc (pe_rb env)) (be_krealloc (pe_rb env)) (md_hw_addr d) 0 size h;
  match r with
  | EnumOverrun => None
  | EnumNull => Some (- EIO, d, ke, h)
  | EnumList rbs =>
      let ke := set_lists (S (k_lists ke)) ke in
      let nophc := md_phc d in
      match mqnic_find_reg_block rbs MQNIC_RB_FW_ID_TYPE MQNIC_RB_FW_ID_VER 0 with
      | None => probe_fail (- EIO) (set_common (Some rbs) [] 0 None None nophc 0 0 0 d) ke h
      | Some fw =>
          let '(ids, h) := read_regs (fw_regs (rb_regs fw)) h in
          let '(app, h) := match mqnic_find_reg_block rbs MQNIC_RB_APP_INFO_TYPE MQNIC_RB_APP_INFO_VER 0 with
                           | Some rb => ioread32 (rb_regs rb + MQNIC_RB_APP_INFO_REG_ID) h
                           | None => (0, h)
                           end in
          '(clk, h) ← mqnic_clk_info_init rbs h;
          let '(st, h) := mqnic_stats_init rbs h in
          let phc := mk_phc_dev (mqnic_find_reg_block rbs MQNIC_RB_PHC_TYPE MQNIC_RB_PHC_VER 0) None 0 in
          match mqnic_find_reg_block rbs MQNIC_RB_IF_TYPE MQNIC_RB_IF_VER 0 with
          | None => probe_fail (- EIO) (set_common (Some rbs) ids app clk st phc 0 0 0 d) ke h
          | Some rb =>
              let a := rb_regs rb in
              let '(_, h) := ioread32 (a + MQNIC_RB_IF_REG_OFFSET) h in
              let '(count, h) := ioread32 (a + MQNIC_RB_IF_REG_COUNT) h in
              let '(stride, h) := ioread32 (a + MQNIC_RB_IF_REG_STRIDE) h in
              let '(csr, h) := ioread32 (a + MQNIC_RB_IF_REG_CSR_OFFSET) h in
              let d := set_common (Some rbs) ids app clk st phc count stride csr d in
              if size <? u32 (count * stride) then probe_fail (- EIO) d ke h
              else probe_ifs env rbs d ke h
          end
      end
  end.

(** *** The PCI part *)

Definition mqnic_common_setdma (env : pci_env) : Z := if pe_dma64 env =? 0 then 0 else pe_dma32 env.

Definition unmap (n : nat) (addr : Z) (ke : kern) : kern := if addr =? 0 then ke else set_bars (base.filter (fun b => b <> n) (k_bars ke)) ke.
Definition free_id (id : Z) (ke : kern) : kern := set_ids (base.filter (fun x => x <> id) (k_ids ke)) ke.

(** From [fail_map_bars] on. *)
Definition unmap_all (d : mqnic_dev) (ke : kern) : kern :=
  free_id (md_id d) (set_enabled false (set_regions false (unmap 4 (md_ram_hw_addr d) (unmap 2 (md_app_hw_addr d) (unmap 0 (md_hw_addr d) ke))))).

(** A BAR that has a size is mapped: the address, or [None] when it fails. *)
Definition map_bar (env : pci_env) (n : nat) (needed : bool) (ke : kern) : option Z * kern :=
  if negb needed then (Some 0, ke)
  else if pe_ioremap env n =? 0 then (None, ke) else (Some (pe_ioremap env n), set_bars (k_bars ke ++ [n]) ke).

Definition probe_mapped (env : pci_env) (d : mqnic_dev) (ke : kern) (h : hw) : option (Z * option mqnic_dev * kern * hw) :=
  let '(v, h) := ioread32 (md_hw_addr d + 4) h in
  if v =? 0xffffffff then Some (- EIO, None, unmap_all d ke, h)
  else
    '(ret, d, ke) ← mqnic_irq_init_pcie env d ke;
    if negb (ret =? 0) then Some (ret, None, unmap_all d ke, h)
    else
      '(ret, d, ke, h) ← mqnic_common_probe env d (set_master true ke) h;
      if negb (ret =? 0) then
        let '(d, ke) := mqnic_irq_deinit_pcie d (set_master false ke) in Some (ret, None, unmap_all d ke, h)
      else Some (0, Some d, ke, h).

(** The BARs; the application and RAM BARs may be missing. *)
Definition probe_bars (env : pci_env) (id : Z) (ke : kern) (h : hw) : option (Z * option mqnic_dev * kern * hw) :=
  match map_bar env 0 true ke with
  | (None, ke) => Some (- ENOMEM, None, unmap_all (dev0 id) ke, h)
  | (Some a, ke) =>
      match map_bar env 2 (negb (pe_len env 2 =? 0)) ke with
      | (None, ke) => Some (- ENOMEM, None, unmap_all (set_addrs a 0 0 (dev0 id)) ke, h)
      | (Some b, ke) =>
          match map_bar env 4 (negb (pe_len env 4 =? 0)) ke with
          | (None, ke) => Some (- ENOMEM, None, unmap_all (set_addrs a b 0 (dev0 id)) ke, h)
          | (Some c, ke) => probe_mapped env (set_addrs a b c (dev0 id)) ke h
          end
      end
  end.

(** The device when it succeeds. *)
Definition mqnic_pci_probe (env : pci_env) (ke : kern) (h : hw) : option (Z * option mqnic_dev * kern * hw) :=
  if negb (pe_kzalloc env) then Some (- ENOMEM, None, ke, h)
  else
    id ← mqnic_get_free_id (k_ids ke);
    let ke := set_ids (k_ids ke ++ [id]) ke in
    if negb (pe_enable env =? 0) then Some (pe_enable env, None, free_id id ke, h)
    else
      let ke := set_enabled true ke in
      let ret := mqnic_common_setdma env in
      if negb (ret =? 0) then Some (ret, None, free_id id (set_enabled false ke), h)
      else if negb (pe_request_regions env =? 0) then Some (pe_request_regions env, None, free_id id (set_enabled false ke), h)
      else
        probe_bars env id (set_regions true ke) h.

Definition mqnic_pci_remove (d : mqnic_dev) (ke : kern) (h : hw) : option (kern * hw) :=
  '(d, ke, h) ← mqnic_common_remove d ke h;
  let '(d, ke) := mqnic_irq_deinit_pcie d (set_master false ke) in
  Some (unmap_all d ke, h).
End Probe.

(** ** Device numbers *)

Lemma existsb_In id ids : existsb (Z.eqb id) ids = true <-> id ∈ ids.
Proof. rewrite existsb_exists. split; [intros (x & Hx & ->%Z.eqb_eq); by apply list_elem_of_In|]. intros H. exists id. by rewrite Z.eqb_refl; split; [apply list_elem_of_In|]. Qed.

Lemma free_id_loop_ok fuel : forall ids id,
  0 <= id -> id + Z.of_nat fuel < 2 ^ 32 -> (forall j, 0 <= j < id -> j ∈ ids) -> NoDup ids -> (length ids < Z.to_nat id + fuel)%nat ->
  exists r, free_id_loop fuel ids id = Some r /\ r ∉ ids /\ 0 <= r < 2 ^ 32 /\ forall j, 0 <= j < r -> j ∈ ids.
Proof.
  induction fuel as [|fuel IH]; intros ids id H0 Hb Hj Hn Hl.
  - exfalso. assert (length (seqZ 0 id) <= length ids)%nat as H by (apply submseteq_length, NoDup_submseteq; [apply NoDup_seqZ|]; intros x Hx%elem_of_seqZ; apply Hj; lia). rewrite length_seqZ in H. lia.
  - cbn [free_id_loop]. destruct (existsb (Z.eqb id) ids) eqn:E.
    + apply existsb_In in E. rewrite u32_id by lia. apply IH; [lia|lia| |done|lia]. intros j Hj'. destruct (decide (j = id)) as [->|]; [done|]. apply Hj. lia.
    + exists id. split; [done|]. split; [intros Hi%existsb_In; congruence|]. split; [lia|done].
Qed.

(** The number of a device. With any set of fewer than [2^31] devices the
    search ends and gives the smallest number no device has. *)
Theorem mqnic_get_free_id_least ids :
  NoDup ids -> Z.of_nat (length ids) < 2 ^ 31 ->
  exists id, mqnic_get_free_id ids = Some id /\ id ∉ ids /\ 0 <= id < 2 ^ 32 /\ forall j, 0 <= j < id -> j ∈ ids.
Proof. intros Hn Hl. apply free_id_loop_ok; [lia|lia|intros; lia|done|lia]. Qed.

Lemma mqnic_get_free_id_least_witness : mqnic_get_free_id [0; 2; 1; 4] = Some 3.
Proof.
  destruct (mqnic_get_free_id_least [0; 2; 1; 4]) as (id & E & Hn & Hb & Hl); [repeat (constructor; [set_solver|]); constructor|cbn; lia|]. rewrite E. f_equal.
  assert (~ 3 ∈ [0; 2; 1; 4]) as H3 by set_solver. destruct (Z.lt_trichotomy id 3) as [H|[H|H]]; [|exact H|destruct H3; apply Hl; lia].
  exfalso. apply Hn. assert (id = 0 \/ id = 1 \/ id = 2) as [->|[->| ->]] by lia; set_solver.
Defined.

Lemma get_free_id_fresh ids : NoDup ids -> Z.of_nat (length ids) < 2 ^ 31 -> exists id, mqnic_get_free_id ids = Some id /\ id ∉ ids.
Proof. intros Hn Hl. destruct (free_id_loop_ok (S (length ids)) ids 0) as (id & E & H & _); [lia|lia|intros; lia|done|lia|]. by exists id. Qed.

(** ** Probe and remove *)

Section Balance.
Context {hw : Type} `{!Mmio hw}.
Implicit Types (h : hw) (d : mqnic_dev (hw := hw)) (ke : kern).

(** What the driver is given: interfaces that can get the allocators of queue
    numbers, sensible module parameters, and at least one interrupt. *)
Record env_ok (env : pci_env) : Prop := {
  eo_eq_entries : 0 < pe_num_eq_entries env <= 2 ^ 31;
  eo_cpus : 0 < pe_online_cpus env;
  eo_res : forall k j, ie_res (pe_if env k) j = (true, true);
  eo_vectors : pe_alloc_vectors env <> 0 /\ pe_alloc_vectors env <= MQNIC_MAX_IRQ;
}.

(** An interface that can go, whatever the registers are then. *)
Definition removable (x : mqnic_if * qworld hw) : Prop :=
  forall h, exists w, mqnic_destroy_interface (x.1, set_w_hw h x.2) = Some w /\ w_bufs w = [] /\ w_chain w = [].

Lemma leave_nothing ke : leave [] [] ke = ke.
Proof. destruct ke as [? ? ? ? ? ? ? ? ? ? ? [? ?]]. unfold leave. cbn. by rewrite !app_nil_r. Qed.

Lemma destroy_ifs_ok l : forall ke h, Forall removable l -> exists h', destroy_ifs l ke h = Some (ke, h').
Proof.
  induction l as [|[i w] l IH]; intros ke h Hl; cbn [destroy_ifs]; [by exists h|]. inversion_clear Hl as [|? ? Hx Hl']. destruct (Hx h) as (w' & E & Hb & Hc). cbn [fst snd] in E. rewrite E. cbn [mbind option_bind]. rewrite Hb, Hc, leave_nothing. by apply IH.
Qed.

Lemma create_ifs_ok env d n : env_ok env -> md_irq_count d <> 0 -> forall k port l ke h l' ke' h',
  Forall removable l -> create_ifs env d n k port l ke h = Some (l', ke', h') -> Forall removable l' /\ ke' = ke.
Proof.
  intros He Hq. induction n as [|n IH]; intros k port l ke h l' ke' h' Hl E; cbn [create_ifs] in E; [by injection E as <- <- _|].
  destruct (mqnic_create_interface _ _ _ _) as [[r w]|] eqn:Ec; [|done]. cbn [mbind option_bind] in E.
  assert (if_start_ok (if_dev_of env d port) (pe_if env k) (if_world h)) as Hs.
  { split; [done|]. split; [exact (eo_eq_entries _ He)|]. split; [exact (eo_cpus _ He)|]. split; [exact (eo_res _ He k)|constructor]. }
  pose proof (create_interface_result _ _ _ _ r w Hs Ec) as Hr. destruct r as [e|i].
  - injection E as <- <- _. destruct Hr as (_ & Hb & Hc). cbn [if_world w_bufs w_chain] in Hb, Hc. apply Permutation_nil_r in Hb. by rewrite Hb, Hc, leave_nothing.
  - refine (IH _ _ _ _ _ _ _ _ _ E). apply Forall_app_2; [done|]. constructor; [|constructor]. intros h1. destruct Hr as (_ & _ & _ & _ & _ & Hd).
    destruct (Hd h1) as (w'' & Ed & Hb & Hc). cbn [if_world w_bufs w_chain] in Hb, Hc. exists w''. split; [done|]. split; [by apply Permutation_nil_r|done].
Qed.

(** What a device holds of the kernel, apart from the PCI part, over [ke0]. *)
Definition held d (ke0 : kern) : kern :=
  set_adev (md_adev d) (set_misc (md_misc d) (set_clock (bool_decide (is_Some (pd_ptp_clock (md_phc d))))
    (set_lists (match md_rb_list d with Some _ => S (k_lists ke0) | None => k_lists ke0 end) ke0))).
Definition quiet (ke : kern) : Prop := k_clock ke = false /\ k_misc ke = false /\ k_adev ke = false.

Lemma remove_held d ke0 h : quiet ke0 -> Forall removable (md_interface d) ->
  exists h', mqnic_common_remove d (held d ke0) h = Some (set_interface [] (set_phc (mqnic_unregister_phc (md_phc d)) d), ke0, h').
Proof.
  intros (Hc & Hm & Ha) Hl. unfold mqnic_common_remove.
  match goal with |- context [destroy_ifs _ ?k h] => destruct (destroy_ifs_ok (md_interface d) k h Hl) as [h' ->] end. cbn [mbind option_bind]. exists h'. do 2 f_equal. f_equal.
  destruct ke0 as [? ? ? ? ? ? ? ? c m a ?]. cbn [k_clock k_misc k_adev] in Hc, Hm, Ha. subst c m a. unfold held. destruct (md_adev d), (md_misc d), (pd_ptp_clock (md_phc d)), (md_rb_list d); cbn; rewrite ?Nat.sub_0_r; reflexivity.
Qed.

(** The PCI part of a device is not touched by the common part. *)
Definition pci_part d : Z * Z * Z * Z * Z * list nat := (md_id d, md_hw_addr d, md_app_hw_addr d, md_ram_hw_addr d, md_irq_count d, md_irq d).

(** How the common part may end: nothing is left, or all is held. *)
Definition common_end (ke0 : kern) d0 (x : Z * mqnic_dev (hw := hw) * kern * hw) : Prop :=
  let '(ret, d, ke, _) := x in
  pci_part d = pci_part d0 /\ ((ret <> 0 /\ ke = ke0) \/ (ret = 0 /\ ke = held d ke0 /\ Forall removable (md_interface d))).

Lemma probe_fail_end ke0 d0 d ret h x :
  quiet ke0 -> pci_part d = pci_part d0 -> Forall removable (md_interface d) -> ret <> 0 -> probe_fail ret d (held d ke0) h = Some x -> common_end ke0 d0 x.
Proof.
  intros Hq Hp Hl Hr E. unfold probe_fail in E. destruct (remove_held d ke0 h Hq Hl) as [h' Er]. rewrite Er in E. cbn [mbind option_bind] in E. injection E as <-. split; [exact Hp|]. left. done.
Qed.

Lemma held_devs d ke0 : md_misc d = false -> md_adev d = false -> set_misc true (held d ke0) = held (set_devs true false d) ke0.
Proof. intros Hm Ha. unfold held. rewrite Hm, Ha. reflexivity. Qed.

Lemma probe_devs_end env ke0 d0 d h x :
  quiet ke0 -> pci_part d = pci_part d0 -> Forall removable (md_interface d) -> md_misc d = false -> md_adev d = false ->
  probe_devs env d (held d ke0) h = Some x -> common_end ke0 d0 x.
Proof.
  intros Hq Hp Hl Hm Ha E. unfold probe_devs in E. destruct (Z.eqb_spec (pe_misc env) 0) as [|Hne]; cbn [negb] in E; [|exact (probe_fail_end _ _ _ _ _ _ Hq Hp Hl Hne E)].
  rewrite (held_devs d ke0 Hm Ha) in E. set (d1 := set_devs true false d) in *. assert (pci_part d1 = pci_part d0) as Hp1 by exact Hp.
  destruct (md_app_id d1 =? 0); [injection E as <-; split; [done|]; by right|].
  destruct (pe_adev env) as [[alloc init] add]. destruct alloc; cbn [negb] in E; [|refine (probe_fail_end ke0 d0 d1 _ _ _ Hq Hp1 Hl _ E); discriminate].
  destruct (Z.eqb_spec init 0) as [|Hi]; cbn [negb] in E; [|exact (probe_fail_end ke0 d0 d1 _ _ _ Hq Hp1 Hl Hi E)].
  destruct (Z.eqb_spec add 0) as [|Hd]; cbn [negb] in E; [|exact (probe_fail_end ke0 d0 d1 _ _ _ Hq Hp1 Hl Hd E)].
  injection E as <-. split; [exact Hp|]. by right.
Qed.

Lemma probe_ifs_end env rbs ke0 d0 d h x :
  quiet ke0 -> env_ok env -> md_irq_count d0 <> 0 -> pci_part d = pci_part d0 -> md_interface d = [] -> md_misc d = false -> md_adev d = false -> pd_ptp_clock (md_phc d) = None ->
  probe_ifs env rbs d (held d ke0) h = Some x -> common_end ke0 d0 x.
Proof.
  intros Hq He Hi Hp Hl Hm Ha Hc E. unfold probe_ifs in E.
  destruct (Z.eqb_spec (pe_board env) 0) as [|Hne]; cbn [negb] in E; [|refine (probe_fail_end _ _ _ _ _ _ Hq Hp _ Hne E); by rewrite Hl].
  destruct (mqnic_register_phc _ _ _ _ _) as [[phc h1]|]; [|done]. cbn [mbind option_bind] in E.
  destruct (create_ifs _ _ _ _ _ _ _ _) as [[[l ke1] h2]|] eqn:Ec; [|done]. cbn [mbind option_bind] in E.
  set (d1 := set_if_count _ _) in *. assert (md_irq_count d1 <> 0) as Hi1 by (intros Hz; apply Hi; injection Hp as _ _ _ _ Hp _; rewrite <- Hp; exact Hz).
  destruct (create_ifs_ok env d1 _ He Hi1 _ _ _ _ _ _ _ _ (Forall_nil_2 _) Ec) as [Hr ->].
  assert ((match pd_ptp_clock phc with Some _ => set_clock true (held d ke0) | None => held d ke0 end) = held (set_interface l d1) ke0) as Eh.
  { unfold held, d1. cbn. rewrite Hc, Hm, Ha. destruct (pd_ptp_clock phc), (md_rb_list d); reflexivity. }
  rewrite Eh in E. exact (probe_devs_end env ke0 d0 (set_interface l d1) _ _ Hq Hp Hr Hm Ha E).
Qed.

Lemma common_probe_end env ke0 id a b c n irqs h x :
  quiet ke0 -> env_ok env -> n <> 0 ->
  mqnic_common_probe env (set_irq n irqs (set_addrs a b c (dev0 id))) ke0 h = Some x -> common_end ke0 (set_irq n irqs (set_addrs a b c (dev0 id))) x.
Proof.
  intros Hq He Hi E. set (d := set_irq n irqs (set_addrs a b c (dev0 id))) in *. unfold mqnic_common_probe in E.
  destruct (mqnic_enumerate_reg_block_list _ _ _ _ _ _ _) as [[r h1]|]; [|done]. cbn [mbind option_bind] in E. destruct r as [rbs| |]; [|injection E as <-; split; [done|left; done]|done].
  assert (forall fw app clk st phc cnt str csr, pd_ptp_clock phc = None -> set_lists (S (k_lists ke0)) ke0 = held (set_common (Some rbs) fw app clk st phc cnt str csr d) ke0) as Eh.
  { intros fw app clk st phc cnt str csr Hc. destruct Hq as (H1 & H2 & H3). unfold held. cbn. rewrite Hc. destruct ke0. cbn in *. subst. reflexivity. }
  destruct (mqnic_find_reg_block rbs MQNIC_RB_FW_ID_TYPE _ _) as [fw|].
  2: { rewrite (Eh [] 0 None None (md_phc d) 0 0 0 eq_refl) in E. refine (probe_fail_end _ _ _ _ _ _ Hq _ _ _ E); [done|constructor|discriminate]. }
  destruct (read_regs _ _) as [ids h2]. destruct (match mqnic_find_reg_block rbs MQNIC_RB_APP_INFO_TYPE _ _ with Some _ => _ | None => _ end) as [app h3].
  destruct (mqnic_clk_info_init rbs h3) as [[clk h4]|]; [|done]. cbn [mbind option_bind] in E. destruct (mqnic_stats_init rbs h4) as [st h5].
  set (phc := mk_phc_dev _ None 0) in *. destruct (mqnic_find_reg_block rbs MQNIC_RB_IF_TYPE _ _) as [rb|].
  2: { rewrite (Eh ids app clk st phc 0 0 0 eq_refl) in E. refine (probe_fail_end _ _ _ _ _ _ Hq _ _ _ E); [done|constructor|discriminate]. }
  destruct (ioread32 _ h5) as [? h6]. destruct (ioread32 _ h6) as [count h7]. destruct (ioread32 _ h7) as [stride h8]. destruct (ioread32 _ h8) as [csr h9].
  rewrite (Eh ids app clk st phc count stride csr eq_refl) in E. destruct (_ <? _).
  - refine (probe_fail_end _ _ _ _ _ _ Hq _ _ _ E); [done|constructor|discriminate].
  - by refine (probe_ifs_end env rbs ke0 d _ h9 x Hq He Hi _ _ _ _ _ E).
Qed.

(** *** The PCI part *)

Lemma irq_loop_ok env n : forall k irqs ke ret irqs' ke',
  Z.of_nat (k + n) <= MQNIC_MAX_IRQ -> k_irqs ke = irqs ->
  irq_loop env n k irqs ke = Some (ret, irqs', ke') -> ke' = set_irqs irqs' ke /\ (ret = 0 \/ ret = - ENOMEM).
Proof.
  induction n as [|n IH]; intros k irqs ke ret irqs' ke' Hb Hi E; cbn [irq_loop] in E.
  - injection E as <- <- <-. split; [rewrite <- Hi; by destruct ke|by left].
  - destruct (pe_irq env k) as [al rq]. cbn [fst snd] in E. destruct al; cbn [negb] in E; [|injection E as <- <- <-; split; [rewrite <- Hi; by destruct ke|by right]].
    destruct (rq <? 0); [injection E as <- <- <-; split; [rewrite <- Hi; by destruct ke|by right]|]. rewrite (proj2 (Z.leb_gt _ _)) in E by lia.
    apply IH in E as [-> Hr]; [|lia|cbn; by rewrite Hi]. split; [by destruct ke|done].
Qed.

Lemma irq_loop_some env n : forall k irqs ke, Z.of_nat (k + n) <= MQNIC_MAX_IRQ -> is_Some (irq_loop env n k irqs ke).
Proof.
  induction n as [|n IH]; intros k irqs ke Hb; cbn [irq_loop]; [by eexists|]. destruct (negb _); [by eexists|]. destruct (_ <? 0); [by eexists|]. rewrite (proj2 (Z.leb_gt _ _)) by lia. apply IH. lia.
Qed.

Lemma filter_not_in_self (l : list nat) : base.filter (fun k => k ∉ l) l = [].
Proof. apply filter_none. apply Forall_forall. intros x Hx Hn. by apply Hn. Qed.

(** The state of the kernel while nothing is held, and with what the PCI part
    has taken by the time the BARs are mapped. *)
Definition idle (ke : kern) : Prop :=
  k_enabled ke = false /\ k_regions ke = false /\ k_bars ke = [] /\ k_vectors ke = false /\ k_irqs ke = [] /\ k_master ke = false /\ quiet ke /\ NoDup (k_ids ke) /\ Z.of_nat (length (k_ids ke)) < 2 ^ 31.

Definition bars_of (a b c : Z) : list nat := (if a =? 0 then [] else [0%nat]) ++ (if b =? 0 then [] else [2%nat]) ++ (if c =? 0 then [] else [4%nat]).
Definition mapped (id a b c : Z) (ke0 : kern) : kern := set_bars (bars_of a b c) (set_regions true (set_enabled true (set_ids (k_ids ke0 ++ [id]) ke0))).

Lemma free_id_back (id : Z) (ids : list Z) : id ∉ ids -> base.filter (fun x => x <> id) (ids ++ [id]) = ids.
Proof.
  intros Hn. rewrite filter_app, filter_cons_False, filter_nil, app_nil_r by (intros H; by apply H). apply filter_all, Forall_forall. intros x Hx ->. done.
Qed.

Lemma unmap_all_mapped id a b c n irqs ke0 : idle ke0 -> id ∉ k_ids ke0 -> unmap_all (set_irq (hw := hw) n irqs (set_addrs a b c (dev0 id))) (mapped id a b c ke0) = ke0.
Proof.
  intros (H1 & H2 & H3 & H4 & H5 & H6 & _) Hid. destruct ke0. cbn in *. subst. unfold unmap_all, free_id, unmap, mapped, bars_of. cbn.
  destruct (a =? 0), (b =? 0), (c =? 0); cbn; by rewrite free_id_back.
Qed.

Lemma unmap_all_part d d' ke : pci_part d = pci_part d' -> unmap_all d ke = unmap_all d' ke.
Proof. intros H. injection H as H1 H2 H3 H4 _ _. unfold unmap_all. by rewrite H1, H2, H3, H4. Qed.

(** How a probe may end. *)
Definition probe_end (ke0 : kern) (x : Z * option (mqnic_dev (hw := hw)) * kern * hw) : Prop :=
  let '(ret, od, ke, _) := x in
  match od with
  | None => ret <> 0 /\ ke = ke0
  | Some d => ret = 0 /\ forall h, exists h', mqnic_pci_remove d ke h = Some (ke0, h')
  end.

Lemma probe_mapped_end env id a b c ke0 h x :
  idle ke0 -> env_ok env -> id ∉ k_ids ke0 -> probe_mapped env (set_addrs a b c (dev0 id)) (mapped id a b c ke0) h = Some x -> probe_end ke0 x.
Proof.
  intros Hk He Hid E. unfold probe_mapped in E. set (d := set_addrs a b c (dev0 id)) in *. destruct (ioread32 _ h) as [v h1].
  assert (forall n irqs, unmap_all (set_irq n irqs d) (mapped id a b c ke0) = ke0) as Hun by (intros; by apply unmap_all_mapped).
  destruct (v =? _). { injection E as <-. split; [discriminate|exact (Hun 0 [])]. }
  destruct (mqnic_irq_init_pcie env d _) as [[[ret d1] ke1]|] eqn:Ei; [|done]. cbn [mbind option_bind] in E. unfold mqnic_irq_init_pcie in Ei.
  pose proof Hk as (_ & _ & _ & Hv & Hirq & Hma & Hq & _). destruct (eo_vectors _ He) as [Hv0 Hv1].
  destruct (Z.ltb_spec (pe_alloc_vectors env) 0) as [Hlt|Hge]. { injection Ei as <- <- <-. injection E as <-. split; [discriminate|apply Hun]. }
  destruct (irq_loop env _ 0 [] _) as [[[r irqs] ke2]|] eqn:El; [|done]. cbn [mbind option_bind] in Ei. apply irq_loop_ok in El as [-> Hr]; [|lia|exact Hirq].
  set (n := pe_alloc_vectors env) in *. set (ke2 := set_irqs irqs _) in *.
  assert (forall d', pci_part d' = pci_part (set_irq n irqs d) -> unmap_all (mqnic_irq_deinit_pcie d' ke2).1 (mqnic_irq_deinit_pcie d' ke2).2 = ke0) as Hde.
  { intros d' Hp. unfold mqnic_irq_deinit_pcie. cbn [fst snd]. assert (md_irq d' = irqs) as -> by (by injection Hp as _ _ _ _ _ ->). rewrite (unmap_all_part _ (set_irq (md_irq_count d') [] d)) by (injection Hp as E1 E2 E3 E4 _ _; unfold pci_part; cbn; by rewrite E1, E2, E3, E4).
    replace (set_vectors false _) with (mapped id a b c ke0); [apply Hun|]. unfold ke2, mapped. cbn. rewrite filter_not_in_self. destruct ke0. cbn in *. by subst. }
  destruct (Z.eqb_spec r 0) as [->|Hr0].
  - injection Ei as <- <- <-. cbn [negb Z.eqb] in E. destruct (mqnic_common_probe _ _ _ _) as [[[[ret d'] ke'] h']|] eqn:Ec; [|done]. cbn [mbind option_bind] in E.
    assert (quiet (set_master true ke2)) as Hq2 by exact Hq. pose proof (common_probe_end env (set_master true ke2) id a b c n irqs h1 _ Hq2 He Hv0 Ec) as [Hp [[Hne ->]|(-> & -> & Hl)]].
    + rewrite (proj2 (Z.eqb_neq _ _) Hne) in E. cbn [negb] in E. assert (set_master false (set_master true ke2) = ke2) as Hm by (unfold ke2, mapped; destruct ke0; cbn in *; by subst). rewrite Hm in E.
      specialize (Hde d' Hp). destruct (mqnic_irq_deinit_pcie d' ke2) as [d2 ke3]. injection E as <-. done.
    + cbn [negb Z.eqb] in E. injection E as <-. split; [done|]. intros h2. unfold mqnic_pci_remove. destruct (remove_held d' (set_master true ke2) h2 Hq2 Hl) as [h3 ->]. cbn [mbind option_bind].
      assert (set_master false (set_master true ke2) = ke2) as -> by (unfold ke2, mapped; destruct ke0; cbn in *; by subst).
      match goal with |- context [mqnic_irq_deinit_pcie ?dd ke2] => specialize (Hde dd Hp); destruct (mqnic_irq_deinit_pcie dd ke2) as [d2 ke3] end. exists h3. cbn [fst snd] in Hde. by rewrite Hde.
  - specialize (Hde (set_irq n irqs d) eq_refl). destruct (mqnic_irq_deinit_pcie (set_irq n irqs d) ke2) as [d2 ke3]. injection Ei as <- <- <-. rewrite (proj2 (Z.eqb_neq _ _) Hr0) in E. cbn [negb] in E. injection E as <-. done.
Qed.
(** The BARs that are mapped are those that are unmapped, wherever it ends. *)
Lemma probe_bars_end env id ke0 h x :
  idle ke0 -> env_ok env -> id ∉ k_ids ke0 ->
  probe_bars env id (mapped id 0 0 0 ke0) h = Some x -> probe_end ke0 x.
Proof.
  intros Hk He Hid E. assert (forall a b c, unmap_all (set_addrs (hw := hw) a b c (dev0 id)) (mapped id a b c ke0) = ke0) as Hun by (intros; exact (unmap_all_mapped id a b c 0 [] ke0 Hk Hid)).
  assert (forall a b c, probe_mapped env (set_addrs a b c (dev0 id)) (mapped id a b c ke0) h = Some x -> probe_end ke0 x) as Hm by (intros a b c; by apply probe_mapped_end).
  unfold probe_bars, map_bar in E. cbn [negb] in E. set (a := pe_ioremap env 0) in *. destruct (a =? 0) eqn:Ea; [injection E as <-; split; [discriminate|exact (Hun 0 0 0)]|].
  set (b := pe_ioremap env 2) in *. set (c := pe_ioremap env 4) in *.
  destruct (pe_len env 2 =? 0); cbn [negb] in E; [|destruct (b =? 0) eqn:Eb; [injection E as <-; split; [discriminate|]; rewrite <- (Hun a 0 0) at 2; unfold mapped, bars_of; by rewrite Ea|]];
    (destruct (pe_len env 4 =? 0); cbn [negb] in E; [|destruct (c =? 0) eqn:Ecc]).
  - apply (Hm a 0 0). rewrite <- E. unfold mapped, bars_of. by rewrite Ea.
  - injection E as <-. split; [discriminate|]. rewrite <- (Hun a 0 0) at 2. unfold mapped, bars_of. by rewrite Ea.
  - apply (Hm a 0 c). rewrite <- E. unfold mapped, bars_of. by rewrite Ea, Ecc.
  - apply (Hm a b 0). rewrite <- E. unfold mapped, bars_of. by rewrite Ea, Eb.
  - injection E as <-. split; [discriminate|]. rewrite <- (Hun a b 0) at 2. unfold mapped, bars_of. by rewrite Ea, Eb.
  - apply (Hm a b c). rewrite <- E. unfold mapped, bars_of. by rewrite Ea, Eb, Ecc.
Qed.

End Balance.

(** ** Examples *)

(** A device with a clock block, an application, and the interface of
    [if_regs]; its registers are mapped at [bar0]. *)
Definition bar0 : Z := 0x40000000.
Definition dev_regs : list (Z * Z) :=
  (fun x => (x.1, bar0 + x.2)) <$>
  block 0 MQNIC_RB_FW_ID_TYPE MQNIC_RB_FW_ID_VER 0x30 [(0x1234, 0x0C); (0xAB, 0x10)] ++
  block 0x30 MQNIC_RB_IF_TYPE MQNIC_RB_IF_VER 0x50 [(0, 0x0C); (1, 0x10); (0x10000, 0x14); (0x100, 0x18)] ++
  block 0x50 MQNIC_RB_CLK_INFO_TYPE MQNIC_RB_CLK_INFO_VER 0x80 [(2, 0x0C); (0x000A0001, 0x10); (0x00040001, 0x18)] ++
  block 0x80 MQNIC_RB_APP_INFO_TYPE MQNIC_RB_APP_INFO_VER 0 [(7, 0x0C)] ++ if_regs.
Definition mem_dev : memory := write_all dev_regs ∅.
Definition ke_idle : kern := mk_kern [0; 2] false false [] false [] false 0 false false false ([], []).
(** One interrupt; the character device gets [misc] as an answer. *)
Definition env_dev (misc : Z) : pci_env :=
  mk_pci_env true 0 0 0 0 (fun n => if (n =? 0)%nat then 0x10000 else 0) (fun n => if (n =? 0)%nat then bar0 else 0) 1 (fun _ => (true, 0)) rb_ok 0 [] None (mk_ts 0 0)
    (fun _ => env_if true 2) misc (true, 0, 0) 1024 1 1024 1024.

Definition view_dev (x : Z * option (mqnic_dev (hw := memory)) * kern * memory) :=
  let '(ret, d, ke, _) := x in
  (ret, (fun d => (md_id d, md_app_id d, length (md_interface d), core_clk_nom_freq_hz <$> md_clk d)) <$> d, k_ids ke, k_irqs ke, k_misc ke).
Lemma probe_dev : view_dev <$> mqnic_pci_probe (env_dev 0) ke_idle mem_dev = Some (0, Some (1, 7, 1%nat, Some 250000000), [0; 2; 1], [0%nat], true).
Proof. vm_compute. reflexivity. Qed.
(** The character device cannot be registered. *)
Lemma probe_dev_fails : view_dev <$> mqnic_pci_probe (env_dev (- EIO)) ke_idle mem_dev = Some (- EIO, None, [0; 2], [], false).
Proof. vm_compute. reflexivity. Qed.
Lemma env_dev_ok misc : env_ok (env_dev misc).
Proof. split; cbn; try lia; done. Qed.
Lemma ke_idle_ok : idle ke_idle.
Proof. split_and!; try done. - repeat (constructor; [set_solver|]); constructor. Qed.


(** When an interface cannot be created, the probe goes on to the character
    device and its result is that of a success: the device has one interface
    less than the driver says. *)
Theorem probe_without_interface :
  (fun x => match x with (ret, Some d, _, _) => Some (ret, md_if_count d, length (md_interface d)) | _ => None end)
    <$> mqnic_pci_probe (mk_pci_env true 0 0 0 0 (fun n => if (n =? 0)%nat then 0x10000 else 0) (fun n => if (n =? 0)%nat then bar0 else 0) 1 (fun _ => (true, 0)) rb_ok 0 [] None (mk_ts 0 0)
          (fun _ => env_if true 1) 0 (true, 0, 0) 1024 1 1024 1024) ke_idle mem_dev = Some (Some (0, 1, 0%nat)).
Proof. vm_compute. reflexivity. Qed.

(** The product of the number of interfaces and their distance is a 32-bit
    number: two interfaces [2^31] bytes apart pass for a BAR of [2^16] bytes,
    and the driver goes on to look for the second one beyond the BAR. *)
Theorem bar_size_check_wraps :
  let h := write_all [(2, bar0 + 0x40); (2 ^ 31, bar0 + 0x44)] mem_dev in
  pe_len (env_dev 0) 0 = 2 ^ 16 /\
  (fun x => match x with (ret, Some d, _, _) => Some (ret, md_if_count d, md_if_stride d) | _ => None end) <$> mqnic_pci_probe (env_dev 0) ke_idle h = Some (Some (0, 2, 2 ^ 31)).
Proof. vm_compute. split; reflexivity. Qed.

(** A clock block whose nominal period is zero: division by zero. *)
Theorem clk_info_divides_by_zero : mqnic_clk_info_init [mk_rb MQNIC_RB_CLK_INFO_TYPE MQNIC_RB_CLK_INFO_VER 0 0x50] (∅ : memory) = None.
Proof. vm_compute. reflexivity. Qed.
