(* ===== verification/MqnicCdev.v ===== *)
(** * The character device of the NIC driver

    Model of [modules/mqnic/mqnic_dev.c]: [mmap] of the three BARs and the
    ioctls that describe the device and its regions to [lib/mqnic]. *)

From S2P Require Import Prelude.

Definition PAGE_SHIFT : Z := 12.
Definition MQNIC_IOCTL_API_VERSION : Z := 0.
Definition MQNIC_IOCTL_TYPE : Z := 0x88.
Definition MQNIC_IOCTL_BASE : Z := 0xC0.
(** [_IO] of the kernel: the type and the number of the request. *)
Definition _IO (t nr : Z) : Z := Z.lor (Z.shiftl t 8) nr.
Definition MQNIC_IOCTL_GET_API_VERSION : Z := _IO MQNIC_IOCTL_TYPE (MQNIC_IOCTL_BASE + 0).
Definition MQNIC_IOCTL_GET_DEVICE_INFO : Z := _IO MQNIC_IOCTL_TYPE (MQNIC_IOCTL_BASE + 1).
Definition MQNIC_IOCTL_GET_REGION_INFO : Z := _IO MQNIC_IOCTL_TYPE (MQNIC_IOCTL_BASE + 2).
Definition MQNIC_REGION_TYPE_UNIMPLEMENTED : Z := 0x00000000.
Definition MQNIC_REGION_TYPE_NIC_CTRL : Z := 0x00001001.
Definition MQNIC_REGION_TYPE_APP_CTRL : Z := 0x00001002.
Definition MQNIC_REGION_TYPE_RAM : Z := 0x00002000.

(** The fields of the device that are used here. *)
Record cdev := mk_cdev {
  hw_regs_size : Z;
  hw_regs_phys : Z;
  app_hw_regs_size : Z;
  app_hw_regs_phys : Z;
  ram_hw_regs_size : Z;
  ram_hw_regs_phys : Z;
  fw_id : Z;
  fw_ver : Z;
  board_id : Z;
  board_ver : Z;
  build_date : Z;
  git_hash : Z;
  rel_info : Z;
}.

(** ** [mmap] *)

Record vm_area := mk_vma { vm_start : Z; vm_end : Z; vm_pgoff : Z; vm_shared : bool }.

(** The frame and the length given to [io_remap_pfn_range], or an error. *)
Definition map_region (phys size pgoff req_len : Z) : Z + Z * Z :=
  let req_start := u64 (Z.shiftl pgoff PAGE_SHIFT) in
  if size <? u64 (req_start + req_len) then inl (- EINVAL) else inr (u64 (Z.shiftr phys PAGE_SHIFT + pgoff), req_len).

Definition mqnic_mmap (d : cdev) (vma : vm_area) : Z + Z * Z :=
  let index := s32 (Z.shiftr (vm_pgoff vma) (40 - PAGE_SHIFT)) in
  let req_len := u64 (vm_end vma - vm_start vma) in
  let pgoff := Z.land (vm_pgoff vma) (u32 (Z.shiftl 1 (40 - PAGE_SHIFT) - 1)) in
  if vm_end vma <? vm_start vma then inl (- EINVAL)
  else if negb (vm_shared vma) then inl (- EINVAL)
  else match index with
       | 0 => map_region (hw_regs_phys d) (hw_regs_size d) pgoff req_len
       | 1 => map_region (app_hw_regs_phys d) (app_hw_regs_size d) pgoff req_len
       | 2 => map_region (ram_hw_regs_phys d) (ram_hw_regs_size d) pgoff req_len
       | _ => inl (- EINVAL)
       end.

(** ** ioctls *)

Record mqnic_ioctl_device_info := mk_device_info {
  di_argsz : Z;
  di_flags : Z;
  di_fw_id : Z;
  di_fw_ver : Z;
  di_board_id : Z;
  di_board_ver : Z;
  di_build_date : Z;
  di_git_hash : Z;
  di_rel_info : Z;
  di_num_regions : Z;
  di_num_irqs : Z;
}.
Record mqnic_ioctl_region_info := mk_region_info {
  ri_argsz : Z;
  ri_flags : Z;
  ri_index : Z;
  ri_type : Z;
  ri_next : Z;
  ri_child : Z;
  ri_size : Z;
  ri_offset : Z;
  ri_name : string;
}.
(** [offsetofend] of the last field of each. *)
Definition device_info_minsz : Z := 44.
Definition region_info_minsz : Z := 72.

(** The structure at the argument, and what it is afterwards. [cin], [cout]:
    whether [copy_from_user] and [copy_to_user] succeed. *)
Inductive user_arg :=
  | NoArg
  | DeviceInfo (i : mqnic_ioctl_device_info)
  | RegionInfo (i : mqnic_ioctl_region_info).

Definition get_device_info (d : cdev) (cin cout : bool) (i : mqnic_ioctl_device_info) : Z * mqnic_ioctl_device_info :=
  if negb cin then (- EFAULT, i)
  else if di_argsz i <? device_info_minsz then (- EINVAL, i)
  else
    let i' := mk_device_info (di_argsz i) 0 (fw_id d) (fw_ver d) (board_id d) (board_ver d) (build_date d) (git_hash d) (rel_info d) 3 0 in
    if cout then (0, i') else (- EFAULT, i).

Definition region_fields (d : cdev) (index : Z) : option (Z * Z * Z * string) :=
  match index with
  | 0 => Some (MQNIC_REGION_TYPE_NIC_CTRL, 1, hw_regs_size d, "ctrl"%string)
  | 1 => Some (MQNIC_REGION_TYPE_APP_CTRL, 2, app_hw_regs_size d, "app"%string)
  | 2 => Some (MQNIC_REGION_TYPE_RAM, 3, ram_hw_regs_size d, "ram"%string)
  | _ => None
  end.
Definition get_region_info (d : cdev) (cin cout : bool) (i : mqnic_ioctl_region_info) : Z * mqnic_ioctl_region_info :=
  if negb cin then (- EFAULT, i)
  else if ri_argsz i <? region_info_minsz then (- EINVAL, i)
  else match region_fields d (ri_index i) with
       | None => (- EINVAL, i)
       | Some (type, next, size, name) =>
           if cout then (0, mk_region_info (ri_argsz i) 0 (ri_index i) type next 0 size (u64 (Z.shiftl (ri_index i) 40)) name) else (- EFAULT, i)
       end.

(** An argument that is not the structure of the request is not modelled: the
    result is [None]. *)
Definition mqnic_ioctl (d : cdev) (cmd : Z) (cin cout : bool) (arg : user_arg) : option (Z * user_arg) :=
  if cmd =? MQNIC_IOCTL_GET_API_VERSION then Some (MQNIC_IOCTL_API_VERSION, arg)
  else if cmd =? MQNIC_IOCTL_GET_DEVICE_INFO then
    match arg with DeviceInfo i => let '(r, i) := get_device_info d cin cout i in Some (r, DeviceInfo i) | _ => None end
  else if cmd =? MQNIC_IOCTL_GET_REGION_INFO then
    match arg with RegionInfo i => let '(r, i) := get_region_info d cin cout i in Some (r, RegionInfo i) | _ => None end
  else Some (- EINVAL, arg).

(** ** What a mapping shows *)

(** The BAR of a region. *)
Definition bar (d : cdev) (index : Z) : option (Z * Z) :=
  match index with
  | 0 => Some (hw_regs_phys d, hw_regs_size d)
  | 1 => Some (app_hw_regs_phys d, app_hw_regs_size d)
  | 2 => Some (ram_hw_regs_phys d, ram_hw_regs_size d)
  | _ => None
  end.
(** BARs start on a page and end below [2^64]. *)
Definition bars_ok (d : cdev) : Prop := forall k phys size, bar d k = Some (phys, size) -> 0 <= phys /\ phys mod 2 ^ PAGE_SHIFT = 0 /\ 0 <= size /\ phys + size < 2 ^ 64.
(** An area of a process: page offset as [mmap] forms it from a 64-bit file
    offset, addresses below [2^63]. *)
Definition vma_ok (v : vm_area) : Prop := 0 <= vm_start v /\ vm_end v < 2 ^ 63 /\ 0 <= vm_pgoff v < 2 ^ 52.

Lemma mmap_split v : vma_ok v ->
  s32 (Z.shiftr (vm_pgoff v) (40 - PAGE_SHIFT)) = vm_pgoff v / 2 ^ 28 /\ Z.land (vm_pgoff v) (u32 (Z.shiftl 1 (40 - PAGE_SHIFT) - 1)) = vm_pgoff v mod 2 ^ 28.
Proof.
  intros (_ & _ & H). split.
  - rewrite Z.shiftr_div_pow2 by (unfold PAGE_SHIFT; lia). change (40 - PAGE_SHIFT) with 28. apply s32_id. split; [|apply Z.div_lt_upper_bound; lia].
    transitivity 0; [lia|]. apply Z.div_pos; lia.
  - change (u32 (Z.shiftl 1 (40 - PAGE_SHIFT) - 1)) with (Z.ones 28). by rewrite Z.land_ones.
Qed.

Lemma map_region_spec phys size pgoff len :
  0 <= pgoff < 2 ^ 28 -> 0 <= len < 2 ^ 63 -> 0 <= phys -> phys mod 2 ^ PAGE_SHIFT = 0 -> 0 <= size -> phys + size < 2 ^ 64 ->
  map_region phys size pgoff len =
    if size <? pgoff * 2 ^ PAGE_SHIFT + len then inl (- EINVAL) else inr ((phys + pgoff * 2 ^ PAGE_SHIFT) / 2 ^ PAGE_SHIFT, len).
Proof.
  unfold map_region, PAGE_SHIFT. intros Hp Hl H0 Hm Hs Hb. rewrite Z.shiftl_mul_pow2, Z.shiftr_div_pow2 by lia.
  rewrite (u64_id (pgoff * 2 ^ 12)), (u64_id (pgoff * 2 ^ 12 + len)) by lia. destruct (size <? pgoff * 2 ^ 12 + len); [done|]. rewrite Z.div_add by lia. rewrite u64_id; [done|].
  assert (phys / 2 ^ 12 < 2 ^ 52) by (apply Z.div_lt_upper_bound; lia). assert (0 <= phys / 2 ^ 12) by (apply Z.div_pos; lia). lia.
Qed.

(** C19: what a process can map of the NIC. The offset [index * 2^40 + off]
    that [MQNIC_IOCTL_GET_REGION_INFO] gives as the start of a region selects
    its BAR: a shared mapping succeeds exactly when the region exists and the
    mapping ends inside it, it then starts at byte [off] of the BAR, and no
    address outside the BAR becomes visible. *)
Theorem mqnic_mmap_bounds d v :
  bars_ok d -> vma_ok v -> vm_start v <= vm_end v -> vm_shared v = true ->
  let index := vm_pgoff v * 2 ^ PAGE_SHIFT / 2 ^ 40 in
  let off := (vm_pgoff v * 2 ^ PAGE_SHIFT) mod 2 ^ 40 in
  let len := vm_end v - vm_start v in
  match mqnic_mmap d v with
  | inl e => e = - EINVAL /\ forall phys size, bar d index = Some (phys, size) -> size < off + len
  | inr (pfn, n) => exists phys size, bar d index = Some (phys, size) /\ pfn * 2 ^ PAGE_SHIFT = phys + off /\ n = len /\ phys <= pfn * 2 ^ PAGE_SHIFT /\ pfn * 2 ^ PAGE_SHIFT + n <= phys + size
  end.
Proof.
  intros Hd Hv Hle Hs. destruct (mmap_split v Hv) as [Hi Ho]. destruct Hv as (Hv0 & Hv1 & Hp). unfold mqnic_mmap. rewrite Hi, Ho, Hs, (proj2 (Z.ltb_ge _ _) Hle). cbn [negb].
  change (2 ^ 40) with (2 ^ 28 * 2 ^ PAGE_SHIFT). rewrite Z.div_mul_cancel_r, Zmult_mod_distr_r by (unfold PAGE_SHIFT; lia). cbv zeta. rewrite (u64_id (vm_end v - vm_start v)) by lia.
  set (index := vm_pgoff v / 2 ^ 28). set (pg := vm_pgoff v mod 2 ^ 28). assert (0 <= pg < 2 ^ 28) as Hpg by (apply Z.mod_pos_bound; lia). clearbody pg index.
  assert (match bar d index with Some (phys, size) => map_region phys size pg (vm_end v - vm_start v) | None => inl (- EINVAL) end =
          match index with 0 => map_region (hw_regs_phys d) (hw_regs_size d) pg (vm_end v - vm_start v) | 1 => map_region (app_hw_regs_phys d) (app_hw_regs_size d) pg (vm_end v - vm_start v)
          | 2 => map_region (ram_hw_regs_phys d) (ram_hw_regs_size d) pg (vm_end v - vm_start v) | _ => inl (- EINVAL) end) as <- by (by destruct index as [|[|[]|]|]).
  destruct (bar d index) as [[phys size]|] eqn:Eb; [|by split]. destruct (Hd _ _ _ Eb) as (H0 & Hm & Hs0 & Hb). rewrite map_region_spec by (try done; lia).
  destruct (Z.ltb_spec size (pg * 2 ^ PAGE_SHIFT + (vm_end v - vm_start v))) as [Hlt|Hge]; [split; [done|by intros ? ? [= <- <-]]|].
  exists phys, size. assert ((phys + pg * 2 ^ PAGE_SHIFT) / 2 ^ PAGE_SHIFT * 2 ^ PAGE_SHIFT = phys + pg * 2 ^ PAGE_SHIFT) as ->.
  { rewrite Z.div_add by (unfold PAGE_SHIFT; lia). rewrite Z.mul_add_distr_r. f_equal. rewrite Z.mul_comm. symmetry. apply Z.div_exact; [unfold PAGE_SHIFT; lia|done]. }
  split_and!; try done; unfold PAGE_SHIFT in *; lia.
Qed.

Definition cdev0 : cdev := mk_cdev 0x100000 0xF0000000 0x4000 0xE0000000 0 0 1 2 3 4 5 6 7.
(** The second page of the application BAR; one page more than it has. *)
Lemma mqnic_mmap_bounds_witness :
  mqnic_mmap cdev0 (mk_vma 0x7000 0x8000 (2 ^ 28 + 1) true) = inr (0xE0001, 0x1000) /\
  mqnic_mmap cdev0 (mk_vma 0x7000 0x9000 (2 ^ 28 + 3) true) = inl (- EINVAL).
Proof.
  assert (bars_ok cdev0) as Hb by (intros k phys size H; destruct k as [|[|[]|]|]; try discriminate H; injection H as <- <-; vm_compute; split_and!; congruence).
  pose proof (mqnic_mmap_bounds cdev0 (mk_vma 0x7000 0x8000 (2 ^ 28 + 1) true) Hb ltac:(by vm_compute) ltac:(by vm_compute) eq_refl) as H1.
  pose proof (mqnic_mmap_bounds cdev0 (mk_vma 0x7000 0x9000 (2 ^ 28 + 3) true) Hb ltac:(by vm_compute) ltac:(by vm_compute) eq_refl) as H2. cbv zeta in H1, H2.
  destruct (mqnic_mmap cdev0 (mk_vma 0x7000 0x8000 (2 ^ 28 + 1) true)) as [e|[pfn n]].
  { exfalso. destruct H1 as [_ H1]. specialize (H1 _ _ eq_refl). vm_compute in H1. discriminate H1. }
  destruct H1 as (phys & size & [= <- <-] & H1 & -> & _). split; [do 2 f_equal; change (pfn * 2 ^ 12 = 0xE0001 * 2 ^ 12) in H1; lia|].
  destruct (mqnic_mmap cdev0 (mk_vma 0x7000 0x9000 (2 ^ 28 + 3) true)) as [e|[pfn' n']]; [by destruct H2 as [-> _]|].
  exfalso. destruct H2 as (phys & size & [= <- <-] & H2 & -> & _ & H3). rewrite H2 in H3. vm_compute in H3. by apply H3.
Defined.

(** The region ioctl and [mmap] agree. Mapping a region from the offset
    [MQNIC_IOCTL_GET_REGION_INFO] returns, over the size it returns, gives the
    whole BAR of that region. *)
Theorem region_info_maps d i i' start :
  bars_ok d -> 0 <= ri_index i -> 0 <= start -> mqnic_ioctl d MQNIC_IOCTL_GET_REGION_INFO true true (RegionInfo i) = Some (0, RegionInfo i') ->
  start + ri_size i' < 2 ^ 63 ->
  exists phys, bar d (ri_index i) = Some (phys, ri_size i') /\
    mqnic_mmap d (mk_vma start (start + ri_size i') (ri_offset i' / 2 ^ PAGE_SHIFT) true) = inr (phys / 2 ^ PAGE_SHIFT, ri_size i').
Proof.
  intros Hd Hi Hs E Hb. assert (get_region_info d true true i = (0, i')) as Eg 
    by (change ((let '(r, j) := get_region_info d true true i in Some (r, RegionInfo j)) = Some (0, RegionInfo i')) in E; destruct (get_region_info d true true i); by injection E as -> ->).
  unfold get_region_info in Eg. cbn [negb] in Eg. destruct (ri_argsz i <? _); [discriminate Eg|].
  assert (forall k phys size, 0 <= k <= 2 -> bar d k = Some (phys, size) -> start + size < 2 ^ 63 ->
    mqnic_mmap d (mk_vma start (start + size) (u64 (Z.shiftl k 40) / 2 ^ PAGE_SHIFT) true) = inr (phys / 2 ^ PAGE_SHIFT, size)) as H.
  { intros k phys size Hk Ek Hsz. destruct (Hd _ _ _ Ek) as (H0 & Hm & H1 & H2). unfold mqnic_mmap. cbn [vm_start vm_end vm_pgoff vm_shared negb]. rewrite (proj2 (Z.ltb_ge (start + size) start)) by lia.
    replace (start + size - start) with size by lia. rewrite (u64_id size) by lia. pose proof (map_region_spec phys size 0 size) as Hr. rewrite Z.mul_0_l, Z.add_0_l, Z.add_0_r, Z.ltb_irrefl in Hr.
    assert (k = 0 \/ k = 1 \/ k = 2) as [->|[->| ->]] by lia; cbn [bar] in Ek; injection Ek as -> ->; apply Hr; lia || done. }
  unfold region_fields in Eg. destruct (ri_index i) as [|[[]|[]|]|] eqn:Ei; try discriminate Eg; cbn iota beta in Eg; apply (f_equal snd) in Eg; cbn [snd] in Eg; subst i'; cbn [ri_size ri_offset] in *; (eexists; split; [reflexivity|]); (eapply H; [lia|reflexivity|done]).
Qed.

Lemma region_info_maps_witness :
  exists i', mqnic_ioctl cdev0 MQNIC_IOCTL_GET_REGION_INFO true true (RegionInfo (mk_region_info 72 9 1 9 9 9 9 9 "")) = Some (0, RegionInfo i') /\ ri_name i' = "app"%string /\
    mqnic_mmap cdev0 (mk_vma 0x7000 (0x7000 + ri_size i') (ri_offset i' / 2 ^ PAGE_SHIFT) true) = inr (0xE0000, 0x4000).
Proof.
  eexists. split; [vm_compute; reflexivity|]. split; [reflexivity|].
  assert (bars_ok cdev0) as Hb by (intros k phys size H; destruct k as [|[|[]|]|]; try discriminate H; injection H as <- <-; vm_compute; split_and!; congruence).
  destruct (region_info_maps cdev0 (mk_region_info 72 9 1 9 9 9 9 9 "") _ 0x7000 Hb ltac:(by vm_compute) ltac:(by vm_compute) ltac:(vm_compute; reflexivity) ltac:(by vm_compute)) as (phys & [= <-] & E). exact E.
Defined.
