(* ===== verification/BitFile.v ===== *)
(** * FPGA bit files

    Model of [utils/bitfile.c], the reader of the bit files that
    [utils/mqnic-fw.c] writes to the flash: a length-prefixed header, two
    bytes, fields [a] to [d] with 16-bit lengths, and the configuration data
    after an [e] with a 32-bit length.

    Bytes are numbers below 256, pointers are offsets into the buffer. A read
    beyond the buffer is [Oob]. *)

From S2P Require Import Prelude.

Record bitfile := mk_bitfile {
  header : option nat;
  name : option nat;
  part : option nat;
  date : option nat;
  time : option nat;
  data_len : Z;
  data : option nat;
}.
(** As [calloc] leaves it. *)
Definition bitfile0 : bitfile := mk_bitfile None None None None None 0 None.

Inductive parsed :=
  | Ret (r : Z) (bf : bitfile)
  | Oob.

Definition be16 (buf : list Z) (p : nat) : option Z := a ← buf !! p; b ← buf !! S p; Some (a * 256 + b).
Definition be32 (buf : list Z) (p : nat) : option Z := a ← be16 buf p; b ← be16 buf (p + 2); Some (a * 65536 + b).

Definition set_name p bf := mk_bitfile (header bf) (Some p) (part bf) (date bf) (time bf) (data_len bf) (data bf).
Definition set_part p bf := mk_bitfile (header bf) (name bf) (Some p) (date bf) (time bf) (data_len bf) (data bf).
Definition set_date p bf := mk_bitfile (header bf) (name bf) (part bf) (Some p) (time bf) (data_len bf) (data bf).
Definition set_time p bf := mk_bitfile (header bf) (name bf) (part bf) (date bf) (Some p) (data_len bf) (data bf).
Definition set_data l p bf := mk_bitfile (header bf) (name bf) (part bf) (date bf) (time bf) l (Some p).

(** The [switch] on the type of a field; [None]: unknown. *)
Definition set_field (t : Z) (p : nat) (bf : bitfile) : option bitfile :=
  if t =? 0x61 then Some (set_name p bf)
  else if t =? 0x62 then Some (set_part p bf)
  else if t =? 0x63 then Some (set_date p bf)
  else if t =? 0x64 then Some (set_time p bf)
  else None.

Fixpoint parse_loop (fuel : nat) (buf : list Z) (ptr : nat) (bf : bitfile) : parsed :=
  match fuel with
  | O => Oob
  | S fuel' =>
      match buf !! ptr with
      | None => Oob
      | Some t =>
          let ptr := S ptr in
          if t =? 0x65 then match be32 buf ptr with Some l => Ret 0 (set_data l (ptr + 4) bf) | None => Oob end
          else
            match be16 buf ptr with
            | None => Oob
            | Some l =>
                let ptr := (ptr + 2)%nat in
                match set_field t ptr bf with
                | None => Ret (-1) bf
                | Some bf => parse_loop fuel' buf (ptr + Z.to_nat l) bf
                end
            end
      end
  end.

(** The length of the buffer that is passed is not used by the source; here it
    bounds the loop. *)
Definition bitfile_parse (bf : bitfile) (buf : list Z) : parsed :=
  let bf := mk_bitfile (Some 0%nat) (name bf) (part bf) (date bf) (time bf) (data_len bf) (data bf) in
  match be16 buf 0 with
  | None => Oob
  | Some l => parse_loop (S (length buf)) buf (2 + Z.to_nat l + 2) bf
  end.

(** [None]: an access beyond the buffer. *)
Definition bitfile_create_from_buffer (calloc : bool) (buf : list Z) : option (option bitfile) :=
  if negb calloc then Some None
  else match bitfile_parse bitfile0 buf with
       | Oob => None
       | Ret r bf => if r =? 0 then Some (Some bf) else Some None
       end.

(** [fopen] gives the content of the file; [short]: [fread] returns less. The
    result is accompanied by the number of times the file has been closed. *)
Definition bitfile_create_from_file (fopen : option (list Z)) (calloc short : bool) : option (option bitfile * nat) :=
  match fopen with
  | None => Some (None, 0%nat)
  | Some buf =>
      if negb calloc then Some (None, 1%nat)
      else if short then Some (None, 1%nat)
      else match bitfile_parse bitfile0 buf with
           | Oob => None
           | Ret r bf => if r =? 0 then Some (Some bf, 1%nat) else Some (None, 2%nat)
           end
  end.

(** ** The loop ends *)

Lemma be16_bound buf p l : be16 buf p = Some l -> (S p < length buf)%nat.
Proof. unfold be16. destruct (buf !! p), (buf !! S p) eqn:E; try done. intros _. by apply lookup_lt_Some in E. Qed.

(** More fuel than bytes left changes nothing: [Oob] is not lack of fuel. *)
Lemma parse_loop_fuel fuel : forall fuel' buf ptr bf, (length buf - ptr < fuel)%nat -> (fuel <= fuel')%nat -> parse_loop fuel buf ptr bf = parse_loop fuel' buf ptr bf.
Proof.
  induction fuel as [|fuel IH]; intros [|fuel'] buf ptr bf H Hf; try lia. cbn [parse_loop]. destruct (buf !! ptr) as [t|] eqn:E; [|done]. destruct (t =? 101); [done|].
  destruct (be16 buf (S ptr)) as [l|] eqn:El; [|done]. destruct (set_field t _ bf); [|done]. apply be16_bound in El. apply IH; lia.
Qed.

(** ** What is found *)

(** The files the reader is for. *)
Definition put16 (n : Z) : list Z := [n / 256; n mod 256].
Definition put32 (n : Z) : list Z := put16 (n / 65536) ++ put16 (n mod 65536).
Definition put_field (f : Z * list Z) : list Z := f.1 :: put16 (Z.of_nat (length f.2)) ++ f.2.
Definition put_bitfile (hdr unk : list Z) (fields : list (Z * list Z)) (d rest : list Z) : list Z :=
  put16 (Z.of_nat (length hdr)) ++ hdr ++ unk ++ concat (put_field <$> fields) ++ 0x65 :: put32 (Z.of_nat (length d)) ++ d ++ rest.

Lemma be16_put n pre post : be16 (pre ++ put16 n ++ post) (length pre) = Some n.
Proof.
  unfold be16, put16. cbn [app]. assert (forall a b, (pre ++ a :: b :: post) !! S (length pre) = Some b) as E.
  { intros a b. rewrite (cons_middle a pre), app_assoc. apply list_lookup_middle. rewrite length_app. cbn. lia. }
  rewrite E, (list_lookup_middle pre) by done. cbn. f_equal. pose proof (Z.div_mod n 256). lia.
Qed.
Lemma be32_put n pre post : be32 (pre ++ put32 n ++ post) (length pre) = Some n.
Proof.
  unfold be32, put32. rewrite <- app_assoc, be16_put. cbn [mbind option_bind].
  replace (length pre + 2)%nat with (length (pre ++ put16 (n / 65536))) by (rewrite length_app; cbn; lia). rewrite app_assoc, be16_put. cbn. f_equal. pose proof (Z.div_mod n 65536). lia.
Qed.

(** Where the payload of the last field of type [t] begins, the first field
    being at [p]. *)
Fixpoint last_field (t : Z) (p : nat) (fields : list (Z * list Z)) (found : option nat) : option nat :=
  match fields with
  | [] => found
  | f :: fs => last_field t (p + length (put_field f)) fs (if f.1 =? t then Some (p + 3)%nat else found)
  end.
Definition known (f : Z * list Z) : Prop := 0x61 <= f.1 <= 0x64.

Lemma set_field_known t p bf : 0x61 <= t <= 0x64 -> set_field t p bf =
  Some (mk_bitfile (header bf) (if t =? 0x61 then Some p else name bf) (if t =? 0x62 then Some p else part bf) (if t =? 0x63 then Some p else date bf) (if t =? 0x64 then Some p else time bf) (data_len bf) (data bf)).
Proof. intros H. assert (t = 0x61 \/ t = 0x62 \/ t = 0x63 \/ t = 0x64) as [->|[->|[->| ->]]] by lia; by destruct bf. Qed.

Lemma parse_fields fields : forall fuel pre d rest bf, Forall known fields -> (length fields < fuel)%nat ->
  let p := length pre in
  parse_loop fuel (pre ++ concat (put_field <$> fields) ++ 0x65 :: put32 (Z.of_nat (length d)) ++ d ++ rest) p bf =
    Ret 0 (mk_bitfile (header bf) (last_field 0x61 p fields (name bf)) (last_field 0x62 p fields (part bf)) (last_field 0x63 p fields (date bf)) (last_field 0x64 p fields (time bf))
      (Z.of_nat (length d)) (Some (p + length (concat (put_field <$> fields)) + 5)%nat)).
Proof.
  induction fields as [|f fs IH]; intros [|fuel] pre d rest bf Hk Hf; try (cbn in Hf; lia); cbv zeta.
  - cbn [fmap list_fmap concat app parse_loop]. rewrite list_lookup_middle by done. cbn [Z.eqb Pos.eqb]. replace (S (length pre)) with (length (pre ++ [0x65])) by (rewrite length_app; cbn; lia).
    rewrite (cons_middle 0x65 pre), app_assoc, be32_put. unfold set_data. cbn [last_field]. do 3 f_equal. rewrite length_app. cbn. lia.
  - apply Forall_cons in Hk as [Ht Hk]. destruct f as [t payload]. unfold known in Ht. cbn [fst] in Ht. cbn [fmap list_fmap concat]. unfold put_field at 1. cbn [fst snd]. rewrite <- !app_assoc. cbn [app parse_loop].
    rewrite list_lookup_middle by done. rewrite (proj2 (Z.eqb_neq _ _)) by lia.
    set (tail := concat (put_field <$> fs) ++ _). set (b := pre ++ t :: _). assert (b = (pre ++ [t]) ++ put16 (Z.of_nat (length payload)) ++ payload ++ tail) as Eb by (unfold b; rewrite <- !app_assoc; done).
    replace (S (length pre)) with (length (pre ++ [t])) by (rewrite length_app; cbn; lia). rewrite Eb, be16_put. rewrite set_field_known by done. rewrite Nat2Z.id.
    set (pre' := pre ++ put_field (t, payload)). assert (length pre' = (length pre + length (put_field (t, payload)))%nat) as Elen by apply length_app.
    replace (length (pre ++ [t]) + 2 + length payload)%nat with (length pre') by (unfold pre', put_field; rewrite !length_app; cbn; rewrite ?length_app; lia).
    replace ((pre ++ [t]) ++ put16 (Z.of_nat (length payload)) ++ payload ++ tail) with (pre' ++ tail) by (unfold pre', put_field; cbn [fst snd]; rewrite <- !app_assoc; cbn [app]; rewrite <- ?app_assoc; done).
    unfold tail. rewrite IH by (done || (cbn in Hf; lia)). cbn [header name part date time data_len data last_field fst]. rewrite Elen. replace (length (pre ++ [t]) + 2)%nat with (length pre + 3)%nat by (rewrite length_app; cbn; lia).
    do 3 f_equal. rewrite !length_app. lia.
Qed.

(** [bs] is in the buffer at [p]. *)
Definition lies_at (buf : list Z) (p : nat) (bs : list Z) : Prop := take (length bs) (drop p buf) = bs.
Lemma lies_at_app pre bs post : lies_at (pre ++ bs ++ post) (length pre) bs.
Proof. unfold lies_at. by rewrite drop_app_length, take_app_length. Qed.

(** What a pointer to the fields of type [t] has to be: at the payload of the
    last one, or as it was when there is none. *)
Definition points_to (buf : list Z) (t : Z) (fields : list (Z * list Z)) (found q : option nat) : Prop :=
  match last (base.filter (fun f => f.1 = t) fields) with
  | Some f => exists p, q = Some p /\ lies_at buf p f.2
  | None => q = found
  end.

Lemma last_field_points t fields : forall pre post found, points_to (pre ++ concat (put_field <$> fields) ++ post) t fields found (last_field t (length pre) fields found).
Proof.
  induction fields as [|f fs IH]; intros pre post found; [done|]. cbn [fmap list_fmap concat last_field]. rewrite <- app_assoc, app_assoc, <- length_app. specialize (IH (pre ++ put_field f) post (if f.1 =? t then Some (length pre + 3)%nat else found)).
  unfold points_to in *. rewrite filter_cons. destruct (decide (f.1 = t)) as [E|E].
  - rewrite (proj2 (Z.eqb_eq _ _) E) in *. rewrite last_cons. destruct (last _) as [g|]; [exact IH|]. rewrite IH. eexists. split; [done|].
    replace ((pre ++ put_field f) ++ concat (put_field <$> fs) ++ post) with ((pre ++ f.1 :: put16 (Z.of_nat (length f.2))) ++ f.2 ++ concat (put_field <$> fs) ++ post)
      by (unfold put_field; rewrite <- !app_assoc; cbn [app]; by rewrite <- ?app_assoc).
    replace (length pre + 3)%nat with (length (pre ++ f.1 :: put16 (Z.of_nat (length f.2)))) by (rewrite length_app; done). apply lies_at_app.
  - rewrite (proj2 (Z.eqb_neq _ _) E) in *. exact IH.
Qed.

(** C21: reading a bit file. Of a buffer that holds a header, fields of the
    types [a] to [d] in any order and number, and data after an [e], the
    reader returns 0 with the length of the data and a pointer to it, and for
    each type a pointer to the payload of the last field of the type, or NULL
    when there is none. *)
Theorem bitfile_parse_finds hdr unk fields d rest :
  length unk = 2%nat -> Forall known fields ->
  let buf := put_bitfile hdr unk fields d rest in
  exists bf, bitfile_parse bitfile0 buf = Ret 0 bf /\ data_len bf = Z.of_nat (length d) /\ (exists p, data bf = Some p /\ lies_at buf p d) /\
    points_to buf 0x61 fields None (name bf) /\ points_to buf 0x62 fields None (part bf) /\ points_to buf 0x63 fields None (date bf) /\ points_to buf 0x64 fields None (time bf).
Proof.
  intros Hu Hk buf. set (pre := put16 (Z.of_nat (length hdr)) ++ hdr ++ unk). set (tail := 0x65 :: put32 (Z.of_nat (length d)) ++ d ++ rest).
  assert (buf = pre ++ concat (put_field <$> fields) ++ tail) as Eb by (unfold buf, put_bitfile, pre; by rewrite <- !app_assoc).
  assert (length fields <= length (concat (put_field <$> fields)))%nat as Hl.
  { clear. induction fields as [|f fs IH]; cbn; [done|]. rewrite !length_app. cbn. lia. }
  unfold bitfile_parse. pose proof (be16_put (Z.of_nat (length hdr)) [] (hdr ++ unk ++ concat (put_field <$> fields) ++ tail)) as E0. change (be16 buf 0 = Some (Z.of_nat (length hdr))) in E0. rewrite E0, Nat2Z.id.
  replace (2 + length hdr + 2)%nat with (length pre) by (unfold pre; rewrite !length_app; cbn; lia). clearbody buf. subst buf.
  unfold tail. rewrite parse_fields by (done || (rewrite !length_app; lia)). eexists. split; [reflexivity|]. split; [done|]. split; [|split_and!; apply last_field_points].
  eexists. split; [reflexivity|]. replace (pre ++ concat (put_field <$> fields) ++ 0x65 :: put32 (Z.of_nat (length d)) ++ d ++ rest) with ((pre ++ concat (put_field <$> fields) ++ 0x65 :: put32 (Z.of_nat (length d))) ++ d ++ rest)
    by (rewrite <- !app_assoc; done). replace (_ + _ + 5)%nat with (length (pre ++ concat (put_field <$> fields) ++ 0x65 :: put32 (Z.of_nat (length d)))) by (rewrite !length_app; cbn; lia). apply lies_at_app.
Qed.

(** A design name, a part, the name again, and three bytes of data. *)
Definition fields0 : list (Z * list Z) := [(0x61, [1; 2]); (0x62, [3]); (0x61, [4; 5; 6])].
Lemma bitfile_parse_finds_witness :
  exists bf, bitfile_parse bitfile0 (put_bitfile [9; 9] [0; 1] fields0 [0xAA; 0xBB; 0xCC] []) = Ret 0 bf /\ data_len bf = 3 /\ date bf = None /\
    exists p, name bf = Some p /\ lies_at (put_bitfile [9; 9] [0; 1] fields0 [0xAA; 0xBB; 0xCC] []) p [4; 5; 6].
Proof.
  destruct (bitfile_parse_finds [9; 9] [0; 1] fields0 [0xAA; 0xBB; 0xCC] []) as (bf & E & Hl & _ & Hn & _ & Hd & _); [reflexivity|by repeat constructor; unfold known; cbn; lia|].
  exists bf. split; [exact E|]. split; [exact Hl|]. split; [exact Hd|exact Hn].
Defined.

(** A file that ends early is read beyond its end: the length is not looked at. *)
Theorem truncated_bitfile_out_of_bounds : bitfile_create_from_file (Some (take 8 (put_bitfile [9; 9] [0; 1] fields0 [1; 2; 3] []))) true false = None.
Proof. reflexivity. Qed.
(** A file with a field of another type is closed twice. *)
Theorem unknown_field_closes_twice : bitfile_create_from_file (Some (put_bitfile [9; 9] [0; 1] [(0x66, [])] [1; 2; 3] [])) true false = Some (None, 2%nat).
Proof. reflexivity. Qed.
