(* ===== verification/FlashSpi.v ===== *)
(** * SPI flash

    Model of [utils/flash_spi.c]: the driver of the SPI configuration flash,
    which moves every bit through one register with the data lines, the
    clock and the chip select.

    The flash chip is not part of the repository. [chip] with [chip_end] and
    [chip_out] states what the data sheets of SPI NOR flash say: commands are
    sent in the first eight clock cycles on line 0, most significant bit
    first, sampled at the rising edge; they take effect when the chip is
    deselected; programming clears bits inside a page, erasing sets them, both
    need the write enable latch and keep the chip busy for a while. [SpiPort]
    is the interface between the driver and a chip: the register drives the
    pins. *)

From S2P Require Import Prelude Mmio.

Definition SPI_CMD_RESET_ENABLE : Z := 0x66.
Definition SPI_CMD_RESET_MEMORY : Z := 0x99.
Definition SPI_CMD_READ_ID : Z := 0x9F.
Definition SPI_CMD_READ : Z := 0x03.
Definition SPI_CMD_FAST_READ_QUAD_IO : Z := 0xEB.
Definition SPI_CMD_4B_READ : Z := 0x13.
Definition SPI_CMD_4B_FAST_READ_QUAD_IO : Z := 0xEC.
Definition SPI_CMD_WRITE_ENABLE : Z := 0x06.
Definition SPI_CMD_WRITE_DISABLE : Z := 0x04.
Definition SPI_CMD_READ_STATUS_REG : Z := 0x05.
Definition SPI_CMD_READ_FLAG_STATUS_REG : Z := 0x70.
Definition SPI_CMD_READ_V_CONFIG_REG : Z := 0x85.
Definition SPI_CMD_WRITE_STATUS_REG : Z := 0x01.
Definition SPI_CMD_WRITE_V_CONFIG_REG : Z := 0x81.
Definition SPI_CMD_CLEAR_FLAG_STATUS_REG : Z := 0x50.
Definition SPI_CMD_PAGE_PROGRAM : Z := 0x02.
Definition SPI_CMD_PAGE_PROGRAM_QUAD_IN_EXT : Z := 0x38.
Definition SPI_CMD_4B_PAGE_PROGRAM : Z := 0x12.
Definition SPI_CMD_4B_PAGE_PROGRAM_QUAD_IN_EXT : Z := 0x3E.
Definition SPI_CMD_4KB_SUBSECTOR_ERASE : Z := 0x20.
Definition SPI_CMD_SECTOR_ERASE : Z := 0xD8.
Definition SPI_CMD_4B_4KB_SUBSECTOR_ERASE : Z := 0x21.
Definition SPI_CMD_4B_SECTOR_ERASE : Z := 0xDC.

Inductive spi_proto :=
  | SPI_PROTO_STR
  | SPI_PROTO_DTR
  | SPI_PROTO_DUAL_STR
  | SPI_PROTO_DUAL_DTR
  | SPI_PROTO_QUAD_STR
  | SPI_PROTO_QUAD_DTR.

Definition SPI_PAGE_SIZE : Z := 0x100.
Definition SPI_SUBSECTOR_SIZE : Z := 0x1000.
Definition SPI_SECTOR_SIZE : Z := 0x10000.
Definition FLASH_D_1 : Z := 2.
Definition FLASH_D_01 : Z := 3.
Definition FLASH_D_0123 : Z := 15.
Definition FLASH_OE_0 : Z := 0x100.
Definition FLASH_OE_01 : Z := 0x300.
Definition FLASH_OE_0123 : Z := 0xF00.
Definition FLASH_CLK : Z := 0x10000.
Definition FLASH_CS_N : Z := 0x20000.

(** The fields of [struct flash_device] the SPI driver uses. *)
Record flash_device := mk_flash_device {
  ctrl_reg : Z;
  size : Z;
  data_width : Z;
  write_buffer_size : Z;
  erase_block_size : Z;
  protocol : spi_proto;
  bulk_protocol : spi_proto;
  read_dummy_cycles : Z;
}.

(** ** The driver *)

Section Driver.
Context {hw : Type} `{!Mmio hw}.
Implicit Types (fdev : flash_device) (h : hw).

Definition reg_read32 (a : Z) h : Z * hw := ioread32 a h.
Definition reg_write32 (a v : Z) h : hw := iowrite32 v a h.
Definition dummy_read (a : Z) h : hw := (reg_read32 a h).2.

Definition spi_flash_select fdev h : hw := reg_write32 (ctrl_reg fdev) 0 h.
Definition spi_flash_deselect fdev h : hw := reg_write32 (ctrl_reg fdev) FLASH_CS_N h.

(** The loops over the bits of a byte, [i] from the list. *)
Fixpoint read_bits (sample : Z -> Z) (l : list Z) fdev (val : Z) h : Z * hw :=
  match l with
  | [] => (val, h)
  | i :: l' =>
      let h := dummy_read (ctrl_reg fdev) (reg_write32 (ctrl_reg fdev) 0 h) in
      let '(v, h) := reg_read32 (ctrl_reg fdev) h in
      let val := u8 (Z.lor val (Z.shiftl (sample v) i)) in
      let h := dummy_read (ctrl_reg fdev) (reg_write32 (ctrl_reg fdev) FLASH_CLK h) in
      read_bits sample l' fdev val h
  end.
Definition sample_1 (v : Z) : Z := if Z.land v FLASH_D_1 =? 0 then 0 else 1.

Definition spi_flash_read_byte fdev (p : spi_proto) h : Z * hw :=
  let '(val, h) :=
    match p with
    | SPI_PROTO_STR => read_bits sample_1 [7; 6; 5; 4; 3; 2; 1; 0] fdev 0 h
    | SPI_PROTO_DUAL_STR => read_bits (fun v => Z.land v FLASH_D_01) [6; 4; 2; 0] fdev 0 h
    | SPI_PROTO_QUAD_STR => read_bits (fun v => Z.land v FLASH_D_0123) [4; 0] fdev 0 h
    | SPI_PROTO_DTR | SPI_PROTO_DUAL_DTR | SPI_PROTO_QUAD_DTR => (0, h)
    end in
  (val, reg_write32 (ctrl_reg fdev) 0 h).

Fixpoint write_bits (mask oe : Z) (l : list Z) fdev (val : Z) h : hw :=
  match l with
  | [] => h
  | i :: l' =>
      let bit := Z.land (Z.shiftr val i) mask in
      let h := dummy_read (ctrl_reg fdev) (reg_write32 (ctrl_reg fdev) (Z.lor bit oe) h) in
      let h := dummy_read (ctrl_reg fdev) (reg_write32 (ctrl_reg fdev) (Z.lor (Z.lor bit oe) FLASH_CLK) h) in
      write_bits mask oe l' fdev val h
  end.

Definition spi_flash_write_byte fdev (val : Z) (p : spi_proto) h : hw :=
  let h :=
    match p with
    | SPI_PROTO_STR => write_bits 0x1 FLASH_OE_0 [7; 6; 5; 4; 3; 2; 1; 0] fdev val h
    | SPI_PROTO_DUAL_STR => write_bits 0x3 FLASH_OE_01 [6; 4; 2; 0] fdev val h
    | SPI_PROTO_QUAD_STR => write_bits 0xf FLASH_OE_0123 [4; 0] fdev val h
    | SPI_PROTO_DTR | SPI_PROTO_DUAL_DTR | SPI_PROTO_QUAD_DTR => h
    end in
  reg_write32 (ctrl_reg fdev) 0 h.

Definition spi_flash_write_addr fdev (addr : Z) (p : spi_proto) h : hw :=
  let h := spi_flash_write_byte fdev (Z.land (Z.shiftr addr 16) 0xff) p h in
  let h := spi_flash_write_byte fdev (Z.land (Z.shiftr addr 8) 0xff) p h in
  spi_flash_write_byte fdev (Z.land (Z.shiftr addr 0) 0xff) p h.
Definition spi_flash_write_addr_4b fdev (addr : Z) (p : spi_proto) h : hw :=
  let h := spi_flash_write_byte fdev (Z.land (Z.shiftr addr 24) 0xff) p h in
  let h := spi_flash_write_byte fdev (Z.land (Z.shiftr addr 16) 0xff) p h in
  let h := spi_flash_write_byte fdev (Z.land (Z.shiftr addr 8) 0xff) p h in
  spi_flash_write_byte fdev (Z.land (Z.shiftr addr 0) 0xff) p h.

Definition spi_flash_write_enable fdev (p : spi_proto) h : hw := spi_flash_deselect fdev (spi_flash_write_byte fdev SPI_CMD_WRITE_ENABLE p h).
Definition spi_flash_write_disable fdev (p : spi_proto) h : hw := spi_flash_deselect fdev (spi_flash_write_byte fdev SPI_CMD_WRITE_DISABLE p h).

(** The register a command reads, and the register it writes. *)
Definition read_register (cmd : Z) fdev (p : spi_proto) h : Z * hw :=
  let h := spi_flash_write_byte fdev cmd p h in
  let '(val, h) := spi_flash_read_byte fdev p h in
  (val, spi_flash_deselect fdev h).
Definition write_register (cmd : Z) fdev (val : Z) (p : spi_proto) h : hw :=
  let h := spi_flash_write_byte fdev cmd p h in
  let h := spi_flash_write_byte fdev val p h in
  spi_flash_deselect fdev h.
Definition spi_flash_read_status_register : flash_device -> spi_proto -> hw -> Z * hw := read_register SPI_CMD_READ_STATUS_REG.
Definition spi_flash_write_status_register : flash_device -> Z -> spi_proto -> hw -> hw := write_register SPI_CMD_WRITE_STATUS_REG.
Definition spi_flash_read_flag_status_register : flash_device -> spi_proto -> hw -> Z * hw := read_register SPI_CMD_READ_FLAG_STATUS_REG.
Definition spi_flash_clear_flag_status_register fdev (p : spi_proto) h : hw := spi_flash_deselect fdev (spi_flash_write_byte fdev SPI_CMD_CLEAR_FLAG_STATUS_REG p h).
Definition spi_flash_read_volatile_config_register : flash_device -> spi_proto -> hw -> Z * hw := read_register SPI_CMD_READ_V_CONFIG_REG.
Definition spi_flash_write_volatile_config_register : flash_device -> Z -> spi_proto -> hw -> hw := write_register SPI_CMD_WRITE_V_CONFIG_REG.

Definition spi_flash_reset fdev (p : spi_proto) h : hw :=
  let h := spi_flash_deselect fdev h in
  let h := spi_flash_deselect fdev (spi_flash_write_byte fdev SPI_CMD_RESET_ENABLE p h) in
  let h := dummy_read (ctrl_reg fdev) (dummy_read (ctrl_reg fdev) h) in
  let h := spi_flash_deselect fdev (spi_flash_write_byte fdev SPI_CMD_RESET_MEMORY p h) in
  dummy_read (ctrl_reg fdev) (dummy_read (ctrl_reg fdev) h).

Definition spi_flash_release fdev h : hw := spi_flash_deselect fdev h.

(** From BCD. *)
Definition capacity_of (c : Z) : Z := Z.land c 0xf + Z.land (Z.shiftr c 4) 0xf * 10.

Definition spi_flash_init (ofdev : option flash_device) h : Z * option flash_device * hw :=
  match ofdev with
  | None => (-1, None, h)
  | Some fdev =>
      let h := spi_flash_reset fdev SPI_PROTO_STR h in
      let h := spi_flash_write_byte fdev SPI_CMD_READ_ID SPI_PROTO_STR h in
      let '(mfr_id, h) := spi_flash_read_byte fdev SPI_PROTO_STR h in
      let '(mem_type, h) := spi_flash_read_byte fdev SPI_PROTO_STR h in
      let '(mem_capacity, h) := spi_flash_read_byte fdev SPI_PROTO_STR h in
      let h := spi_flash_deselect fdev h in
      if (mfr_id =? 0) || (mfr_id =? 0xff) then (-1, Some fdev, spi_flash_deselect fdev h)
      else
        let sz := u64 (Z.shiftl 1 (capacity_of mem_capacity + 6)) in
        let quad := data_width fdev =? 4 in
        let h := if quad then spi_flash_write_volatile_config_register fdev 0xFB SPI_PROTO_STR h else h in
        let fdev' := mk_flash_device (ctrl_reg fdev) sz (data_width fdev) SPI_PAGE_SIZE SPI_SUBSECTOR_SIZE SPI_PROTO_STR
                       (if quad then SPI_PROTO_QUAD_STR else SPI_PROTO_STR) (if quad then 10 else 0) in
        (0, Some fdev', spi_flash_release fdev' h)
  end.

Definition proto_of fdev : spi_proto := if data_width fdev =? 4 then SPI_PROTO_QUAD_STR else SPI_PROTO_STR.
Definition is_quad (p : spi_proto) : bool := match p with SPI_PROTO_QUAD_STR => true | _ => false end.

(** A command with an address: the four byte variants from 16 MB on. *)
Definition send_cmd_addr (c3 c3q c4 c4q : Z) (p : spi_proto) fdev (addr : Z) h : hw :=
  if 0x1000000 <? size fdev then
    spi_flash_write_addr_4b fdev addr p (spi_flash_write_byte fdev (if is_quad p then c4q else c4) SPI_PROTO_STR h)
  else
    spi_flash_write_addr fdev addr p (spi_flash_write_byte fdev (if is_quad p then c3q else c3) SPI_PROTO_STR h).

Fixpoint dummy_cycles (n : nat) fdev h : hw :=
  match n with
  | O => h
  | S n' => dummy_cycles n' fdev (reg_write32 (ctrl_reg fdev) 0 (reg_write32 (ctrl_reg fdev) FLASH_CLK h))
  end.

Fixpoint read_bytes (len : nat) (p : spi_proto) fdev h : list Z * hw :=
  match len with
  | O => ([], h)
  | S len' =>
      let '(b, h) := spi_flash_read_byte fdev p h in
      let '(bs, h) := read_bytes len' p fdev h in
      (b :: bs, h)
  end.

(** The result and the bytes at [dest]. *)
Definition spi_flash_read fdev (addr : Z) (len : nat) h : Z * list Z * hw :=
  let p := proto_of fdev in
  let h := send_cmd_addr SPI_CMD_READ SPI_CMD_FAST_READ_QUAD_IO SPI_CMD_4B_READ SPI_CMD_4B_FAST_READ_QUAD_IO p fdev addr h in
  let h := if is_quad p then dummy_cycles (Z.to_nat (read_dummy_cycles fdev)) fdev h else h in
  let '(bs, h) := read_bytes len p fdev h in
  (0, bs, spi_flash_deselect fdev h).

(** Wait for an operation to complete; [None]: still busy after [fuel] reads
    of the status register. *)
Fixpoint wait_ready (fuel : nat) fdev h : option hw :=
  match fuel with
  | O => None
  | S fuel' => let '(v, h) := spi_flash_read_status_register fdev SPI_PROTO_STR h in if Z.land v 0x01 =? 0 then Some h else wait_ready fuel' fdev h
  end.

(** Write enable and its check. *)
Definition enable_writing fdev h : bool * hw :=
  let h := spi_flash_write_enable fdev SPI_PROTO_STR h in
  let '(v, h) := spi_flash_read_status_register fdev SPI_PROTO_STR h in
  (negb (Z.land v 0x02 =? 0), h).

(** The bytes up to the end of the page: the next address and what is left. *)
Fixpoint program_bytes (p : spi_proto) fdev (addr : Z) (src : list Z) h : Z * list Z * hw :=
  match src with
  | [] => (addr, [], h)
  | b :: s =>
      let h := spi_flash_write_byte fdev b p h in
      let addr := u64 (addr + 1) in
      if Z.land addr 0xff =? 0 then (addr, s, h) else program_bytes p fdev addr s h
  end.

(** [turns]: of the outer loop; [wf]: of each wait. *)
Fixpoint write_loop (turns wf : nat) fdev (addr : Z) (src : list Z) h : option (Z * hw) :=
  match src with
  | [] => Some (0, spi_flash_deselect fdev h)
  | _ :: _ =>
      match turns with
      | O => None
      | S turns' =>
          let '(ok, h) := enable_writing fdev h in
          if negb ok then Some (-1, spi_flash_deselect fdev h)
          else
            let p := proto_of fdev in
            let h := send_cmd_addr SPI_CMD_PAGE_PROGRAM SPI_CMD_PAGE_PROGRAM_QUAD_IN_EXT SPI_CMD_4B_PAGE_PROGRAM SPI_CMD_4B_PAGE_PROGRAM_QUAD_IN_EXT p fdev addr h in
            let '(addr, src, h) := program_bytes p fdev addr src h in
            h ← wait_ready wf fdev (spi_flash_deselect fdev h);
            write_loop turns' wf fdev addr src h
      end
  end.
Definition spi_flash_write (wf : nat) fdev (addr : Z) (src : list Z) h : option (Z * hw) := write_loop (length src) wf fdev addr src h.

Definition erase_size (addr len : Z) : Z :=
  if (Z.land addr (SPI_SECTOR_SIZE - 1) =? 0) && (SPI_SECTOR_SIZE <=? len) then SPI_SECTOR_SIZE
  else if (Z.land addr (SPI_SUBSECTOR_SIZE - 1) =? 0) && (SPI_SUBSECTOR_SIZE <=? len) then SPI_SUBSECTOR_SIZE
  else 0.

Fixpoint erase_loop (turns wf : nat) fdev (addr len : Z) h : option (Z * hw) :=
  if len <=? 0 then Some (0, spi_flash_deselect fdev h)
  else
    match turns with
    | O => None
    | S turns' =>
        let block := erase_size addr len in
        if block =? 0 then Some (-1, spi_flash_deselect fdev h)
        else
          let '(ok, h) := enable_writing fdev h in
          if negb ok then Some (-1, spi_flash_deselect fdev h)
          else
            let sector := block =? SPI_SECTOR_SIZE in
            let c3 := if sector then SPI_CMD_SECTOR_ERASE else SPI_CMD_4KB_SUBSECTOR_ERASE in
            let c4 := if sector then SPI_CMD_4B_SECTOR_ERASE else SPI_CMD_4B_4KB_SUBSECTOR_ERASE in
            let h := send_cmd_addr c3 c3 c4 c4 SPI_PROTO_STR fdev addr h in
            h ← wait_ready wf fdev (spi_flash_deselect fdev h);
            if len <=? block then Some (0, spi_flash_deselect fdev h)
            else erase_loop turns' wf fdev (u64 (addr + block)) (len - block) h
    end.
Definition spi_flash_erase (wf : nat) fdev (addr len : Z) h : option (Z * hw) := erase_loop (Z.to_nat (len / SPI_SUBSECTOR_SIZE + 1)) wf fdev addr len h.
End Driver.

(** ** The chip *)

Record chip := mk_chip {
  c_mem : Z -> Z;
  c_size : Z;
  c_id : Z * Z * Z;
  c_wel : bool;              (* write enable latch *)
  c_busy : nat;              (* commands until the operation is finished *)
  c_delay : nat;             (* how long an operation takes *)
  c_reset : bool;            (* a reset has been enabled *)
  c_vconf : Z;               (* volatile configuration register *)
}.

Inductive op :=
  | OpRead (quad : bool) (na : nat)
  | OpProgram (quad : bool) (na : nat)
  | OpErase (na : nat) (block : Z)
  | OpWren
  | OpWrdi
  | OpStatus
  | OpId
  | OpVconf
  | OpResetEnable
  | OpReset
  | OpOther.

(** The commands the driver uses ([na]: bytes of the address). *)
Definition ops : list (Z * op) :=
  [(SPI_CMD_READ, OpRead false 3); (SPI_CMD_FAST_READ_QUAD_IO, OpRead true 3); (SPI_CMD_4B_READ, OpRead false 4); (SPI_CMD_4B_FAST_READ_QUAD_IO, OpRead true 4);
   (SPI_CMD_PAGE_PROGRAM, OpProgram false 3); (SPI_CMD_PAGE_PROGRAM_QUAD_IN_EXT, OpProgram true 3); (SPI_CMD_4B_PAGE_PROGRAM, OpProgram false 4);
   (SPI_CMD_4B_PAGE_PROGRAM_QUAD_IN_EXT, OpProgram true 4); (SPI_CMD_4KB_SUBSECTOR_ERASE, OpErase 3 0x1000); (SPI_CMD_SECTOR_ERASE, OpErase 3 0x10000);
   (SPI_CMD_4B_4KB_SUBSECTOR_ERASE, OpErase 4 0x1000); (SPI_CMD_4B_SECTOR_ERASE, OpErase 4 0x10000); (SPI_CMD_WRITE_ENABLE, OpWren); (SPI_CMD_WRITE_DISABLE, OpWrdi);
   (SPI_CMD_READ_STATUS_REG, OpStatus); (SPI_CMD_READ_ID, OpId); (SPI_CMD_WRITE_V_CONFIG_REG, OpVconf); (SPI_CMD_RESET_ENABLE, OpResetEnable); (SPI_CMD_RESET_MEMORY, OpReset)].
Definition op_of (cmd : Z) : op := match list_find (fun x => x.1 = cmd) ops with Some (_, x) => x.2 | None => OpOther end.

(** The bytes of a sequence of clock cycles (the data lines at each rising
    edge): eight cycles of line 0, or two of the four lines. *)
Definition dec8 (l : list Z) : Z := foldl (fun acc v => acc * 2 + v mod 2) 0 l.
Fixpoint bytes1 (l : list Z) : list Z :=
  match l with
  | a :: b :: c :: d :: e :: f :: g :: h :: r => dec8 [a; b; c; d; e; f; g; h] :: bytes1 r
  | _ => []
  end.
Fixpoint bytes4 (l : list Z) : list Z :=
  match l with
  | a :: b :: r => (a mod 16 * 16 + b mod 16) :: bytes4 r
  | _ => []
  end.
Definition bytes_q (quad : bool) (l : list Z) : list Z := if quad then bytes4 l else bytes1 l.
Definition payload (quad : bool) (cycles : list Z) : list Z := bytes_q quad (drop 8 cycles).
Definition be_val (bs : list Z) : Z := foldl (fun acc b => acc * 256 + b) 0 bs.
Definition addr_of (na : nat) (bs : list Z) : Z := be_val (take na bs).

(** Quad reads wait for the number of cycles in the configuration register,
    ten if it is [0xF]. *)
Definition c_dummy (c : chip) : nat := let n := c_vconf c / 16 mod 16 in if n =? 15 then 10 else Z.to_nat n.
Definition status (c : chip) : Z := (if (c_busy c =? 0)%nat then 0 else 1) + (if c_wel c then 2 else 0).

(** The lines driven and their values, the clock being low. *)
Definition out1 (b : Z) (k : nat) : Z * Z := (2, if Z.testbit b (7 - Z.of_nat k mod 8) then 2 else 0).
Definition out4 (b : Z) (k : nat) : Z * Z := (15, (if Nat.even k then b / 16 else b) mod 16).
Definition chip_out (c : chip) (cycles : list Z) : Z * Z :=
  let n := length cycles in
  match op_of (dec8 (take 8 cycles)) with
  | OpStatus => out1 (status c) (n - 8)
  | OpId => let '(a, b, d) := c_id c in out1 (nth ((n - 8) / 8) [a; b; d] 0) (n - 8)
  | OpRead false na => let k := (n - (8 + 8 * na))%nat in out1 (c_mem c ((addr_of na (payload false cycles) + Z.of_nat (k / 8)) mod c_size c)) k
  | OpRead true na => let k := (n - (8 + 2 * na + c_dummy c))%nat in out4 (c_mem c ((addr_of na (payload true cycles) + Z.of_nat (k / 2)) mod c_size c)) k
  | _ => (0, 0)
  end.

(** Programming wraps around in the page; of more than a page of data the
    last bytes count. *)
Definition program (addr : Z) (data : list Z) (m : Z -> Z) : Z -> Z :=
  let skip := (length data - 256)%nat in
  let '(addr, data) := (addr + Z.of_nat skip, drop skip data) in
  fun x => if x / 256 =? addr / 256 then
             match data !! Z.to_nat ((x - addr) mod 256) with Some b => Z.land (m x) b | None => m x end
           else m x.
Definition erase (addr block : Z) (m : Z -> Z) : Z -> Z := fun x => if x / block =? addr / block then 0xFF else m x.

Definition with_mem (m : Z -> Z) (c : chip) : chip := mk_chip m (c_size c) (c_id c) false (c_delay c) (c_delay c) false (c_vconf c).
Definition with_latch (wel reset : bool) (c : chip) : chip := mk_chip (c_mem c) (c_size c) (c_id c) wel (c_busy c) (c_delay c) reset (c_vconf c).
Definition with_busy (n : nat) (c : chip) : chip := mk_chip (c_mem c) (c_size c) (c_id c) (c_wel c) n (c_delay c) (c_reset c) (c_vconf c).
Definition with_vconf (v : Z) (c : chip) : chip := mk_chip (c_mem c) (c_size c) (c_id c) false (c_busy c) (c_delay c) false v.

(** Deselected after [cycles]: the command takes effect. While it is busy a
    chip takes no other command; time passes. *)
Definition chip_end (c : chip) (cycles : list Z) : chip :=
  match cycles with
  | [] => c
  | _ =>
      if (c_busy c =? 0)%nat then
        match op_of (dec8 (take 8 cycles)) with
        | OpProgram quad na => let bs := payload quad cycles in if c_wel c then with_mem (program (addr_of na bs) (drop na bs) (c_mem c)) c else c
        | OpErase na block => if c_wel c then with_mem (erase (addr_of na (payload false cycles)) block (c_mem c)) c else c
        | OpWren => with_latch true false c
        | OpWrdi => with_latch false false c
        | OpVconf => if c_wel c then match payload false cycles with v :: _ => with_vconf v c | [] => c end else c
        | OpResetEnable => with_latch (c_wel c) true c
        | OpReset => if c_reset c then with_vconf 0xFB c else c
        | _ => with_latch (c_wel c) false c
        end
      else with_busy (c_busy c - 1) c
  end.

(** ** The pins *)

(** The clock, the cycles since the chip was selected, and the chip. *)
Record pins := mk_pins { p_clk : bool; p_cycles : list Z; p_chip : chip }.
Definition pin_step (v : Z) (p : pins) : pins :=
  let clk := Z.testbit v 16 in
  if Z.testbit v 17 then mk_pins clk [] (chip_end (p_chip p) (p_cycles p))
  else mk_pins clk (if clk && negb (p_clk p) then p_cycles p ++ [v mod 16] else p_cycles p) (p_chip p).

(** The register at [a] drives the pins of a chip; reading it has no effect
    and gives, while the clock is low, the lines the chip drives. *)
Class SpiPort (hw : Type) `{!Mmio hw} (a : Z) := {
  pins_of : hw -> pins;
  pins_write v h : pins_of (iowrite32 v a h) = pin_step v (pins_of h);
  pins_read h : pins_of (ioread32 a h).2 = pins_of h;
  pins_lines h : p_clk (pins_of h) = false -> let '(mask, d) := chip_out (p_chip (pins_of h)) (p_cycles (pins_of h)) in Z.land (ioread32 a h).1 mask = d;
}.

(** ** Bits and bytes on the lines *)

Definition proto (quad : bool) : spi_proto := if quad then SPI_PROTO_QUAD_STR else SPI_PROTO_STR.
Definition shifts (quad : bool) : list Z := if quad then [4; 0] else [7; 6; 5; 4; 3; 2; 1; 0].
(** The cycles in which a byte is sent. *)
Definition sent (quad : bool) (b : Z) : list Z := (fun i => Z.land (Z.shiftr b i) (if quad then 15 else 1)) <$> shifts quad.
Definition sent_all (quad : bool) (bs : list Z) : list Z := concat (sent quad <$> bs).

(** What holds of every byte is checked on all of them. *)
Lemma all_bytes (f : Z -> bool) : forallb f (seqZ 0 256) = true -> forall b, is_byte b -> f b = true.
Proof. intros H b Hb. rewrite forallb_forall in H. apply H, list_elem_of_In, elem_of_seqZ. unfold is_byte in Hb. lia. Qed.

Lemma dec8_sent b : is_byte b -> dec8 (sent false b) = b.
Proof. intros Hb. apply Z.eqb_eq. revert b Hb. apply all_bytes. vm_compute. reflexivity. Qed.
Lemma dec4_sent b : is_byte b -> Z.land (Z.shiftr b 4) 15 mod 16 * 16 + Z.land (Z.shiftr b 0) 15 mod 16 = b.
Proof. intros Hb. apply Z.eqb_eq. revert b Hb. apply all_bytes. vm_compute. reflexivity. Qed.

Lemma bytes_sent quad bs r : Forall is_byte bs -> bytes_q quad (sent_all quad bs ++ r) = bs ++ bytes_q quad r.
Proof.
  induction 1 as [|b bs Hb _ IH]; [done|]. unfold sent_all, bytes_q in *. cbn [fmap list_fmap concat]. rewrite <- app_assoc. destruct quad.
  - cbn [sent shifts fmap list_fmap app bytes4]. rewrite dec4_sent by done. cbn [app]. by f_equal.
  - cbn [sent shifts fmap list_fmap app bytes1]. f_equal; [by apply dec8_sent|exact IH].
Qed.
Lemma sent_all_app quad bs cs : sent_all quad (bs ++ cs) = sent_all quad bs ++ sent_all quad cs.
Proof. unfold sent_all. by rewrite fmap_app, concat_app. Qed.
Lemma length_sent quad b : length (sent quad b) = if quad then 2%nat else 8%nat.
Proof. by destruct quad. Qed.
Lemma length_sent_all quad bs : length (sent_all quad bs) = (length bs * if quad then 2 else 8)%nat.
Proof. induction bs as [|b bs IH]; [done|]. unfold sent_all in *. cbn [fmap list_fmap concat length]. rewrite length_app, IH, length_sent. lia. Qed.

Lemma first_command cmd r : is_byte cmd -> dec8 (take 8 (sent false cmd ++ r)) = cmd.
Proof. intros H. rewrite take_app_length' by done. by apply dec8_sent. Qed.
Lemma payload_sent quad cmd bs r : Forall is_byte bs -> payload quad (sent false cmd ++ sent_all quad bs ++ r) = bs ++ bytes_q quad r.
Proof. intros H. unfold payload. rewrite drop_app_length' by done. by apply bytes_sent. Qed.

(** The bytes of an address. *)
Definition addr_bytes (na : nat) (addr : Z) : list Z := (fun i => Z.land (Z.shiftr addr (8 * Z.of_nat i)) 0xff) <$> rev (seq 0 na).
Lemma land_byte x : is_byte (Z.land x 0xff).
Proof. unfold is_byte. change 0xff with (Z.ones 8). rewrite Z.land_ones by lia. apply Z.mod_pos_bound. lia. Qed.
Lemma addr_bytes_ok na addr : Forall is_byte (addr_bytes na addr).
Proof. apply Forall_fmap, Forall_forall. intros i _. apply land_byte. Qed.
Lemma length_addr_bytes na addr : length (addr_bytes na addr) = na.
Proof. unfold addr_bytes. by rewrite length_fmap, length_rev, length_seq. Qed.

Lemma be_val_snoc bs b : be_val (bs ++ [b]) = be_val bs * 256 + b.
Proof. unfold be_val. by rewrite foldl_app. Qed.
Lemma addr_bytes_S na addr : 0 <= addr -> addr_bytes (S na) addr = addr_bytes na (addr / 256) ++ [addr mod 256].
Proof.
  intros H. unfold addr_bytes. cbn [seq]. rewrite <- seq_shift. cbn [rev]. rewrite fmap_app. f_equal.
  - rewrite <- map_rev. change (map S (rev (seq 0 na))) with (S <$> (rev (seq 0 na))). rewrite <- list_fmap_compose. apply list_fmap_ext. intros _ i _. unfold compose. f_equal.
    change 256 with (2 ^ 8). rewrite <- Z.shiftr_div_pow2 by lia. rewrite Z.shiftr_shiftr by lia. f_equal. lia.
  - cbn. change 0xff with (Z.ones 8). rewrite Z.land_ones by lia. done.
Qed.
Lemma be_addr na : forall addr, 0 <= addr < 256 ^ Z.of_nat na -> be_val (addr_bytes na addr) = addr.
Proof.
  induction na as [|na IH]; intros addr H.
  - cbn in *. lia.
  - rewrite Nat2Z.inj_succ, Z.pow_succ_r in H by lia. assert (0 <= addr / 256 < 256 ^ Z.of_nat na) as Hd by (split; [apply Z.div_pos; lia|apply Z.div_lt_upper_bound; lia]).
    rewrite addr_bytes_S, be_val_snoc, IH by (lia || done). pose proof (Z.div_mod addr 256). lia.
Qed.
Lemma addr_sent na addr r : 0 <= addr < 256 ^ Z.of_nat na -> addr_of na (addr_bytes na addr ++ r) = addr /\ drop na (addr_bytes na addr ++ r) = r.
Proof. intros H. unfold addr_of. rewrite take_app_length', drop_app_length' by (by rewrite length_addr_bytes). by rewrite be_addr. Qed.

(** ** The register and the pins *)

Lemma drive bit oe : 0 <= bit < 16 -> oe = FLASH_OE_0 \/ oe = FLASH_OE_0123 ->
  Z.testbit (Z.lor bit oe) 16 = false /\ Z.testbit (Z.lor bit oe) 17 = false /\ Z.testbit (Z.lor (Z.lor bit oe) FLASH_CLK) 16 = true /\
  Z.testbit (Z.lor (Z.lor bit oe) FLASH_CLK) 17 = false /\ Z.lor (Z.lor bit oe) FLASH_CLK mod 16 = bit.
Proof.
  intros Hb Ho. assert (bit ∈ seqZ 0 16) as Hs by (apply elem_of_seqZ; lia). clear Hb. revert bit Hs. apply Forall_forall. destruct Ho as [-> | ->]; repeat (constructor; [vm_compute; done|]); constructor.
Qed.

Section Port.
Context {hw : Type} `{!Mmio hw} (fdev : flash_device) `{!SpiPort hw (ctrl_reg fdev)}.
Implicit Types (h : hw) (c : chip).

Lemma write_pins v h : pins_of (reg_write32 (ctrl_reg fdev) v h) = pin_step v (pins_of h).
Proof. apply pins_write. Qed.
Lemma dummy_pins h : pins_of (dummy_read (ctrl_reg fdev) h) = pins_of h.
Proof. apply pins_read. Qed.

Lemma write_bits_pins (quad : bool) (val : Z) (l : list Z) : forall h, 
  pins_of (write_bits (if quad then 15 else 1) (if quad then FLASH_OE_0123 else FLASH_OE_0) l fdev val h) =
  mk_pins (match l with [] => p_clk (pins_of h) | _ => true end) (p_cycles (pins_of h) ++ ((fun i => Z.land (Z.shiftr val i) (if quad then 15 else 1)) <$> l)) (p_chip (pins_of h)).
Proof.
  induction l as [|i l IH]; intros h; cbn [write_bits]; [cbn; rewrite app_nil_r; by destruct (pins_of h)|].
  rewrite IH, dummy_pins, write_pins, dummy_pins, write_pins. set (bit := Z.land (Z.shiftr val i) _). set (oe := if quad then _ else _).
  assert (0 <= bit < 16) as Hb.
  { unfold bit. destruct quad; [change 15 with (Z.ones 4)|change 1 with (Z.ones 1)]; (rewrite Z.land_ones by lia); [change (2 ^ 4) with 16|change (2 ^ 1) with 2]; match goal with |- context [?x mod ?n] => pose proof (Z.mod_pos_bound x n) end; lia. }
  destruct (drive bit oe Hb) as (E1 & E2 & E3 & E4 & E5); [unfold oe; destruct quad; auto|]. unfold pin_step. rewrite E1, E2, E3, E4, E5. cbn [p_clk p_cycles p_chip andb negb].
  cbn [fmap list_fmap]. rewrite <- app_assoc. by destruct l.
Qed.

(** A byte is sent. *)
Lemma write_byte_pins quad val h :
  pins_of (spi_flash_write_byte fdev val (proto quad) h) = mk_pins false (p_cycles (pins_of h) ++ sent quad val) (p_chip (pins_of h)).
Proof.
  unfold spi_flash_write_byte. rewrite write_pins. assert (forall p, pin_step 0 p = mk_pins false (p_cycles p) (p_chip p)) as E by reflexivity. rewrite E.
  destruct quad; cbn [proto].
  - rewrite (write_bits_pins true val [4; 0] h). reflexivity.
  - rewrite (write_bits_pins false val [7; 6; 5; 4; 3; 2; 1; 0] h). reflexivity.
Qed.

Lemma deselect_pins h : pins_of (spi_flash_deselect fdev h) = mk_pins false [] (chip_end (p_chip (pins_of h)) (p_cycles (pins_of h))).
Proof. unfold spi_flash_deselect. by rewrite write_pins. Qed.

Definition outs (quad : bool) (b : Z) (k : nat) : Z * Z := if quad then out4 b k else out1 b k.
Definition bitval (quad : bool) (b : Z) (k : nat) : Z := if quad then (outs true b k).2 else (outs false b k).2 / 2.
Fixpoint gather (quad : bool) (b : Z) (l : list Z) (k : nat) (val : Z) : Z :=
  match l with
  | [] => val
  | i :: l' => gather quad b l' (S k) (u8 (Z.lor val (Z.shiftl (bitval quad b k) i)))
  end.
Definition sample (quad : bool) (v : Z) : Z := if quad then Z.land v FLASH_D_0123 else sample_1 v.

Lemma gather_all quad b : is_byte b -> gather quad b (shifts quad) 0 0 = b.
Proof. intros Hb. apply Z.eqb_eq. revert b Hb. apply all_bytes. destruct quad; vm_compute; reflexivity. Qed.

Lemma sample_out (quad : bool) b k v : (let '(mask, d) := outs quad b k in Z.land v mask = d) -> sample quad v = bitval quad b k.
Proof.
  unfold bitval, outs, sample. destruct quad; cbn [out4 out1 snd]; intros H; [exact H|]. unfold out1 in H |- *. cbn [snd]. unfold sample_1, FLASH_D_1. rewrite H. by destruct (Z.testbit b _).
Qed.

Lemma read_bits_ok quad b c cyc l : forall k val h,
  p_cycles (pins_of h) = cyc ++ replicate k 0 -> p_chip (pins_of h) = c ->
  (forall j, (k <= j < k + length l)%nat -> chip_out c (cyc ++ replicate j 0) = outs quad b j) ->
  exists h', read_bits (sample quad) l fdev val h = (gather quad b l k val, h') /\ p_cycles (pins_of h') = cyc ++ replicate (k + length l) 0 /\ p_chip (pins_of h') = c.
Proof.
  induction l as [|i l IH]; intros k val h Hp Hc Ho; cbn [read_bits gather].
  - exists h. by rewrite Nat.add_0_r.
  - set (h1 := dummy_read _ (reg_write32 _ 0 h)). assert (pins_of h1 = mk_pins false (cyc ++ replicate k 0) c) as E1 by (unfold h1; rewrite dummy_pins, write_pins; unfold pin_step; cbn; by rewrite Hp, Hc).
    destruct (reg_read32 (ctrl_reg fdev) h1) as [v h2] eqn:Er. pose proof (pins_read h1) as E2. pose proof (pins_lines h1) as E3. unfold reg_read32 in Er. rewrite Er in E2, E3. cbn [fst snd] in E2, E3. rewrite E1 in E2, E3. specialize (E3 eq_refl). cbn [p_chip p_cycles] in E3.
    rewrite Ho in E3 by (cbn; lia). apply sample_out in E3. rewrite E3. set (h3 := dummy_read _ _). assert (pins_of h3 = mk_pins true (cyc ++ replicate (S k) 0) c) as E4.
    { unfold h3. rewrite dummy_pins, write_pins, E2. unfold pin_step. cbn. by rewrite <- app_assoc, <- replicate_S_end. }
    destruct (IH (S k) (u8 (Z.lor val (Z.shiftl (bitval quad b k) i))) h3) as (h' & E & H1 & H2); [by rewrite E4|by rewrite E4|intros j Hj; apply Ho; cbn; lia|]. exists h'. split; [exact E|]. split; [|done]. rewrite H1. do 2 f_equal. cbn. lia.
Qed.

(** A byte that the chip shows is read. *)
Lemma read_byte_ok quad b c cyc h :
  p_cycles (pins_of h) = cyc -> p_chip (pins_of h) = c -> is_byte b ->
  (forall j, (j < length (shifts quad))%nat -> chip_out c (cyc ++ replicate j 0) = outs quad b j) ->
  exists h', spi_flash_read_byte fdev (proto quad) h = (b, h') /\ pins_of h' = mk_pins false (cyc ++ replicate (length (shifts quad)) 0) c.
Proof.
  intros Hp Hc Hb Ho. destruct (read_bits_ok quad b c cyc (shifts quad) 0 0 h) as (h' & E & H1 & H2); [by rewrite app_nil_r|done|intros j Hj; apply Ho; lia|].
  rewrite gather_all in E by done. exists (reg_write32 (ctrl_reg fdev) 0 h'). split.
  - unfold spi_flash_read_byte. destruct quad; cbn [proto]; [change (fun v => Z.land v FLASH_D_0123) with (sample true); change [4; 0] with (shifts true)|change sample_1 with (sample false); change [7; 6; 5; 4; 3; 2; 1; 0] with (shifts false)]; by rewrite E.
  - rewrite write_pins. unfold pin_step. cbn. by rewrite H1, H2.
Qed.

(** Reading on: the next byte is found as the first was. *)
Lemma outs_period quad b k n : (k mod length (shifts quad) = 0)%nat -> outs quad b (k + n) = outs quad b n.
Proof.
  destruct quad; cbn [shifts length outs]; intros H.
  - unfold out4. rewrite Nat.even_add. apply Nat.Div0.mod_divides in H as [q ->]. rewrite Nat.even_mul. cbn. by destruct (Nat.even n).
  - unfold out1. do 3 f_equal. rewrite Nat2Z.inj_add. apply Nat.Div0.mod_divides in H as [q ->]. rewrite Nat2Z.inj_mul. change (Z.of_nat 8) with 8. rewrite Z.mul_comm, Z.add_comm. by rewrite Z_mod_plus_full.
Qed.

(** ** Transactions *)

(** The chip after a command that was sent from rest. *)
Definition rest h c : Prop := pins_of h = mk_pins false [] c.
Lemma write_from quad val h cyc c : pins_of h = mk_pins false cyc c -> pins_of (spi_flash_write_byte fdev val (proto quad) h) = mk_pins false (cyc ++ sent quad val) c.
Proof. intros E. rewrite write_byte_pins. by rewrite E. Qed.
Lemma deselect_from h cyc c : pins_of h = mk_pins false cyc c -> rest (spi_flash_deselect fdev h) (chip_end c cyc).
Proof. intros E. unfold rest. rewrite deselect_pins. by rewrite E. Qed.

Lemma sent_cons cmd r : exists x l, sent false cmd ++ r = x :: l.
Proof. by eexists _, _. Qed.
Lemma chip_end_cmd c cmd r : is_byte cmd -> chip_end c (sent false cmd ++ r) =
  if (c_busy c =? 0)%nat then
    let cycles := sent false cmd ++ r in
    match op_of cmd with
    | OpProgram quad na => let bs := payload quad cycles in if c_wel c then with_mem (program (addr_of na bs) (drop na bs) (c_mem c)) c else c
    | OpErase na block => if c_wel c then with_mem (erase (addr_of na (payload false cycles)) block (c_mem c)) c else c
    | OpWren => with_latch true false c
    | OpWrdi => with_latch false false c
    | OpVconf => if c_wel c then match payload false cycles with v :: _ => with_vconf v c | [] => c end else c
    | OpResetEnable => with_latch (c_wel c) true c
    | OpReset => if c_reset c then with_vconf 0xFB c else c
    | _ => with_latch (c_wel c) false c
    end
  else with_busy (c_busy c - 1) c.
Proof. intros H. unfold chip_end. destruct (sent_cons cmd r) as (x & l & E). rewrite E, <- E. by rewrite first_command. Qed.

(** Reading the status register; time passes. *)
Definition polled (c : chip) : chip := if (c_busy c =? 0)%nat then with_latch (c_wel c) false c else with_busy (c_busy c - 1) c.
Lemma status_byte c : is_byte (status c).
Proof. unfold status, is_byte. destruct (c_busy c =? 0)%nat, (c_wel c); lia. Qed.
Lemma read_status_ok h c : rest h c -> exists h', spi_flash_read_status_register fdev SPI_PROTO_STR h = (status c, h') /\ rest h' (polled c).
Proof.
  intros E. unfold spi_flash_read_status_register, read_register. pose proof (write_from false SPI_CMD_READ_STATUS_REG h [] c E) as E1. cbn [proto app] in E1.
  destruct (read_byte_ok false (status c) c (sent false SPI_CMD_READ_STATUS_REG) (spi_flash_write_byte fdev SPI_CMD_READ_STATUS_REG SPI_PROTO_STR h)) as (h' & E2 & E3); [by rewrite E1|by rewrite E1|apply status_byte| |].
  { intros j Hj. unfold chip_out. rewrite first_command by done. change (op_of SPI_CMD_READ_STATUS_REG) with OpStatus. cbn iota. rewrite length_app, length_sent, length_replicate. by rewrite Nat.add_comm, Nat.add_sub. }
  cbn [proto] in E2. rewrite E2. eexists. split; [reflexivity|]. unfold rest. rewrite (deselect_from _ _ _ E3), chip_end_cmd by done. reflexivity.
Qed.

Lemma wait_ready_ok n : forall h c, rest h c -> c_busy c = n -> exists h', wait_ready (S n) fdev h = Some h' /\ rest h' (with_latch (c_wel c) false (with_busy 0 c)).
Proof.
  induction n as [|n IH]; intros h c E Hb; destruct (read_status_ok h c E) as (h1 & E1 & E2); cbn [wait_ready]; rewrite E1; unfold status, polled in *; rewrite Hb in *.
  - exists h1. split; [by destruct (c_wel c)|]. unfold rest in *. rewrite E2. destruct c; cbn in *; by subst.
  - cbn [Nat.eqb] in E2 |- *. replace (Z.land _ 1 =? 0) with false by (by destruct (c_wel c)). destruct (IH h1 (with_busy (S n - 1) c) E2) as (h' & E3 & E4); [cbn; lia|]. exists h'. split; [exact E3|exact E4].
Qed.
Lemma wait_ready_mono n m : forall h h', wait_ready n fdev h = Some h' -> (n <= m)%nat -> wait_ready m fdev h = Some h'.
Proof.
  revert m. induction n as [|n IH]; intros [|m] h h' E Hm; try done; try lia. cbn [wait_ready] in *. destruct (spi_flash_read_status_register fdev SPI_PROTO_STR h) as [v h1]. destruct (_ =? 0); [done|]. apply IH; [done|lia].
Qed.

Lemma enable_writing_ok h c : rest h c -> c_busy c = 0%nat -> exists h', enable_writing fdev h = (true, h') /\ rest h' (with_latch true false c).
Proof.
  intros E Hb. unfold enable_writing, spi_flash_write_enable. pose proof (write_from false SPI_CMD_WRITE_ENABLE h [] c E) as E1. cbn [proto app] in E1. pose proof (deselect_from _ _ _ E1) as E2.
  rewrite <- (app_nil_r (sent false SPI_CMD_WRITE_ENABLE)), chip_end_cmd, Hb in E2 by done. cbn [Nat.eqb] in E2. change (op_of SPI_CMD_WRITE_ENABLE) with OpWren in E2. cbn zeta iota in E2.
  destruct (read_status_ok _ _ E2) as (h' & E3 & E4). rewrite E3. exists h'. split; [|unfold polled in E4; cbn [with_latch c_busy] in E4; by rewrite Hb in E4]. unfold status. cbn [with_latch c_busy c_wel]. by rewrite Hb.
Qed.

(** ** Commands with an address *)

Definition na_of : nat := if 0x1000000 <? size fdev then 4%nat else 3%nat.
Definition pick (quad : bool) (c3 c3q c4 c4q : Z) : Z := if 0x1000000 <? size fdev then (if quad then c4q else c4) else (if quad then c3q else c3).

Lemma send_cmd_addr_ok (quad : bool) (c3 c3q c4 c4q addr : Z) h c :
  rest h c -> pins_of (send_cmd_addr c3 c3q c4 c4q (proto quad) fdev addr h) = mk_pins false (sent false (pick quad c3 c3q c4 c4q) ++ sent_all quad (addr_bytes na_of addr)) c.
Proof.
  intros E. assert (is_quad (proto quad) = quad) as Eq by (by destruct quad). unfold send_cmd_addr, pick, na_of. rewrite Eq. destruct (0x1000000 <? size fdev).
  - pose proof (write_from false (if quad then c4q else c4) h [] c E) as E0. cbn [proto app] in E0. unfold spi_flash_write_addr_4b.
    pose proof (write_from quad (Z.land (Z.shiftr addr 24) 255) _ _ _ E0) as E1. pose proof (write_from quad (Z.land (Z.shiftr addr 16) 255) _ _ _ E1) as E2.
    pose proof (write_from quad (Z.land (Z.shiftr addr 8) 255) _ _ _ E2) as E3. rewrite (write_from quad (Z.land (Z.shiftr addr 0) 255) _ _ _ E3). f_equal. rewrite <- !app_assoc. unfold sent_all. cbn [fmap list_fmap addr_bytes seq rev app concat]. by rewrite app_nil_r.
  - pose proof (write_from false (if quad then c3q else c3) h [] c E) as E0. cbn [proto app] in E0. unfold spi_flash_write_addr.
    pose proof (write_from quad (Z.land (Z.shiftr addr 16) 255) _ _ _ E0) as E2.
    pose proof (write_from quad (Z.land (Z.shiftr addr 8) 255) _ _ _ E2) as E3. rewrite (write_from quad (Z.land (Z.shiftr addr 0) 255) _ _ _ E3). f_equal. rewrite <- !app_assoc. unfold sent_all. cbn [fmap list_fmap addr_bytes seq rev app concat]. by rewrite app_nil_r.
Qed.

(** The device the driver describes is the chip that is there. *)
Record fits c : Prop := {
  ft_size : size fdev = c_size c;
  ft_range : 0 < c_size c <= 2 ^ 32;
  ft_dummy : data_width fdev = 4 -> Z.to_nat (read_dummy_cycles fdev) = c_dummy c;
  ft_bytes : forall x, is_byte (c_mem c x);
}.
Definition quad_of : bool := data_width fdev =? 4.
Lemma proto_quad : proto_of fdev = proto quad_of.
Proof. reflexivity. Qed.

Lemma addr_fits c addr : fits c -> 0 <= addr < c_size c -> 0 <= addr < 256 ^ Z.of_nat na_of.
Proof. intros [Hs Hr _ _] Ha. unfold na_of. destruct (Z.ltb_spec 0x1000000 (size fdev)); cbn -[Z.pow]; lia. Qed.

(** *** Reading *)

Definition read_cmd (quad : bool) : Z := pick quad SPI_CMD_READ SPI_CMD_FAST_READ_QUAD_IO SPI_CMD_4B_READ SPI_CMD_4B_FAST_READ_QUAD_IO.
Lemma read_cmd_op quad : is_byte (read_cmd quad) /\ op_of (read_cmd quad) = OpRead quad na_of.
Proof. unfold read_cmd, pick, na_of. destruct (_ <? _), quad; (split; [vm_compute; split; congruence|vm_compute; reflexivity]). Qed.
Definition read_hdr (c : chip) (quad : bool) (addr : Z) : list Z := (sent false (read_cmd quad) ++ sent_all quad (addr_bytes na_of addr)) ++ replicate (if quad then c_dummy c else 0) 0.

Lemma chip_out_read c quad addr j : 0 <= addr < 256 ^ Z.of_nat na_of ->
  chip_out c (read_hdr c quad addr ++ replicate j 0) = outs quad (c_mem c ((addr + Z.of_nat (j / length (shifts quad))) mod c_size c)) j.
Proof.
  intros Ha. destruct (read_cmd_op quad) as [Hb Ho]. unfold chip_out, read_hdr. rewrite <- !app_assoc, first_command, Ho by done.
  pose proof (payload_sent quad (read_cmd quad) (addr_bytes na_of addr) (replicate (if quad then c_dummy c else 0) 0 ++ replicate j 0) (addr_bytes_ok _ _)) as Hp.
  destruct (addr_sent na_of addr (bytes_q quad (replicate (if quad then c_dummy c else 0) 0 ++ replicate j 0)) Ha) as [Ea _].
  rewrite !length_app, length_sent, length_sent_all, length_addr_bytes, !length_replicate. destruct quad; rewrite Hp, Ea; cbn [shifts length outs].
  - by replace (8 + (na_of * 2 + (c_dummy c + j)) - (8 + 2 * na_of + c_dummy c))%nat with j by lia.
  - by replace (8 + (na_of * 8 + (0 + j)) - (8 + 8 * na_of))%nat with j by lia.
Qed.

Lemma dummy_cycles_ok n : forall cyc h c, pins_of h = mk_pins false cyc c -> pins_of (dummy_cycles n fdev h) = mk_pins false (cyc ++ replicate n 0) c.
Proof.
  induction n as [|n IH]; intros cyc h c E; cbn [dummy_cycles]; [by rewrite app_nil_r|]. rewrite (IH (cyc ++ [0]) _ c); [by rewrite <- app_assoc|]. rewrite !write_pins, E. reflexivity.
Qed.

Definition bytes_at (m : Z -> Z) (addr : Z) (n : nat) : list Z := m <$> seqZ addr (Z.of_nat n).

Lemma read_bytes_ok c quad addr len : forall k h, fits c -> 0 <= addr -> addr + Z.of_nat (k + len) <= c_size c ->
  pins_of h = mk_pins false (read_hdr c quad addr ++ replicate (k * length (shifts quad)) 0) c ->
  exists h', read_bytes len (proto quad) fdev h = (bytes_at (c_mem c) (addr + Z.of_nat k) len, h') /\ pins_of h' = mk_pins false (read_hdr c quad addr ++ replicate ((k + len) * length (shifts quad)) 0) c.
Proof.
  induction len as [|len IH]; intros k h Hf Ha Hs E; cbn [read_bytes].
  - exists h. split; [done|]. by rewrite Nat.add_0_r.
  - set (n := length (shifts quad)) in *. assert (n <> 0)%nat as Hn by (by destruct quad). set (b := c_mem c (addr + Z.of_nat k)).
    destruct (read_byte_ok quad b c (read_hdr c quad addr ++ replicate (k * n) 0) h) as (h1 & E1 & E2); [by rewrite E|by rewrite E|by apply (ft_bytes _ Hf)| |].
    { intros j Hj. fold n in Hj. rewrite <- app_assoc, <- replicate_add, chip_out_read by (apply (addr_fits c); [done|lia]). fold n. rewrite Nat.div_add_l, (Nat.div_small j n), Nat.add_0_r by lia. rewrite Z.mod_small by lia. apply outs_period. fold n. apply Nat.Div0.mod_mul. }
    fold n in E2. rewrite <- app_assoc, <- replicate_add in E2. rewrite E1. destruct (IH (S k) h1) as (h2 & E3 & E4); [done|done|lia|rewrite E2; do 3 f_equal; lia|].
    rewrite E3. exists h2. split; [|rewrite E4; do 3 f_equal; lia]. f_equal. unfold bytes_at. rewrite (seqZ_cons (addr + Z.of_nat k)) by lia. cbn [fmap list_fmap]. f_equal. f_equal. f_equal; lia.
Qed.

Lemma read_ok h c addr len : rest h c -> fits c -> c_busy c = 0%nat -> 0 <= addr -> addr + Z.of_nat len <= c_size c -> addr < c_size c ->
  exists h', spi_flash_read fdev addr len h = (0, bytes_at (c_mem c) addr len, h') /\ rest h' (with_latch (c_wel c) false c).
Proof.
  intros E Hf Hb Ha Hs Hlt. unfold spi_flash_read. rewrite proto_quad. set (q := quad_of) in *.
  pose proof (send_cmd_addr_ok q SPI_CMD_READ SPI_CMD_FAST_READ_QUAD_IO SPI_CMD_4B_READ SPI_CMD_4B_FAST_READ_QUAD_IO addr h c E) as E1. fold (read_cmd q) in E1. set (h1 := send_cmd_addr _ _ _ _ _ _ _ _) in *.
  assert (pins_of (if is_quad (proto q) then dummy_cycles (Z.to_nat (read_dummy_cycles fdev)) fdev h1 else h1) = mk_pins false (read_hdr c q addr ++ replicate (0 * length (shifts q)) 0) c) as E2.
  { unfold read_hdr. rewrite app_nil_r. destruct q eqn:Eq; cbn [proto is_quad]; [|by rewrite app_nil_r]. rewrite (dummy_cycles_ok _ _ _ _ E1). rewrite (ft_dummy _ Hf); [done|]. by apply Z.eqb_eq in Eq. }
  destruct (read_bytes_ok c q addr len 0 _ Hf Ha Hs E2) as (h2 & E3 & E4). rewrite E3, Z.add_0_r. eexists. split; [reflexivity|]. unfold rest. rewrite (deselect_from _ _ _ E4). unfold read_hdr. rewrite <- !app_assoc.
  destruct (read_cmd_op q) as [Hcb Hop]. rewrite chip_end_cmd, Hb, Hop by done. reflexivity.
Qed.

(** *** Programming *)

Definition prog_cmd (quad : bool) : Z := pick quad SPI_CMD_PAGE_PROGRAM SPI_CMD_PAGE_PROGRAM_QUAD_IN_EXT SPI_CMD_4B_PAGE_PROGRAM SPI_CMD_4B_PAGE_PROGRAM_QUAD_IN_EXT.
Lemma prog_cmd_op quad : is_byte (prog_cmd quad) /\ op_of (prog_cmd quad) = OpProgram quad na_of.
Proof. unfold prog_cmd, pick, na_of. destruct (_ <? _), quad; (split; [vm_compute; split; congruence|vm_compute; reflexivity]). Qed.

(** The bytes that fit into the page of [addr]. *)
Definition in_page (addr : Z) (src : list Z) : nat := Nat.min (length src) (Z.to_nat (256 - addr mod 256)).

Lemma program_bytes_ok quad src : forall addr cyc h c, src <> [] -> 0 <= addr -> addr + Z.of_nat (length src) < 2 ^ 64 -> pins_of h = mk_pins false cyc c ->
  exists h', program_bytes (proto quad) fdev addr src h = (addr + Z.of_nat (in_page addr src), drop (in_page addr src) src, h') /\
    pins_of h' = mk_pins false (cyc ++ sent_all quad (take (in_page addr src) src)) c.
Proof.
  induction src as [|b src IH]; intros addr cyc h c Hne Ha Hb E; [done|]. cbn [program_bytes]. pose proof (write_from quad b h cyc c E) as E1. cbn [length] in Hb. rewrite (u64_id (addr + 1)) by lia.
  assert (Z.land (addr + 1) 255 = (addr + 1) mod 256) as -> by (change 255 with (Z.ones 8); by rewrite Z.land_ones by lia).
  pose proof (Z.mod_pos_bound addr 256 ltac:(lia)) as Hm. pose proof (Z.div_mod addr 256 ltac:(lia)) as Hd.
  destruct (Z.eqb_spec ((addr + 1) mod 256) 0) as [Hz|Hz].
  - assert (addr mod 256 = 255) as Hr. { destruct (decide (addr mod 256 = 255)) as [|Hn]; [done|]. rewrite Hd, <- Z.add_assoc, Z.mul_comm, Z.add_comm, Z_mod_plus_full, Z.mod_small in Hz by lia. lia. }
    assert (in_page addr (b :: src) = 1%nat) as -> by (unfold in_page; rewrite Hr; cbn [length]; lia). eexists. split; [reflexivity|]. rewrite E1. unfold sent_all. cbn. by rewrite app_nil_r.
  - assert ((addr + 1) mod 256 = addr mod 256 + 1) as Hs.
    { destruct (decide (addr mod 256 = 255)) as [Hr|Hn]; [exfalso; apply Hz; rewrite Hd, Hr, <- Z.add_assoc, Z.mul_comm, Z.add_comm, Z_mod_plus_full; done|].
      rewrite Hd at 1. rewrite <- Z.add_assoc, Z.mul_comm, Z.add_comm, Z_mod_plus_full. apply Z.mod_small. lia. }
    destruct src as [|b' src'].
    + assert (in_page addr [b] = 1%nat) as -> by (unfold in_page; cbn [length]; lia). eexists. split; [reflexivity|]. rewrite E1. unfold sent_all. cbn. by rewrite app_nil_r.
    + destruct (IH (addr + 1) (cyc ++ sent quad b) (spi_flash_write_byte fdev b (proto quad) h) c) as (h' & E2 & E3); [done|lia|lia|done|].
      assert (in_page addr (b :: b' :: src') = S (in_page (addr + 1) (b' :: src'))) as Ei by (unfold in_page; rewrite Hs; cbn [length]; lia).
      rewrite E2, Ei. exists h'. split; [do 2 f_equal; lia|]. rewrite E3, <- app_assoc. reflexivity.
Qed.

(** The memory after [src] has been programmed at [addr]: bits are cleared. *)
Definition patched (addr : Z) (src : list Z) (m : Z -> Z) (x : Z) : Z :=
  if x <? addr then m x else match src !! Z.to_nat (x - addr) with Some b => Z.land (m x) b | None => m x end.

Lemma program_patched addr data m x : 0 <= addr -> addr mod 256 + Z.of_nat (length data) <= 256 -> program addr data m x = patched addr data m x.
Proof.
  intros Ha Hl. pose proof (Z.mod_pos_bound addr 256 ltac:(lia)) as Hm. unfold program, patched. replace (length data - 256)%nat with 0%nat by lia. rewrite Z.add_0_r, drop_0.
  pose proof (Z.div_mod addr 256 ltac:(lia)) as Hda. pose proof (Z.div_mod x 256 ltac:(lia)) as Hdx. pose proof (Z.mod_pos_bound x 256 ltac:(lia)) as Hmx.
  destruct (Z.eqb_spec (x / 256) (addr / 256)) as [He|He], (Z.ltb_spec x addr) as [Hx|Hx].
  - rewrite lookup_ge_None_2; [done|]. replace ((x - addr) mod 256) with (x - addr + 256); [lia|]. apply Z.mod_unique with (-1); lia.
  - by rewrite Z.mod_small by lia.
  - done.
  - rewrite lookup_ge_None_2; [done|]. assert (addr / 256 <= x / 256) by (apply Z.div_le_mono; lia). lia.
Qed.
Lemma patched_split n addr src m x : patched (addr + Z.of_nat n) (drop n src) (patched addr (take n src) m) x = patched addr src m x.
Proof.
  unfold patched. destruct (Z.ltb_spec x addr); [by rewrite (proj2 (Z.ltb_lt _ _)) by lia|]. destruct (Z.ltb_spec x (addr + Z.of_nat n)).
  - by rewrite lookup_take_lt by lia.
  - rewrite lookup_take_ge by lia. rewrite lookup_drop. by replace (n + Z.to_nat (x - (addr + Z.of_nat n)))%nat with (Z.to_nat (x - addr)) by lia.
Qed.
Lemma patched_ext addr src m m' x : m x = m' x -> patched addr src m x = patched addr src m' x.
Proof. intros H. unfold patched. by rewrite H. Qed.

(** What a command does not change. *)
Definition same_part (c c' : chip) : Prop := c_size c' = c_size c /\ c_id c' = c_id c /\ c_delay c' = c_delay c /\ c_vconf c' = c_vconf c.
Lemma same_part_trans c1 c2 c3 : same_part c1 c2 -> same_part c2 c3 -> same_part c1 c3.
Proof. unfold same_part. intuition congruence. Qed.
Lemma fits_same c c' : fits c -> same_part c c' -> (forall x, is_byte (c_mem c' x)) -> fits c'.
Proof. intros [H1 H2 H3 H4] (E1 & E2 & E3 & E4) Hm. split; [congruence|by rewrite E1|unfold c_dummy; rewrite E4; exact H3|exact Hm]. Qed.

Lemma page_ok h c addr src : rest h c -> fits c -> c_busy c = 0%nat -> src <> [] -> Forall is_byte src -> 0 <= addr < c_size c -> addr + Z.of_nat (length src) <= c_size c ->
  let n := in_page addr src in
  exists h1 h2 h3, enable_writing fdev h = (true, h1) /\
    program_bytes (proto_of fdev) fdev addr src (send_cmd_addr SPI_CMD_PAGE_PROGRAM SPI_CMD_PAGE_PROGRAM_QUAD_IN_EXT SPI_CMD_4B_PAGE_PROGRAM SPI_CMD_4B_PAGE_PROGRAM_QUAD_IN_EXT (proto_of fdev) fdev addr h1)
      = (addr + Z.of_nat n, drop n src, h2) /\
    wait_ready (S (c_delay c)) fdev (spi_flash_deselect fdev h2) = Some h3 /\
    exists c', rest h3 c' /\ c_busy c' = 0%nat /\ same_part c c' /\ forall x, c_mem c' x = patched addr (take n src) (c_mem c) x.
Proof.
  intros E Hf Hb Hne Hby Ha Hs n. destruct (enable_writing_ok h c E Hb) as (h1 & E1 & R1). set (c1 := with_latch true false c) in *.
  pose proof (send_cmd_addr_ok quad_of SPI_CMD_PAGE_PROGRAM SPI_CMD_PAGE_PROGRAM_QUAD_IN_EXT SPI_CMD_4B_PAGE_PROGRAM SPI_CMD_4B_PAGE_PROGRAM_QUAD_IN_EXT addr h1 c1 R1) as E2. fold (prog_cmd quad_of) in E2.
  destruct (program_bytes_ok quad_of src addr _ _ _ Hne ltac:(lia) ltac:(pose proof (ft_range _ Hf); lia) E2) as (h2 & E3 & E4). fold n in E3, E4.
  pose proof (deselect_from _ _ _ E4) as R2. destruct (prog_cmd_op quad_of) as [Hcb Hop]. rewrite <- app_assoc, <- sent_all_app, chip_end_cmd, Hop in R2 by done.
  assert (payload quad_of (sent false (prog_cmd quad_of) ++ sent_all quad_of (addr_bytes na_of addr ++ take n src)) = addr_bytes na_of addr ++ take n src) as Hpay.
  { rewrite <- (app_nil_r (sent_all _ _)), payload_sent by (apply Forall_app; split; [apply addr_bytes_ok|by apply Forall_take]). replace (bytes_q quad_of []) with (@nil Z) by (by destruct quad_of). apply app_nil_r. }
  cbv zeta in R2. rewrite Hpay in R2. destruct (addr_sent na_of addr (take n src) (addr_fits c addr Hf Ha)) as [Ea Ed].
  cbn [with_latch c_busy c_wel c_mem c1] in R2. rewrite Hb, Ea, Ed in R2. cbn [Nat.eqb] in R2.
  destruct (wait_ready_ok _ _ _ R2 eq_refl) as (h3 & E5 & R3). exists h1, h2, h3. split; [done|]. split; [by rewrite proto_quad|]. split; [exact E5|]. eexists. split; [exact R3|]. split; [done|]. split; [by split_and!|].
  intros x. cbn. apply program_patched; [lia|]. rewrite length_take. unfold n, in_page. pose proof (Z.mod_pos_bound addr 256). lia.
Qed.

Lemma patched_bytes addr src m x : (forall x, is_byte (m x)) -> Forall is_byte src -> is_byte (patched addr src m x).
Proof.
  intros Hm Hs. unfold patched. destruct (x <? addr); [done|]. destruct (src !! _) as [b|] eqn:E; [|done]. pose proof (Forall_lookup_1 _ _ _ _ Hs E) as Hb. specialize (Hm x). unfold is_byte in *.
  split; [apply Z.land_nonneg; lia|]. destruct (Z.le_gt_cases (Z.land (m x) b) 0); [lia|]. apply Z.log2_lt_pow2 with (b := 8); [lia|]. pose proof (Z.log2_land (m x) b ltac:(lia) ltac:(lia)) as Hl.
  assert (Z.log2 b < 8); [|lia]. destruct (decide (b = 0)) as [->|]; [cbn; lia|]. apply Z.log2_lt_pow2; lia.
Qed.

Lemma write_loop_ok turns : forall wf h c addr src, rest h c -> fits c -> c_busy c = 0%nat -> Forall is_byte src -> 0 <= addr -> addr + Z.of_nat (length src) <= c_size c -> (length src <= turns)%nat -> (c_delay c < wf)%nat ->
  exists h' c', write_loop turns wf fdev addr src h = Some (0, h') /\ rest h' c' /\ c_busy c' = 0%nat /\ same_part c c' /\ forall x, c_mem c' x = patched addr src (c_mem c) x.
Proof.
  induction turns as [|turns IH]; intros wf h c addr src E Hf Hb Hby Ha Hs Ht Hw.
  - destruct src; [|cbn in Ht; lia]. exists (spi_flash_deselect fdev h), c. split; [done|]. split; [exact (deselect_from _ _ _ E)|]. split; [done|]. split; [by split_and!|]. intros x. unfold patched. by destruct (x <? addr).
  - destruct src as [|b src]; [exists (spi_flash_deselect fdev h), c; split; [done|]; split; [exact (deselect_from _ _ _ E)|]; split; [done|]; split; [by split_and!|]; intros x; unfold patched; by destruct (x <? addr)|].
    set (s := b :: src) in *. assert (s <> []) as Hne by done. assert (addr < c_size c) as Hlt by (unfold s in Hs; cbn [length] in Hs; lia). clearbody s.
    destruct (page_ok h c addr s E Hf Hb Hne Hby ltac:(lia) Hs) as (h1 & h2 & h3 & E1 & E2 & E3 & c1 & R1 & Hb1 & Hs1 & Hm1). set (n := in_page addr s) in *.
    assert (1 <= n <= length s)%nat as Hn. { unfold n, in_page. pose proof (Z.mod_pos_bound addr 256). destruct s; [done|]. cbn [length]. lia. }
    destruct (IH wf h3 c1 (addr + Z.of_nat n) (drop n s)) as (h' & c' & E4 & R2 & Hb2 & Hs2 & Hm2).
    { exact R1. } { apply (fits_same c); [done|done|]. intros x. rewrite Hm1. apply patched_bytes; [by apply (ft_bytes _ Hf)|by apply Forall_take]. } { done. } { by apply Forall_drop. } { lia. }
    { rewrite length_drop. destruct Hs1 as (-> & _). lia. } { rewrite length_drop. lia. } { destruct Hs1 as (_ & _ & -> & _). done. }
    exists h', c'. split; [|split; [done|split; [done|split; [by eapply same_part_trans|]]]].
    + destruct s as [|b' s']; [done|]. cbn [write_loop]. rewrite E1. cbn [negb]. rewrite E2, (wait_ready_mono _ wf _ _ E3) by lia. exact E4.
    + intros x. rewrite Hm2, (patched_ext _ _ _ _ _ (Hm1 x)). apply patched_split.
Qed.

(** *** Erasing *)

Lemma erase_cmd_op (sector : bool) :
  let cmd := pick false (if sector then SPI_CMD_SECTOR_ERASE else SPI_CMD_4KB_SUBSECTOR_ERASE) (if sector then SPI_CMD_SECTOR_ERASE else SPI_CMD_4KB_SUBSECTOR_ERASE)
                        (if sector then SPI_CMD_4B_SECTOR_ERASE else SPI_CMD_4B_4KB_SUBSECTOR_ERASE) (if sector then SPI_CMD_4B_SECTOR_ERASE else SPI_CMD_4B_4KB_SUBSECTOR_ERASE) in
  is_byte cmd /\ op_of cmd = OpErase na_of (if sector then SPI_SECTOR_SIZE else SPI_SUBSECTOR_SIZE).
Proof. unfold pick, na_of. destruct (_ <? _), sector; (split; [vm_compute; split; congruence|vm_compute; reflexivity]). Qed.

Definition erased (addr len : Z) (m : Z -> Z) (x : Z) : Z := if (addr <=? x) && (x <? addr + len) then 0xFF else m x.
Lemma erase_erased addr block m x : 0 < block -> addr mod block = 0 -> erase addr block m x = erased addr block m x.
Proof.
  intros Hb Hm. unfold erase, erased. apply Z.mod_divide in Hm as [q ->]; [|lia]. rewrite Z.div_mul by lia. pose proof (Z.div_mod x block ltac:(lia)) as Hd. pose proof (Z.mod_pos_bound x block Hb) as Hx.
  destruct (Z.eqb_spec (x / block) q) as [<-|He].
  - rewrite (proj2 (Z.leb_le _ _)), (proj2 (Z.ltb_lt _ _)) by lia. done.
  - destruct (Z.leb_spec (q * block) x), (Z.ltb_spec x (q * block + block)); try done. exfalso. apply He. symmetry. apply Z.div_unique with (x - q * block); lia.
Qed.

Lemma erase_block_ok h c addr block : rest h c -> fits c -> c_busy c = 0%nat -> block = SPI_SECTOR_SIZE \/ block = SPI_SUBSECTOR_SIZE -> addr mod block = 0 -> 0 <= addr < c_size c ->
  let sector := block =? SPI_SECTOR_SIZE in
  let c3 := if sector then SPI_CMD_SECTOR_ERASE else SPI_CMD_4KB_SUBSECTOR_ERASE in
  let c4 := if sector then SPI_CMD_4B_SECTOR_ERASE else SPI_CMD_4B_4KB_SUBSECTOR_ERASE in
  exists h1 h2, enable_writing fdev h = (true, h1) /\
    wait_ready (S (c_delay c)) fdev (spi_flash_deselect fdev (send_cmd_addr c3 c3 c4 c4 SPI_PROTO_STR fdev addr h1)) = Some h2 /\
    exists c', rest h2 c' /\ c_busy c' = 0%nat /\ same_part c c' /\ forall x, c_mem c' x = erased addr block (c_mem c) x.
Proof.
  intros E Hf Hb Hbl Hal Ha sector c3 c4. destruct (enable_writing_ok h c E Hb) as (h1 & E1 & R1). set (c1 := with_latch true false c) in *.
  pose proof (send_cmd_addr_ok false c3 c3 c4 c4 addr h1 c1 R1) as E2. cbn [proto] in E2. pose proof (deselect_from _ _ _ E2) as R2. destruct (erase_cmd_op sector) as [Hcb Hop]. fold c3 c4 in Hcb, Hop.
  assert ((if sector then SPI_SECTOR_SIZE else SPI_SUBSECTOR_SIZE) = block) as Ebl by (unfold sector; destruct Hbl as [-> | ->]; done). rewrite Ebl in Hop.
  rewrite chip_end_cmd, Hop in R2 by done. cbv zeta in R2. rewrite <- (app_nil_r (sent_all false (addr_bytes na_of addr))) in R2. rewrite payload_sent in R2 by apply addr_bytes_ok. destruct (addr_sent na_of addr (bytes_q false []) (addr_fits c addr Hf Ha)) as [Ea _].
  cbn [with_latch c_busy c_wel c_mem c1] in R2. rewrite Hb, Ea in R2. cbn [Nat.eqb] in R2.
  destruct (wait_ready_ok _ _ _ R2 eq_refl) as (h2 & E3 & R3). exists h1, h2. split; [done|]. split; [exact E3|]. eexists. split; [exact R3|]. split; [done|]. split; [by split_and!|].
  intros x. cbn. apply erase_erased; [|done]. destruct Hbl as [-> | ->]; done.
Qed.

Lemma erase_size_spec addr len : 0 <= addr -> 0 < len ->
  (erase_size addr len = 0 /\ (addr mod SPI_SUBSECTOR_SIZE <> 0 \/ len < SPI_SUBSECTOR_SIZE)) \/
  exists block, erase_size addr len = block /\ (block = SPI_SECTOR_SIZE \/ block = SPI_SUBSECTOR_SIZE) /\ addr mod block = 0 /\ block <= len.
Proof.
  intros Ha Hl. unfold erase_size. change (SPI_SECTOR_SIZE - 1) with (Z.ones 16). change (SPI_SUBSECTOR_SIZE - 1) with (Z.ones 12). rewrite !Z.land_ones by lia. change (2 ^ 16) with SPI_SECTOR_SIZE. change (2 ^ 12) with SPI_SUBSECTOR_SIZE.
  destruct (Z.eqb_spec (addr mod SPI_SECTOR_SIZE) 0), (Z.leb_spec SPI_SECTOR_SIZE len); cbn [andb]; [right; exists SPI_SECTOR_SIZE; auto| | |];
    (destruct (Z.eqb_spec (addr mod SPI_SUBSECTOR_SIZE) 0), (Z.leb_spec SPI_SUBSECTOR_SIZE len); cbn [andb]; [right; exists SPI_SUBSECTOR_SIZE; auto|left; auto..]).
Qed.

Lemma erased_split addr len block m x : 0 <= block <= len -> erased (addr + block) (len - block) (erased addr block m) x = erased addr len m x.
Proof.
  intros H. unfold erased. destruct (Z.leb_spec addr x), (Z.ltb_spec x (addr + len)), (Z.leb_spec (addr + block) x), (Z.ltb_spec x (addr + block)), (Z.ltb_spec x (addr + block + (len - block))); cbn; try done; lia.
Qed.
Lemma erased_none addr m x len : len <= 0 -> erased addr len m x = m x.
Proof. intros H. unfold erased. destruct (Z.leb_spec addr x), (Z.ltb_spec x (addr + len)); cbn; try done; lia. Qed.
Lemma erased_ext addr len m m' x : m x = m' x -> erased addr len m x = erased addr len m' x.
Proof. intros H. unfold erased. by rewrite H. Qed.

(** Whole subsectors from a subsector on are erased; what does not fill one
    is refused. *)
Lemma erase_loop_ok turns : forall wf h c addr len, rest h c -> fits c -> c_busy c = 0%nat -> 0 <= addr -> addr mod SPI_SUBSECTOR_SIZE = 0 -> 0 <= len -> addr + len <= c_size c ->
  len < Z.of_nat turns * SPI_SUBSECTOR_SIZE -> (c_delay c < wf)%nat ->
  exists h' c', erase_loop turns wf fdev addr len h = Some (if len mod SPI_SUBSECTOR_SIZE =? 0 then 0 else -1, h') /\ rest h' c' /\ c_busy c' = 0%nat /\ same_part c c' /\
    forall x, c_mem c' x = erased addr (len - len mod SPI_SUBSECTOR_SIZE) (c_mem c) x.
Proof.
  induction turns as [|turns IH]; intros wf h c addr len E Hf Hb Ha Hal Hl Hs Ht Hw; [cbn in Ht; lia|]. cbn [erase_loop]. destruct (Z.leb_spec len 0) as [Hz|Hz].
  { assert (len = 0) as -> by lia. exists (spi_flash_deselect fdev h), c. split; [done|]. split; [exact (deselect_from _ _ _ E)|]. split; [done|]. split; [by split_and!|]. intros x. by rewrite erased_none. }
  destruct (erase_size_spec addr len Ha Hz) as [[Ez [Hn|Hn]]|(block & Ez & Hbl & Hab & Hle)]; [done| |]; rewrite Ez.
  { cbn [Z.eqb]. rewrite (Z.mod_small len) by lia. rewrite (proj2 (Z.eqb_neq len 0)) by lia. exists (spi_flash_deselect fdev h), c. split; [done|]. split; [exact (deselect_from _ _ _ E)|]. split; [done|]. split; [by split_and!|]. intros x. rewrite erased_none by lia. done. }
  rewrite (proj2 (Z.eqb_neq block 0)) by (destruct Hbl as [-> | ->]; done). assert (0 < block) as Hpos by (destruct Hbl as [-> | ->]; done). assert ((SPI_SUBSECTOR_SIZE | block)) as Hdiv by (destruct Hbl as [-> | ->]; [by exists 16|by exists 1]).
  destruct (erase_block_ok h c addr block E Hf Hb Hbl Hab ltac:(lia)) as (h1 & h2 & E1 & E2 & c1 & R1 & Hb1 & Hs1 & Hm1). rewrite E1. cbn [negb]. rewrite (wait_ready_mono _ wf _ _ E2) by lia. cbn [mbind option_bind].
  destruct (Z.leb_spec len block) as [Hlb|Hlb].
  - assert (len = block) as -> by lia. rewrite (proj2 (Z.mod_divide block SPI_SUBSECTOR_SIZE ltac:(done)) Hdiv). exists (spi_flash_deselect fdev h2), c1. split; [done|]. split; [exact (deselect_from _ _ _ R1)|]. split; [done|]. split; [done|]. intros x. by rewrite Hm1, Z.sub_0_r.
  - pose proof (ft_range _ Hf) as Hr. rewrite u64_id by lia. assert ((len - block) mod SPI_SUBSECTOR_SIZE = len mod SPI_SUBSECTOR_SIZE) as Hmod by (destruct Hdiv as [q ->]; rewrite <- Zminus_mod_idemp_r, Z.mod_mul by done; by rewrite Z.sub_0_r).
    destruct (IH wf h2 c1 (addr + block) (len - block)) as (h' & c' & E3 & R2 & Hb2 & Hs2 & Hm2).
    { done. } { apply (fits_same c); [done|done|]. intros x. rewrite Hm1. unfold erased. destruct (_ && _); [done|by apply (ft_bytes _ Hf)]. } { done. } { lia. }
    { destruct Hdiv as [q ->]. by rewrite Z_mod_plus_full. } { lia. } { destruct Hs1 as (-> & _). lia. } { assert (SPI_SUBSECTOR_SIZE <= block) by (apply Z.divide_pos_le; done). lia. } { destruct Hs1 as (_ & _ & -> & _). done. }
    rewrite Hmod in E3, Hm2. exists h', c'. split; [exact E3|]. split; [done|]. split; [done|]. split; [by eapply same_part_trans|]. intros x. rewrite Hm2, (erased_ext _ _ _ _ _ (Hm1 x)).
    replace (len - block - len mod SPI_SUBSECTOR_SIZE) with (len - len mod SPI_SUBSECTOR_SIZE - block) by lia. apply erased_split. split; [lia|].
    pose proof (Z.mod_le (len - block) SPI_SUBSECTOR_SIZE ltac:(lia) ltac:(done)). lia.
Qed.

Lemma erase_refused wf h c addr len : rest h c -> 0 <= addr -> 0 < len -> addr mod SPI_SUBSECTOR_SIZE <> 0 -> exists h', spi_flash_erase wf fdev addr len h = Some (-1, h') /\ rest h' c.
Proof.
  intros E Ha Hl Hn. unfold spi_flash_erase. assert (exists n, Z.to_nat (len / SPI_SUBSECTOR_SIZE + 1) = S n) as [n ->] by (exists (Z.to_nat (len / SPI_SUBSECTOR_SIZE)); pose proof (Z.div_pos len SPI_SUBSECTOR_SIZE ltac:(lia) ltac:(done)); lia).
  cbn [erase_loop]. rewrite (proj2 (Z.leb_gt _ _)) by lia. destruct (erase_size_spec addr len Ha Hl) as [[Ez _]|(block & Ez & Hbl & Hab & _)].
  - rewrite Ez. eexists. split; [reflexivity|]. exact (deselect_from _ _ _ E).
  - exfalso. apply Hn. assert ((SPI_SUBSECTOR_SIZE | block)) as Hd by (destruct Hbl as [-> | ->]; [by exists 16|by exists 1]). assert (block <> 0) by (destruct Hbl as [-> | ->]; done). apply Z.mod_divide; [done|]. apply Z.mod_divide in Hab; [|done]. by etrans.
Qed.

(** ** The operations *)

(** Erasing. With a chip that fits the description, a request that starts
    at a subsector erases its whole subsectors, sectors and subsectors as they
    come, leaves every other byte as it was, and is refused only for what
    does not fill a subsector; one that does not start at a subsector is
    refused without effect. *)
Theorem spi_flash_erase_spec wf h c addr len :
  rest h c -> fits c -> c_busy c = 0%nat -> (c_delay c < wf)%nat -> 0 <= addr -> 0 <= len -> addr + len <= c_size c ->
  exists ret h' c', spi_flash_erase wf fdev addr len h = Some (ret, h') /\ rest h' c' /\ c_busy c' = 0%nat /\
    if addr mod SPI_SUBSECTOR_SIZE =? 0 then
      (ret = 0 <-> len mod SPI_SUBSECTOR_SIZE = 0) /\ forall x, c_mem c' x = erased addr (len - len mod SPI_SUBSECTOR_SIZE) (c_mem c) x
    else 0 < len -> ret = -1 /\ c' = c.
Proof.
  intros E Hf Hb Hw Ha Hl Hs. destruct (Z.eqb_spec (addr mod SPI_SUBSECTOR_SIZE) 0) as [Hal|Hal].
  - destruct (erase_loop_ok (Z.to_nat (len / SPI_SUBSECTOR_SIZE + 1)) wf h c addr len) as (h' & c' & E1 & R & Hb1 & _ & Hm); try done.
    { pose proof (Z.div_pos len SPI_SUBSECTOR_SIZE Hl ltac:(done)). pose proof (Z.div_mod len SPI_SUBSECTOR_SIZE ltac:(done)). pose proof (Z.mod_pos_bound len SPI_SUBSECTOR_SIZE ltac:(done)). lia. }
    eexists _, h', c'. split; [exact E1|]. split; [done|]. split; [done|]. split; [|done]. by destruct (Z.eqb_spec (len mod SPI_SUBSECTOR_SIZE) 0).
  - destruct (decide (0 < len)) as [Hp|Hp].
    + destruct (erase_refused wf h c addr len E Ha Hp Hal) as (h' & E1 & R). by exists (-1), h', c.
    + assert (len = 0) as -> by lia. exists 0, (spi_flash_deselect fdev h), c. split; [done|]. split; [exact (deselect_from _ _ _ E)|]. done.
Qed.

Lemma write_ok wf h c addr src : rest h c -> fits c -> c_busy c = 0%nat -> (c_delay c < wf)%nat -> Forall is_byte src -> 0 <= addr -> addr + Z.of_nat (length src) <= c_size c ->
  exists h' c', spi_flash_write wf fdev addr src h = Some (0, h') /\ rest h' c' /\ c_busy c' = 0%nat /\ same_part c c' /\ forall x, c_mem c' x = patched addr src (c_mem c) x.
Proof. intros. by apply write_loop_ok. Qed.

(** *** Opening *)

Lemma cmd_ok cmd h c : is_byte cmd -> pins_of h = mk_pins false [] c -> rest (spi_flash_deselect fdev (spi_flash_write_byte fdev cmd SPI_PROTO_STR h)) (chip_end c (sent false cmd)).
Proof. intros Hc E. pose proof (write_from false cmd h [] c E) as E1. exact (deselect_from _ _ _ E1). Qed.

Lemma reset_ok h clk c : pins_of h = mk_pins clk [] c -> c_busy c = 0%nat -> rest (spi_flash_reset fdev SPI_PROTO_STR h) (with_vconf 0xFB c).
Proof.
  intros E Hb. unfold spi_flash_reset. set (h0 := spi_flash_deselect fdev h). assert (pins_of h0 = mk_pins false [] c) as E0 by (unfold h0; rewrite deselect_pins, E; done).
  pose proof (cmd_ok SPI_CMD_RESET_ENABLE h0 c ltac:(done) E0) as R1. rewrite <- (app_nil_r (sent _ _)), chip_end_cmd, Hb in R1 by done. change (op_of SPI_CMD_RESET_ENABLE) with OpResetEnable in R1. cbn [Nat.eqb] in R1. cbv zeta iota in R1.
  set (h1 := dummy_read _ (dummy_read _ (spi_flash_deselect fdev (spi_flash_write_byte fdev SPI_CMD_RESET_ENABLE _ _)))). assert (rest h1 (with_latch (c_wel c) true c)) as R1' by (unfold rest, h1; rewrite !dummy_pins; exact R1).
  pose proof (cmd_ok SPI_CMD_RESET_MEMORY h1 _ ltac:(done) R1') as R2. rewrite <- (app_nil_r (sent _ _)), chip_end_cmd in R2 by done. cbn [with_latch c_busy c_reset] in R2. rewrite Hb in R2. change (op_of SPI_CMD_RESET_MEMORY) with OpReset in R2. cbn [Nat.eqb] in R2. cbv zeta iota in R2.
  unfold rest. rewrite !dummy_pins. exact R2.
Qed.

(** The three bytes of the identification. *)
Lemma read_id_ok h c k b : (k < 3)%nat -> pins_of h = mk_pins false (sent false SPI_CMD_READ_ID ++ replicate (k * 8) 0) c -> (let '(x, y, z) := c_id c in nth k [x; y; z] 0) = b -> is_byte b ->
  exists h', spi_flash_read_byte fdev SPI_PROTO_STR h = (b, h') /\ pins_of h' = mk_pins false (sent false SPI_CMD_READ_ID ++ replicate (S k * 8) 0) c.
Proof.
  intros Hk E Hn Hb. destruct (read_byte_ok false b c (sent false SPI_CMD_READ_ID ++ replicate (k * 8) 0) h) as (h' & E1 & E2); [by rewrite E|by rewrite E|done| |].
  - intros j Hj. cbn [shifts length] in Hj. rewrite <- app_assoc, <- replicate_add. unfold chip_out. rewrite first_command by done. change (op_of SPI_CMD_READ_ID) with OpId. cbn iota. rewrite length_app, length_sent, length_replicate.
    replace (8 + (k * 8 + j) - 8)%nat with (k * 8 + j)%nat by lia. rewrite Nat.div_add_l, (Nat.div_small j 8), Nat.add_0_r by lia. destruct (c_id c) as [[x y] z]. rewrite Hn. apply (outs_period false). cbn [shifts length]. apply Nat.Div0.mod_mul.
  - exists h'. split; [exact E1|]. rewrite E2. rewrite <- app_assoc, <- replicate_add. cbn [shifts length]. do 2 f_equal. f_equal. lia.
Qed.

Lemma spi_init_ok h clk c mfr type cap : pins_of h = mk_pins clk [] c -> c_busy c = 0%nat -> c_id c = (mfr, type, cap) -> Forall is_byte [mfr; type; cap] -> mfr <> 0 -> mfr <> 0xff ->
  let quad := data_width fdev =? 4 in
  exists h', spi_flash_init (Some fdev) h =
    (0, Some (mk_flash_device (ctrl_reg fdev) (u64 (Z.shiftl 1 (capacity_of cap + 6))) (data_width fdev) SPI_PAGE_SIZE SPI_SUBSECTOR_SIZE SPI_PROTO_STR (if quad then SPI_PROTO_QUAD_STR else SPI_PROTO_STR) (if quad then 10 else 0)), h') /\
    rest h' (with_vconf 0xFB c).
Proof.
  intros E Hb Hid Hby H0 H1 quad. apply Forall_cons in Hby as [B1 Hby]. apply Forall_cons in Hby as [B2 Hby]. apply Forall_cons in Hby as [B3 _]. unfold spi_flash_init. fold quad.
  pose proof (reset_ok h clk c E Hb) as R0. set (c1 := with_vconf 0xFB c) in *. assert (c_id c1 = (mfr, type, cap)) as Hid1 by exact Hid.
  pose proof (write_from false SPI_CMD_READ_ID _ [] c1 R0) as E1. cbn [proto app] in E1. assert (sent false SPI_CMD_READ_ID = sent false SPI_CMD_READ_ID ++ replicate (0 * 8) 0) as Ez by (cbn [Nat.mul replicate]; by rewrite app_nil_r). rewrite Ez in E1.
  destruct (read_id_ok _ c1 0 mfr ltac:(lia) E1) as (h1 & -> & E2); [by rewrite Hid1|done|]. destruct (read_id_ok _ c1 1 type ltac:(lia) E2) as (h2 & -> & E3); [by rewrite Hid1|done|].
  destruct (read_id_ok _ c1 2 cap ltac:(lia) E3) as (h3 & -> & E4); [by rewrite Hid1|done|]. rewrite (proj2 (Z.eqb_neq mfr 0)), (proj2 (Z.eqb_neq mfr 255)) by done. cbn [orb].
  pose proof (deselect_from _ _ _ E4) as R1. rewrite chip_end_cmd in R1 by done. change (op_of SPI_CMD_READ_ID) with OpId in R1. cbn [c1 with_vconf c_busy c_wel] in R1. rewrite Hb in R1. cbn [Nat.eqb] in R1. cbv zeta iota in R1.
  change (with_latch false false (with_vconf 0xFB c)) with (with_vconf 0xFB c) in R1. fold c1 in R1. eexists. split; [reflexivity|].
  unfold spi_flash_release.
  assert (forall h', rest h' c1 -> rest (spi_flash_deselect fdev h') c1) as Hd by (intros h' R; exact (deselect_from _ _ _ R)). apply Hd. destruct quad; [|exact R1].
  unfold spi_flash_write_volatile_config_register, write_register. pose proof (write_from false SPI_CMD_WRITE_V_CONFIG_REG _ [] c1 R1) as W1. pose proof (write_from false 0xFB _ _ _ W1) as W2. cbn [proto app] in W2.
  unfold rest. rewrite (deselect_from _ _ _ W2), chip_end_cmd by done. cbn [c1 with_vconf c_busy c_wel]. rewrite Hb. reflexivity.
Qed.
End Port.

(** ** [flash.c]: the interface to the drivers *)

Section Flash.
Context {hw : Type} `{!Mmio hw}.

Definition flash_release (fdev : option flash_device) (h : hw) : hw := match fdev with None => h | Some f => spi_flash_release f h end.

(** [ctrl]: 0 for NULL. *)
Definition flash_open_spi (width ctrl : Z) (calloc : bool) (h : hw) : option flash_device * hw :=
  if ctrl =? 0 then (None, h)
  else if negb calloc then (None, h)
  else
    let fdev := mk_flash_device ctrl 0 width 0 0 SPI_PROTO_STR SPI_PROTO_STR 0 in
    let '(ret, f, h) := spi_flash_init (Some fdev) h in
    if ret =? 0 then (f, h) else (None, flash_release f h).

(** With the SPI driver. *)
Definition flash_read (fdev : option flash_device) (addr : Z) (len : nat) (h : hw) : Z * list Z * hw :=
  match fdev with None => (-1, [], h) | Some f => spi_flash_read f addr len h end.
Definition flash_write (wf : nat) (fdev : option flash_device) (addr : Z) (src : list Z) (h : hw) : option (Z * hw) :=
  match fdev with None => Some (-1, h) | Some f => spi_flash_write wf f addr src h end.
Definition flash_erase (wf : nat) (fdev : option flash_device) (addr len : Z) (h : hw) : option (Z * hw) :=
  match fdev with None => Some (-1, h) | Some f => spi_flash_erase wf f addr len h end.
End Flash.

(** A chip that works: it answers, its size is the one it reports, and it is
    at rest. *)
Record chip_ok (c : chip) : Prop := {
  co_id : let '(mfr, type, cap) := c_id c in Forall is_byte [mfr; type; cap] /\ mfr <> 0 /\ mfr <> 0xff /\ c_size c = 2 ^ (capacity_of cap + 6);
  co_size : c_size c <= 2 ^ 32;
  co_bytes : forall x, is_byte (c_mem c x);
  co_busy : c_busy c = 0%nat;
}.

Lemma land_255 b : is_byte b -> Z.land 255 b = b.
Proof. intros Hb. apply Z.eqb_eq. revert b Hb. apply all_bytes. vm_compute. reflexivity. Qed.

(** What was programmed into erased memory is read. *)
Lemma bytes_patched m addr src : Forall is_byte src -> (forall x, addr <= x < addr + Z.of_nat (length src) -> m x = 0xFF) -> bytes_at (patched addr src m) addr (length src) = src.
Proof.
  intros Hs Hm. apply list_eq. intros i. unfold bytes_at. rewrite list_lookup_fmap. destruct (decide (i < length src)%nat) as [Hi|Hi].
  - rewrite lookup_seqZ_lt by lia. cbn [fmap option_fmap option_map]. unfold patched. rewrite (proj2 (Z.ltb_ge _ _)) by lia. replace (Z.to_nat (addr + Z.of_nat i - addr)) with i by lia.
    destruct (lookup_lt_is_Some_2 src i Hi) as [b Eb]. rewrite Eb, Hm by lia. f_equal. apply land_255. exact (Forall_lookup_1 _ _ _ _ Hs Eb).
  - rewrite lookup_seqZ_ge by lia. by rewrite lookup_ge_None_2 by lia.
Qed.

Section Update.
Context {hw : Type} `{!Mmio hw} (ctrl : Z) `{!SpiPort hw ctrl}.

(** C20: updating the flash. On a working chip behind the register, opening it
    succeeds with the size the chip reports; erasing an area of whole
    subsectors, writing [src] anywhere inside it, over any number of pages,
    and reading it back gives [src], and nothing outside the area has
    changed. Every wait ends once the chip is ready. Single and quad width. *)
Theorem flash_update_roundtrip width wf h clk c base len addr src :
  pins_of (a := ctrl) h = mk_pins clk [] c -> chip_ok c -> ctrl <> 0 -> (c_delay c < wf)%nat ->
  0 <= base -> base mod SPI_SUBSECTOR_SIZE = 0 -> len mod SPI_SUBSECTOR_SIZE = 0 -> base + len <= c_size c ->
  Forall is_byte src -> src <> [] -> base <= addr -> addr + Z.of_nat (length src) <= base + len ->
  exists fdev h1 h2 h3 h4 c',
    flash_open_spi width ctrl true h = (Some fdev, h1) /\ size fdev = c_size c /\
    flash_erase wf (Some fdev) base len h1 = Some (0, h2) /\
    flash_write wf (Some fdev) addr src h2 = Some (0, h3) /\
    flash_read (Some fdev) addr (length src) h3 = (0, src, h4) /\
    pins_of (a := ctrl) h4 = mk_pins false [] c' /\ forall x, ~ base <= x < base + len -> c_mem c' x = c_mem c x.
Proof.
  intros E [Hid Hsz Hby Hb] Hc Hw Hb0 Hba Hl Hbl Hs Hne Ha Hal. destruct (c_id c) as [[mfr type] cap] eqn:Eid. destruct Hid as (Hi & H0 & H1 & Hcap).
  set (f0 := mk_flash_device ctrl 0 width 0 0 SPI_PROTO_STR SPI_PROTO_STR 0). destruct (spi_init_ok (SpiPort0 := SpiPort0) f0 h clk c mfr type cap E Hb Eid Hi H0 H1) as (h1 & E1 & R1). set (c1 := with_vconf 0xFB c) in *.
  set (fdev := mk_flash_device _ _ _ _ _ _ _ _) in E1. assert (SpiPort hw (ctrl_reg fdev)) as P by exact SpiPort0. assert (0 < length src)%nat as Hlen by (destruct src; [done|cbn; lia]).
  assert (u64 (Z.shiftl 1 (capacity_of cap + 6)) = c_size c) as Eu.
  { assert (0 <= capacity_of cap) by (unfold capacity_of; pose proof (Z.land_nonneg cap 15); pose proof (Z.land_nonneg (Z.shiftr cap 4) 15); lia). rewrite Z.shiftl_mul_pow2, Z.mul_1_l, <- Hcap by lia. apply u64_id. rewrite Hcap. pose proof (Z.pow_pos_nonneg 2 (capacity_of cap + 6)). rewrite Hcap in Hsz. lia. }
  assert (fits fdev c1) as Hf. { split; [exact Eu|split; [cbn; lia|exact Hsz]| |exact Hby]. intros Hq. cbn in Hq. cbn [fdev read_dummy_cycles f0 data_width]. by rewrite Hq. }
  assert (0 <= len) as Hl0 by lia. destruct (erase_loop_ok (SpiPort0 := SpiPort0) fdev (Z.to_nat (len / SPI_SUBSECTOR_SIZE + 1)) wf h1 c1 base len) as (h2 & c2 & E2 & R2 & Hb2 & Hs2 & Hm2); try done.
  { pose proof (Z.div_pos len SPI_SUBSECTOR_SIZE Hl0 ltac:(done)). pose proof (Z.div_mod len SPI_SUBSECTOR_SIZE ltac:(done)). lia. }
  rewrite Hl in E2, Hm2. rewrite Z.sub_0_r in Hm2. assert (fits fdev c2) as Hf2. { apply (fits_same fdev c1); [done|done|]. intros x. rewrite Hm2. unfold erased. destruct (_ && _); [done|apply Hby]. }
  pose proof Hs2 as (Hsz2 & _ & Hdel2 & _). destruct (write_ok (SpiPort0 := SpiPort0) fdev wf h2 c2 addr src R2 Hf2 Hb2) as (h3 & c3 & E3 & R3 & Hb3 & Hs3 & Hm3); [by rewrite Hdel2|done|lia|rewrite Hsz2; cbn; lia|].
  assert (fits fdev c3) as Hf3. { apply (fits_same fdev c2); [done|done|]. intros x. rewrite Hm3. apply patched_bytes; [by apply (ft_bytes _ _ Hf2)|done]. }
  pose proof Hs3 as (Hsz3 & _). destruct (read_ok (SpiPort0 := SpiPort0) fdev h3 c3 addr (length src) R3 Hf3 Hb3) as (h4 & E4 & R4); [lia|rewrite Hsz3, Hsz2; cbn; lia|rewrite Hsz3, Hsz2; cbn; lia|].
  eexists fdev, h1, h2, h3, h4, _. split. { unfold flash_open_spi. rewrite (proj2 (Z.eqb_neq ctrl 0)) by done. cbn [negb]. fold f0. rewrite E1. reflexivity. }
  split; [exact Eu|]. split; [exact E2|]. split; [exact E3|]. split.
  - unfold flash_read. rewrite E4. do 2 f_equal. rewrite <- (bytes_patched (c_mem c2) addr src Hs) at 2; [|intros x Hx; rewrite Hm2; unfold erased; by rewrite (proj2 (Z.leb_le _ _)), (proj2 (Z.ltb_lt _ _)) by lia].
    unfold bytes_at. apply list_fmap_ext. intros i x _. apply Hm3.
  - split; [exact R4|]. intros x Hx. cbn. rewrite Hm3. unfold patched. assert (c_mem c2 x = c_mem c x) as Ec. { rewrite Hm2. unfold erased. destruct (Z.leb_spec base x), (Z.ltb_spec x (base + len)); cbn; try done. lia. }
    destruct (Z.ltb_spec x addr); [done|]. rewrite lookup_ge_None_2 by lia. done.
Qed.
End Update.

(** ** An example *)

(** The register and the chip, with nothing in between. Reading shows the
    driven lines. *)
#[export] Instance pins_mmio : Mmio pins := {
  ioread32 _ p := ((chip_out (p_chip p) (p_cycles p)).2, p);
  iowrite32 v _ p := pin_step v p;
}.
Lemma driven_lines c cyc : let '(mask, d) := chip_out c cyc in Z.land (chip_out c cyc).2 mask = d.
Proof.
  assert (Z.land (chip_out c cyc).2 (chip_out c cyc).1 = (chip_out c cyc).2) as H; [|by destruct (chip_out c cyc)].
  assert (forall b k, Z.land (out1 b k).2 (out1 b k).1 = (out1 b k).2) as H1 by (intros b k; unfold out1; cbn; by destruct (Z.testbit _ _)).
  assert (forall b k, Z.land (out4 b k).2 (out4 b k).1 = (out4 b k).2) as H4 by (intros b k; unfold out4; cbn [fst snd]; change 15 with (Z.ones 4); rewrite Z.land_ones by lia; apply Z.mod_mod; lia).
  unfold chip_out. destruct (op_of _) as [[] na| | | | | | | | | |]; try done; try apply H1; try apply H4. destruct (c_id c) as [[x y] z]. apply H1.
Qed.
#[export] Instance pins_port a : SpiPort pins a := {
  pins_of p := p;
  pins_write v h := eq_refl;
  pins_read h := eq_refl;
  pins_lines h _ := driven_lines (p_chip h) (p_cycles h);
}.

(** 128 KB, all bytes zero, two polls per operation. *)
Definition chip0 : chip := mk_chip (fun _ => 0) (2 ^ 17) (0x20, 0xBA, 0x11) false 0 2 false 0xFB.
Lemma chip0_ok : chip_ok chip0.
Proof. split; [split_and!; try done; repeat constructor; done|done|done|done]. Qed.

(** Four bytes over the end of a page, on one line and on four. *)
Lemma flash_update_roundtrip_witness :
  (exists fdev h1 h2 h3 h4 c', flash_open_spi 1 8 true (mk_pins false [] chip0) = (Some fdev, h1) /\ size fdev = 2 ^ 17 /\ flash_erase 5 (Some fdev) 0x1000 0x1000 h1 = Some (0, h2) /\
     flash_write 5 (Some fdev) 0x10FE [1; 2; 3; 4] h2 = Some (0, h3) /\ flash_read (Some fdev) 0x10FE 4 h3 = (0, [1; 2; 3; 4], h4) /\ h4 = mk_pins false [] c' /\ forall x, ~ 0x1000 <= x < 0x2000 -> c_mem c' x = 0) /\
  (exists fdev h1 h2 h3 h4 c', flash_open_spi 4 8 true (mk_pins true [] chip0) = (Some fdev, h1) /\ size fdev = 2 ^ 17 /\ flash_erase 5 (Some fdev) 0x1000 0x1000 h1 = Some (0, h2) /\
     flash_write 5 (Some fdev) 0x10FE [1; 2; 3; 4] h2 = Some (0, h3) /\ flash_read (Some fdev) 0x10FE 4 h3 = (0, [1; 2; 3; 4], h4) /\ h4 = mk_pins false [] c' /\ forall x, ~ 0x1000 <= x < 0x2000 -> c_mem c' x = 0).
Proof.
  assert (Forall is_byte [1; 2; 3; 4]) as Hb by (repeat constructor; done).
  split; [exact (flash_update_roundtrip 8 1 5 (mk_pins false [] chip0) false chip0 0x1000 0x1000 0x10FE [1; 2; 3; 4] eq_refl chip0_ok ltac:(done) ltac:(cbn; lia) ltac:(done) eq_refl eq_refl ltac:(cbn; lia) Hb ltac:(done) ltac:(done) ltac:(cbn; lia))
         |exact (flash_update_roundtrip 8 4 5 (mk_pins true [] chip0) true chip0 0x1000 0x1000 0x10FE [1; 2; 3; 4] eq_refl chip0_ok ltac:(done) ltac:(cbn; lia) ltac:(done) eq_refl eq_refl ltac:(cbn; lia) Hb ltac:(done) ltac:(done) ltac:(cbn; lia))].
Defined.

(** The description [flash_open_spi] makes of the chip. *)
Definition fdev1 : flash_device := mk_flash_device 8 (2 ^ 17) 1 SPI_PAGE_SIZE SPI_SUBSECTOR_SIZE SPI_PROTO_STR SPI_PROTO_STR 0.
Lemma fdev1_fits : fits fdev1 chip0.
Proof. by split. Qed.
(** A subsector and a half: the subsector is erased, the rest refused. *)
Lemma spi_flash_erase_spec_witness : exists h c, spi_flash_erase 5 fdev1 0x1000 0x1800 (mk_pins false [] chip0) = Some (-1, h) /\ rest fdev1 h c /\ c_mem c 0x1FFF = 0xFF /\ c_mem c 0x2000 = 0.
Proof.
  assert (rest fdev1 (mk_pins false [] chip0) chip0) as R0 by reflexivity.
  destruct (spi_flash_erase_spec fdev1 5 (mk_pins false [] chip0) chip0 0x1000 0x1800 R0 fdev1_fits eq_refl ltac:(cbn; lia) ltac:(done) ltac:(done) ltac:(cbn; lia)) as (ret & h & c & E & R & _ & H).
  change (0x1000 mod SPI_SUBSECTOR_SIZE =? 0) with true in H. cbn iota in H. destruct H as [_ Hm]. exists h, c. split; [|split; [exact R|split; [rewrite Hm; vm_compute; reflexivity|rewrite Hm; vm_compute; reflexivity]]].
  assert ((fun x => x.1) <$> spi_flash_erase 5 fdev1 0x1000 0x1800 (mk_pins false [] chip0) = Some (-1)) as Hv by (vm_compute; reflexivity). rewrite E in Hv |- *. cbn in Hv. by injection Hv as ->.
Defined.
